(** * The Chosen select widget: option model and selection controller

    A shallow embedding of the Chosen v1.7.0 code bundled in
    [js_dqsBnWPkfhMvNCshKs7lKRSLygtgnPeSFxL5_pFtc0A.js]: the option parser
    ([SelectParser]), the text helpers it relies on, and the
    [AbstractChosen] / [Chosen] controller operations that filter, render
    and select entries; and of the Drupal behaviours of the same file:
    the selection of table rows, sticky table headers, responsive tables
    and the attachment of Chosen to select elements.

    Conventions of the embedding.
    - JavaScript strings are [string]s of ASCII characters.  Characters
      above 127 are carried through unchanged: they have no case and are
      neither white space nor word characters.
    - A JavaScript value that the code only tests for truthiness is a
      [bool]; [undefined] / [null] in a field that the code compares with
      [null] is [None].
    - An operation that would raise a [TypeError] (a property read or
      write on [undefined]) returns [None].
    - DOM writes that no modelled operation reads back (CSS classes of the
      container, focus, geometry) are left out. *)

From Stdlib Require Import String Ascii ZArith Bool Lia.
From stdpp Require Import base option list.

#[local] Set Warnings "-register-all".

#[local] Open Scope string_scope.

(** ** JavaScript text primitives *)

Module Text.

Definition code (c : ascii) : nat := nat_of_ascii c.

Definition between (lo hi : nat) (c : ascii) : bool :=
  Nat.leb lo (code c) && Nat.leb (code c) hi.

Definition is_upper : ascii -> bool := between 65 90.
Definition is_lower : ascii -> bool := between 97 122.
Definition is_digit : ascii -> bool := between 48 57.

Definition is_alnum (c : ascii) : bool :=
  is_upper c || is_lower c || is_digit c.

(** The class [\w]. *)
Definition is_word_char (c : ascii) : bool :=
  is_alnum c || Ascii.eqb c "_".

(** The class [\s], restricted to ASCII: TAB, LF, VT, FF, CR, SPACE. *)
Definition is_space (c : ascii) : bool :=
  between 9 13 c || Ascii.eqb c " ".

Definition to_upper (c : ascii) : ascii :=
  if is_lower c then ascii_of_nat (code c - 32) else c.

Fixpoint drop_spaces (s : string) : string :=
  match s with
  | String c rest => if is_space c then drop_spaces rest else s
  | EmptyString => EmptyString
  end.

Fixpoint rev_string (s : string) (acc : string) : string :=
  match s with
  | String c rest => rev_string rest (String c acc)
  | EmptyString => acc
  end.

(** [jQuery.trim]. *)
Definition trim (s : string) : string :=
  rev_string (drop_spaces (rev_string (drop_spaces s) "")) "".

(** [str.replace(re, f)] for a global pattern that matches single
    characters independently of their context. *)
Fixpoint replace_chars (f : ascii -> option string) (s : string) : string :=
  match s with
  | String c rest =>
      match f c with
      | Some r => r ++ replace_chars f rest
      | None => String c (replace_chars f rest)
      end
  | EmptyString => EmptyString
  end.

(** [$("<div/>").text(s).html()]: the serialisation of a text node. *)
Definition html_entity (c : ascii) : option string :=
  if Ascii.eqb c "&" then Some "&amp;"
  else if Ascii.eqb c "<" then Some "&lt;"
  else if Ascii.eqb c ">" then Some "&gt;"
  else None.

Definition escape_html (s : string) : string := replace_chars html_entity s.

Fixpoint mem_char (c : ascii) (set : string) : bool :=
  match set with
  | String d rest => Ascii.eqb c d || mem_char c rest
  | EmptyString => false
  end.

(** The characters of the class [[-[\]{}()*+?.,\\^$|#\s]] other than
    white space. *)
Definition regex_specials : string := "-[]{}()*+?.,\^$|#".

Definition is_regex_special (c : ascii) : bool :=
  mem_char c regex_specials || is_space c.

(** [g.replace(/[-[\]{}()*+?.,\\^$|#\s]/g, "\\$&")]. *)
Definition escape_regex (g : string) : string :=
  replace_chars
    (fun c => if is_regex_special c then Some (String "\" (String c "")) else None) g.

(** [a.replace(/\[|\]/g, "")]. *)
Definition strip_brackets (a : string) : string :=
  replace_chars
    (fun c => if Ascii.eqb c "[" || Ascii.eqb c "]" then Some "" else None) a.

(** [a.split(" ")]; the result is never empty. *)
Fixpoint split_space (a : string) : list string :=
  match a with
  | String c rest =>
      if Ascii.eqb c " " then "" :: split_space rest
      else match split_space rest with
           | tok :: toks => String c tok :: toks
           | [] => [String c ""]
           end
  | EmptyString => [""]
  end.

(** [a.indexOf(" ") >= 0]. *)
Definition has_space (a : string) : bool := mem_char " " a.

(** [0 === a.indexOf("[")]. *)
Definition starts_with_bracket (a : string) : bool :=
  match a with
  | String c _ => Ascii.eqb c "["
  | EmptyString => false
  end.

Definition zlength (s : string) : Z := Z.of_nat (String.length s).

(** [s.substr(start, len)]; [len = None] is the one-argument call. *)
Definition substr (s : string) (start : Z) (len : option Z) : string :=
  let size := zlength s in
  let st := if (start <? 0)%Z then Z.max (size + start) 0 else Z.min start size in
  let ln := match len with
            | Some l => Z.min (Z.max l 0) size
            | None => size
            end in
  let en := Z.min (st + ln) size in
  if (en <=? st)%Z then ""
  else String.substring (Z.to_nat st) (Z.to_nat (en - st)) s.

(** *** Regular expressions

    The widget only ever compiles patterns of one shape: an optional
    assertion ([^] or [\b]) followed by the escaped query, in which every
    syntax character is preceded by a backslash.  [compile] reads exactly
    that fragment of the pattern language; a source outside of it does not
    compile and matches nothing. *)

Record RegExp := mkRegExp { source : string; flags : string }.

Inductive atom :=
| AStart                 (* ^ *)
| AWordBoundary          (* \b *)
| AChar (c : ascii).     (* a literal character, possibly escaped *)

Definition syntax_chars : string := "^$\.*+?()[]{}|".

Fixpoint compile (src : string) : option (list atom) :=
  match src with
  | EmptyString => Some []
  | String c rest =>
      if Ascii.eqb c "\" then
        match rest with
        | String d rest' =>
            if Ascii.eqb d "b" then cons AWordBoundary <$> compile rest'
            else if is_alnum d then None
            else cons (AChar d) <$> compile rest'
        | EmptyString => None
        end
      else if Ascii.eqb c "^" then cons AStart <$> compile rest
      else if mem_char c syntax_chars then None
      else cons (AChar c) <$> compile rest
  end.

Definition ignore_case (r : RegExp) : bool := mem_char "i" (flags r).

Definition char_matches (ic : bool) (c d : ascii) : bool :=
  if ic then Ascii.eqb (to_upper c) (to_upper d) else Ascii.eqb c d.

Definition word_before (prev : option ascii) : bool :=
  match prev with Some c => is_word_char c | None => false end.

Definition word_here (s : string) : bool :=
  match s with String c _ => is_word_char c | EmptyString => false end.

(** Does the atom sequence match a prefix of [s]?  [prev] is the
    character before the current position, [None] at the string start. *)
Fixpoint match_here (ic : bool) (atoms : list atom)
         (prev : option ascii) (s : string) : bool :=
  match atoms with
  | [] => true
  | AStart :: atoms' =>
      match prev with
      | None => match_here ic atoms' prev s
      | Some _ => false
      end
  | AWordBoundary :: atoms' =>
      xorb (word_before prev) (word_here s) && match_here ic atoms' prev s
  | AChar c :: atoms' =>
      match s with
      | String d rest => char_matches ic c d && match_here ic atoms' (Some d) rest
      | EmptyString => false
      end
  end.

(** Leftmost match position, scanning from position [i]. *)
Fixpoint search_from (ic : bool) (atoms : list atom)
         (prev : option ascii) (s : string) (i : nat) : option nat :=
  if match_here ic atoms prev s then Some i
  else match s with
       | String d rest => search_from ic atoms (Some d) rest (S i)
       | EmptyString => None
       end.

Definition exec (r : RegExp) (s : string) : option nat :=
  match compile (source r) with
  | Some atoms => search_from (ignore_case r) atoms None s 0
  | None => None
  end.

(** [re.test(s)]. *)
Definition test (r : RegExp) (s : string) : bool :=
  match exec r s with Some _ => true | None => false end.

(** [s.search(re)]. *)
Definition search (s : string) (r : RegExp) : Z :=
  match exec r s with Some i => Z.of_nat i | None => (-1)%Z end.

End Text.

(** ** The host control *)

Module Dom.

(** A DOM node under the host [<select>]: the properties the widget
    reads, and the child nodes. *)
Inductive Node := mkNode {
  nodeName : string;
  text : string;
  value : string;
  innerHTML : string;
  title : string;
  selected : bool;
  disabled : bool;
  className : string;
  cssText : string;           (* style.cssText *)
  label : string;
  childNodes : list Node }.

(** The host [<select>] element ([form_field]). *)
Record Select := mkSelect {
  multiple : bool;
  data_placeholder : option string;
  data_no_results_text : option string;
  select_childNodes : list Node }.

(** [s.toUpperCase()]. *)
Fixpoint toUpperCase (s : string) : string :=
  match s with
  | String c rest => String (Text.to_upper c) (toUpperCase rest)
  | EmptyString => EmptyString
  end.

Definition is_element (name : string) (n : Node) : bool :=
  String.eqb name (toUpperCase (nodeName n)).

(** [select.options]: the option children of the select and of its
    optgroup children, in tree order. *)
Definition options_of_node (n : Node) : list Node :=
  if is_element "OPTGROUP" n then List.filter (is_element "OPTION") (childNodes n)
  else if is_element "OPTION" n then [n]
  else [].

Definition options (f : Select) : list Node :=
  flat_map options_of_node (select_childNodes f).

Definition set_selected (b : bool) (n : Node) : Node :=
  mkNode (nodeName n) (text n) (value n) (innerHTML n) (title n) b
         (disabled n) (className n) (cssText n) (label n) (childNodes n).

Definition set_childNodes (l : list Node) (n : Node) : Node :=
  mkNode (nodeName n) (text n) (value n) (innerHTML n) (title n) (selected n)
         (disabled n) (className n) (cssText n) (label n) l.

(** Apply [g] to every option of a node list, numbering the options
    from [i] in tree order; returns the next free number. *)
Fixpoint map_option_children (g : nat -> Node -> Node) (i : nat)
         (l : list Node) : nat * list Node :=
  match l with
  | [] => (i, [])
  | c :: rest =>
      if is_element "OPTION" c then
        let '(j, rest') := map_option_children g (S i) rest in (j, g i c :: rest')
      else
        let '(j, rest') := map_option_children g i rest in (j, c :: rest')
  end.

Fixpoint map_options_from (g : nat -> Node -> Node) (i : nat)
         (l : list Node) : list Node :=
  match l with
  | [] => []
  | n :: rest =>
      if is_element "OPTGROUP" n then
        let '(j, cs) := map_option_children g i (childNodes n) in
        set_childNodes cs n :: map_options_from g j rest
      else if is_element "OPTION" n then
        g i n :: map_options_from g (S i) rest
      else n :: map_options_from g i rest
  end.

(** [select.options[i].selected = b].  In a single-valued select the
    browser clears every other option when one is set.  The write fails
    when there is no option [i]. *)
Definition write_selected (i : nat) (b : bool) (f : Select) : option Select :=
  match options f !! i with
  | None => None
  | Some _ =>
      let g := fun j o =>
                 if Nat.eqb j i then set_selected b o
                 else if b && negb (multiple f) then set_selected false o
                 else o in
      Some (mkSelect (multiple f) (data_placeholder f) (data_no_results_text f)
                     (map_options_from g 0 (select_childNodes f)))
  end.

(** [select.selectedIndex]. *)
Fixpoint first_selected (l : list Node) (i : Z) : Z :=
  match l with
  | [] => (-1)%Z
  | o :: rest => if selected o then i else first_selected rest (i + 1)%Z
  end.

Definition selectedIndex (f : Select) : Z := first_selected (options f) 0%Z.

End Dom.

(** ** SelectParser: the option model *)

Module SelectParser.

(** One entry of [parsed] / [results_data].  Group records, option
    records and empty-option records share the object shape; a field an
    object does not carry holds its [undefined] reading.  The last four
    fields are the ones [winnow_results] adds.  [children] and
    [active_options] are [None] when the field is [undefined] or [NaN]
    (the two behave alike under [+= 1], [=== 0] and [> 0]). *)
Record item := mkItem {
  array_index : nat;
  group : bool;
  label : string;
  title : option string;
  children : option nat;
  disabled : bool;
  classes : string;
  options_index : option nat;
  value : string;
  text : string;
  html : string;
  selected : bool;
  group_array_index : option nat;
  group_label : option string;
  style : string;
  empty : bool;
  search_match : bool;
  group_match : bool;
  active_options : option nat;
  search_text : string }.

Definition dquote : ascii := ascii_of_nat 34.

(** The table [{"<": "&lt;", ">": "&gt;", ...}] of [escapeExpression]. *)
Definition entity_map (c : ascii) : option string :=
  if Ascii.eqb c "<" then Some "&lt;"
  else if Ascii.eqb c ">" then Some "&gt;"
  else if Ascii.eqb c dquote then Some "&quot;"
  else if Ascii.eqb c "'" then Some "&#x27;"
  else if Ascii.eqb c "`" then Some "&#x60;"
  else None.

(** The class of [escapeExpression]'s guard: the ampersand and the five
    characters of the entity table. *)
Definition is_html_special (c : ascii) : bool :=
  Ascii.eqb c "&" || match entity_map c with Some _ => true | None => false end.

Fixpoint has_html_special (a : string) : bool :=
  match a with
  | String c rest => is_html_special c || has_html_special rest
  | EmptyString => false
  end.

(** The rest of [\w+;] once a word character has been read. *)
Fixpoint entity_tail (s : string) : bool :=
  match s with
  | String c rest =>
      if Ascii.eqb c ";" then true
      else if Text.is_word_char c then entity_tail rest
      else false
  | EmptyString => false
  end.

(** The look-ahead [\w+;]. *)
Definition entity_ahead (s : string) : bool :=
  match s with
  | String c rest => Text.is_word_char c && entity_tail rest
  | EmptyString => false
  end.

(** The global replace of [escapeExpression]: an ampersand that is not
    followed by [\w+;] and every character of the entity table are
    replaced, by the table's entry or else by the ampersand entity. *)
Fixpoint replace_entities (a : string) : string :=
  match a with
  | String c rest =>
      if Ascii.eqb c "&" then
        if entity_ahead rest then String c (replace_entities rest)
        else "&amp;" ++ replace_entities rest
      else match entity_map c with
           | Some e => e ++ replace_entities rest
           | None => String c (replace_entities rest)
           end
  | EmptyString => EmptyString
  end.

(** [escapeExpression]; [None] stands for [null], [undefined] and
    [false]. *)
Definition escapeExpression (a : option string) : string :=
  match a with
  | None => ""
  | Some s => if has_html_special s then replace_entities s else s
  end.

Record parser := mkParser {
  parser_options_index : nat;        (* this.options_index *)
  parsed : list item }.

(** [a.title ? a.title : void 0]. *)
Definition title_of (t : string) : option string :=
  if String.eqb t "" then None else Some t.

Definition group_item (b : nat) (a : Dom.Node) : item :=
  {| array_index := b; group := true;
     label := escapeExpression (Some (Dom.label a));
     title := title_of (Dom.title a); children := Some 0;
     disabled := Dom.disabled a; classes := Dom.className a;
     options_index := None; value := ""; text := ""; html := "";
     selected := false; group_array_index := None; group_label := None;
     style := ""; empty := false; search_match := false;
     group_match := false; active_options := None; search_text := "" |}.

Definition option_item (n oi : nat) (a : Dom.Node) (b : option nat)
           (glabel : option string) (dis : bool) : item :=
  {| array_index := n; group := false; label := ""; title := title_of (Dom.title a);
     children := None; disabled := dis; classes := Dom.className a;
     options_index := Some oi; value := Dom.value a; text := Dom.text a;
     html := Dom.innerHTML a; selected := Dom.selected a;
     group_array_index := b; group_label := glabel;
     style := Dom.cssText a; empty := false; search_match := false;
     group_match := false; active_options := None; search_text := "" |}.

Definition empty_item (n oi : nat) : item :=
  {| array_index := n; group := false; label := ""; title := None;
     children := None; disabled := false; classes := "";
     options_index := Some oi; value := ""; text := ""; html := "";
     selected := false; group_array_index := None; group_label := None;
     style := ""; empty := true; search_match := false;
     group_match := false; active_options := None; search_text := "" |}.

Definition set_children (v : option nat) (c : item) : item :=
  mkItem (array_index c) (group c) (label c) (title c) v (disabled c)
         (classes c) (options_index c) (value c) (text c) (html c)
         (selected c) (group_array_index c) (group_label c) (style c)
         (empty c) (search_match c) (group_match c) (active_options c)
         (search_text c).

(** [x += 1] on a numeric field. *)
Definition incr (v : option nat) : option nat := S <$> v.

(** [add_option(a, b, c)]: [b] is the group's array index, [c] the
    group's disabled flag; both are [None] for a top-level node. *)
Definition add_option (a : Dom.Node) (b : option nat) (c : option bool)
           (p : parser) : option parser :=
  if Dom.is_element "OPTION" a then
    if negb (String.eqb (Dom.text a) "") then
      match b with
      | Some gi =>
          (* this.parsed[b].children += 1, then the group label is read *)
          g ← parsed p !! gi;
          let l := alter (fun g => set_children (incr (children g)) g) gi (parsed p) in
          let dis := match c with Some true => true | _ => Dom.disabled a end in
          Some (mkParser (S (parser_options_index p))
                  (l ++ [option_item (length l) (parser_options_index p) a b
                                     (Some (label g)) dis]))
      | None =>
          let dis := match c with Some true => true | _ => Dom.disabled a end in
          Some (mkParser (S (parser_options_index p))
                  (parsed p ++ [option_item (length (parsed p)) (parser_options_index p)
                                            a None None dis]))
      end
    else
      Some (mkParser (S (parser_options_index p))
              (parsed p ++ [empty_item (length (parsed p)) (parser_options_index p)]))
  else Some p.

Fixpoint add_options (l : list Dom.Node) (b : option nat) (c : option bool)
         (p : parser) : option parser :=
  match l with
  | [] => Some p
  | a :: rest => p' ← add_option a b c p; add_options rest b c p'
  end.

Definition add_group (a : Dom.Node) (p : parser) : option parser :=
  let b := length (parsed p) in
  add_options (Dom.childNodes a) (Some b) (Some (Dom.disabled a))
    (mkParser (parser_options_index p) (parsed p ++ [group_item b a])).

Definition add_node (a : Dom.Node) (p : parser) : option parser :=
  if Dom.is_element "OPTGROUP" a then add_group a p else add_option a None None p.

Fixpoint add_nodes (l : list Dom.Node) (p : parser) : option parser :=
  match l with
  | [] => Some p
  | a :: rest => p' ← add_node a p; add_nodes rest p'
  end.

Definition select_to_array (f : Dom.Select) : option (list item) :=
  parsed <$> add_nodes (Dom.select_childNodes f) (mkParser 0 []).

End SelectParser.

(** ** AbstractChosen and Chosen: the selection controller *)

Module Chosen.

Import SelectParser.

(** A JavaScript number that is an integer or [Infinity]: the two limits
    of the configuration are counts. *)
Inductive jsnum := Num (z : Z) | Infinity.

(** [a <= n] and [n >= a] for a count [n]. *)
Definition num_le_count (a : jsnum) (n : nat) : bool :=
  match a with
  | Num z => (z <=? Z.of_nat n)%Z
  | Infinity => false
  end.

(** The host-supplied options object; [None] is an absent key. *)
Record Options := mkOptions {
  opt_enable_split_word_search : option bool;
  opt_group_search : option bool;
  opt_search_contains : option bool;
  opt_max_selected_options : option Z;
  opt_display_selected_options : option bool;
  opt_display_disabled_options : option bool;
  opt_include_group_label_in_selected : option bool;
  opt_max_shown_results : option Z;
  opt_case_sensitive_search : option bool;
  opt_hide_results_on_select : option bool;
  opt_placeholder_text_multiple : option string;
  opt_placeholder_text_single : option string;
  opt_placeholder_text : option string;
  opt_no_results_text : option string }.

(** The values [set_default_values] stores on the widget. *)
Record Config := mkConfig {
  enable_split_word_search : bool;
  group_search : bool;
  search_contains : bool;
  max_selected_options : jsnum;
  display_selected_options : bool;
  display_disabled_options : bool;
  include_group_label_in_selected : bool;
  max_shown_results : jsnum;
  case_sensitive_search : bool;
  hide_results_on_select : bool }.

(** [null != x ? x : true]. *)
Definition default_true (x : option bool) : bool := default true x.

(** [x || false]. *)
Definition or_false (x : option bool) : bool := default false x.

(** [x || Infinity]: zero is falsy. *)
Definition or_infinity (x : option Z) : jsnum :=
  match x with
  | Some z => if (z =? 0)%Z then Infinity else Num z
  | None => Infinity
  end.

Definition set_default_values (o : Options) : Config :=
  {| enable_split_word_search := default_true (opt_enable_split_word_search o);
     group_search := default_true (opt_group_search o);
     search_contains := or_false (opt_search_contains o);
     max_selected_options := or_infinity (opt_max_selected_options o);
     display_selected_options := default_true (opt_display_selected_options o);
     display_disabled_options := default_true (opt_display_disabled_options o);
     include_group_label_in_selected := or_false (opt_include_group_label_in_selected o);
     max_shown_results := or_infinity (opt_max_shown_results o);
     case_sensitive_search := or_false (opt_case_sensitive_search o);
     hide_results_on_select := default_true (opt_hide_results_on_select o) |}.

(** [a || b] on strings: the empty string is falsy. *)
Definition str_or (a : option string) (b : string) : string :=
  match a with
  | Some s => if String.eqb s "" then b else s
  | None => b
  end.

Definition default_multiple_text : string := "Select Some Options".
Definition default_single_text : string := "Select an Option".
Definition default_no_result_text : string := "No results match".

(** The CSS classes the widget puts on result entries.  The class string
    of the host element is carried as one token of its own: it is taken
    not to contain a class name of the widget. *)
Inductive css_class :=
| cls_active_result | cls_disabled_result | cls_result_selected | cls_group_option
| cls_group_result | cls_highlighted | cls_no_results
| host_classes (s : string).

Definition css_class_eqb (a b : css_class) : bool :=
  match a, b with
  | cls_active_result, cls_active_result | cls_disabled_result, cls_disabled_result
  | cls_result_selected, cls_result_selected | cls_group_option, cls_group_option
  | cls_group_result, cls_group_result | cls_highlighted, cls_highlighted
  | cls_no_results, cls_no_results => true
  | host_classes s, host_classes t => String.eqb s t
  | _, _ => false
  end.

(** A rendered [<li>] of the results list. *)
Record li := mkLi {
  li_classes : list css_class;
  li_data_index : option nat;       (* data-option-array-index *)
  li_html : string;
  li_title : option string;
  li_style : string }.

Definition hasClass (k : css_class) (e : li) : bool :=
  existsb (css_class_eqb k) (li_classes e).

Definition set_classes (l : list css_class) (e : li) : li :=
  mkLi l (li_data_index e) (li_html e) (li_title e) (li_style e).

Definition addClass (k : css_class) (e : li) : li :=
  if hasClass k e then e else set_classes (li_classes e ++ [k]) e.

Definition removeClass (k : css_class) (e : li) : li :=
  set_classes (List.filter (fun k' => negb (css_class_eqb k k')) (li_classes e)) e.

(** A [<li class="search-choice">] of a multiple select; the close link
    is absent on a disabled choice. *)
Record choice := mkChoice {
  choice_html : string;
  choice_disabled : bool;
  choice_close_index : option nat }.

Inductive payload :=
| no_data
| selected_value (v : string)
| deselected_value (v : string).

(** Events triggered on the host control. *)
Inductive event :=
| chosen_ready | chosen_maxselected | chosen_showing_dropdown
| chosen_hiding_dropdown | chosen_no_results
| input_event (p : payload) | change_event (p : payload).

(** The key or pointer event handed to [result_select]. *)
Record dom_event := mkEvent { metaKey : bool; ctrlKey : bool }.

(** The widget instance ([this]). *)
Record t := mkChosen {
  config : Config;
  is_multiple : bool;
  default_text : string;
  results_none_found : string;
  form_field : Dom.Select;
  results_data : list item;
  selected_option_count : option nat;
  result_highlight : option nat;      (* position of the entry in search_results *)
  results_showing : bool;
  active_field : bool;
  search_field_val : string;
  search_results : list li;
  search_choices : list choice;
  selected_item_html : string;
  current_selectedIndex : Z;
  triggered : list event }.

Definition set_form_field v (s : t) : t :=
  mkChosen (config s) (is_multiple s) (default_text s) (results_none_found s)
    v (results_data s) (selected_option_count s) (result_highlight s)
    (results_showing s) (active_field s) (search_field_val s) (search_results s)
    (search_choices s) (selected_item_html s) (current_selectedIndex s) (triggered s).

Definition set_results_data v (s : t) : t :=
  mkChosen (config s) (is_multiple s) (default_text s) (results_none_found s)
    (form_field s) v (selected_option_count s) (result_highlight s)
    (results_showing s) (active_field s) (search_field_val s) (search_results s)
    (search_choices s) (selected_item_html s) (current_selectedIndex s) (triggered s).

Definition set_selected_option_count v (s : t) : t :=
  mkChosen (config s) (is_multiple s) (default_text s) (results_none_found s)
    (form_field s) (results_data s) v (result_highlight s)
    (results_showing s) (active_field s) (search_field_val s) (search_results s)
    (search_choices s) (selected_item_html s) (current_selectedIndex s) (triggered s).

Definition set_result_highlight v (s : t) : t :=
  mkChosen (config s) (is_multiple s) (default_text s) (results_none_found s)
    (form_field s) (results_data s) (selected_option_count s) v
    (results_showing s) (active_field s) (search_field_val s) (search_results s)
    (search_choices s) (selected_item_html s) (current_selectedIndex s) (triggered s).

Definition set_results_showing v (s : t) : t :=
  mkChosen (config s) (is_multiple s) (default_text s) (results_none_found s)
    (form_field s) (results_data s) (selected_option_count s) (result_highlight s)
    v (active_field s) (search_field_val s) (search_results s)
    (search_choices s) (selected_item_html s) (current_selectedIndex s) (triggered s).

Definition set_active_field v (s : t) : t :=
  mkChosen (config s) (is_multiple s) (default_text s) (results_none_found s)
    (form_field s) (results_data s) (selected_option_count s) (result_highlight s)
    (results_showing s) v (search_field_val s) (search_results s)
    (search_choices s) (selected_item_html s) (current_selectedIndex s) (triggered s).

Definition set_search_field_val v (s : t) : t :=
  mkChosen (config s) (is_multiple s) (default_text s) (results_none_found s)
    (form_field s) (results_data s) (selected_option_count s) (result_highlight s)
    (results_showing s) (active_field s) v (search_results s)
    (search_choices s) (selected_item_html s) (current_selectedIndex s) (triggered s).

Definition set_search_results v (s : t) : t :=
  mkChosen (config s) (is_multiple s) (default_text s) (results_none_found s)
    (form_field s) (results_data s) (selected_option_count s) (result_highlight s)
    (results_showing s) (active_field s) (search_field_val s) v
    (search_choices s) (selected_item_html s) (current_selectedIndex s) (triggered s).

Definition set_search_choices v (s : t) : t :=
  mkChosen (config s) (is_multiple s) (default_text s) (results_none_found s)
    (form_field s) (results_data s) (selected_option_count s) (result_highlight s)
    (results_showing s) (active_field s) (search_field_val s) (search_results s)
    v (selected_item_html s) (current_selectedIndex s) (triggered s).

Definition set_selected_item_html v (s : t) : t :=
  mkChosen (config s) (is_multiple s) (default_text s) (results_none_found s)
    (form_field s) (results_data s) (selected_option_count s) (result_highlight s)
    (results_showing s) (active_field s) (search_field_val s) (search_results s)
    (search_choices s) v (current_selectedIndex s) (triggered s).

Definition set_current_selectedIndex v (s : t) : t :=
  mkChosen (config s) (is_multiple s) (default_text s) (results_none_found s)
    (form_field s) (results_data s) (selected_option_count s) (result_highlight s)
    (results_showing s) (active_field s) (search_field_val s) (search_results s)
    (search_choices s) (selected_item_html s) v (triggered s).

(** [form_field_jq.trigger(e)]: the log of triggered events, oldest
    first. *)
Definition trigger (e : event) (s : t) : t :=
  mkChosen (config s) (is_multiple s) (default_text s) (results_none_found s)
    (form_field s) (results_data s) (selected_option_count s) (result_highlight s)
    (results_showing s) (active_field s) (search_field_val s) (search_results s)
    (search_choices s) (selected_item_html s) (current_selectedIndex s)
    (triggered s ++ [e]).

(** Writes to the fields of one [results_data] entry. *)
Definition set_selected (v : bool) (c : item) : item :=
  mkItem (array_index c) (group c) (label c) (title c) (children c) (disabled c)
         (classes c) (options_index c) (value c) (text c) (html c)
         v (group_array_index c) (group_label c) (style c)
         (empty c) (search_match c) (group_match c) (active_options c)
         (search_text c).

Definition set_search_match (v : bool) (c : item) : item :=
  mkItem (array_index c) (group c) (label c) (title c) (children c) (disabled c)
         (classes c) (options_index c) (value c) (text c) (html c)
         (selected c) (group_array_index c) (group_label c) (style c)
         (empty c) v (group_match c) (active_options c)
         (search_text c).

Definition set_group_match (v : bool) (c : item) : item :=
  mkItem (array_index c) (group c) (label c) (title c) (children c) (disabled c)
         (classes c) (options_index c) (value c) (text c) (html c)
         (selected c) (group_array_index c) (group_label c) (style c)
         (empty c) (search_match c) v (active_options c)
         (search_text c).

Definition set_active_options (v : option nat) (c : item) : item :=
  mkItem (array_index c) (group c) (label c) (title c) (children c) (disabled c)
         (classes c) (options_index c) (value c) (text c) (html c)
         (selected c) (group_array_index c) (group_label c) (style c)
         (empty c) (search_match c) (group_match c) v
         (search_text c).

Definition set_search_text (v : string) (c : item) : item :=
  mkItem (array_index c) (group c) (label c) (title c) (children c) (disabled c)
         (classes c) (options_index c) (value c) (text c) (html c)
         (selected c) (group_array_index c) (group_label c) (style c)
         (empty c) (search_match c) (group_match c) (active_options c)
         v.

(** *** AbstractChosen *)

(** [escape_html(default_text)] and the no-results text, as
    [set_default_text] computes them. *)
Definition set_default_text (f : Dom.Select) (o : Options) : string * string :=
  let placeholder :=
    match Dom.data_placeholder f with
    | Some p => if String.eqb p "" then None else Some p
    | None => None
    end in
  let dt :=
    match placeholder with
    | Some p => p
    | None =>
        if Dom.multiple f then
          str_or (opt_placeholder_text_multiple o)
            (str_or (opt_placeholder_text o) default_multiple_text)
        else
          str_or (opt_placeholder_text_single o)
            (str_or (opt_placeholder_text o) default_single_text)
    end in
  (Text.escape_html dt,
   str_or (Dom.data_no_results_text f)
     (str_or (opt_no_results_text o) default_no_result_text)).

Definition choice_label (s : t) (a : item) : string :=
  match group_label a with
  | Some gl =>
      if include_group_label_in_selected (config s)
      then "<b class='group-name'>" ++ gl ++ "</b>" ++ html a
      else html a
  | None => html a
  end.

Definition include_option_in_results (s : t) (a : item) : bool :=
  if is_multiple s && negb (display_selected_options (config s)) && selected a then false
  else if negb (display_disabled_options (config s)) && disabled a then false
  else if empty a then false
  else true.

(** The class list of [result_add_option], in push order. *)
Definition option_classes (s : t) (a : item) : list css_class :=
  (if disabled a || selected a && is_multiple s then [] else [cls_active_result])
  ++ (if negb (disabled a) || selected a && is_multiple s then [] else [cls_disabled_result])
  ++ (if selected a then [cls_result_selected] else [])
  ++ (match group_array_index a with Some _ => [cls_group_option] | None => [] end)
  ++ (if String.eqb (classes a) "" then [] else [host_classes (classes a)]).

(** [result_add_option]; [None] is the empty string. *)
Definition result_add_option (s : t) (a : item) : option li :=
  if search_match a && include_option_in_results s a then
    Some (mkLi (option_classes s a) (Some (array_index a)) (search_text a)
               (title a) (style a))
  else None.

(** [a.active_options > 0]. *)
Definition positive (v : option nat) : bool :=
  match v with Some n => Nat.ltb 0 n | None => false end.

Definition result_add_group (s : t) (a : item) : option li :=
  if (search_match a || group_match a) && positive (active_options a) then
    Some (mkLi (cls_group_result ::
                  (if String.eqb (classes a) "" then [] else [host_classes (classes a)]))
               None (search_text a) (title a) "")
  else None.

Definition get_search_regex (s : t) (a : string) : Text.RegExp :=
  let b := if search_contains (config s) then "" else "^" in
  let c := if case_sensitive_search (config s) then "" else "i" in
  Text.mkRegExp (b ++ a) c.

Definition get_highlight_regex (s : t) (a : string) : Text.RegExp :=
  let b := if search_contains (config s) then "" else "\b" in
  let c := if case_sensitive_search (config s) then "" else "i" in
  Text.mkRegExp (b ++ a) c.

(** [search_string_match]; [undefined] reads as [false]. *)
Definition search_string_match (s : t) (a : string) (b : Text.RegExp) : bool :=
  if Text.test b a then true
  else if enable_split_word_search (config s)
          && (Text.has_space a || Text.starts_with_bracket a) then
    existsb (Text.test b) (Text.split_space (Text.strip_brackets a))
  else false.

Definition count_selected (l : list Dom.Node) : nat :=
  length (List.filter Dom.selected l).

(** [choices_count]: the count, and the widget with the cache filled. *)
Definition choices_count (s : t) : nat * t :=
  match selected_option_count s with
  | Some n => (n, s)
  | None =>
      let n := count_selected (Dom.options (form_field s)) in
      (n, set_selected_option_count (Some n) s)
  end.

Definition get_search_field_value (s : t) : string := search_field_val s.

Definition get_search_text (s : t) : string :=
  Text.escape_html (Text.trim (get_search_field_value s)).

Definition get_no_results_html (s : t) (a : string) : li :=
  mkLi [cls_no_results] None (results_none_found s ++ " <span>" ++ a ++ "</span>") None "".

(** *** Chosen: the results list *)

(** [this.result_highlight && removeClass("highlighted")], then the
    reference is dropped. *)
Definition result_clear_highlight (s : t) : t :=
  match result_highlight s with
  | Some k =>
      set_result_highlight None
        (set_search_results (alter (removeClass cls_highlighted) k (search_results s)) s)
  | None => set_result_highlight None s
  end.

(** [result_do_highlight(a)]; [a = None] is the empty jQuery set.  The
    scrolling that follows is geometry and is not modelled. *)
Definition result_do_highlight (a : option nat) (s : t) : t :=
  match a with
  | Some k =>
      let s := result_clear_highlight s in
      set_search_results (alter (addClass cls_highlighted) k (search_results s))
        (set_result_highlight (Some k) s)
  | None => s
  end.

(** Position of the first entry satisfying [p]: [find(...).first()]. *)
Fixpoint find_index (p : li -> bool) (l : list li) : option nat :=
  match l with
  | [] => None
  | e :: rest => if p e then Some 0 else S <$> find_index p rest
  end.

(** Position of the last entry satisfying [p]. *)
Fixpoint find_last_index (p : li -> bool) (l : list li) : option nat :=
  match l with
  | [] => None
  | e :: rest =>
      match find_last_index p rest with
      | Some k => Some (S k)
      | None => if p e then Some 0 else None
      end
  end.

Definition winnow_results_set_highlight (s : t) : t :=
  let b := if is_multiple s then None
           else find_index (fun e => hasClass cls_result_selected e && hasClass cls_active_result e)
                           (search_results s) in
  let a := match b with
           | Some k => Some k
           | None => find_index (hasClass cls_active_result) (search_results s)
           end in
  result_do_highlight a s.

Definition update_results_content (a : list li) (s : t) : t :=
  set_search_results a s.

Definition no_results_clear (s : t) : t :=
  set_search_results
    (List.filter (fun e => negb (hasClass cls_no_results e)) (search_results s)) s.

Definition no_results (a : string) (s : t) : t :=
  trigger chosen_no_results
    (set_search_results (search_results s ++ [get_no_results_html s a]) s).

Definition choice_build (b : item) (s : t) : t :=
  set_search_choices
    (search_choices s ++
       [mkChoice ("<span>" ++ choice_label s b ++ "</span>") (disabled b)
                 (if disabled b then None else Some (array_index b))]) s.

(** [single_set_selected_text(a)]; [None] is the call without
    argument. *)
Definition single_set_selected_text (a : option string) (s : t) : t :=
  set_selected_item_html (default (default_text s) a) s.

Definition opt_list {A} (d : option A) : list A :=
  match d with Some x => [x] | None => [] end.

(** The loop of [results_option_build]: [e] counts the entries produced
    so far, [first] is the flag of the options argument. *)
Fixpoint results_option_loop (first : bool) (l : list item) (e : nat) (s : t)
  : list li * t :=
  match l with
  | [] => ([], s)
  | c :: rest =>
      let d := if group c then result_add_group s c else result_add_option s c in
      let e' := match d with Some _ => S e | None => e end in
      let s' :=
        if first then
          if selected c && is_multiple s then choice_build c s
          else if selected c && negb (is_multiple s)
               then single_set_selected_text (Some (choice_label s c)) s
               else s
        else s in
      if num_le_count (max_shown_results (config s)) e' then (opt_list d, s')
      else let '(lis, s'') := results_option_loop first rest e' s' in
           ((opt_list d ++ lis)%list, s'')
  end.

Definition results_option_build (first : bool) (s : t) : list li * t :=
  results_option_loop first (results_data s) 0 s.

(** *** Chosen: the filter *)

(** The highlight annotation of [winnow_results]. *)
Definition annotate (search_text g : string) (b : Text.RegExp) : string :=
  let h := Text.search search_text b in
  let glen := Text.zlength g in
  let i := Text.substr search_text 0 (Some (h + glen)%Z) ++ "</em>"
           ++ Text.substr search_text (h + glen)%Z None in
  Text.substr i 0 (Some h) ++ "<em>" ++ Text.substr i h None.

(** One iteration of the loop of [winnow_results], on the entry at
    position [j]; [e] is the running count of results.  The entries are
    objects shared through [results_data]: every write goes to the list
    and every later read comes from it. *)
Definition winnow_step (s : t) (g : string) (d b : Text.RegExp) (j : nat)
           (st : list item * nat) : option (list item * nat) :=
  let '(data, e) := st in
  c ← data !! j;
  let data := alter (set_search_match false) j data in
  if include_option_in_results s c then
    let data :=
      if group c
      then alter (fun c => set_active_options (Some 0) (set_group_match false c)) j data
      else data in
    let '(data, e, f) :=
      match group_array_index c with
      | Some gi =>
          match data !! gi with
          | Some fi =>
              let e := if bool_decide (active_options fi = Some 0) && search_match fi
                       then S e else e in
              (alter (fun f => set_active_options (incr (active_options f)) f) gi data,
               e, Some gi)
          | None => (data, e, None)
          end
      | None => (data, e, None)
      end in
    let data := alter (fun c => set_search_text (if group c then label c else html c) c)
                      j data in
    if negb (group c) || group_search (config s) then
      c' ← data !! j;
      let m := search_string_match s (search_text c') d in
      let data := alter (set_search_match m) j data in
      let e := if m && negb (group c) then S e else e in
      if m then
        let data :=
          if negb (String.eqb g "")
          then alter (fun c => set_search_text (annotate (search_text c) g b) c) j data
          else data in
        let data :=
          match f with
          | Some gi => alter (set_group_match true) gi data
          | None => data
          end in
        Some (data, e)
      else
        match group_array_index c with
        | Some gi =>
            fi ← data !! gi;
            Some (if search_match fi then alter (set_search_match true) j data else data, e)
        | None => Some (data, e)
        end
    else Some (data, e)
  else Some (data, e).

Fixpoint winnow_loop (s : t) (g : string) (d b : Text.RegExp) (js : list nat)
         (st : list item * nat) : option (list item * nat) :=
  match js with
  | [] => Some st
  | j :: js' => st' ← winnow_step s g d b j st; winnow_loop s g d b js' st'
  end.

(** The pass over [results_data]: the updated entries and the count of
    results. *)
Definition winnow_pass (s : t) : option (list item * nat) :=
  let g := get_search_text s in
  let a := Text.escape_regex g in
  winnow_loop s g (get_search_regex s a) (get_highlight_regex s a)
    (seq 0 (length (results_data s))) (results_data s, 0).

Definition winnow_results (s : t) : option t :=
  let s := no_results_clear s in
  let g := get_search_text s in
  r ← winnow_pass s;
  let '(data, e) := (r : list item * nat) in
  let s := set_results_data data s in
  let s := result_clear_highlight s in
  if Nat.ltb e 1 && negb (String.eqb g "") then
    Some (no_results g (update_results_content [] s))
  else
    let '(lis, s) := results_option_build false s in
    Some (winnow_results_set_highlight (update_results_content lis s)).

(** *** Chosen: showing, hiding, selecting *)

Definition results_hide (s : t) : t :=
  let s := if results_showing s
           then trigger chosen_hiding_dropdown (result_clear_highlight s)
           else s in
  set_results_showing false s.

Definition results_show (s : t) : option t :=
  let '(full, s) :=
    if is_multiple s then
      let '(n, s) := choices_count s in
      (num_le_count (max_selected_options (config s)) n, s)
    else (false, s) in
  if full then Some (trigger chosen_maxselected s)
  else
    let s := set_results_showing true s in
    let s := set_search_field_val (get_search_field_value s) s in
    s ← winnow_results s;
    Some (trigger chosen_showing_dropdown s).

Definition results_toggle (s : t) : option t :=
  if results_showing s then Some (results_hide s) else results_show s.

Definition results_search (s : t) : option t :=
  if results_showing s then winnow_results s else results_show s.

Definition show_search_field_default (s : t) : t :=
  let '(dflt, s) :=
    if is_multiple s then
      let '(n, s) := choices_count s in
      (Nat.ltb n 1 && negb (active_field s), s)
    else (false, s) in
  if dflt then set_search_field_val (default_text s) s
  else set_search_field_val "" s.

Definition reset_single_select_options (s : t) : t :=
  set_results_data
    (map (fun a => if selected a then set_selected false a else a) (results_data s)) s.

Definition trigger_form_field_change (p : payload) (s : t) : t :=
  trigger (change_event p) (trigger (input_event p) s).

(** [result_select(evt)]. *)
Definition result_select (evt : dom_event) (s : t) : option t :=
  match result_highlight s with
  | None => Some s
  | Some high =>
      let s := result_clear_highlight s in
      let '(full, s) :=
        if is_multiple s then
          let '(n, s) := choices_count s in
          (num_le_count (max_selected_options (config s)) n, s)
        else (false, s) in
      if full then Some (trigger chosen_maxselected s)
      else
        let s := if is_multiple s
                 then set_search_results
                        (alter (removeClass cls_active_result) high (search_results s)) s
                 else reset_single_select_options s in
        let s := set_search_results
                   (alter (addClass cls_result_selected) high (search_results s)) s in
        e ← search_results s !! high;
        idx ← li_data_index e;
        c ← results_data s !! idx;
        let s := set_results_data (alter (set_selected true) idx (results_data s)) s in
        oi ← options_index c;
        f ← Dom.write_selected oi true (form_field s);
        let s := set_form_field f s in
        let s := set_selected_option_count None s in
        c ← results_data s !! idx;
        let s := if is_multiple s then choice_build c s
                 else single_set_selected_text (Some (choice_label s c)) s in
        let s := if negb (is_multiple s)
                    || hide_results_on_select (config s)
                       && negb (metaKey evt) && negb (ctrlKey evt)
                 then show_search_field_default (results_hide s)
                 else s in
        o ← Dom.options (form_field s) !! oi;
        let s := if is_multiple s
                    || negb (Dom.selectedIndex (form_field s) =? current_selectedIndex s)%Z
                 then trigger_form_field_change (selected_value (Dom.value o)) s
                 else s in
        Some (set_current_selectedIndex (Dom.selectedIndex (form_field s)) s)
  end.

(** [result_deselect(a)]: the widget and the boolean the call returns. *)
Definition result_deselect (a : nat) (s : t) : option (bool * t) :=
  b ← results_data s !! a;
  oi ← options_index b;
  o ← Dom.options (form_field s) !! oi;
  if Dom.disabled o then Some (false, s)
  else
    let s := set_results_data (alter (set_selected false) a (results_data s)) s in
    f ← Dom.write_selected oi false (form_field s);
    let s := set_form_field f s in
    let s := set_selected_option_count None s in
    let s := result_clear_highlight s in
    s ← (if results_showing s then winnow_results s else Some s);
    o ← Dom.options (form_field s) !! oi;
    Some (true, trigger_form_field_change (deselected_value (Dom.value o)) s).

Fixpoint remove_nth {A} (n : nat) (l : list A) : list A :=
  match l, n with
  | [], _ => []
  | _ :: rest, 0 => rest
  | x :: rest, S n' => x :: remove_nth n' rest
  end.

(** [choice_destroy(link)] for the close link, with index attribute [a],
    of the choice at position [n] of the choice list. *)
Definition choice_destroy (n a : nat) (s : t) : option t :=
  r ← result_deselect a s;
  let '(ok, s) := (r : bool * t) in
  if ok then
    let s := if active_field s then s else show_search_field_default s in
    let s :=
      if is_multiple s then
        let '(cnt, s) := choices_count s in
        if Nat.ltb 0 cnt && Nat.ltb (String.length (get_search_field_value s)) 1
        then results_hide s else s
      else s in
    Some (set_search_choices (remove_nth n (search_choices s)) s)
  else Some s.

(** [search_results_mouseup] on the entry at position [k]. *)
Definition search_results_mouseup (k : nat) (evt : dom_event) (s : t) : option t :=
  match search_results s !! k with
  | Some e =>
      if hasClass cls_active_result e
      then result_select evt (set_result_highlight (Some k) s)
      else Some s
  | None => Some s
  end.

Definition search_results_mouseover (k : nat) (s : t) : t :=
  match search_results s !! k with
  | Some e => if hasClass cls_active_result e then result_do_highlight (Some k) s else s
  | None => s
  end.

Definition search_results_mouseout (k : nat) (s : t) : t :=
  match search_results s !! k with
  | Some e => if hasClass cls_active_result e then result_clear_highlight s else s
  | None => s
  end.

(** [nextAll("li.active-result").first()] from position [k]. *)
Definition next_active (k : nat) (l : list li) : option nat :=
  (fun i => S k + i) <$> find_index (hasClass cls_active_result) (drop (S k) l).

(** [prevAll("li.active-result").first()] from position [k]. *)
Definition prev_active (k : nat) (l : list li) : option nat :=
  find_last_index (hasClass cls_active_result) (take k l).

Definition keydown_arrow (s : t) : option t :=
  match result_highlight s with
  | Some k =>
      if results_showing s
      then Some (result_do_highlight (next_active k (search_results s)) s)
      else results_show s
  | None => results_show s
  end.

Definition keyup_arrow (s : t) : option t :=
  if results_showing s || is_multiple s then
    match result_highlight s with
    | Some k =>
        match prev_active k (search_results s) with
        | Some p => Some (result_do_highlight (Some p) s)
        | None =>
            let '(n, s) := choices_count s in
            let s := if Nat.ltb 0 n then results_hide s else s in
            Some (result_clear_highlight s)
        end
    | None => Some s
    end
  else results_show s.

(** [activate_field], on an enabled control. *)
Definition activate_field (s : t) : t :=
  set_search_field_val (search_field_val s) (set_active_field true s).

(** [close_field]; the pending backstroke is not modelled. *)
Definition close_field (s : t) : t :=
  show_search_field_default (results_hide (set_active_field false s)).

(** Where a pointer event on the container landed. *)
Inductive target := SelectedItem | ChoiceCloseLink | Elsewhere.

(** [container_mousedown(evt)], on an enabled control; [None] is the
    call without an event. *)
Definition container_mousedown (evt : option target) (s : t) : option t :=
  match evt with
  | Some ChoiceCloseLink => Some s
  | _ =>
      s ← (if active_field s then
             match evt with
             | Some SelectedItem =>
                 if is_multiple s then Some s else results_toggle s
             | _ => Some s
             end
           else
             results_show
               (if is_multiple s then set_search_field_val "" s else s));
      Some (activate_field s)
  end.

(** [results_build], on an enabled host control. *)
Definition results_build (s : t) : option t :=
  let s := set_selected_option_count None s in
  data ← select_to_array (form_field s);
  let s := set_results_data data s in
  let s := if is_multiple s then set_search_choices [] s
           else single_set_selected_text None s in
  let '(lis, s) := results_option_build true s in
  let s := update_results_content lis s in
  Some (show_search_field_default s).

(** The constructor: [new Chosen(form_field, options)]. *)
Definition create (f : Dom.Select) (o : Options) : option t :=
  let '(dt, nf) := set_default_text f o in
  let s := mkChosen (set_default_values o) (Dom.multiple f) dt nf f []
             None None false false (if Dom.multiple f then dt else "")
             [] [] dt (Dom.selectedIndex f) [] in
  s ← results_build s;
  Some (trigger chosen_ready s).

(** *** User actions *)

Inductive action :=
| MouseOver (k : nat)
| MouseOut (k : nat)
| MouseUp (k : nat) (evt : dom_event)      (* click on a result entry *)
| KeyEnter (evt : dom_event)
| KeyEscape
| ArrowDown
| ArrowUp
| TypeText (v : string)                    (* new content of the search field *)
| MouseDown (evt : option target)          (* pointer press on the container *)
| Blur                                     (* focus leaves the widget *)
| CloseChoice (n : nat).                   (* click on a choice's close link *)

Definition step (a : action) (s : t) : option t :=
  match a with
  | MouseOver k => Some (search_results_mouseover k s)
  | MouseOut k => Some (search_results_mouseout k s)
  | MouseUp k evt => search_results_mouseup k evt s
  | KeyEnter evt => if results_showing s then result_select evt s else Some s
  | KeyEscape => if results_showing s then Some (results_hide s) else Some s
  | ArrowDown => keydown_arrow s
  | ArrowUp => keyup_arrow s
  | TypeText v => results_search (set_search_field_val v s)
  | MouseDown evt => container_mousedown evt s
  | Blur => Some (close_field s)
  | CloseChoice n =>
      match search_choices s !! n ≫= choice_close_index with
      | Some a => choice_destroy n a s
      | None => Some s                     (* no such link to click *)
      end
  end.

Fixpoint run (l : list action) (s : t) : option t :=
  match l with
  | [] => Some s
  | a :: rest => s' ← step a s; run rest s'
  end.

End Chosen.


(** ** Reference definitions used by the statements *)

Module Reference.

Import SelectParser.

(** Escaping as the description words it: every occurrence of one of the
    six characters is replaced by its entity. *)
Definition escape_every_special (a : string) : string :=
  Text.replace_chars
    (fun c => if Ascii.eqb c "&" then Some "&amp;" else entity_map c) a.

(** Does some ampersand of [a] start a sequence of the form [&\w+;]? *)
Fixpoint has_entity_reference (a : string) : bool :=
  match a with
  | String c rest =>
      Ascii.eqb c "&" && entity_ahead rest || has_entity_reference rest
  | EmptyString => false
  end.

Definition nonempty_text (o : Dom.Node) : bool :=
  negb (String.eqb (Dom.text o) "").

(** The record of one host option: an empty-marked record when its
    display text is empty. *)
Definition option_record (ai oi : nat) (o : Dom.Node) (b : option nat)
           (glabel : option string) (dis : bool) : item :=
  if nonempty_text o then option_item ai oi o b glabel dis else empty_item ai oi.

(** The records of the option children [opts] of the group at flat index
    [gi], from flat index [ai] and host index [oi] on. *)
Fixpoint child_records (gi : nat) (glabel : string) (gdis : bool)
         (ai oi : nat) (opts : list Dom.Node) : list item :=
  match opts with
  | [] => []
  | o :: rest =>
      option_record ai oi o (Some gi) (Some glabel) (gdis || Dom.disabled o)
      :: child_records gi glabel gdis (S ai) (S oi) rest
  end.

(** The records one top-level node contributes: a group record followed
    by the records of its children, or one option record, or nothing. *)
Definition node_records (ai oi : nat) (n : Dom.Node) : list item :=
  if Dom.is_element "OPTGROUP" n then
    set_children (Some (length (List.filter nonempty_text (Dom.options_of_node n))))
                 (group_item ai n)
    :: child_records ai (escapeExpression (Some (Dom.label n))) (Dom.disabled n)
                     (S ai) oi (Dom.options_of_node n)
  else if Dom.is_element "OPTION" n then
    [option_record ai oi n None None (Dom.disabled n)]
  else [].

(** Flattening as the description words it: the records of the top-level
    nodes in source order, numbered by position in the output, options
    numbered by their ordinal among the host options. *)
Fixpoint flatten (ai oi : nat) (nodes : list Dom.Node) : list item :=
  match nodes with
  | [] => []
  | n :: rest =>
      (node_records ai oi n
       ++ flatten (ai + length (node_records ai oi n))
                  (oi + length (Dom.options_of_node n)) rest)%list
  end.

(** [g] applied to the elements of a list, numbered from [i]. *)
Fixpoint map_indexed {A} (g : nat -> A -> A) (i : nat) (l : list A) : list A :=
  match l with
  | [] => []
  | x :: rest => g i x :: map_indexed g (S i) rest
  end.

(** The function [write_selected] applies to the host options. *)
Definition written (multi : bool) (i : nat) (b : bool) (j : nat) (o : Dom.Node) : Dom.Node :=
  if Nat.eqb j i then Dom.set_selected b o
  else if b && negb multi then Dom.set_selected false o
  else o.

(** What an option record and a host option have in common: host index,
    display text, and whether the text is empty. *)
Definition option_view (c : item) : option nat * string * bool :=
  (options_index c, text c, empty c).

(** The views of the host options [opts], numbered from [oi]. *)
Fixpoint host_views (oi : nat) (opts : list Dom.Node)
  : list (option nat * string * bool) :=
  match opts with
  | [] => []
  | o :: rest => (Some oi, Dom.text o, negb (nonempty_text o)) :: host_views (S oi) rest
  end.

(** What the controller relies on in a parsed list for a host with
    [nopts] options; positions are counted from [ai]. *)
Definition records_from (ai nopts : nat) (data : list item) : Prop :=
  forall j c, data !! j = Some c ->
    array_index c = ai + j
    /\ (group c = false -> exists i, options_index c = Some i /\ i < nopts)
    /\ (group c = true ->
        selected c = false /\ empty c = false /\ group_array_index c = None)
    /\ (forall gi, group_array_index c = Some gi ->
        ai <= gi < ai + j
        /\ exists g, data !! (gi - ai) = Some g /\ group g = true
                     /\ (disabled g = true -> disabled c = true)).

Definition well_formed_data (nopts : nat) (data : list item) : Prop :=
  records_from 0 nopts data.

End Reference.

(** ** Definitions for the analysis of the controller *)

Module Analysis.

Import SelectParser Chosen.

(** An entry without the four fields that [winnow_results] writes. *)
Definition skeleton (c : item) : item :=
  set_search_match false
    (set_group_match false (set_active_options None (set_search_text "" c))).

(** An entry with everything cleared that one filter pass overwrites
    before reading it: the match flag of every entry, the search text of
    an included entry, the counters of an included group. *)
Definition neutral (s : Chosen.t) (c : item) : item :=
  set_search_match false
    (if include_option_in_results s c then
       set_search_text ""
         (if group c then set_active_options (Some 0) (set_group_match false c) else c)
     else c).

(** One iteration of the filter loop on an entry [c] whose group object,
    when it has one, is the distinct object [fi]: the new entry, the new
    group object and the new count of results. *)
Definition entry_step (s : Chosen.t) (g : string) (d b : Text.RegExp)
           (c : item) (fi : option item) (e : nat) : item * option item * nat :=
  let c := set_search_match false c in
  if include_option_in_results s c then
    let c := if group c
             then set_active_options (Some 0) (set_group_match false c) else c in
    let e := match fi with
             | Some f => if bool_decide (active_options f = Some 0) && search_match f
                         then S e else e
             | None => e
             end in
    let fi := (fun f => set_active_options (incr (active_options f)) f) <$> fi in
    let c := set_search_text (if group c then label c else html c) c in
    if negb (group c) || group_search (config s) then
      let m := search_string_match s (search_text c) d in
      let c := set_search_match m c in
      let e := if m && negb (group c) then S e else e in
      if m then
        let c := if negb (String.eqb g "")
                 then set_search_text (annotate (search_text c) g b) c else c in
        (c, set_group_match true <$> fi, e)
      else
        match fi with
        | Some f => (if search_match f then set_search_match true c else c, fi, e)
        | None => (c, fi, e)
        end
    else (c, fi, e)
  else (c, fi, e).

(** The entries after the iteration at position [j]. *)
Definition store_back (j : nat) (gi : option nat) (c : item) (fi : option item)
           (data : list item) : list item :=
  <[j := c]> (match gi, fi with
              | Some gi, Some f => <[gi := f]> data
              | _, _ => data
              end).

(** The entries [results_option_build] renders from [data]. *)
Definition rendered (s : Chosen.t) (data : list item) : list li :=
  (results_option_loop false data 0 s).1.

(** The entry [winnow_results_set_highlight] picks in the list [lis]. *)
Definition pick_highlight (s : Chosen.t) (lis : list li) : option nat :=
  match (if is_multiple s then None
         else find_index (fun e => hasClass cls_result_selected e
                                   && hasClass cls_active_result e) lis) with
  | Some k => Some k
  | None => find_index (hasClass cls_active_result) lis
  end.

(** The widget after [winnow_results], given the entries [data] and the
    count of results [e] of its pass. *)
Definition winnow_outcome (s : Chosen.t) (data : list item) (e : nat) : Chosen.t :=
  if Nat.ltb e 1 && negb (String.eqb (get_search_text s) "") then
    mkChosen (config s) (is_multiple s) (default_text s) (results_none_found s)
      (form_field s) data (selected_option_count s) None
      (results_showing s) (active_field s) (search_field_val s)
      [get_no_results_html s (get_search_text s)]
      (search_choices s) (selected_item_html s) (current_selectedIndex s)
      (triggered s ++ [chosen_no_results])
  else
    mkChosen (config s) (is_multiple s) (default_text s) (results_none_found s)
      (form_field s) data (selected_option_count s)
      (pick_highlight s (rendered s data))
      (results_showing s) (active_field s) (search_field_val s)
      (match pick_highlight s (rendered s data) with
       | Some k => alter (addClass cls_highlighted) k (rendered s data)
       | None => rendered s data
       end)
      (search_choices s) (selected_item_html s) (current_selectedIndex s)
      (triggered s).

(** Every rendered entry that carries an array index names a parsed
    option; an active entry carries an index. *)
Definition view_on (lis : list li) (data : list item) : Prop :=
  forall k e, lis !! k = Some e ->
    (forall idx, li_data_index e = Some idx ->
       exists c, data !! idx = Some c /\ group c = false)
    /\ (hasClass cls_active_result e = true -> is_Some (li_data_index e)).

(** Every close link names a parsed option. *)
Definition choices_on (chs : list choice) (data : list item) : Prop :=
  forall n ch idx, chs !! n = Some ch ->
    choice_close_index ch = Some idx ->
    exists c, data !! idx = Some c /\ group c = false.

(** The highlighted entry is a rendered entry that carries an index. *)
Definition highlight_on (h : option nat) (lis : list li) : Prop :=
  forall k, h = Some k ->
    exists e, lis !! k = Some e /\ is_Some (li_data_index e).

(** The cached count is absent or exact. *)
Definition cache_on (cache : option nat) (f : Dom.Select) : Prop :=
  forall n, cache = Some n -> n = count_selected (Dom.options f).

(** The invariant of the widget. *)
Record invariant (s : Chosen.t) : Prop := mkInvariant {
  inv_data : Reference.well_formed_data (length (Dom.options (form_field s)))
                                        (results_data s);
  inv_view : view_on (search_results s) (results_data s);
  inv_choices : choices_on (search_choices s) (results_data s);
  inv_highlight : highlight_on (result_highlight s) (search_results s);
  inv_cache : cache_on (selected_option_count s) (form_field s);
  inv_multiple : is_multiple s = Dom.multiple (form_field s) }.

(** The widgets that a construction followed by user actions can
    produce. *)
Definition reachable (s : Chosen.t) : Prop :=
  exists f o l, (s0 ← create f o; run l s0) = Some s.

(** The host's own count of selected options. *)
Definition selected_count (s : Chosen.t) : nat :=
  count_selected (Dom.options (form_field s)).

(** [n] does not exceed the limit [a]. *)
Definition within_limit (n : nat) (a : jsnum) : Prop :=
  match a with
  | Num z => (Z.of_nat n <= z)%Z
  | Infinity => True
  end.

(** In a multiple select, no more options are selected than the limit
    allows. *)
Definition capacity_ok (s : Chosen.t) : Prop :=
  is_multiple s = true ->
  within_limit (selected_count s) (max_selected_options (config s)).

(** The configuration and the host control are the same in [s'] as in
    [s]. *)
Definition stable (s s' : Chosen.t) : Prop :=
  config s' = config s /\ is_multiple s' = is_multiple s
  /\ form_field s' = form_field s.

(** [s'] satisfies the invariant, has the configuration of [s], and
    respects the selection limit if [s] does. *)
Definition carries (s s' : Chosen.t) : Prop :=
  invariant s' /\ config s' = config s /\ is_multiple s' = is_multiple s
  /\ (capacity_ok s -> capacity_ok s').

End Analysis.

(** ** Sample hosts and widgets *)

Module Examples.

Import Chosen.

Definition option_node (t : string) (sel : bool) : Dom.Node :=
  Dom.mkNode "OPTION" t t t "" sel false "" "" "" [].

Definition optgroup_node (l : string) (cs : list Dom.Node) : Dom.Node :=
  Dom.mkNode "OPTGROUP" "" "" "" "" false false "" "" l cs.

Definition with_max (m : option Z) : Options :=
  mkOptions None None None m None None None None None None None None None None.

Definition no_options : Options := with_max None.

Definition colours : Dom.Select :=
  Dom.mkSelect false None None
    [option_node "" false; option_node "Red" false;
     option_node "Green" false; option_node "Blue" false].

Definition countries (sel : bool) : Dom.Select :=
  Dom.mkSelect true None None
    [option_node "Chile" sel;
     optgroup_node "Oceania"
       [option_node "New Zealand" false; option_node "" false;
        option_node "Fiji" false]].

(** The widget constructed on the host control [f] with the options [o],
    after the user actions [l]. *)
Definition after (f : Dom.Select) (o : Options) (l : list action) : Chosen.t :=
  default (mkChosen (set_default_values o) (Dom.multiple f) "" "" f []
                    None None false false "" [] [] "" (-1) [])
          (s ← create f o; run l s).

Definition plain_click : dom_event := mkEvent false false.
Definition ctrl_click : dom_event := mkEvent false true.

(** A multiple select limited to one choice, opened, with Chile picked by
    a control-click, which keeps the results open, and the pointer moved
    onto New Zealand. *)
Definition at_capacity : Chosen.t :=
  after (countries false) (with_max (Some 1%Z))
        [MouseDown None; MouseUp 0 ctrl_click; MouseOver 2].

(** A widget with the default configuration and nothing parsed yet. *)
Definition blank (multi : bool) (o : Options) : Chosen.t :=
  mkChosen (set_default_values o) multi "" "" (Dom.mkSelect multi None None []) []
           None None false false "" [] [] "" (-1) [].

End Examples.

(** ** Drupal: the select-all checkbox of a table ([Drupal.tableSelect]) *)

Module TableSelect.

(** A checkbox in a cell of the table. *)
Record Checkbox := mkCheckbox { enabled : bool; checked : bool }.

(** A child node of the table body: a row, with its [rowIndex], whether
    it carries the class [selected] and the checkboxes of its cells, or a
    node that is not an element (text, comment). *)
Inductive Node :=
| Row (rowIndex : Z) (selected : bool) (boxes : list Checkbox)
| Other.

Definition nodeType (n : Node) : nat :=
  match n with Row _ _ _ => 1 | Other => 3 end.

(** [n.rowIndex]; [None] is [undefined]. *)
Definition row_index (n : Node) : option Z :=
  match n with Row z _ _ => Some z | Other => None end.

Definition boxes_of (n : Node) : list Checkbox :=
  match n with Row _ _ bs => bs | Other => [] end.

(** [a > b]; a comparison with [undefined] is false. *)
Definition gt (a b : option Z) : bool :=
  match a, b with
  | Some x, Some y => (x >? y)%Z
  | _, _ => false
  end.

(** [$i.toggleClass("selected", state)] followed by
    [$i.find("input[type=checkbox]").prop("checked", state)]. *)
Definition set_state (state : bool) (n : Node) : Node :=
  match n with
  | Row z _ bs => Row z state (map (fun c => mkCheckbox (enabled c) state) bs)
  | Other => Other
  end.

(** The sibling loop of [tableSelectRange] over the nodes [l] that follow
    the start in the direction of travel; [stop k] tells whether the
    [k]-th of them is the node [to]. *)
Fixpoint walk (state : bool) (stop : nat -> bool) (k : nat) (l : list Node)
  : list Node :=
  match l with
  | [] => []
  | n :: rest =>
      if negb (Nat.eqb (nodeType n) 1) then n :: walk state stop (S k) rest
      else if stop k then set_state state n :: rest
      else set_state state n :: walk state stop (S k) rest
  end.

(** The element handed over as [to]: a sibling of [from], named by its
    position, or an element that is not among the siblings. *)
Inductive place := Here (q : nat) | Elsewhere (rowIndex : Z).

(** [Drupal.tableSelectRange(from, to, state)] on the sibling list
    [rows]; [from] is a position in it. *)
Definition tableSelectRange (rows : list Node) (from : nat) (to : place)
           (state : bool) : option (list Node) :=
  f ← rows !! from;
  to_index ← match to with
             | Here q => row_index <$> rows !! q
             | Elsewhere z => Some (Some z)
             end;
  let same i := match to with Here q => Nat.eqb i q | Elsewhere _ => false end in
  if gt (row_index f) to_index then
    Some (rev (walk state (fun k => same (from - 1 - k)) 0 (rev (take from rows)))
          ++ drop from rows)%list
  else
    Some (take (S from) rows
          ++ walk state (fun k => same (from + 1 + k)) 0 (drop (S from) rows))%list.

(** A select-all checkbox in the table header or in its sticky copy. *)
Record SelectAll := mkSelectAll { all_checked : bool; all_title : string }.

Definition selectAll_text : string := "Select all rows in this table".
Definition selectNone_text : string := "Deselect all rows in this table".

(** The table and the variables the handlers close over.  [lastChecked]
    names a checkbox by the position of its row and its position in the
    row. *)
Record Table := mkTable {
  rows : list Node;
  select_all : list SelectAll;
  lastChecked : option (nat * nat) }.

(** [updateSelectAll(state)]. *)
Definition updateSelectAll (state : bool) (t : Table) : Table :=
  mkTable (rows t)
          (map (fun _ => mkSelectAll state
                           (if state then selectNone_text else selectAll_text))
               (select_all t))
          (lastChecked t).

(** [checkboxes]: the enabled checkboxes of the table cells. *)
Definition checkboxes (l : list Node) : list Checkbox :=
  List.filter enabled (flat_map boxes_of l).

(** [checkboxes.length === checkboxes.filter(":checked").length]. *)
Definition all_boxes_checked (l : list Node) : bool :=
  Nat.eqb (length (checkboxes l)) (length (List.filter checked (checkboxes l))).

(** The click handler of the select-all checkbox at position [j]; the
    browser has toggled the box when the handler runs. *)
Definition select_all_click (j : nat) (t : Table) : option Table :=
  a ← select_all t !! j;
  let v := negb (all_checked a) in
  let each n :=
    match n with
    | Row z sel bs =>
        Row z (if existsb enabled bs then v else sel)
            (map (fun c => if enabled c then mkCheckbox true v else c) bs)
    | Other => Other
    end in
  Some (updateSelectAll v
          (mkTable (map each (rows t))
                   (<[j := mkSelectAll v (all_title a)]> (select_all t))
                   (lastChecked t))).

(** The click handler of the enabled checkbox at position [b] of the row
    at position [r]; a click on a disabled checkbox does nothing. *)
Definition row_click (r b : nat) (shiftKey : bool) (t : Table) : option Table :=
  n ← rows t !! r;
  match n with
  | Other => None
  | Row z sel bs =>
      c ← bs !! b;
      if enabled c then
        let v := negb (checked c) in
        let rows1 := <[r := Row z v (<[b := mkCheckbox true v]> bs)]> (rows t) in
        rows2 ← (match lastChecked t with
                 | Some (r', b') =>
                     if shiftKey && negb (Nat.eqb r r' && Nat.eqb b b')
                     then tableSelectRange rows1 r (Here r') v
                     else Some rows1
                 | None => Some rows1
                 end);
        Some (updateSelectAll (all_boxes_checked rows2)
                (mkTable rows2 (select_all t) (Some (r, b))))
      else Some t
  end.

End TableSelect.

(** ** Drupal: sticky table headers ([Drupal.TableHeader]) *)

Module TableHeader.

#[local] Open Scope Z_scope.

(** What the handlers read from the page; lengths are whole pixels. *)
Record Page := mkPage {
  documentElement_scrollTop : Z;
  body_scrollTop : Z;
  documentElement_scrollLeft : Z;
  body_scrollLeft : Z;
  displace_offsets_top : Z }.

Inductive position := scrollTop | scrollLeft.

(** [document.documentElement[position] || document.body[position]]. *)
Definition scrollValue (p : Page) (pos : position) : Z :=
  let d := match pos with
           | scrollTop => documentElement_scrollTop p
           | scrollLeft => documentElement_scrollLeft p
           end in
  if d =? 0 then match pos with
                 | scrollTop => body_scrollTop p
                 | scrollLeft => body_scrollLeft p
                 end
  else d.

(** The table header object and the inline style of its sticky copy;
    [css_top = Some z] is the declaration [top: z px]. *)
Record t := mkTableHeader {
  tableOffset_top : Z;
  tableOffset_left : Z;
  tableHeight : Z;
  stickyVisible : bool;
  css_top : option Z;
  css_left : option Z;
  css_visible : bool }.

Definition minHeight : Z := 100.

(** [stickyPosition(offsetTop, offsetLeft)]; [None] is an argument that
    is not a number. *)
Definition stickyPosition (offsetTop offsetLeft : option Z) (h : t) : t :=
  mkTableHeader (tableOffset_top h) (tableOffset_left h) (tableHeight h)
    (stickyVisible h)
    (match offsetTop with Some z => Some z | None => css_top h end)
    (match offsetLeft with Some z => Some (tableOffset_left h - z) | None => css_left h end)
    (css_visible h).

Definition checkStickyVisible (p : Page) (h : t) : bool * t :=
  let scroll := scrollValue p scrollTop in
  let tableTop := tableOffset_top h - displace_offsets_top p in
  let tableBottom := tableTop + tableHeight h in
  let visible := (tableTop <? scroll) && (scroll <? tableBottom - minHeight) in
  (visible,
   mkTableHeader (tableOffset_top h) (tableOffset_left h) (tableHeight h)
     visible (css_top h) (css_left h) (css_visible h)).

Definition onScroll (p : Page) (h : t) : t :=
  let h := (checkStickyVisible p h).2 in
  let h := stickyPosition None (Some (scrollValue p scrollLeft)) h in
  mkTableHeader (tableOffset_top h) (tableOffset_left h) (tableHeight h)
    (stickyVisible h) (css_top h) (css_left h) (stickyVisible h).

End TableHeader.

(** ** Drupal: responsive tables ([Drupal.TableResponsive]) *)

Module TableResponsive.

(** [a.split(";")]; the result is never empty. *)
Fixpoint split_semicolon (a : string) : list string :=
  match a with
  | String c rest =>
      if Ascii.eqb c ";" then "" :: split_semicolon rest
      else match split_semicolon rest with
           | tok :: toks => String c tok :: toks
           | [] => [String c ""]
           end
  | EmptyString => [""]
  end.

(** [l.join(";")]. *)
Fixpoint join_semicolon (l : list string) : string :=
  match l with
  | [] => ""
  | [x] => x
  | x :: rest => x ++ ";" ++ join_semicolon rest
  end.

(** [s] without the literal prefix [p], when it starts with it. *)
Fixpoint strip_prefix (p s : string) : option string :=
  match p, s with
  | EmptyString, _ => Some s
  | String a p', String b s' => if Ascii.eqb a b then strip_prefix p' s' else None
  | String _ _, EmptyString => None
  end.

(** [/^display\s*\:\s*none$/.exec(prop)] finds a match. *)
Definition is_display_none (prop : string) : bool :=
  match strip_prefix "display" prop with
  | Some r =>
      match Text.drop_spaces r with
      | String c r' => Ascii.eqb c ":" && String.eqb (Text.drop_spaces r') "none"
      | EmptyString => false
      end
  | None => false
  end.

(** The callback of [eventhandlerToggleColumns] that rewrites the style
    attribute of a cell it hides again.  The value of [prop.trim()] is
    not used: every property is tested as [split] returned it. *)
Definition restore_style (style : string) : string :=
  join_semicolon
    (List.filter (fun prop => negb (is_display_none prop)) (split_semicolon style)).

(** The toggle link: whether it is displayed, its text and the value
    stored under the data key [pegged]. *)
Record Link := mkLink {
  displayed : bool;
  link_text : string;
  data_pegged : option Z }.

Definition showText : string := "Show all columns".
Definition hideText : string := "Hide lower priority columns".

(** [!parseInt(data, 10)]: true for a missing value and for zero. *)
Definition not_pegged (d : option Z) : bool :=
  match d with Some z => (z =? 0)%Z | None => true end.

(** [eventhandlerEvaluateColumnVisibility] when [hiddenLength] headers
    of low or medium priority are hidden. *)
Definition eventhandlerEvaluateColumnVisibility (hiddenLength : nat) (l : Link)
  : Link :=
  let l := if Nat.ltb 0 hiddenLength
           then mkLink true showText (data_pegged l) else l in
  if not_pegged (data_pegged l) && Nat.eqb hiddenLength 0
  then mkLink false hideText (data_pegged l)
  else l.

End TableResponsive.

(** ** Drupal: attaching Chosen to select elements ([Drupal.behaviors.chosen]) *)

Module DrupalChosen.

(** A CSS width: a number of pixels or a string the site supplies. *)
Inductive css_width := Px (z : Z) | Given (s : string).

(** [Drupal.behaviors.chosen.settings]; [None] is an absent key. *)
Record Settings := mkSettings {
  minimum_single : option Z;
  minimum_multiple : option Z;
  minimum_width : option Z;
  options : Chosen.Options;
  options_width : option css_width }.

(** A select element of the page: the host control, whether it matches
    the selectors of the settings, its rendered width and its
    [data-cardinality]. *)
Record Element := mkElement {
  select : Dom.Select;
  matches_selector : bool;
  matches_ignoreSelector : bool;
  matches_optedInSelector : bool;
  width : Z;
  data_cardinality : option Z }.

(** Truthiness of a number that may be absent. *)
Definition truthy (x : option Z) : bool :=
  match x with Some z => negb (z =? 0)%Z | None => false end.

(** [n >= m]; false when [m] is [undefined]. *)
Definition count_ge (n : nat) (m : option Z) : bool :=
  match m with Some z => (z <=? Z.of_nat n)%Z | None => false end.

Definition filterElements (st : Settings) (e : Element) : bool :=
  if matches_ignoreSelector e then false
  else
    let minOptions := if Dom.multiple (select e)
                      then minimum_multiple st else minimum_single st in
    negb (truthy minOptions) || count_ge (length (Dom.options (select e))) minOptions.

(** [$context.find(selector)]: the positions, in document order, of the
    elements of the context that satisfy [p]. *)
Definition find (p : Element -> bool) (context : list Element) : list nat :=
  List.filter (fun i => match context !! i with Some e => p e | None => false end)
              (seq 0 (length context)).

(** [$elements.filter(callback)]. *)
Definition jq_filter (p : Element -> bool) (context : list Element)
           (elements : list nat) : list nat :=
  List.filter (fun i => match context !! i with Some e => p e | None => false end)
              elements.

Definition mem (i : nat) (l : list nat) : bool := existsb (Nat.eqb i) l.

(** [$a.add($b)]: the union, in document order and without
    duplicates. *)
Definition jq_add (context : list Element) (a b : list nat) : list nat :=
  List.filter (fun i => mem i a || mem i b) (seq 0 (length context)).

(** [getElements(context)] with the default selector. *)
Definition getElements (st : Settings) (context : list Element) : list nat :=
  let elements := find matches_selector context in
  let elements := jq_filter (filterElements st) context elements in
  jq_add context elements (find matches_optedInSelector context).

Definition with_max_selected_options (v : option Z) (o : Chosen.Options)
  : Chosen.Options :=
  Chosen.mkOptions
    (Chosen.opt_enable_split_word_search o) (Chosen.opt_group_search o)
    (Chosen.opt_search_contains o) v
    (Chosen.opt_display_selected_options o) (Chosen.opt_display_disabled_options o)
    (Chosen.opt_include_group_label_in_selected o) (Chosen.opt_max_shown_results o)
    (Chosen.opt_case_sensitive_search o) (Chosen.opt_hide_results_on_select o)
    (Chosen.opt_placeholder_text_multiple o) (Chosen.opt_placeholder_text_single o)
    (Chosen.opt_placeholder_text o) (Chosen.opt_no_results_text o).

(** [getElementOptions(element)]: the Chosen options and the [width]
    key of the options object. *)
Definition getElementOptions (st : Settings) (e : Element)
  : Chosen.Options * option css_width :=
  let w :=
    match minimum_width st with
    | Some m =>
        if (0 <? m)%Z then
          if (width e <? m)%Z then Some (Px m) else Some (Px (width e))
        else options_width st
    | None => options_width st
    end in
  let o :=
    if Dom.multiple (select e) && truthy (data_cardinality e)
    then with_max_selected_options (data_cardinality e) (options st)
    else options st in
  (o, w).


(** [this.container_width()] of the widget constructed with the given
    [width] option on a host control of the given [offsetWidth]. *)
Definition container_width (w : option css_width) (offsetWidth : Z) : css_width :=
  match w with Some x => x | None => Px offsetWidth end.

End DrupalChosen.

(** ** Chosen: updates of the host control, the deselect control and the
       backspace key *)

Module Widget.

Import SelectParser Chosen.


(** [results_reset_cleanup]; the removal of the deselect control is a
    DOM write that nothing reads back. *)
Definition results_reset_cleanup (s : t) : t :=
  set_current_selectedIndex (Dom.selectedIndex (form_field s)) s.



(** The value [set_default_values] stores as [allow_single_deselect]:
    the option is honoured only when the first option of the host
    control exists and has an empty text. *)
Definition allow_single_deselect (opt : option bool) (f : Dom.Select) : bool :=
  match opt, Dom.options f !! 0 with
  | Some b, Some o0 => if String.eqb (Dom.text o0) "" then b else false
  | _, _ => false
  end.

(** [results_reset], the handler of a click on the deselect control of
    a single select. *)
Definition results_reset (s : t) : option t :=
  let s := reset_single_select_options s in
  f ← Dom.write_selected 0 true (form_field s);
  let s := set_form_field f s in
  let s := single_set_selected_text None s in
  let s := show_search_field_default s in
  let s := results_reset_cleanup s in
  let s := trigger_form_field_change no_data s in
  Some (if active_field s then results_hide s else s).

(** The choice [choice_build] appends for the entry [c]. *)
Definition choice_of (s : t) (c : item) : choice :=
  mkChoice ("<span>" ++ choice_label s c ++ "</span>") (disabled c)
           (if disabled c then None else Some (array_index c)).

(** *** The backspace key

    The widget together with what the key handlers keep between two key
    events: the choice a first backspace has marked, by its position in
    the choice list, and the length of the search text at the last
    backspace.  Between two key events no other handler runs. *)
Record keys := mkKeys {
  widget : t;
  single_backstroke_delete : bool;
  pending_backstroke : option nat;
  backstroke_length : nat }.

Definition set_widget (w : t) (k : keys) : keys :=
  mkKeys w (single_backstroke_delete k) (pending_backstroke k) (backstroke_length k).

Definition clear_backstroke (k : keys) : keys :=
  mkKeys (widget k) (single_backstroke_delete k) None (backstroke_length k).

(** [choice_destroy(pending_backstroke.find("a").first())] followed by
    [clear_backstroke()]. *)
Definition destroy_pending (n : nat) (k : keys) : option keys :=
  ch ← search_choices (widget k) !! n;
  a ← choice_close_index ch;
  w ← choice_destroy n a (widget k);
  Some (clear_backstroke (set_widget w k)).

Definition keydown_backstroke (k : keys) : option keys :=
  match pending_backstroke k with
  | Some n => destroy_pending n k
  | None =>
      match last (search_choices (widget k)) with
      | Some ch =>
          if negb (choice_disabled ch) then
            let n := length (search_choices (widget k)) - 1 in
            let k := mkKeys (widget k) (single_backstroke_delete k) (Some n)
                            (backstroke_length k) in
            if single_backstroke_delete k then destroy_pending n k else Some k
          else Some k
      | None => Some k
      end
  end.

End Widget.

(** ** Definitions for the analysis of the selection *)

Module Coherence.

Import SelectParser Chosen Analysis.

(** Every rendered entry that carries an array index names a parsed
    option with a text; an entry that can be picked names one that is not
    disabled. *)
Definition entries_on (lis : list li) (data : list item) : Prop :=
  forall k e idx, lis !! k = Some e -> li_data_index e = Some idx ->
    exists c, data !! idx = Some c /\ group c = false /\ empty c = false
              /\ (hasClass cls_active_result e = true -> disabled c = false).

(** Every close link names a parsed option with a text that is not
    disabled. *)
Definition links_on (chs : list choice) (data : list item) : Prop :=
  forall n ch idx, chs !! n = Some ch -> choice_close_index ch = Some idx ->
    exists c, data !! idx = Some c /\ group c = false /\ empty c = false
              /\ disabled c = false.

(** The highlighted entry is one that can be picked. *)
Definition highlight_active (h : option nat) (lis : list li) : Prop :=
  forall k, h = Some k ->
    exists e, lis !! k = Some e /\ hasClass cls_active_result e = true.

(** The parsed entries are the ones a fresh parse of the host control
    gives, up to the fields the filter writes. *)
Definition parsed_from (f : Dom.Select) (data : list item) : Prop :=
  exists fresh, select_to_array f = Some fresh
                /\ map skeleton data = map skeleton fresh.

(** What holds of the widget besides its invariant: its entries are
    the ones a fresh parse gives, the rendered list and the close links
    name entries that can be picked, a choice that is not disabled has a
    close link, and a single select has no choices and remembers the
    selected index of its host control. *)
Record sound (s : Chosen.t) : Prop := mkSound {
  snd_data : parsed_from (form_field s) (results_data s);
  snd_entries : entries_on (search_results s) (results_data s);
  snd_links : links_on (search_choices s) (results_data s);
  snd_closable : forall n ch, search_choices s !! n = Some ch ->
                   choice_disabled ch = false -> is_Some (choice_close_index ch);
  snd_highlight : highlight_active (result_highlight s) (search_results s);
  snd_multiple : is_multiple s = Dom.multiple (form_field s);
  snd_single : is_multiple s = false ->
               search_choices s = []
               /\ current_selectedIndex s = Dom.selectedIndex (form_field s) }.

(** [s'] differs from [s] in nothing that concerns the selection. *)
Definition quiet (s s' : Chosen.t) : Prop :=
  config s' = config s /\ is_multiple s' = is_multiple s
  /\ form_field s' = form_field s
  /\ map skeleton (results_data s') = map skeleton (results_data s)
  /\ search_choices s' = search_choices s
  /\ current_selectedIndex s' = current_selectedIndex s.

(** [s'] differs from [s] in nothing that concerns the selection, and
    its rendered list and highlight are in order if [s] is. *)
Definition calm (s s' : Chosen.t) : Prop :=
  quiet s s'
  /\ (sound s ->
      entries_on (search_results s') (results_data s')
      /\ highlight_active (result_highlight s') (search_results s')).

(** What a fresh parse makes of the entry [c] once the host control of
    mode [m] has had [options[i].selected = b] written to it. *)
Definition rewritten (m : bool) (i : nat) (b : bool) (c : item) : item :=
  match options_index c with
  | Some j =>
      if group c || empty c then c
      else if Nat.eqb j i then set_selected b c
      else if b && negb m then set_selected false c
      else c
  | None => c
  end.

(** An entry without its selected flag and without the fields the filter
    writes. *)
Definition fixed (c : item) : item := set_selected false (skeleton c).

(** From [s] to [s'] no disabled entry has changed its selected flag,
    except that in a single select such an entry may have lost it. *)
Definition disabled_kept (s s' : Chosen.t) : Prop :=
  is_multiple s' = is_multiple s
  /\ map fixed (results_data s') = map fixed (results_data s)
  /\ forall j c c',
       results_data s !! j = Some c -> results_data s' !! j = Some c' ->
       disabled c = true ->
       (selected c = false -> selected c' = false)
       /\ (is_multiple s = true -> selected c' = selected c).

(** The widget [s] once [result_deselect] has cleared the selected flag
    of the entry at [a] and written the host control [f]. *)
Definition written_off (a : nat) (f : Dom.Select) (s : Chosen.t) : Chosen.t :=
  set_selected_option_count None
    (set_form_field f
       (set_results_data (alter (set_selected false) a (results_data s)) s)).

(** [reset_single_select_options] on the entries. *)
Definition unselect_all (data : list item) : list item :=
  map (fun a => if selected a then set_selected false a else a) data.

(** The entries after the option of the entry at [idx] has been picked
    in the widget [s]. *)
Definition picked_data (s : Chosen.t) (idx : nat) : list item :=
  alter (set_selected true) idx
    (if is_multiple s then results_data s else unselect_all (results_data s)).

(** The rendered list after the highlighted entry at position [k] has
    been picked. *)
Definition picked_entries (s : Chosen.t) (k : nat) : list li :=
  let lis := alter (removeClass cls_highlighted) k (search_results s) in
  alter (addClass cls_result_selected) k
    (if is_multiple s then alter (removeClass cls_active_result) k lis else lis).

(** Does a pick with the event [evt] close the results? *)
Definition hides_on_select (evt : dom_event) (s : Chosen.t) : bool :=
  negb (is_multiple s)
  || hide_results_on_select (config s) && negb (metaKey evt) && negb (ctrlKey evt).

(** The events a pick triggers that makes [f] of the host control and
    picks the option of value [v]. *)
Definition select_events (evt : dom_event) (s : Chosen.t) (f : Dom.Select)
           (v : string) : list event :=
  ((if hides_on_select evt s && results_showing s
    then [chosen_hiding_dropdown] else [])
   ++ (if is_multiple s || negb (Dom.selectedIndex f =? current_selectedIndex s)%Z
       then [input_event (selected_value v); change_event (selected_value v)]
       else []))%list.

End Coherence.

(** * Properties *)

Import SelectParser Chosen Reference Analysis.

Ltac ascii_cases c := destruct c as [[] [] [] [] [] [] [] []].

(** Equality of two terms that differ in arithmetic subterms only. *)
Ltac struct_eq := solve [reflexivity | lia | f_equal; struct_eq].

(** ** Patterns *)

Lemma special_char_escape c :
  Text.is_regex_special c = true ->
  Ascii.eqb c "b" = false /\ Text.is_alnum c = false.
Proof. ascii_cases c; vm_compute; intros; try discriminate; auto. Qed.

Lemma plain_char_literal c :
  Text.is_regex_special c = false ->
  Ascii.eqb c "\" = false /\ Ascii.eqb c "^" = false
  /\ Text.mem_char c Text.syntax_chars = false.
Proof. ascii_cases c; vm_compute; intros; try discriminate; auto. Qed.

(** The escaped query compiles to the literal characters of the query. *)
Lemma compile_escape_regex g :
  Text.compile (Text.escape_regex g)
  = Some (map Text.AChar (list_ascii_of_string g)).
Proof.
  induction g as [|c g IH]; [reflexivity|].
  unfold Text.escape_regex in *. cbn [Text.replace_chars].
  destruct (Text.is_regex_special c) eqn:E.
  - destruct (special_char_escape c E) as [Hb Ha].
    cbn. rewrite Hb, Ha, IH. reflexivity.
  - destruct (plain_char_literal c E) as (Hs & Hc & Hm).
    cbn [Text.compile]. rewrite Hs, Hc, Hm, IH. reflexivity.
Qed.

(** C8. With split-word search on and the default prefix, case-insensitive
    matching, the query lan does not match the text New Zealand: the
    pattern fails on the whole text and on each of its tokens New and
    Zealand.  The query Zea matches it, through the token Zealand. *)
Theorem split_word_new_zealand (s : Chosen.t) :
  enable_split_word_search (config s) = true ->
  search_contains (config s) = false ->
  case_sensitive_search (config s) = false ->
  Text.split_space (Text.strip_brackets "New Zealand") = ["New"; "Zealand"]
  /\ Text.test (get_search_regex s (Text.escape_regex "lan")) "New Zealand" = false
  /\ Forall (fun tok => Text.test (get_search_regex s (Text.escape_regex "lan")) tok = false)
            ["New"; "Zealand"]
  /\ search_string_match s "New Zealand" (get_search_regex s (Text.escape_regex "lan")) = false
  /\ Text.test (get_search_regex s (Text.escape_regex "Zea")) "Zealand" = true
  /\ search_string_match s "New Zealand" (get_search_regex s (Text.escape_regex "Zea")) = true.
Proof.
  intros Hsplit Hcontains Hcase.
  unfold search_string_match, get_search_regex.
  rewrite Hsplit, Hcontains, Hcase.
  repeat split; try reflexivity.
  repeat constructor.
Qed.

Lemma split_word_new_zealand_witness :
  search_string_match (Examples.blank false Examples.no_options) "New Zealand"
    (get_search_regex (Examples.blank false Examples.no_options)
       (Text.escape_regex "lan")) = false
  /\ search_string_match (Examples.blank false Examples.no_options) "New Zealand"
       (get_search_regex (Examples.blank false Examples.no_options)
          (Text.escape_regex "Zea")) = true.
Proof.
  pose proof (split_word_new_zealand (Examples.blank false Examples.no_options)
                eq_refl eq_refl eq_refl) as H.
  split; [apply H | apply H].
Defined.

(** C3, as the code has it.  The highlight pattern is built from the same
    escaped query and the same case flag as the match pattern.  In
    contains mode neither carries an assertion.  Otherwise the match
    pattern starts with the start-of-string assertion and the highlight
    pattern with the word-boundary assertion. *)
Theorem highlight_pattern_word_boundary (s : Chosen.t) (g : string) :
  Text.flags (get_highlight_regex s (Text.escape_regex g))
  = Text.flags (get_search_regex s (Text.escape_regex g))
  /\ Text.compile (Text.source (get_search_regex s (Text.escape_regex g)))
     = Some ((if search_contains (config s) then [] else [Text.AStart])
             ++ map Text.AChar (list_ascii_of_string g))%list
  /\ Text.compile (Text.source (get_highlight_regex s (Text.escape_regex g)))
     = Some ((if search_contains (config s) then [] else [Text.AWordBoundary])
             ++ map Text.AChar (list_ascii_of_string g))%list.
Proof.
  unfold get_highlight_regex, get_search_regex.
  destruct (search_contains (config s)); cbn [Text.flags Text.source];
    repeat split.
  - apply compile_escape_regex.
  - apply compile_escape_regex.
  - change (fmap (cons Text.AStart) (Text.compile (Text.escape_regex g))
            = Some (Text.AStart :: map Text.AChar (list_ascii_of_string g))).
    now rewrite compile_escape_regex.
  - change (fmap (cons Text.AWordBoundary) (Text.compile (Text.escape_regex g))
            = Some (Text.AWordBoundary :: map Text.AChar (list_ascii_of_string g))).
    now rewrite compile_escape_regex.
Qed.

(** C3 as stated fails: with contains mode off, the highlight pattern for
    the query lan is not the bare query.  It carries the word-boundary
    assertion, and so finds nothing in Zealand, where the pattern without
    any assertion matches at position 3. *)
Lemma highlight_pattern_is_anchored :
  let s := Examples.blank false Examples.no_options in
  search_contains (config s) = false
  /\ get_highlight_regex s (Text.escape_regex "lan")
     <> Text.mkRegExp (Text.escape_regex "lan") "i"
  /\ Text.source (get_highlight_regex s (Text.escape_regex "lan")) = "\blan"
  /\ Text.search "Zealand" (get_highlight_regex s (Text.escape_regex "lan")) = (-1)%Z
  /\ Text.search "Zealand" (Text.mkRegExp (Text.escape_regex "lan") "i") = 3%Z.
Proof.
  cbv zeta. split; [reflexivity|]. split.
  - intros H. vm_compute in H. discriminate H.
  - repeat split; reflexivity.
Qed.

(** ** The selection limit *)

Lemma choices_count_fields s :
  let s' := snd (choices_count s) in
  config s' = config s /\ is_multiple s' = is_multiple s
  /\ form_field s' = form_field s /\ results_data s' = results_data s
  /\ results_showing s' = results_showing s
  /\ result_highlight s' = result_highlight s
  /\ search_results s' = search_results s
  /\ search_choices s' = search_choices s
  /\ search_field_val s' = search_field_val s
  /\ active_field s' = active_field s
  /\ default_text s' = default_text s
  /\ triggered s' = triggered s.
Proof.
  unfold choices_count. destruct (selected_option_count s); cbn; repeat split.
Qed.

Lemma results_show_full s :
  is_multiple s = true ->
  num_le_count (max_selected_options (config s)) (fst (choices_count s)) = true ->
  results_show s = Some (trigger chosen_maxselected (snd (choices_count s))).
Proof.
  intros Hm Hfull. unfold results_show. rewrite Hm.
  pose proof (choices_count_fields s) as F. revert F Hfull.
  destruct (choices_count s) as [n s']. cbn.
  intros (-> & _) ->. reflexivity.
Qed.

Lemma result_clear_highlight_fields s :
  let s' := result_clear_highlight s in
  config s' = config s /\ is_multiple s' = is_multiple s
  /\ form_field s' = form_field s /\ results_data s' = results_data s
  /\ results_showing s' = results_showing s
  /\ selected_option_count s' = selected_option_count s
  /\ search_choices s' = search_choices s
  /\ search_field_val s' = search_field_val s
  /\ active_field s' = active_field s
  /\ default_text s' = default_text s
  /\ triggered s' = triggered s
  /\ result_highlight s' = None.
Proof.
  unfold result_clear_highlight. destruct (result_highlight s); cbn; repeat split.
Qed.

Lemma result_select_full evt s k :
  result_highlight s = Some k ->
  is_multiple s = true ->
  num_le_count (max_selected_options (config s))
    (fst (choices_count (result_clear_highlight s))) = true ->
  result_select evt s
  = Some (trigger chosen_maxselected (snd (choices_count (result_clear_highlight s)))).
Proof.
  intros Hk Hm Hfull. unfold result_select. rewrite Hk.
  pose proof (result_clear_highlight_fields s) as F. cbn in F.
  destruct F as (Fc & Fm & _).
  rewrite Fm, Hm.
  pose proof (choices_count_fields (result_clear_highlight s)) as G.
  revert G Hfull.
  destruct (choices_count (result_clear_highlight s)) as [n s']. cbn.
  intros (-> & _). rewrite Fc. intros ->. reflexivity.
Qed.

(** The falsy settings of the limit default to infinity. *)
Lemma absent_or_zero_limit_is_infinity o :
  opt_max_selected_options o = None \/ opt_max_selected_options o = Some 0%Z ->
  max_selected_options (set_default_values o) = Infinity.
Proof. intros [H|H]; cbn; rewrite H; reflexivity. Qed.

(** C2, as the code has it.  An absent or zero limit is replaced by
    infinity.  A negative limit is kept as it is given; a multiple select
    then refuses every opening of the results and every selection of a
    highlighted entry, each time with the maxselected notification, and
    neither the host control, nor the parsed entries, nor the visibility
    of the results change.  Both operations return normally. *)
Theorem negative_limit_rejects_everything (o : Options) :
  (opt_max_selected_options o = None \/ opt_max_selected_options o = Some 0%Z ->
   max_selected_options (set_default_values o) = Infinity)
  /\ forall z : Z,
      opt_max_selected_options o = Some z ->
      (z < 0)%Z ->
      max_selected_options (set_default_values o) = Num z
      /\ forall s : Chosen.t,
           config s = set_default_values o ->
           is_multiple s = true ->
           (exists s', results_show s = Some s'
              /\ triggered s' = (triggered s ++ [chosen_maxselected])%list
              /\ results_showing s' = results_showing s
              /\ form_field s' = form_field s
              /\ results_data s' = results_data s)
           /\ (forall evt k, result_highlight s = Some k ->
               exists s', result_select evt s = Some s'
                 /\ triggered s' = (triggered s ++ [chosen_maxselected])%list
                 /\ results_showing s' = results_showing s
                 /\ form_field s' = form_field s
                 /\ results_data s' = results_data s).
Proof.
  split; [apply absent_or_zero_limit_is_infinity|].
  intros z Hz Hneg.
  assert (Hmax : max_selected_options (set_default_values o) = Num z).
  { cbn. rewrite Hz. cbn. destruct (Z.eqb_spec z 0); [lia | reflexivity]. }
  split; [exact Hmax|].
  intros s Hc Hm.
  assert (Hfull : forall n, num_le_count (max_selected_options (config s)) n = true).
  { intros n. rewrite Hc, Hmax. cbn. apply Z.leb_le. lia. }
  split.
  - eexists. split; [apply results_show_full; [exact Hm | apply Hfull]|].
    pose proof (choices_count_fields s) as F. cbn in F.
    destruct F as (_ & _ & Ff & Fd & Fs & _ & _ & _ & _ & _ & _ & Ft).
    cbn. rewrite Ft, Fs, Ff, Fd. repeat split.
  - intros evt k Hk.
    eexists. split; [apply (result_select_full evt s k Hk Hm); apply Hfull|].
    pose proof (choices_count_fields (result_clear_highlight s)) as F. cbn in F.
    destruct F as (_ & _ & Ff & Fd & Fs & _ & _ & _ & _ & _ & _ & Ft).
    pose proof (result_clear_highlight_fields s) as G. cbn in G.
    destruct G as (_ & _ & Gf & Gd & Gs & _ & _ & _ & _ & _ & Gt & _).
    cbn. rewrite Ft, Fs, Ff, Fd, Gt, Gs, Gf, Gd. repeat split.
Qed.

Lemma negative_limit_rejects_everything_witness :
  max_selected_options (set_default_values (Examples.with_max (Some (-1)%Z)))
  = Num (-1)
  /\ exists s',
      results_show (Examples.blank true (Examples.with_max (Some (-1)%Z))) = Some s'
      /\ triggered s' = [chosen_maxselected].
Proof.
  destruct (negative_limit_rejects_everything (Examples.with_max (Some (-1)%Z)))
    as [_ H].
  destruct (H (-1)%Z eq_refl eq_refl) as [H1 H2].
  split; [exact H1|].
  destruct (H2 (Examples.blank true (Examples.with_max (Some (-1)%Z)))
               eq_refl eq_refl) as [(s' & Hs & Ht & _) _].
  exists s'. split; [exact Hs | exact Ht].
Defined.

(** C2 as stated fails: on the same multiple select with nothing selected,
    the limit -1 is stored as -1, not as infinity; opening the results is
    refused with a maxselected notification, while with the limit absent
    the results open. *)
Lemma negative_limit_is_not_unbounded :
  max_selected_options (set_default_values (Examples.with_max (Some (-1)%Z)))
  <> Infinity
  /\ (s ← create (Examples.countries false) (Examples.with_max (Some (-1)%Z));
      s' ← container_mousedown None s; Some (results_showing s', triggered s'))
     = Some (false, [chosen_ready; chosen_maxselected])
  /\ (s ← create (Examples.countries false) (Examples.with_max None);
      s' ← container_mousedown None s; Some (results_showing s', triggered s'))
     = Some (true, [chosen_ready; chosen_showing_dropdown]).
Proof.
  split; [discriminate|]. split; vm_compute; reflexivity.
Qed.

(** ** The parser *)

Lemma set_children_twice v w g : set_children v (set_children w g) = set_children v g.
Proof. reflexivity. Qed.

Lemma add_options_spec l :
  forall pre g done_ oi gdis k,
    children g = Some k ->
    add_options l (Some (length pre)) (Some gdis) (mkParser oi (pre ++ g :: done_))
    = Some (mkParser
              (oi + length (List.filter (Dom.is_element "OPTION") l))
              (pre ++ set_children
                        (Some (k + length (List.filter nonempty_text
                                             (List.filter (Dom.is_element "OPTION") l)))) g
                   :: done_
                   ++ child_records (length pre) (label g) gdis
                        (length pre + 1 + length done_) oi
                        (List.filter (Dom.is_element "OPTION") l))%list).
Proof.
  induction l as [|a l IH]; intros pre g done_ oi gdis k Hk.
  - cbn. rewrite !Nat.add_0_r, app_nil_r.
    destruct g; cbn in *; subst; reflexivity.
  - cbn [add_options List.filter]. unfold add_option.
    destruct (Dom.is_element "OPTION" a) eqn:Ea.
    + cbn [parsed parser_options_index].
      fold (nonempty_text a).
      destruct (nonempty_text a) eqn:Et.
      * rewrite list_lookup_middle by reflexivity. cbn [mbind option_bind].
        rewrite alter_app_r_alt by lia. rewrite Nat.sub_diag. cbn [alter list_alter].
        rewrite Hk. cbn [incr fmap option_fmap option_map].
        rewrite <- app_assoc. cbn [app].
        rewrite (IH pre (set_children (Some (S k)) g) _ (S oi) gdis (S k) eq_refl).
        cbn [List.filter length child_records]. rewrite Et. cbn [length].
        rewrite set_children_twice.
        rewrite <- app_assoc. cbn [app]. rewrite !length_app. cbn [length].
        unfold option_record. rewrite Et. destruct gdis; cbn [orb]; struct_eq.
      * cbn [mbind option_bind].
        rewrite <- app_assoc. cbn [app].
        rewrite (IH pre g _ (S oi) gdis k Hk).
        cbn [List.filter length child_records]. rewrite Et. cbn [length].
        rewrite <- app_assoc. cbn [app]. rewrite !length_app. cbn [length].
        unfold option_record. rewrite Et. struct_eq.
    + cbn [mbind option_bind]. apply IH, Hk.
Qed.

Lemma add_node_spec a pre oi :
  add_node a (mkParser oi pre)
  = Some (mkParser (oi + length (Dom.options_of_node a))
                   (pre ++ node_records (length pre) oi a)%list).
Proof.
  unfold add_node, node_records, Dom.options_of_node.
  destruct (Dom.is_element "OPTGROUP" a) eqn:Eg.
  - unfold add_group. cbn [parsed parser_options_index].
    rewrite (add_options_spec _ pre (group_item (length pre) a) [] oi _ 0 eq_refl).
    cbn [app length label group_item]. struct_eq.
  - unfold add_option. destruct (Dom.is_element "OPTION" a) eqn:Eo.
    + unfold option_record. fold (nonempty_text a).
      destruct (nonempty_text a); cbn [parsed parser_options_index length]; struct_eq.
    + cbn [length]. rewrite app_nil_r. struct_eq.
Qed.

Lemma add_nodes_spec l :
  forall pre oi,
    add_nodes l (mkParser oi pre)
    = Some (mkParser (oi + length (flat_map Dom.options_of_node l))
                     (pre ++ flatten (length pre) oi l)%list).
Proof.
  induction l as [|a l IH]; intros pre oi.
  - cbn. rewrite app_nil_r. struct_eq.
  - cbn [add_nodes flat_map flatten]. rewrite add_node_spec. cbn [mbind option_bind].
    rewrite IH. rewrite !length_app, app_assoc. struct_eq.
Qed.

(** The parser computes the reference flattening, and never fails. *)
Lemma select_to_array_flatten f :
  select_to_array f = Some (flatten 0 0 (Dom.select_childNodes f)).
Proof. unfold select_to_array. rewrite add_nodes_spec. reflexivity. Qed.

Lemma records_from_app ai nopts d1 d2 :
  records_from ai nopts d1 ->
  records_from (ai + length d1) nopts d2 ->
  records_from ai nopts (d1 ++ d2).
Proof.
  intros H1 H2 j c Hj.
  apply lookup_app_Some in Hj as [Hj | [Hlen Hj]].
  - destruct (H1 j c Hj) as (Ha & Ho & Hg & Hgi).
    split; [exact Ha|]. split; [exact Ho|]. split; [exact Hg|].
    intros gi Hc. destruct (Hgi gi Hc) as (Hr & g & Hg' & Hgg).
    split; [exact Hr|]. exists g. split; [|exact Hgg]. now apply lookup_app_l_Some.
  - destruct (H2 _ c Hj) as (Ha & Ho & Hg & Hgi).
    split; [lia|]. split; [exact Ho|]. split; [exact Hg|].
    intros gi Hc. destruct (Hgi gi Hc) as (Hr & g & Hg' & Hgg).
    split; [lia|]. exists g. split; [|exact Hgg].
    rewrite lookup_app_r by lia.
    rewrite <- Hg'. f_equal. lia.
Qed.

Lemma child_records_lookup gi glabel gdis opts :
  forall ai oi k c,
    child_records gi glabel gdis ai oi opts !! k = Some c ->
    exists o, opts !! k = Some o
      /\ c = option_record (ai + k) (oi + k) o (Some gi) (Some glabel)
                           (gdis || Dom.disabled o).
Proof.
  induction opts as [|o opts IH]; intros ai oi k c Hk; [discriminate|].
  destruct k as [|k]; cbn in Hk.
  - exists o. split; [reflexivity|]. inversion Hk. struct_eq.
  - destruct (IH _ _ _ _ Hk) as (o' & Ho & ->).
    exists o'. split; [exact Ho|]. struct_eq.
Qed.

Lemma child_records_length gi glabel gdis opts :
  forall ai oi, length (child_records gi glabel gdis ai oi opts) = length opts.
Proof. induction opts; intros; cbn; auto. Qed.

Lemma node_records_ok ai oi nopts n :
  oi + length (Dom.options_of_node n) <= nopts ->
  records_from ai nopts (node_records ai oi n).
Proof.
  intros Hle. unfold node_records.
  destruct (Dom.is_element "OPTGROUP" n) eqn:Eg; intros j c Hj.
  - destruct j as [|j]; cbn in Hj.
    + inversion Hj; subst c; clear Hj. cbn.
      split; [lia|]. split; [discriminate|]. split; [auto|]. discriminate.
    + apply child_records_lookup in Hj as (o & Ho & ->).
      apply lookup_lt_Some in Ho as Hlt.
      assert (Hoi : exists i, Some (oi + j) = Some i /\ i < nopts)
        by (exists (oi + j); split; [reflexivity | lia]).
      unfold option_record. destruct (nonempty_text o); cbn.
      * split; [lia|]. split; [auto|]. split; [discriminate|].
        intros gi [= <-]. split; [lia|]. rewrite Nat.sub_diag.
        eexists. split; [reflexivity|]. cbn. split; [reflexivity|].
        intros ->. reflexivity.
      * split; [lia|]. split; [auto|]. split; discriminate.
  - destruct (Dom.is_element "OPTION" n) eqn:Eo; [|discriminate].
    unfold Dom.options_of_node in Hle. rewrite Eg, Eo in Hle. cbn in Hle.
    destruct j as [|j]; [|discriminate]. cbn in Hj. inversion Hj; subst c; clear Hj.
    assert (Hoi : exists i, Some oi = Some i /\ i < nopts)
      by (exists oi; split; [reflexivity | lia]).
    unfold option_record. destruct (nonempty_text n); cbn;
      (split; [lia|]; split; [auto|]; split; discriminate).
Qed.

Lemma flatten_ok nopts l :
  forall ai oi,
    oi + length (flat_map Dom.options_of_node l) <= nopts ->
    records_from ai nopts (flatten ai oi l).
Proof.
  induction l as [|n l IH]; intros ai oi Hle.
  - intros j c Hj. discriminate.
  - cbn [flatten]. cbn [flat_map] in Hle. rewrite length_app in Hle.
    apply records_from_app.
    + apply node_records_ok. lia.
    + apply IH. lia.
Qed.

(** A parsed list is well formed for its host. *)
Lemma select_to_array_well_formed f data :
  select_to_array f = Some data ->
  well_formed_data (length (Dom.options f)) data.
Proof.
  rewrite select_to_array_flatten. intros [= <-].
  apply flatten_ok. unfold Dom.options. lia.
Qed.

Lemma child_records_lookup_Some gi glabel gdis opts :
  forall ai oi k o,
    opts !! k = Some o ->
    child_records gi glabel gdis ai oi opts !! k
    = Some (option_record (ai + k) (oi + k) o (Some gi) (Some glabel)
                          (gdis || Dom.disabled o)).
Proof.
  induction opts as [|o' opts IH]; intros ai oi k o Hk; [discriminate|].
  destruct k as [|k]; cbn in Hk |- *.
  - inversion Hk. struct_eq.
  - rewrite (IH _ _ _ _ Hk). struct_eq.
Qed.

Lemma flatten_app l1 l2 :
  forall ai oi,
    flatten ai oi (l1 ++ l2)
    = (flatten ai oi l1
       ++ flatten (ai + length (flatten ai oi l1))
                  (oi + length (flat_map Dom.options_of_node l1)) l2)%list.
Proof.
  induction l1 as [|n l1 IH]; intros ai oi.
  - cbn. struct_eq.
  - cbn [app flatten flat_map]. rewrite IH, <- app_assoc, !length_app. struct_eq.
Qed.

Lemma option_record_fields ai oi o b gl d :
  let r := option_record ai oi o b gl d in
  group r = false /\ array_index r = ai /\ options_index r = Some oi
  /\ empty r = negb (nonempty_text o) /\ text r = Dom.text o
  /\ (empty r = false ->
      html r = Dom.innerHTML o /\ value r = Dom.value o
      /\ group_array_index r = b /\ disabled r = d).
Proof.
  unfold option_record. destruct (nonempty_text o) eqn:E; cbn.
  - repeat split; auto.
  - repeat split; auto; try discriminate.
    unfold nonempty_text in E. apply negb_false_iff, String.eqb_eq in E. now rewrite E.
Qed.

(** Every record of the flattening comes from a host node: a group
    record from an optgroup, an option record from a host option. *)
Lemma flatten_lookup l :
  forall ai oi j c,
    flatten ai oi l !! j = Some c ->
    (exists n, In n l /\ Dom.is_element "OPTGROUP" n = true
               /\ c = set_children
                        (Some (length (List.filter nonempty_text (Dom.options_of_node n))))
                        (group_item (ai + j) n))
    \/ (exists i o b gl d,
          flat_map Dom.options_of_node l !! i = Some o
          /\ c = option_record (ai + j) (oi + i) o b gl d).
Proof.
  induction l as [|n l IH]; intros ai oi j c Hj; [discriminate|].
  cbn [flatten] in Hj. apply lookup_app_Some in Hj as [Hj | [Hlen Hj]].
  - unfold node_records in Hj.
    destruct (Dom.is_element "OPTGROUP" n) eqn:Eg.
    + destruct j as [|j]; cbn in Hj.
      * left. exists n. split; [now left|]. split; [exact Eg|].
        inversion Hj. struct_eq.
      * right. apply child_records_lookup in Hj as (o & Ho & ->).
        exists j, o. do 3 eexists. split.
        -- cbn [flat_map]. now apply lookup_app_l_Some.
        -- struct_eq.
    + destruct (Dom.is_element "OPTION" n) eqn:Eo; [|discriminate].
      destruct j as [|j]; [|discriminate]. cbn in Hj. inversion Hj.
      right. exists 0, n. do 3 eexists. split.
      * cbn [flat_map]. unfold Dom.options_of_node at 1. rewrite Eg, Eo. reflexivity.
      * struct_eq.
  - destruct (IH _ _ _ _ Hj) as [(n' & Hin & Hg & ->) | (i & o & b & gl & d & Ho & ->)].
    + left. exists n'. split; [now right|]. split; [exact Hg|]. struct_eq.
    + right. exists (length (Dom.options_of_node n) + i), o, b, gl, d. split.
      * cbn [flat_map]. rewrite lookup_app_r by lia. rewrite <- Ho. f_equal. lia.
      * struct_eq.
Qed.

Lemma host_views_app a b :
  forall oi, host_views oi (a ++ b)
             = (host_views oi a ++ host_views (oi + length a) b)%list.
Proof.
  induction a as [|o a IH]; intros oi; cbn.
  - struct_eq.
  - rewrite IH. struct_eq.
Qed.

Lemma option_record_view ai oi o b gl d :
  option_view (option_record ai oi o b gl d)
  = (Some oi, Dom.text o, negb (nonempty_text o)).
Proof.
  destruct (option_record_fields ai oi o b gl d) as (_ & _ & H1 & H2 & H3 & _).
  unfold option_view. now rewrite H1, H2, H3.
Qed.

Lemma child_records_views gi glabel gdis opts :
  forall ai oi,
    List.filter (fun c => negb (group c)) (child_records gi glabel gdis ai oi opts)
    = child_records gi glabel gdis ai oi opts
    /\ map option_view (child_records gi glabel gdis ai oi opts) = host_views oi opts
    /\ length (List.filter (fun c => negb (group c) && negb (empty c))
                 (child_records gi glabel gdis ai oi opts))
       = length (List.filter nonempty_text opts).
Proof.
  induction opts as [|o opts IH]; intros ai oi; [cbn; auto|].
  destruct (IH (S ai) (S oi)) as (I1 & I2 & I3).
  cbn [child_records List.filter map host_views].
  destruct (option_record_fields ai oi o (Some gi) (Some glabel) (gdis || Dom.disabled o))
    as (Hg & _ & _ & He & _).
  cbn zeta in Hg, He. rewrite Hg, He, negb_involutive. cbn [negb andb].
  rewrite I1, I2, option_record_view.
  split; [reflexivity|]. split; [reflexivity|].
  destruct (nonempty_text o); cbn [length]; now rewrite I3.
Qed.

Lemma flatten_views l :
  forall ai oi,
    map option_view (List.filter (fun c => negb (group c)) (flatten ai oi l))
    = host_views oi (flat_map Dom.options_of_node l)
    /\ length (List.filter (fun c => negb (group c) && negb (empty c)) (flatten ai oi l))
       = length (List.filter nonempty_text (flat_map Dom.options_of_node l)).
Proof.
  induction l as [|n l IH]; intros ai oi; [cbn; auto|].
  cbn [flatten flat_map].
  rewrite !List.filter_app, map_app, host_views_app, !length_app.
  destruct (IH (ai + length (node_records ai oi n))
               (oi + length (Dom.options_of_node n))) as (I1 & I2).
  rewrite I1, I2. clear IH I1 I2.
  unfold node_records.
  destruct (Dom.is_element "OPTGROUP" n) eqn:Eg.
  - cbn [List.filter group set_children group_item negb andb].
    destruct (child_records_views ai (escapeExpression (Some (Dom.label n)))
                (Dom.disabled n) (Dom.options_of_node n) (S ai) oi) as (C1 & C2 & C3).
    rewrite C1, C2, C3. auto.
  - unfold Dom.options_of_node. rewrite Eg.
    destruct (Dom.is_element "OPTION" n) eqn:Eo; [|cbn; auto].
    cbn [List.filter map host_views app length].
    destruct (option_record_fields ai oi n None None (Dom.disabled n))
      as (Hg & _ & _ & He & _).
    cbn zeta in Hg, He. rewrite Hg, He, negb_involutive. cbn [negb andb map].
    rewrite option_record_view.
    split; [reflexivity|].
    destruct (nonempty_text n); reflexivity.
Qed.

(** ** One iteration of the filter *)

Ltac alter_lookup :=
  repeat first
    [ rewrite list_lookup_alter_eq
    | rewrite list_lookup_alter_ne by congruence ].

Ltac store_eq :=
  unfold store_back; rewrite ?list_insert_alter;
  apply list_eq; intros ?i;
  rewrite ?list_lookup_alter;
  repeat case_decide; subst; try congruence;
  repeat match goal with H : ?l !! ?k = Some _ |- _ => rewrite !H; clear H end;
  try reflexivity.

Ltac split_ifs :=
  repeat match goal with
         | |- context [if ?b then _ else _] => destruct b eqn:?
         end.

Lemma winnow_step_closed s g d b j data e c :
  data !! j = Some c ->
  (forall gi, group_array_index c = Some gi -> gi <> j /\ is_Some (data !! gi)) ->
  winnow_step s g d b j (data, e)
  = let '(c', fi', e') :=
      entry_step s g d b c (group_array_index c ≫= (data !!.)) e in
    Some (store_back j (group_array_index c) c' fi' data, e').
Proof.
  intros Hj Hg. unfold winnow_step, entry_step. rewrite Hj. cbn [mbind option_bind].
  change (include_option_in_results s (set_search_match false c))
    with (include_option_in_results s c).
  change (group (set_search_match false c)) with (group c).
  destruct (group_array_index c) as [gi|] eqn:Egi.
  - destruct (Hg gi eq_refl) as [Hne [fi Hfi]].
    cbn [mbind option_bind]. rewrite Hfi. cbn [fmap option_fmap option_map].
    destruct (include_option_in_results s c) eqn:Ei.
    2:{ f_equal. f_equal. store_eq. }
    destruct (group c) eqn:Egc;
    repeat (progress (alter_lookup; rewrite ?Hfi, ?Hj;
                      cbn [mbind option_bind fmap option_fmap option_map negb orb andb
                           group set_search_match set_search_text set_group_match
                           set_active_options search_text label html search_match]));
    rewrite ?Egc; split_ifs;
    repeat (progress (alter_lookup; rewrite ?Hfi, ?Hj;
                      cbn [mbind option_bind fmap option_fmap option_map negb orb andb
                           group set_search_match set_search_text set_group_match
                           set_active_options search_text label html search_match]));
    try discriminate;
    f_equal; f_equal; store_eq; cbn; rewrite ?Egc; reflexivity.
  - cbn [mbind option_bind fmap option_fmap option_map].
    destruct (include_option_in_results s c) eqn:Ei.
    2:{ f_equal. f_equal. store_eq. }
    destruct (group c) eqn:Egc;
    repeat (progress (alter_lookup; rewrite ?Hj;
                      cbn [mbind option_bind fmap option_fmap option_map negb orb andb
                           group set_search_match set_search_text set_group_match
                           set_active_options search_text label html search_match]));
    rewrite ?Egc; split_ifs;
    repeat (progress (alter_lookup; rewrite ?Hj;
                      cbn [mbind option_bind fmap option_fmap option_map negb orb andb
                           group set_search_match set_search_text set_group_match
                           set_active_options search_text label html search_match]));
    try discriminate;
    f_equal; f_equal; store_eq; cbn; rewrite ?Egc; reflexivity.
Qed.


(** *** What one iteration does to an entry and to its group *)

Lemma include_neutral s c :
  include_option_in_results s (neutral s c) = include_option_in_results s c.
Proof.
  unfold neutral. destruct (include_option_in_results s c) eqn:E.
  - destruct (group c); exact E.
  - exact E.
Qed.

Lemma neutral_idempotent s c : neutral s (neutral s c) = neutral s c.
Proof.
  unfold neutral at 1. rewrite include_neutral.
  unfold neutral. destruct (include_option_in_results s c); [|reflexivity].
  destruct (group c) eqn:E; cbn; rewrite E; reflexivity.
Qed.

Lemma skeleton_neutral s c : skeleton (neutral s c) = skeleton c.
Proof.
  unfold neutral. destruct (include_option_in_results s c); [|reflexivity].
  destruct (group c); reflexivity.
Qed.

Lemma include_skeleton s c c' :
  skeleton c = skeleton c' ->
  include_option_in_results s c = include_option_in_results s c'.
Proof.
  intros H. unfold include_option_in_results.
  assert (selected c = selected c') as -> by (apply (f_equal selected) in H; exact H).
  assert (disabled c = disabled c') as -> by (apply (f_equal disabled) in H; exact H).
  assert (empty c = empty c') as -> by (apply (f_equal empty) in H; exact H).
  reflexivity.
Qed.

Lemma entry_step_neutral s g d b c fi e :
  entry_step s g d b (neutral s c) fi e = entry_step s g d b c fi e.
Proof.
  unfold entry_step.
  change (include_option_in_results s (set_search_match false (neutral s c)))
    with (include_option_in_results s (neutral s c)).
  change (include_option_in_results s (set_search_match false c))
    with (include_option_in_results s c).
  rewrite include_neutral. unfold neutral.
  destruct (include_option_in_results s c); [|reflexivity].
  destruct (group c) eqn:Eg; cbn; rewrite Eg; cbn; reflexivity.
Qed.

Lemma entry_step_skeleton s g d b c fi e :
  let '(c', fi', e') := entry_step s g d b c fi e in
  skeleton c' = skeleton c /\ skeleton <$> fi' = skeleton <$> fi.
Proof.
  unfold entry_step.
  change (include_option_in_results s (set_search_match false c))
    with (include_option_in_results s c).
  destruct fi as [f|]; cbn [fmap option_fmap option_map];
    split_ifs; split; reflexivity.
Qed.

Lemma entry_step_excluded s g d b c fi e :
  include_option_in_results s c = false ->
  entry_step s g d b c fi e = (set_search_match false c, fi, e).
Proof.
  intros H. unfold entry_step.
  change (include_option_in_results s (set_search_match false c))
    with (include_option_in_results s c).
  now rewrite H.
Qed.

Lemma skeleton_eq_fields x y :
  skeleton x = skeleton y ->
  x = set_search_match (search_match x)
        (set_group_match (group_match x)
           (set_active_options (active_options x)
              (set_search_text (search_text x) y))).
Proof.
  destruct x, y; cbn. intros H. injection H as H.
  repeat match goal with H : _ = _ |- _ => rewrite H; clear H end. reflexivity.
Qed.

Lemma neutral_skeleton s x y :
  skeleton x = skeleton y ->
  (group y = false ->
   group_match x = group_match y /\ active_options x = active_options y) ->
  (include_option_in_results s y = false ->
   group_match x = group_match y /\ active_options x = active_options y
   /\ search_text x = search_text y) ->
  neutral s x = neutral s y.
Proof.
  intros Hs Hg Hi. rewrite (skeleton_eq_fields x y Hs).
  unfold neutral.
  change (include_option_in_results s (set_search_match _ (set_group_match _
            (set_active_options _ (set_search_text _ y)))))
    with (include_option_in_results s y).
  change (group (set_search_match _ (set_group_match _
            (set_active_options _ (set_search_text _ y)))))
    with (group y).
  destruct (include_option_in_results s y).
  - destruct (group y); [reflexivity|].
    destruct (Hg eq_refl) as [-> ->]. reflexivity.
  - destruct (Hi eq_refl) as (-> & -> & ->). destruct y; reflexivity.
Qed.

Lemma entry_step_output_neutral s g d b c fi e :
  (forall f, fi = Some f ->
     group f = true
     /\ (include_option_in_results s c = true -> include_option_in_results s f = true)) ->
  let '(c', fi', e') := entry_step s g d b c fi e in
  neutral s c' = neutral s c /\ neutral s <$> fi' = neutral s <$> fi.
Proof.
  intros Hf. unfold entry_step.
  change (include_option_in_results s (set_search_match false c))
    with (include_option_in_results s c).
  destruct (include_option_in_results s c) eqn:Ei.
  2:{ split; [|reflexivity]. apply neutral_skeleton; auto. }
  destruct fi as [f|]; cbn [fmap option_fmap option_map].
  - destruct (Hf f eq_refl) as [Hg Hi]. specialize (Hi eq_refl).
    destruct (group c) eqn:Egc;
      cbn [group set_search_match set_group_match set_active_options set_search_text];
      rewrite ?Egc; split_ifs; cbn [fmap option_fmap option_map];
      (split; [|f_equal]); apply neutral_skeleton; try reflexivity;
        cbn; try congruence; auto.
  - destruct (group c) eqn:Egc;
      cbn [group set_search_match set_group_match set_active_options set_search_text];
      rewrite ?Egc; split_ifs;
      (split; [|reflexivity]); apply neutral_skeleton; try reflexivity;
        cbn; try congruence; auto.
Qed.

(** *** Well-formed entries *)

Lemma well_formed_group nopts data j c gi :
  well_formed_data nopts data ->
  data !! j = Some c ->
  group_array_index c = Some gi ->
  gi < j /\ exists f, data !! gi = Some f /\ group f = true
                      /\ selected f = false /\ empty f = false
                      /\ (disabled f = true -> disabled c = true).
Proof.
  intros Hwf Hj Hgi.
  destruct (Hwf j c Hj) as (_ & _ & _ & H).
  destruct (H gi Hgi) as (Hlt & f & Hf & Hg & Hd).
  rewrite Nat.sub_0_r in Hf.
  split; [lia|]. exists f. split; [exact Hf|]. split; [exact Hg|].
  destruct (Hwf gi f Hf) as (_ & _ & H' & _).
  destruct (H' Hg) as (? & ? & _). auto.
Qed.

Lemma well_formed_skeleton nopts d d' :
  map skeleton d' = map skeleton d ->
  well_formed_data nopts d -> well_formed_data nopts d'.
Proof.
  intros Hs Hwf j c' Hj.
  assert (Hl : forall i x', d' !! i = Some x' ->
                 exists x, d !! i = Some x /\ skeleton x' = skeleton x).
  { intros i x' Hi.
    assert (H : map skeleton d' !! i = Some (skeleton x'))
      by (rewrite list_lookup_fmap, Hi; reflexivity).
    rewrite Hs, list_lookup_fmap in H.
    destruct (d !! i) as [x|]; [|discriminate]. exists x. split; [reflexivity|].
    cbn [fmap option_fmap option_map] in H. congruence. }
  destruct (Hl j c' Hj) as (c & Hc & Hsk).
  destruct (Hwf j c Hc) as (Ha & Ho & Hg & Hgi).
  rewrite (skeleton_eq_fields c' c Hsk). cbn.
  split; [exact Ha|]. split; [exact Ho|]. split; [exact Hg|].
  intros gi Hgai. destruct (Hgi gi Hgai) as (Hr & f & Hf & Hgf & Hd).
  split; [exact Hr|].
  assert (Hlen : length d' = length d).
  { apply (f_equal length) in Hs. now rewrite !length_map in Hs. }
  destruct (d' !! (gi - 0)) as [f'|] eqn:Ef'.
  - destruct (Hl _ f' Ef') as (f0 & Hf0 & Hsk0).
    rewrite Hf in Hf0. inversion Hf0; subst f0.
    exists f'. split; [reflexivity|].
    rewrite (skeleton_eq_fields f' f Hsk0). cbn. auto.
  - apply lookup_ge_None in Ef'. apply lookup_lt_Some in Hf. lia.
Qed.

Lemma include_group s nopts data j c gi f :
  well_formed_data nopts data ->
  data !! j = Some c ->
  group_array_index c = Some gi ->
  data !! gi = Some f ->
  include_option_in_results s c = true ->
  include_option_in_results s f = true.
Proof.
  intros Hwf Hj Hgi Hf Hi.
  destruct (well_formed_group nopts data j c gi Hwf Hj Hgi)
    as (_ & f' & Hf' & _ & Hsel & Hemp & Hd).
  rewrite Hf in Hf'. inversion Hf'; subst f'.
  unfold include_option_in_results in *. rewrite Hsel, Hemp.
  rewrite andb_false_r.
  destruct (is_multiple s && negb (display_selected_options (config s)) && selected c);
    [discriminate|].
  destruct (negb (display_disabled_options (config s))); cbn in *; [|reflexivity].
  destruct (disabled f); [|reflexivity].
  rewrite (Hd eq_refl) in Hi. discriminate.
Qed.

(** *** The loop over well-formed entries *)

Lemma map_store_back {B} (F : item -> B) j data c c' fi' :
  data !! j = Some c ->
  F c' = F c ->
  F <$> fi' = F <$> (group_array_index c ≫= (data !!.)) ->
  map F (store_back j (group_array_index c) c' fi' data) = map F data.
Proof.
  intros Hj Hc Hf. unfold store_back.
  apply list_eq. intros i. rewrite !list_lookup_fmap.
  destruct (decide (i = j)) as [->|Hne].
  - rewrite list_lookup_insert_eq.
    + rewrite Hj. cbn. now rewrite Hc.
    + destruct (group_array_index c), fi'; rewrite ?length_insert;
        now apply lookup_lt_Some in Hj.
  - rewrite list_lookup_insert_ne by congruence.
    destruct (group_array_index c) as [gi|]; [|reflexivity].
    destruct fi' as [f'|]; [|reflexivity].
    cbn in Hf.
    destruct (decide (i = gi)) as [->|Hne'].
    + destruct (data !! gi) as [f|] eqn:Ef.
      * rewrite list_lookup_insert_eq by now apply lookup_lt_Some in Ef.
        exact Hf.
      * discriminate.
    + now rewrite list_lookup_insert_ne by congruence.
Qed.

Lemma winnow_step_wf s g d b nopts j data e c :
  well_formed_data nopts data ->
  data !! j = Some c ->
  winnow_step s g d b j (data, e)
  = let '(c', fi', e') :=
      entry_step s g d b c (group_array_index c ≫= (data !!.)) e in
    Some (store_back j (group_array_index c) c' fi' data, e').
Proof.
  intros Hwf Hj. apply winnow_step_closed; [exact Hj|].
  intros gi Hgi.
  destruct (well_formed_group nopts data j c gi Hwf Hj Hgi) as (Hlt & f & Hf & _).
  split; [lia | eauto].
Qed.

Lemma winnow_loop_wf s g d b nopts n :
  forall j data e,
    well_formed_data nopts data ->
    j + n <= length data ->
    exists data' e',
      winnow_loop s g d b (seq j n) (data, e) = Some (data', e')
      /\ map skeleton data' = map skeleton data
      /\ map (neutral s) data' = map (neutral s) data.
Proof.
  induction n as [|n IH]; intros j data e Hwf Hlen.
  - exists data, e. cbn. auto.
  - cbn [seq winnow_loop].
    destruct (lookup_lt_is_Some_2 data j ltac:(lia)) as [c Hj].
    rewrite (winnow_step_wf s g d b nopts j data e c Hwf Hj).
    pose proof (entry_step_skeleton s g d b c (group_array_index c ≫= (data !!.)) e) as Hsk.
    pose proof (entry_step_output_neutral s g d b c
                  (group_array_index c ≫= (data !!.)) e) as Hne.
    destruct (entry_step s g d b c (group_array_index c ≫= (data !!.)) e)
      as [[c' fi'] e'].
    destruct Hsk as [Hsk1 Hsk2].
    destruct Hne as [Hne1 Hne2].
    { intros f Hf. destruct (group_array_index c) as [gi|] eqn:Egi; [|discriminate].
      cbn in Hf.
      destruct (well_formed_group nopts data j c gi Hwf Hj Egi)
        as (_ & f' & Hf' & Hg & _).
      rewrite Hf in Hf'. inversion Hf'; subst f'. split; [exact Hg|].
      intros Hi. exact (include_group s nopts data j c gi f Hwf Hj Egi Hf Hi). }
    cbn [mbind option_bind].
    assert (Hs : map skeleton (store_back j (group_array_index c) c' fi' data)
                 = map skeleton data) by (apply map_store_back; auto).
    assert (Hn : map (neutral s) (store_back j (group_array_index c) c' fi' data)
                 = map (neutral s) data) by (apply map_store_back; auto).
    destruct (IH (S j) (store_back j (group_array_index c) c' fi' data) e')
      as (data' & e'' & Hloop & Hs' & Hn').
    + exact (well_formed_skeleton nopts data _ Hs Hwf).
    + apply (f_equal length) in Hs. rewrite !length_map in Hs. lia.
    + exists data', e''. split; [exact Hloop|]. split; congruence.
Qed.

(** The fields of an entry that the iteration on another entry leaves
    alone: everything but the two group counters. *)
Lemma entry_step_group_core s g d b c fi e :
  let '(c', fi', e') := entry_step s g d b c fi e in
  (fun f => set_group_match false (set_active_options None f)) <$> fi'
  = (fun f => set_group_match false (set_active_options None f)) <$> fi.
Proof.
  unfold entry_step.
  change (include_option_in_results s (set_search_match false c))
    with (include_option_in_results s c).
  destruct fi as [f|]; cbn [fmap option_fmap option_map]; split_ifs; reflexivity.
Qed.

Lemma store_back_lookup_other j gi c' fi' data i :
  i <> j -> (forall k, gi = Some k -> i <> k) ->
  store_back j gi c' fi' data !! i = data !! i.
Proof.
  intros Hj Hg. unfold store_back. rewrite list_lookup_insert_ne by congruence.
  destruct gi as [k|]; [|reflexivity]. destruct fi'; [|reflexivity].
  rewrite list_lookup_insert_ne; [reflexivity|]. specialize (Hg k eq_refl). congruence.
Qed.

Lemma store_back_lookup_entry j gi c' fi' data :
  j < length data ->
  store_back j gi c' fi' data !! j = Some c'.
Proof.
  intros Hj. unfold store_back. apply list_lookup_insert_eq.
  destruct gi, fi'; rewrite ?length_insert; exact Hj.
Qed.

Lemma store_back_lookup_group j gi c' f' data :
  gi <> j -> gi < length data ->
  store_back j (Some gi) c' (Some f') data !! gi = Some f'.
Proof.
  intros Hne Hlt. unfold store_back. rewrite list_lookup_insert_ne by congruence.
  now apply list_lookup_insert_eq.
Qed.

(** After the loop from position [j] on, an earlier entry differs from
    what it was in its group counters at most, and a later entry is what
    its own iteration made of it, up to the group counters. *)
Lemma winnow_loop_entries s g d b nopts n :
  forall j data e data' e',
    well_formed_data nopts data ->
    j + n <= length data ->
    winnow_loop s g d b (seq j n) (data, e) = Some (data', e') ->
    (forall i, i < j \/ j + n <= i ->
       (fun f => set_group_match false (set_active_options None f)) <$> data' !! i
       = (fun f => set_group_match false (set_active_options None f)) <$> data !! i)
    /\ (forall i c, j <= i < j + n -> data !! i = Some c ->
        exists fi e0 x,
          data' !! i = Some x
          /\ set_group_match false (set_active_options None x)
             = set_group_match false
                 (set_active_options None (entry_step s g d b c fi e0).1.1)).
Proof.
  induction n as [|n IH]; intros j data e data' e' Hwf Hlen Hloop.
  - cbn in Hloop. inversion Hloop; subst. split; [reflexivity|]. intros; lia.
  - cbn [seq winnow_loop] in Hloop.
    destruct (lookup_lt_is_Some_2 data j ltac:(lia)) as [c Hj].
    rewrite (winnow_step_wf s g d b nopts j data e c Hwf Hj) in Hloop.
    pose proof (entry_step_skeleton s g d b c (group_array_index c ≫= (data !!.)) e) as Hsk.
    pose proof (entry_step_group_core s g d b c (group_array_index c ≫= (data !!.)) e) as Hco.
    remember (entry_step s g d b c (group_array_index c ≫= (data !!.)) e) as r eqn:Er.
    destruct r as [[c' fi'] e1].
    destruct Hsk as [Hsk1 Hsk2]. cbn [mbind option_bind] in Hloop.
    assert (Hs : map skeleton (store_back j (group_array_index c) c' fi' data)
                 = map skeleton data) by (apply map_store_back; auto).
    assert (Hl : length (store_back j (group_array_index c) c' fi' data) = length data).
    { apply (f_equal length) in Hs. now rewrite !length_map in Hs. }
    destruct (IH (S j) _ e1 data' e'
                 (well_formed_skeleton nopts data _ Hs Hwf) ltac:(lia) Hloop)
      as [IH1 IH2].
    assert (Hgi : forall k, group_array_index c = Some k ->
                    k < j /\ exists f, data !! k = Some f).
    { intros k Hk. destruct (well_formed_group nopts data j c k Hwf Hj Hk)
        as (? & f & ? & _). eauto. }
    split.
    + intros i Hi. rewrite IH1 by lia.
      destruct (decide (i = j)) as [->|Hne]; [lia|].
      destruct (group_array_index c) as [k|] eqn:Ek.
      * destruct (decide (i = k)) as [->|Hnk].
        -- destruct (Hgi k eq_refl) as (Hk & f & Hf).
           cbn [mbind option_bind] in Hco, Hsk2. rewrite Hf in Hco, Hsk2.
           destruct fi' as [f'|]; [|discriminate].
           rewrite store_back_lookup_group by (try lia; now apply lookup_lt_Some in Hf).
           rewrite Hf. exact Hco.
        -- rewrite store_back_lookup_other; [reflexivity|exact Hne|].
           intros ? [= <-]. exact Hnk.
      * rewrite store_back_lookup_other; [reflexivity|exact Hne|discriminate].
    + intros i x Hi Hx.
      destruct (decide (i = j)) as [->|Hne].
      * rewrite Hj in Hx. inversion Hx; subst x.
        assert (Hc' : data' !! j <> None).
        { intros HN. apply lookup_ge_None in HN.
          destruct (winnow_loop_wf s g d b nopts n (S j) _ e1
                      (well_formed_skeleton nopts data _ Hs Hwf) ltac:(lia))
            as (d2 & e2 & Hl2 & Hs2 & _).
          rewrite Hloop in Hl2. inversion Hl2; subst d2 e2.
          apply (f_equal length) in Hs2. rewrite !length_map in Hs2. lia. }
        destruct (data' !! j) as [y|] eqn:Ey; [|congruence].
        exists (group_array_index c ≫= (data !!.)), e, y. split; [reflexivity|].
        specialize (IH1 j ltac:(lia)). rewrite Ey in IH1.
        rewrite store_back_lookup_entry in IH1 by lia.
        rewrite <- Er. cbn in IH1 |- *. congruence.
      * apply (IH2 i x ltac:(lia)).
        rewrite store_back_lookup_other; [exact Hx|exact Hne|].
        intros k Hk. destruct (Hgi k Hk). lia.
Qed.

(** Two well-formed lists that agree before position [j] and agree from
    [j] on once neutralised go through the rest of the loop alike. *)
Lemma winnow_loop_agree s g d b nopts n :
  forall j d1 d2 e,
    well_formed_data nopts d1 ->
    well_formed_data nopts d2 ->
    length d1 = length d2 ->
    j + n = length d1 ->
    (forall i, i < j -> d1 !! i = d2 !! i) ->
    (forall i, j <= i -> neutral s <$> d1 !! i = neutral s <$> d2 !! i) ->
    winnow_loop s g d b (seq j n) (d1, e) = winnow_loop s g d b (seq j n) (d2, e).
Proof.
  induction n as [|n IH]; intros j d1 d2 e Hwf1 Hwf2 Hlen Hn Hlt Hge.
  - cbn. do 2 f_equal. apply list_eq. intros i.
    destruct (decide (i < j)); [auto|].
    rewrite !(proj2 (lookup_ge_None _ _)) by lia. reflexivity.
  - cbn [seq winnow_loop].
    destruct (lookup_lt_is_Some_2 d1 j ltac:(lia)) as [c1 Hj1].
    destruct (lookup_lt_is_Some_2 d2 j ltac:(lia)) as [c2 Hj2].
    rewrite (winnow_step_wf s g d b nopts j d1 e c1 Hwf1 Hj1).
    rewrite (winnow_step_wf s g d b nopts j d2 e c2 Hwf2 Hj2).
    assert (Hnc : neutral s c1 = neutral s c2).
    { specialize (Hge j ltac:(lia)). rewrite Hj1, Hj2 in Hge.
      cbn [fmap option_fmap option_map] in Hge. congruence. }
    assert (Hsk : skeleton c1 = skeleton c2).
    { rewrite <- (skeleton_neutral s c1), <- (skeleton_neutral s c2). now rewrite Hnc. }
    assert (Hgai : group_array_index c1 = group_array_index c2).
    { apply (f_equal group_array_index) in Hsk. exact Hsk. }
    assert (Hfi : group_array_index c1 ≫= (d1 !!.) = group_array_index c2 ≫= (d2 !!.)).
    { rewrite <- Hgai. destruct (group_array_index c1) as [k|] eqn:Ek; [|reflexivity].
      cbn. apply Hlt.
      destruct (well_formed_group nopts d1 j c1 k Hwf1 Hj1 Ek) as (? & _). lia. }
    rewrite <- (entry_step_neutral s g d b c1), <- (entry_step_neutral s g d b c2).
    rewrite <- Hfi, <- Hnc, <- Hgai.
    rewrite (entry_step_neutral s g d b c1).
    pose proof (entry_step_skeleton s g d b c1 (group_array_index c1 ≫= (d1 !!.)) e) as Hs.
    destruct (entry_step s g d b c1 (group_array_index c1 ≫= (d1 !!.)) e)
      as [[c' fi'] e1].
    destruct Hs as [Hs1 Hs2]. cbn [mbind option_bind].
    assert (Hm1 : map skeleton (store_back j (group_array_index c1) c' fi' d1)
                  = map skeleton d1) by (apply map_store_back; auto).
    assert (Hm2 : map skeleton (store_back j (group_array_index c1) c' fi' d2)
                  = map skeleton d2).
    { rewrite Hgai. apply map_store_back; auto; rewrite <- ?Hgai, <- ?Hfi; congruence. }
    assert (Hl1 : length (store_back j (group_array_index c1) c' fi' d1) = length d1).
    { apply (f_equal length) in Hm1. now rewrite !length_map in Hm1. }
    assert (Hl2 : length (store_back j (group_array_index c1) c' fi' d2) = length d2).
    { apply (f_equal length) in Hm2. now rewrite !length_map in Hm2. }
    assert (Hk : forall k, group_array_index c1 = Some k ->
                   k < j /\ exists f, d1 !! k = Some f).
    { intros k Ek. destruct (well_formed_group nopts d1 j c1 k Hwf1 Hj1 Ek)
        as (? & f & ? & _). eauto. }
    apply IH.
    + exact (well_formed_skeleton nopts d1 _ Hm1 Hwf1).
    + exact (well_formed_skeleton nopts d2 _ Hm2 Hwf2).
    + lia.
    + lia.
    + intros i Hi.
      destruct (decide (i = j)) as [->|Hne].
      * rewrite !store_back_lookup_entry by lia. reflexivity.
      * destruct (group_array_index c1) as [k|] eqn:Ek.
        -- destruct (decide (i = k)) as [->|Hnk].
           ++ destruct (Hk k eq_refl) as (Hkj & f & Hf).
              cbn [mbind option_bind] in Hs2. rewrite Hf in Hs2.
              destruct fi' as [f'|]; [|discriminate].
              apply lookup_lt_Some in Hf.
              rewrite !store_back_lookup_group by lia. reflexivity.
           ++ rewrite !store_back_lookup_other; try exact Hne;
                try (intros ? [= <-]; exact Hnk).
              apply Hlt. lia.
        -- rewrite !store_back_lookup_other; try exact Hne; try discriminate.
           apply Hlt. lia.
    + intros i Hi.
      rewrite !store_back_lookup_other; try lia.
      * apply Hge. lia.
      * intros k Ek. destruct (Hk k Ek). lia.
      * intros k Ek. destruct (Hk k Ek). lia.
Qed.

(** The pass over the entries it produced yields them again. *)
Lemma winnow_loop_idempotent s g d b nopts data e data' e' :
  well_formed_data nopts data ->
  winnow_loop s g d b (seq 0 (length data)) (data, e) = Some (data', e') ->
  winnow_loop s g d b (seq 0 (length data')) (data', e) = Some (data', e').
Proof.
  intros Hwf Hloop.
  destruct (winnow_loop_wf s g d b nopts (length data) 0 data e Hwf ltac:(lia))
    as (d2 & e2 & Hl2 & Hs & Hn).
  rewrite Hloop in Hl2. inversion Hl2; subst d2 e2.
  assert (Hlen : length data' = length data).
  { apply (f_equal length) in Hs. now rewrite !length_map in Hs. }
  rewrite Hlen, <- Hloop.
  apply (winnow_loop_agree s g d b nopts).
  - exact (well_formed_skeleton nopts data _ Hs Hwf).
  - exact Hwf.
  - exact Hlen.
  - lia.
  - intros; lia.
  - intros i _. apply (f_equal (fun l => l !! i)) in Hn.
    rewrite !list_lookup_fmap in Hn. exact Hn.
Qed.

(** ** The filter as a whole *)

Lemma winnow_step_ext s s' g d b j st :
  config s = config s' -> is_multiple s = is_multiple s' ->
  winnow_step s g d b j st = winnow_step s' g d b j st.
Proof.
  intros Hc Hm. unfold winnow_step, include_option_in_results, search_string_match.
  rewrite Hc, Hm. reflexivity.
Qed.

Lemma winnow_loop_ext s s' g d b js :
  config s = config s' -> is_multiple s = is_multiple s' ->
  forall st, winnow_loop s g d b js st = winnow_loop s' g d b js st.
Proof.
  intros Hc Hm. induction js as [|j js IH]; intros st; [reflexivity|].
  cbn [winnow_loop]. rewrite (winnow_step_ext s s' g d b j st Hc Hm).
  destruct (winnow_step s' g d b j st); cbn; auto.
Qed.

Lemma winnow_pass_ext s s' :
  config s = config s' -> is_multiple s = is_multiple s' ->
  search_field_val s = search_field_val s' ->
  results_data s = results_data s' ->
  winnow_pass s = winnow_pass s'.
Proof.
  intros Hc Hm Hv Hd. unfold winnow_pass, get_search_text, get_search_field_value,
    get_search_regex, get_highlight_regex.
  rewrite Hv, Hd, Hc. apply winnow_loop_ext; assumption.
Qed.

Lemma results_option_loop_false l :
  forall e s s',
    config s = config s' -> is_multiple s = is_multiple s' ->
    results_option_loop false l e s = ((results_option_loop false l e s').1, s).
Proof.
  induction l as [|c l IH]; intros e s s' Hc Hm; [reflexivity|].
  cbn [results_option_loop].
  unfold result_add_group, result_add_option, option_classes, include_option_in_results.
  rewrite Hc, Hm.
  match goal with |- context [num_le_count ?a ?b] => destruct (num_le_count a b) end.
  - reflexivity.
  - match goal with |- context [results_option_loop false l ?e' s] =>
      rewrite (IH e' s s' Hc Hm) end.
    destruct (results_option_loop false l _ s'). reflexivity.
Qed.

Lemma winnow_results_outcome s data e :
  winnow_pass s = Some (data, e) ->
  winnow_results s = Some (winnow_outcome s data e).
Proof.
  intros Hp. unfold winnow_results.
  rewrite (winnow_pass_ext (no_results_clear s) s) by reflexivity.
  rewrite Hp. cbn [mbind option_bind].
  unfold winnow_outcome.
  change (get_search_text (no_results_clear s)) with (get_search_text s).
  destruct (Nat.ltb e 1 && negb (String.eqb (get_search_text s) "")).
  - unfold no_results, update_results_content, result_clear_highlight.
    destruct s as [? ? ? ? ? ? ? [k|] ? ? ? ? ? ? ? ?]; reflexivity.
  - unfold results_option_build.
    rewrite (results_option_loop_false _ 0 _ s) by
      (destruct s as [? ? ? ? ? ? ? [k|] ? ? ? ? ? ? ? ?]; reflexivity).
    unfold winnow_results_set_highlight, pick_highlight, rendered.
    assert (Hd : results_data (result_clear_highlight
                   (set_results_data data (no_results_clear s))) = data)
      by (destruct s as [? ? ? ? ? ? ? [k|] ? ? ? ? ? ? ? ?]; reflexivity).
    rewrite Hd. clear Hd.
    set (lis := (results_option_loop false data 0 s).1).
    cbn [is_multiple update_results_content set_search_results search_results].
    assert (Hm : is_multiple (result_clear_highlight
                   (set_results_data data (no_results_clear s))) = is_multiple s)
      by (destruct s as [? ? ? ? ? ? ? [k|] ? ? ? ? ? ? ? ?]; reflexivity).
    rewrite Hm. clear Hm.
    match goal with |- context [result_do_highlight ?a _] => destruct a as [k|] end;
      destruct s as [? ? ? ? ? ? ? [k'|] ? ? ? ? ? ? ? ?]; reflexivity.
Qed.

Lemma winnow_results_total s nopts :
  well_formed_data nopts (results_data s) ->
  exists data e,
    winnow_pass s = Some (data, e)
    /\ winnow_results s = Some (winnow_outcome s data e)
    /\ map skeleton data = map skeleton (results_data s).
Proof.
  intros Hwf. unfold winnow_pass.
  destruct (winnow_loop_wf s (get_search_text s)
              (get_search_regex s (Text.escape_regex (get_search_text s)))
              (get_highlight_regex s (Text.escape_regex (get_search_text s)))
              nopts (length (results_data s)) 0 (results_data s) 0 Hwf ltac:(lia))
    as (data & e & Hl & Hs & _).
  exists data, e. split; [exact Hl|]. split; [|exact Hs].
  now apply winnow_results_outcome.
Qed.

(** *** The rendered list *)

Lemma hasClass_addClass k k' e :
  hasClass k (addClass k' e) = hasClass k e || css_class_eqb k k'.
Proof.
  unfold addClass. destruct (hasClass k' e) eqn:E.
  - destruct (css_class_eqb k k') eqn:Ek; [|now rewrite orb_false_r].
    assert (k = k') as ->.
    { destruct k, k'; try discriminate; try reflexivity.
      cbn in Ek. apply String.eqb_eq in Ek. now subst. }
    now rewrite E.
  - unfold hasClass. cbn. rewrite existsb_app. cbn. now rewrite orb_false_r.
Qed.

Lemma css_class_eqb_refl k : css_class_eqb k k = true.
Proof. destruct k; cbn; auto. apply String.eqb_refl. Qed.

Lemma hasClass_removeClass_other k k' e :
  css_class_eqb k' k = false ->
  hasClass k (removeClass k' e) = hasClass k e.
Proof.
  intros Hne. unfold hasClass, removeClass. cbn.
  induction (li_classes e) as [|x l IH]; [reflexivity|]. cbn.
  destruct (css_class_eqb k' x) eqn:E; cbn.
  - rewrite IH. destruct (css_class_eqb k x) eqn:E2; [|reflexivity].
    assert (k = x) as ->.
    { destruct k, x; try discriminate; try reflexivity.
      cbn in E2. apply String.eqb_eq in E2. now subst. }
    congruence.
  - now rewrite IH.
Qed.

(** An entry of the rendered list is the entry of a parsed option, which
    carries that option's array index, or the entry of a group, which
    carries no index and is not active. *)
Lemma results_option_loop_entries first l :
  forall e s x,
    In x (results_option_loop first l e s).1 ->
    hasClass cls_no_results x = false
    /\ ((exists c, In c l /\ group c = false /\ li_data_index x = Some (array_index c)
                   /\ search_match c = true
                   /\ include_option_in_results s c = true)
        \/ (li_data_index x = None /\ hasClass cls_active_result x = false)).
Proof.
  induction l as [|c l IH]; intros e s x Hx; [destruct Hx|].
  cbn [results_option_loop] in Hx.
  assert (Hhere : forall y,
            In y (opt_list (if group c then result_add_group s c
                            else result_add_option s c)) ->
            hasClass cls_no_results y = false
            /\ ((exists c0, In c0 (c :: l) /\ group c0 = false
                            /\ li_data_index y = Some (array_index c0)
                            /\ search_match c0 = true
                            /\ include_option_in_results s c0 = true)
                \/ (li_data_index y = None /\ hasClass cls_active_result y = false))).
  { intros y Hy. destruct (group c) eqn:Eg.
    - unfold result_add_group in Hy.
      destruct ((search_match c || group_match c) && positive (active_options c));
        [|destruct Hy].
      destruct Hy as [<-|[]]. unfold hasClass. cbn.
      destruct (String.eqb (classes c) ""); cbn; auto.
    - unfold result_add_option in Hy.
      destruct (search_match c) eqn:Em; [|destruct Hy].
      destruct (include_option_in_results s c) eqn:Ei; [|destruct Hy].
      destruct Hy as [<-|[]]. split.
      + unfold hasClass, option_classes. cbn. rewrite !existsb_app.
        destruct (disabled c || selected c && is_multiple s),
          (negb (disabled c) || selected c && is_multiple s),
          (selected c), (group_array_index c), (String.eqb (classes c) ""); reflexivity.
      + left. exists c. cbn. auto. }
  match type of Hx with context [num_le_count ?a ?b] =>
    destruct (num_le_count a b) end.
  - cbn [fst] in Hx. apply Hhere, Hx.
  - match type of Hx with context [results_option_loop first l ?e' ?s'] =>
      pose proof (IH e' s' x) as IHx;
      destruct (results_option_loop first l e' s') as [lis s''] eqn:El end.
    cbn [fst] in Hx, IHx. apply in_app_or in Hx as [Hx|Hx]; [apply Hhere, Hx|].
    destruct (IHx Hx) as [Hn [(c0 & Hin & Hg & Hidx & Hm & Hi)|Hr]].
    + split; [exact Hn|]. left. exists c0. split; [now right|].
      split; [exact Hg|]. split; [exact Hidx|]. split; [exact Hm|].
      revert Hi. unfold include_option_in_results.
      destruct first; [|auto].
      destruct (selected c && is_multiple s); [auto|].
      destruct (selected c && negb (is_multiple s)); auto.
    + split; [exact Hn|]. now right.
Qed.

Lemma rendered_entries s data x :
  In x (rendered s data) ->
  hasClass cls_no_results x = false
  /\ ((exists c, In c data /\ group c = false /\ li_data_index x = Some (array_index c)
                 /\ search_match c = true /\ include_option_in_results s c = true)
      \/ (li_data_index x = None /\ hasClass cls_active_result x = false)).
Proof. apply results_option_loop_entries. Qed.

Lemma find_index_Some p l k :
  find_index p l = Some k -> exists e, l !! k = Some e /\ p e = true.
Proof.
  revert k. induction l as [|x l IH]; intros k H; [discriminate|].
  cbn in H. destruct (p x) eqn:E.
  - inversion H; subst. exists x. auto.
  - destruct (find_index p l) as [k'|]; [|discriminate].
    inversion H; subst. destruct (IH k' eq_refl) as (e & He & Hp).
    exists e. auto.
Qed.

Lemma pick_highlight_active s lis k :
  pick_highlight s lis = Some k ->
  exists e, lis !! k = Some e /\ hasClass cls_active_result e = true.
Proof.
  unfold pick_highlight. intros H.
  destruct (if is_multiple s then None
            else find_index (fun e => hasClass cls_result_selected e
                                      && hasClass cls_active_result e) lis)
    as [k'|] eqn:E.
  - inversion H; subst k'. destruct (is_multiple s); [discriminate|].
    apply find_index_Some in E as (e & He & Hp).
    apply andb_true_iff in Hp as [_ Hp]. eauto.
  - apply find_index_Some in H. exact H.
Qed.

(** ** Writes to the host control *)

Lemma map_indexed_length {A} (g : nat -> A -> A) l :
  forall i, length (map_indexed g i l) = length l.
Proof. induction l; intros; cbn; auto. Qed.


Lemma map_indexed_app {A} (g : nat -> A -> A) l1 l2 :
  forall i, map_indexed g i (l1 ++ l2)
            = (map_indexed g i l1 ++ map_indexed g (i + length l1) l2)%list.
Proof.
  induction l1 as [|x l1 IH]; intros i; cbn.
  - now rewrite Nat.add_0_r.
  - rewrite IH. do 3 f_equal. lia.
Qed.

Section HostWrite.

Variable g : nat -> Dom.Node -> Dom.Node.
Hypothesis g_name : forall j o, Dom.nodeName (g j o) = Dom.nodeName o.

Lemma is_element_g name j o : Dom.is_element name (g j o) = Dom.is_element name o.
Proof. unfold Dom.is_element. now rewrite g_name. Qed.

Lemma map_option_children_spec l :
  forall i,
    (Dom.map_option_children g i l).1
    = i + length (List.filter (Dom.is_element "OPTION") l)
    /\ List.filter (Dom.is_element "OPTION") (Dom.map_option_children g i l).2
       = map_indexed g i (List.filter (Dom.is_element "OPTION") l).
Proof.
  induction l as [|c l IH]; intros i; cbn [Dom.map_option_children List.filter].
  - cbn. split; [lia | reflexivity].
  - destruct (Dom.is_element "OPTION" c) eqn:E.
    + destruct (IH (S i)) as [I1 I2].
      destruct (Dom.map_option_children g (S i) l) as [j rest'].
      cbn [fst snd] in *. cbn [List.filter]. rewrite is_element_g, E.
      cbn [length map_indexed]. rewrite I2. split; [lia | reflexivity].
    + destruct (IH i) as [I1 I2].
      destruct (Dom.map_option_children g i l) as [j rest'].
      cbn [fst snd] in *. cbn [List.filter]. rewrite E. auto.
Qed.

Lemma map_options_from_spec l :
  forall i,
    flat_map Dom.options_of_node (Dom.map_options_from g i l)
    = map_indexed g i (flat_map Dom.options_of_node l).
Proof.
  induction l as [|n l IH]; intros i; [reflexivity|].
  cbn [Dom.map_options_from flat_map]. rewrite map_indexed_app.
  destruct (Dom.is_element "OPTGROUP" n) eqn:Eg.
  - assert (Hn : Dom.options_of_node n
                 = List.filter (Dom.is_element "OPTION") (Dom.childNodes n))
      by (unfold Dom.options_of_node; now rewrite Eg).
    destruct (map_option_children_spec (Dom.childNodes n) i) as [I1 I2].
    destruct (Dom.map_option_children g i (Dom.childNodes n)) as [j cs].
    cbn [fst snd] in *. cbn [flat_map]. rewrite IH, Hn, <- I1, <- I2.
    f_equal. unfold Dom.options_of_node.
    change (Dom.is_element "OPTGROUP" (Dom.set_childNodes cs n))
      with (Dom.is_element "OPTGROUP" n).
    now rewrite Eg.
  - destruct (Dom.is_element "OPTION" n) eqn:Eo.
    + assert (Hn : Dom.options_of_node n = [n])
        by (unfold Dom.options_of_node; now rewrite Eg, Eo).
      cbn [flat_map]. rewrite IH, Hn. cbn [length map_indexed app].
      unfold Dom.options_of_node at 1. rewrite !is_element_g, Eg, Eo.
      cbn [app]. do 2 f_equal. lia.
    + assert (Hn : Dom.options_of_node n = [])
        by (unfold Dom.options_of_node; now rewrite Eg, Eo).
      cbn [flat_map]. rewrite IH, Hn. cbn [length map_indexed app].
      f_equal. lia.
Qed.

End HostWrite.

Lemma write_selected_options i b f f' :
  Dom.write_selected i b f = Some f' ->
  Dom.options f' = map_indexed (written (Dom.multiple f) i b) 0 (Dom.options f)
  /\ Dom.multiple f' = Dom.multiple f.
Proof.
  unfold Dom.write_selected. destruct (Dom.options f !! i); [|discriminate].
  intros [= <-]. split; [|reflexivity].
  unfold Dom.options. cbn [Dom.select_childNodes].
  apply (map_options_from_spec (written (Dom.multiple f) i b)).
  intros j o. unfold written.
  destruct (Nat.eqb j i); [reflexivity|].
  destruct (b && negb (Dom.multiple f)); reflexivity.
Qed.

Lemma write_selected_total i b f :
  i < length (Dom.options f) -> is_Some (Dom.write_selected i b f).
Proof.
  intros H. unfold Dom.write_selected.
  destruct (lookup_lt_is_Some_2 _ _ H) as [o ->]. eauto.
Qed.

Lemma write_selected_length i b f f' :
  Dom.write_selected i b f = Some f' ->
  length (Dom.options f') = length (Dom.options f).
Proof.
  intros H. apply write_selected_options in H as [-> _].
  apply map_indexed_length.
Qed.

Lemma count_selected_cons o l :
  count_selected (o :: l) = (if Dom.selected o then 1 else 0) + count_selected l.
Proof. unfold count_selected. cbn. destruct (Dom.selected o); reflexivity. Qed.

Lemma count_selected_written i b l :
  forall k,
    count_selected (map_indexed (written true i b) k l) <= S (count_selected l)
    /\ (i < k -> count_selected (map_indexed (written true i b) k l) = count_selected l).
Proof.
  induction l as [|o l IH]; intros k; [cbn; split; lia|].
  cbn [map_indexed]. rewrite !count_selected_cons. destruct (IH (S k)) as [I1 I2].
  unfold written at 1 3. rewrite andb_false_r.
  destruct (Nat.eqb_spec k i) as [->|Hne].
  - cbn [Dom.selected Dom.set_selected]. specialize (I2 ltac:(lia)).
    rewrite I2. destruct b, (Dom.selected o); split; lia.
  - destruct (Dom.selected o); split; try lia;
      intros Hlt; rewrite (I2 ltac:(lia)); reflexivity.
Qed.

(** In a multiple select, setting one option raises the count of
    selected options by one at most. *)
Lemma write_selected_count i f f' :
  Dom.multiple f = true ->
  Dom.write_selected i true f = Some f' ->
  count_selected (Dom.options f') <= S (count_selected (Dom.options f)).
Proof.
  intros Hm H. apply write_selected_options in H as [-> _]. rewrite Hm.
  apply count_selected_written.
Qed.

(** ** The invariant *)

(** *** Its components *)

Lemma well_formed_ext nopts d d' :
  length d' = length d ->
  (forall i c c', d !! i = Some c -> d' !! i = Some c' ->
     array_index c' = array_index c /\ group c' = group c
     /\ options_index c' = options_index c
     /\ group_array_index c' = group_array_index c
     /\ disabled c' = disabled c /\ empty c' = empty c
     /\ (group c = true -> selected c' = selected c)) ->
  well_formed_data nopts d -> well_formed_data nopts d'.
Proof.
  intros Hlen Hext Hwf j c' Hj.
  assert (Hc : exists c, d !! j = Some c).
  { apply lookup_lt_is_Some_2. rewrite <- Hlen. now apply lookup_lt_Some in Hj. }
  destruct Hc as [c Hc].
  destruct (Hext j c c' Hc Hj) as (Ea & Eg & Eo & Egi & Ed & Ee & Es).
  destruct (Hwf j c Hc) as (Ha & Ho & Hg & Hgi).
  rewrite Ea, Eg, Eo, Egi, Ee.
  split; [exact Ha|]. split; [exact Ho|]. split.
  - intros G. rewrite (Es G). exact (Hg G).
  - intros gi Hgai. destruct (Hgi gi Hgai) as (Hr & f & Hf & Hgf & Hd).
    split; [exact Hr|].
    assert (Hf' : exists f', d' !! (gi - 0) = Some f').
    { apply lookup_lt_is_Some_2. rewrite Hlen. now apply lookup_lt_Some in Hf. }
    destruct Hf' as [f' Hf'].
    destruct (Hext _ f f' Hf Hf') as (_ & Eg' & _ & _ & Ed' & _).
    exists f'. split; [exact Hf'|]. rewrite Eg', Ed', Ed. auto.
Qed.

Lemma well_formed_set_selected nopts data idx b c :
  data !! idx = Some c -> group c = false ->
  well_formed_data nopts data ->
  well_formed_data nopts (alter (set_selected b) idx data).
Proof.
  intros Hc Hg. apply well_formed_ext; [apply length_alter|].
  intros i x x' Hx Hx'.
  destruct (decide (i = idx)) as [->|Hne].
  - rewrite list_lookup_alter_eq, Hx in Hx'. inversion Hx'; subst x'. cbn.
    rewrite Hc in Hx. inversion Hx; subst x. repeat split; auto. congruence.
  - rewrite list_lookup_alter_ne in Hx' by congruence.
    rewrite Hx in Hx'. inversion Hx'; subst. repeat split; auto.
Qed.

Lemma well_formed_reset nopts data :
  well_formed_data nopts data ->
  well_formed_data nopts
    (map (fun a => if selected a then set_selected false a else a) data).
Proof.
  intros Hwf. apply (well_formed_ext nopts data); [apply length_map| |exact Hwf].
  intros i x x' Hx Hx'. rewrite list_lookup_fmap, Hx in Hx'.
  inversion Hx'; subst x'. destruct (selected x) eqn:E; cbn; repeat split; auto.
  intros G. destruct (Hwf i x Hx) as (_ & _ & H & _). destruct (H G). congruence.
Qed.

Lemma map_group_alter f idx data :
  (forall c, group (f c) = group c) ->
  map group (alter f idx data) = map group data.
Proof.
  intros Hf. apply list_eq. intros i. rewrite !list_lookup_fmap.
  destruct (decide (i = idx)) as [->|Hne].
  - rewrite list_lookup_alter_eq. destruct (data !! idx); cbn; [|reflexivity].
    now rewrite Hf.
  - now rewrite list_lookup_alter_ne by congruence.
Qed.

Lemma map_group_skeleton d d' :
  map skeleton d' = map skeleton d -> map group d' = map group d.
Proof.
  intros H. apply (f_equal (map group)) in H.
  rewrite !map_map in H. exact H.
Qed.

Lemma lookup_group d d' i c :
  map group d' = map group d -> d !! i = Some c ->
  exists c', d' !! i = Some c' /\ group c' = group c.
Proof.
  intros H Hc. apply (f_equal (fun l => l !! i)) in H.
  rewrite !list_lookup_fmap, Hc in H.
  destruct (d' !! i) as [c'|]; [|discriminate].
  exists c'. split; [reflexivity|]. cbn in H. congruence.
Qed.

Lemma view_on_groups lis d d' :
  map group d' = map group d -> view_on lis d -> view_on lis d'.
Proof.
  intros Hg Hv k e He. destruct (Hv k e He) as [H1 H2]. split; [|exact H2].
  intros idx Hidx. destruct (H1 idx Hidx) as (c & Hc & Hgc).
  destruct (lookup_group d d' idx c Hg Hc) as (c' & Hc' & Hg').
  exists c'. split; [exact Hc' | congruence].
Qed.

Lemma choices_on_groups chs d d' :
  map group d' = map group d -> choices_on chs d -> choices_on chs d'.
Proof.
  intros Hg Hv n ch idx Hn Hidx. destruct (Hv n ch idx Hn Hidx) as (c & Hc & Hgc).
  destruct (lookup_group d d' idx c Hg Hc) as (c' & Hc' & Hg').
  exists c'. split; [exact Hc' | congruence].
Qed.

Lemma view_on_alter f k lis d :
  (forall e, li_data_index (f e) = li_data_index e
             /\ (hasClass cls_active_result (f e) = true ->
                 hasClass cls_active_result e = true)) ->
  view_on lis d -> view_on (alter f k lis) d.
Proof.
  intros Hf Hv i e He.
  destruct (decide (i = k)) as [->|Hne].
  - rewrite list_lookup_alter_eq in He. destruct (lis !! k) as [e0|] eqn:E0; [|discriminate].
    inversion He; subst e. destruct (Hf e0) as [F1 F2]. destruct (Hv k e0 E0) as [H1 H2].
    rewrite F1. split; [exact H1|]. intros Ha. exact (H2 (F2 Ha)).
  - rewrite list_lookup_alter_ne in He by congruence. exact (Hv i e He).
Qed.

Lemma highlight_on_alter f k h lis :
  (forall e, li_data_index (f e) = li_data_index e) ->
  highlight_on h lis -> highlight_on h (alter f k lis).
Proof.
  intros Hf Hh i Hi. destruct (Hh i Hi) as (e & He & Hidx).
  destruct (decide (i = k)) as [->|Hne].
  - exists (f e). rewrite list_lookup_alter_eq, He. split; [reflexivity|]. now rewrite Hf.
  - exists e. rewrite list_lookup_alter_ne by congruence. auto.
Qed.

Lemma highlight_on_None lis : highlight_on None lis.
Proof. intros k H. discriminate. Qed.

Lemma class_change_add k e :
  css_class_eqb cls_active_result k = false ->
  li_data_index (addClass k e) = li_data_index e
  /\ (hasClass cls_active_result (addClass k e) = true ->
      hasClass cls_active_result e = true).
Proof.
  intros Hk. split.
  - unfold addClass. destruct (hasClass k e); reflexivity.
  - rewrite hasClass_addClass, Hk, orb_false_r. auto.
Qed.

Lemma hasClass_removeClass k k' e :
  hasClass k (removeClass k' e) = true -> hasClass k e = true.
Proof.
  unfold hasClass, removeClass. cbn.
  induction (li_classes e) as [|x l IH]; [auto|]. cbn.
  destruct (css_class_eqb k' x); cbn; intros H.
  - rewrite (IH H). apply orb_true_r.
  - apply orb_true_iff in H as [H|H]; [now rewrite H|].
    rewrite (IH H). apply orb_true_r.
Qed.

Lemma class_change_remove k e :
  li_data_index (removeClass k e) = li_data_index e
  /\ (hasClass cls_active_result (removeClass k e) = true ->
      hasClass cls_active_result e = true).
Proof. split; [reflexivity | apply hasClass_removeClass]. Qed.

(** *** Operations that keep the host control *)

Lemma invariant_same s s' :
  results_data s' = results_data s ->
  form_field s' = form_field s ->
  search_results s' = search_results s ->
  search_choices s' = search_choices s ->
  result_highlight s' = result_highlight s ->
  selected_option_count s' = selected_option_count s ->
  is_multiple s' = is_multiple s ->
  invariant s -> invariant s'.
Proof.
  intros H1 H2 H3 H4 H5 H6 H7 [I1 I2 I3 I4 I5 I6].
  constructor; rewrite ?H1, ?H2, ?H3, ?H4, ?H5, ?H6, ?H7; assumption.
Qed.

Lemma stable_refl s : stable s s.
Proof. repeat split. Qed.

Lemma stable_trans s1 s2 s3 : stable s1 s2 -> stable s2 s3 -> stable s1 s3.
Proof. intros (A1 & A2 & A3) (B1 & B2 & B3). repeat split; congruence. Qed.

Lemma capacity_stable s s' : stable s s' -> capacity_ok s -> capacity_ok s'.
Proof.
  intros (Hc & Hm & Hf) H. unfold capacity_ok, selected_count in *.
  rewrite Hc, Hm, Hf. exact H.
Qed.

Lemma invariant_clear_highlight s :
  invariant s ->
  invariant (result_clear_highlight s) /\ stable s (result_clear_highlight s).
Proof.
  intros [I1 I2 I3 I4 I5 I6]. unfold result_clear_highlight.
  destruct (result_highlight s) as [k|]; (split; [|repeat split]).
  - constructor; cbn; auto using highlight_on_None.
    apply view_on_alter; [intros e; apply class_change_remove | exact I2].
  - constructor; cbn; auto using highlight_on_None.
Qed.

Lemma invariant_do_highlight a s :
  (forall k, a = Some k ->
     exists e, search_results s !! k = Some e /\ is_Some (li_data_index e)) ->
  invariant s ->
  invariant (result_do_highlight a s) /\ stable s (result_do_highlight a s).
Proof.
  intros Ha Hi. unfold result_do_highlight. destruct a as [k|]; [|split; [auto|apply stable_refl]].
  destruct (invariant_clear_highlight s Hi) as [[I1 I2 I3 I4 I5 I6] St].
  assert (Hk : exists e, search_results (result_clear_highlight s) !! k = Some e
                         /\ is_Some (li_data_index e)).
  { destruct (Ha k eq_refl) as (e & He & Hidx). unfold result_clear_highlight.
    destruct (result_highlight s) as [k'|]; cbn; [|eauto].
    destruct (decide (k = k')) as [->|Hne].
    - exists (removeClass cls_highlighted e). rewrite list_lookup_alter_eq, He. auto.
    - exists e. rewrite list_lookup_alter_ne by congruence. auto. }
  split; [|destruct St as (? & ? & ?); repeat split; assumption].
  constructor; cbn; auto.
  - apply view_on_alter; [intros e; now apply class_change_add | exact I2].
  - intros i [= <-]. destruct Hk as (e & He & Hidx).
    exists (addClass cls_highlighted e). rewrite list_lookup_alter_eq, He.
    split; [reflexivity|]. unfold addClass. destruct (hasClass _ e); exact Hidx.
Qed.

Lemma choices_count_exact s :
  invariant s ->
  (choices_count s).1 = selected_count s
  /\ invariant (choices_count s).2 /\ stable s (choices_count s).2
  /\ results_showing (choices_count s).2 = results_showing s
  /\ active_field (choices_count s).2 = active_field s
  /\ search_field_val (choices_count s).2 = search_field_val s
  /\ search_choices (choices_count s).2 = search_choices s
  /\ result_highlight (choices_count s).2 = result_highlight s.
Proof.
  intros [I1 I2 I3 I4 I5 I6]. unfold choices_count, selected_count.
  destruct (selected_option_count s) as [n|] eqn:E; cbn.
  - split; [exact (I5 n eq_refl)|]. split; [constructor; rewrite ?E; auto|]. repeat split.
  - split; [reflexivity|]. split; [|repeat split].
    constructor; cbn; auto. intros n [= <-]. reflexivity.
Qed.

Lemma view_on_rendered s nopts data :
  well_formed_data nopts data -> view_on (rendered s data) data.
Proof.
  intros Hwf k x Hk.
  apply list_elem_of_lookup_2, list_elem_of_In in Hk.
  destruct (rendered_entries s data x Hk) as [_ [(c & Hin & Hg & Hidx & _)|[Hn Ha]]].
  - split; [|intros _; rewrite Hidx; eauto].
    intros idx Hi. rewrite Hidx in Hi. inversion Hi; subst idx.
    apply list_elem_of_In, list_elem_of_lookup in Hin as [j Hj].
    destruct (Hwf j c Hj) as (Ha & _). rewrite Ha. cbn. eauto.
  - split; [intros idx Hi; congruence|]. intros H. congruence.
Qed.

Lemma invariant_winnow_outcome s data e :
  invariant s ->
  map skeleton data = map skeleton (results_data s) ->
  invariant (winnow_outcome s data e) /\ stable s (winnow_outcome s data e).
Proof.
  intros [I1 I2 I3 I4 I5 I6] Hs.
  assert (Hwf : well_formed_data (length (Dom.options (form_field s))) data)
    by exact (well_formed_skeleton _ _ _ Hs I1).
  assert (Hch : choices_on (search_choices s) data)
    by exact (choices_on_groups _ _ _ (map_group_skeleton _ _ Hs) I3).
  unfold winnow_outcome.
  destruct (Nat.ltb e 1 && negb (String.eqb (get_search_text s) "")).
  - split; [|repeat split]. constructor; cbn; auto using highlight_on_None.
    intros k x Hk. destruct k as [|k]; [|discriminate]. inversion Hk; subst x. cbn.
    split; [discriminate|]. intros H. discriminate.
  - split; [|repeat split]. pose proof (view_on_rendered s _ data Hwf) as Hv.
    destruct (pick_highlight s (rendered s data)) as [k|] eqn:Ep.
    + constructor; cbn; auto.
      * apply view_on_alter; [intros x; now apply class_change_add | exact Hv].
      * intros i [= <-]. destruct (pick_highlight_active s _ k Ep) as (x & Hx & Ha).
        exists (addClass cls_highlighted x). rewrite list_lookup_alter_eq, Hx.
        split; [reflexivity|]. destruct (Hv k x Hx) as [_ H].
        unfold addClass. destruct (hasClass cls_highlighted x); exact (H Ha).
    + constructor; cbn; auto using highlight_on_None.
Qed.

Lemma winnow_outcome_fields s data e :
  let s' := winnow_outcome s data e in
  results_data s' = data
  /\ selected_option_count s' = selected_option_count s
  /\ results_showing s' = results_showing s
  /\ active_field s' = active_field s
  /\ search_field_val s' = search_field_val s
  /\ search_choices s' = search_choices s
  /\ default_text s' = default_text s
  /\ results_none_found s' = results_none_found s.
Proof.
  unfold winnow_outcome.
  destruct (Nat.ltb e 1 && negb (String.eqb (get_search_text s) "")); cbn; repeat split.
Qed.

(** The filter never fails on a widget that satisfies the invariant. *)
Lemma invariant_winnow_results s :
  invariant s ->
  exists s', winnow_results s = Some s'
    /\ invariant s' /\ stable s s'
    /\ selected_option_count s' = selected_option_count s
    /\ results_showing s' = results_showing s
    /\ active_field s' = active_field s
    /\ search_field_val s' = search_field_val s
    /\ search_choices s' = search_choices s.
Proof.
  intros Hi.
  destruct (winnow_results_total s _ (inv_data s Hi)) as (data & e & Hp & Hw & Hs).
  exists (winnow_outcome s data e). split; [exact Hw|].
  destruct (invariant_winnow_outcome s data e Hi Hs) as [H1 H2].
  pose proof (winnow_outcome_fields s data e) as F. cbn in F.
  destruct F as (_ & F2 & F3 & F4 & F5 & F6 & _).
  auto 10.
Qed.

Lemma invariant_results_hide s :
  invariant s ->
  invariant (results_hide s) /\ stable s (results_hide s)
  /\ result_highlight (results_hide s)
     = (if results_showing s then None else result_highlight s)
  /\ selected_option_count (results_hide s) = selected_option_count s
  /\ search_choices (results_hide s) = search_choices s
  /\ active_field (results_hide s) = active_field s
  /\ search_field_val (results_hide s) = search_field_val s.
Proof.
  intros Hi. unfold results_hide. destruct (results_showing s).
  - destruct (invariant_clear_highlight s Hi) as [H1 H2].
    pose proof (result_clear_highlight_fields s) as F. cbn in F.
    destruct F as (_ & _ & _ & _ & _ & F1 & F2 & F3 & F4 & _ & _ & F5).
    split; [eapply invariant_same; [..|exact H1]; reflexivity|].
    split; [exact H2|]. cbn. auto.
  - split; [eapply invariant_same; [..|exact Hi]; reflexivity|].
    split; [repeat split|]. cbn. auto.
Qed.

Lemma invariant_show_search_field_default s :
  invariant s ->
  invariant (show_search_field_default s) /\ stable s (show_search_field_default s)
  /\ result_highlight (show_search_field_default s) = result_highlight s
  /\ search_choices (show_search_field_default s) = search_choices s
  /\ results_showing (show_search_field_default s) = results_showing s
  /\ active_field (show_search_field_default s) = active_field s.
Proof.
  intros Hi. unfold show_search_field_default.
  destruct (is_multiple s).
  - pose proof (choices_count_exact s Hi) as (_ & H1 & H2 & H3 & H4 & H5 & H6 & H7).
    destruct (choices_count s) as [n s']. cbn [fst snd] in *.
    destruct (Nat.ltb n 1 && negb (active_field s'));
      (split; [eapply invariant_same; [..|exact H1]; reflexivity|]);
      (split; [exact H2|]); cbn; auto.
  - split; [eapply invariant_same; [..|exact Hi]; reflexivity|].
    split; [repeat split|]. cbn. auto.
Qed.

Lemma invariant_results_show s :
  invariant s ->
  exists s', results_show s = Some s' /\ invariant s' /\ stable s s'
             /\ search_choices s' = search_choices s.
Proof.
  intros Hi. unfold results_show.
  assert (H : exists full s1,
            (if is_multiple s
             then let '(n, s0) := choices_count s in
                  (num_le_count (max_selected_options (config s0)) n, s0)
             else (false, s)) = (full, s1)
            /\ invariant s1 /\ stable s s1 /\ search_choices s1 = search_choices s).
  { destruct (is_multiple s).
    - pose proof (choices_count_exact s Hi) as (_ & H1 & H2 & _ & _ & _ & H3 & _).
      destruct (choices_count s) as [n s0]. cbn [fst snd] in *. eauto 10.
    - exists false, s. auto using stable_refl. }
  destruct H as (full & s1 & -> & H1 & H2 & H3).
  destruct full.
  - eexists. split; [reflexivity|].
    split; [eapply invariant_same; [..|exact H1]; reflexivity|].
    split; [exact H2 | exact H3].
  - set (s2 := set_search_field_val _ (set_results_showing true s1)).
    assert (Hi2 : invariant s2) by (eapply invariant_same; [..|exact H1]; reflexivity).
    destruct (invariant_winnow_results s2 Hi2) as (s3 & Hw & Hi3 & St & _ & _ & _ & _ & Hc).
    rewrite Hw. cbn [mbind option_bind]. eexists. split; [reflexivity|].
    split; [eapply invariant_same; [..|exact Hi3]; reflexivity|].
    split.
    + subst s2. destruct H2 as (A1 & A2 & A3), St as (B1 & B2 & B3).
      cbn in B1, B2, B3. repeat split; cbn; congruence.
    + subst s2. cbn in Hc |- *. rewrite Hc. exact H3.
Qed.

(** *** Selecting *)

Lemma map_index_alter f k lis :
  (forall e, li_data_index (f e) = li_data_index e) ->
  map li_data_index (alter f k lis) = map li_data_index lis.
Proof.
  intros Hf. apply list_eq. intros i. rewrite !list_lookup_fmap.
  destruct (decide (i = k)) as [->|Hne].
  - rewrite list_lookup_alter_eq. destruct (lis !! k); cbn; [|reflexivity]. now rewrite Hf.
  - now rewrite list_lookup_alter_ne by congruence.
Qed.

Lemma lookup_index lis lis' k e :
  map li_data_index lis' = map li_data_index lis ->
  lis !! k = Some e ->
  exists e', lis' !! k = Some e' /\ li_data_index e' = li_data_index e.
Proof.
  intros H He. apply (f_equal (fun l => l !! k)) in H.
  rewrite !list_lookup_fmap, He in H.
  destruct (lis' !! k) as [e'|]; [|discriminate].
  exists e'. split; [reflexivity|]. cbn in H. congruence.
Qed.

Lemma li_data_index_addClass k e : li_data_index (addClass k e) = li_data_index e.
Proof. unfold addClass. destruct (hasClass k e); reflexivity. Qed.

Lemma clear_highlight_indices s :
  map li_data_index (search_results (result_clear_highlight s))
  = map li_data_index (search_results s).
Proof.
  unfold result_clear_highlight. destruct (result_highlight s); cbn; [|reflexivity].
  now apply map_index_alter.
Qed.

Lemma invariant_class_change f k s :
  (forall e, li_data_index (f e) = li_data_index e
             /\ (hasClass cls_active_result (f e) = true ->
                 hasClass cls_active_result e = true)) ->
  invariant s ->
  invariant (set_search_results (alter f k (search_results s)) s).
Proof.
  intros Hf [I1 I2 I3 I4 I5 I6]. constructor; cbn; auto.
  - now apply view_on_alter.
  - apply highlight_on_alter; [intros e; apply Hf | exact I4].
Qed.

Lemma map_group_reset data :
  map group (map (fun a => if selected a then set_selected false a else a) data)
  = map group data.
Proof.
  rewrite map_map. apply map_ext. intros a. destruct (selected a); reflexivity.
Qed.

Lemma invariant_reset s :
  invariant s -> invariant (reset_single_select_options s).
Proof.
  intros [I1 I2 I3 I4 I5 I6]. unfold reset_single_select_options.
  constructor; cbn; auto.
  - now apply well_formed_reset.
  - exact (view_on_groups _ _ _ (map_group_reset _) I2).
  - exact (choices_on_groups _ _ _ (map_group_reset _) I3).
Qed.

Lemma invariant_choice_build c s :
  (disabled c = false ->
   exists c', results_data s !! array_index c = Some c' /\ group c' = false) ->
  invariant s -> invariant (choice_build c s).
Proof.
  intros Hc [I1 I2 I3 I4 I5 I6]. unfold choice_build. constructor; cbn; auto.
  intros n ch idx Hn Hidx.
  apply lookup_app_Some in Hn as [Hn|[_ Hn]]; [exact (I3 n ch idx Hn Hidx)|].
  destruct (n - length (search_choices s)) as [|m]; [|discriminate].
  inversion Hn; subst ch. cbn in Hidx.
  destruct (disabled c) eqn:Ed; [discriminate|]. inversion Hidx; subst idx.
  exact (Hc eq_refl).
Qed.

Lemma not_full_within_limit a n :
  num_le_count a n = false -> within_limit (S n) a.
Proof.
  destruct a as [z|]; cbn; [|auto]. intros H. apply Z.leb_gt in H. lia.
Qed.

Lemma within_limit_le a n m : m <= n -> within_limit n a -> within_limit m a.
Proof. destruct a; cbn; [lia | auto]. Qed.

Lemma invariant_result_select evt s :
  invariant s ->
  exists s', result_select evt s = Some s'
    /\ invariant s' /\ config s' = config s /\ is_multiple s' = is_multiple s
    /\ (capacity_ok s -> capacity_ok s').
Proof.
  intros Hi. unfold result_select.
  destruct (result_highlight s) as [high|] eqn:Eh.
  2:{ exists s. auto. }
  destruct (inv_highlight s Hi high Eh) as (e0 & He0 & [idx Hidx]).
  destruct (invariant_clear_highlight s Hi) as [Hi1 St1].
  pose proof (clear_highlight_indices s) as Hix1.
  pose proof (result_clear_highlight_fields s) as F1. cbn in F1.
  destruct F1 as (_ & _ & _ & _ & _ & _ & _ & _ & _ & _ & _ & Fh1).
  set (s1 := result_clear_highlight s) in *.
  assert (H2 : exists full s2,
            (if is_multiple s1
             then let '(n, s0) := choices_count s1 in
                  (num_le_count (max_selected_options (config s0)) n, s0)
             else (false, s1)) = (full, s2)
            /\ invariant s2 /\ stable s1 s2
            /\ search_results s2 = search_results s1
            /\ results_data s2 = results_data s1
            /\ result_highlight s2 = None
            /\ (is_multiple s = true -> full = false ->
                within_limit (S (selected_count s)) (max_selected_options (config s)))).
  { destruct St1 as (C1 & M1 & FF1).
    destruct (is_multiple s1) eqn:Em.
    - pose proof (choices_count_exact s1 Hi1) as (Hn & H1 & H2 & _ & _ & _ & _ & H7).
      pose proof (choices_count_fields s1) as F. cbn in F.
      destruct F as (_ & _ & _ & Fd & _ & _ & Fs & _).
      destruct (choices_count s1) as [n s0]. cbn [fst snd] in *.
      exists (num_le_count (max_selected_options (config s0)) n), s0.
      split; [reflexivity|]. split; [exact H1|]. split; [exact H2|].
      split; [exact Fs|]. split; [exact Fd|]. split; [congruence|].
      intros _ Hf. apply not_full_within_limit in Hf.
      destruct H2 as (C2 & _ & _). unfold selected_count in *.
      rewrite C2, C1 in Hf. rewrite Hn, FF1 in Hf. exact Hf.
    - exists false, s1. split; [reflexivity|]. split; [exact Hi1|].
      split; [apply stable_refl|]. split; [reflexivity|]. split; [reflexivity|].
      split; [exact Fh1|]. intros Hm. congruence. }
  destruct H2 as (full & s2 & -> & Hi2 & St2 & Fs2 & Fd2 & Fh2 & Hcap).
  assert (St12 : stable s s2) by exact (stable_trans _ _ _ St1 St2).
  destruct St12 as (C2 & M2 & FF2).
  destruct full.
  { eexists. split; [reflexivity|].
    split; [eapply invariant_same; [..|exact Hi2]; reflexivity|].
    split; [exact C2|]. split; [exact M2|].
    apply capacity_stable. repeat split; assumption. }
  set (s3 := if is_multiple s2
             then set_search_results
                    (alter (removeClass cls_active_result) high (search_results s2)) s2
             else reset_single_select_options s2).
  assert (H3 : invariant s3 /\ stable s2 s3
               /\ map li_data_index (search_results s3)
                  = map li_data_index (search_results s2)
               /\ map group (results_data s3) = map group (results_data s2)
               /\ result_highlight s3 = None
               /\ search_choices s3 = search_choices s2).
  { subst s3. destruct (is_multiple s2).
    - split; [apply invariant_class_change;
              [intros x; apply class_change_remove | exact Hi2]|].
      split; [repeat split|]. cbn.
      split; [now apply map_index_alter|]. auto.
    - split; [now apply invariant_reset|]. split; [repeat split|]. cbn.
      split; [reflexivity|]. split; [apply map_group_reset|]. auto. }
  destruct H3 as (Hi3 & St3 & Hix3 & Hg3 & Fh3 & Fc3).
  set (s4 := set_search_results
               (alter (addClass cls_result_selected) high (search_results s3)) s3).
  assert (Hi4 : invariant s4).
  { apply invariant_class_change; [intros x; now apply class_change_add | exact Hi3]. }
  assert (Hix4 : map li_data_index (search_results s4) = map li_data_index (search_results s)).
  { subst s4. cbn. rewrite map_index_alter by apply li_data_index_addClass.
    rewrite Hix3, Fs2. exact Hix1. }
  destruct (lookup_index _ _ high e0 Hix4 He0) as (e4 & He4 & Hidx4).
  rewrite He4. cbn [mbind option_bind]. rewrite Hidx4, Hidx. cbn [mbind option_bind].
  destruct (inv_view s4 Hi4 high e4 He4) as [Hv4 _].
  destruct (Hv4 idx ltac:(congruence)) as (c & Hc & Hgc).
  rewrite Hc. cbn [mbind option_bind].
  destruct (inv_data s4 Hi4 idx c Hc) as (Hai & Hoi & _ & _).
  destruct (Hoi Hgc) as (oi & Eoi & Hlt).
  rewrite Eoi. cbn [mbind option_bind].
  cbn [form_field set_results_data].
  destruct (write_selected_total oi true (form_field s4) Hlt) as [f Hf].
  rewrite Hf. cbn [mbind option_bind].
  set (s7 := set_selected_option_count None
               (set_form_field f
                  (set_results_data (alter (set_selected true) idx (results_data s4)) s4))).
  assert (Hlen : length (Dom.options f) = length (Dom.options (form_field s4)))
    by exact (write_selected_length _ _ _ _ Hf).
  assert (Hi7 : invariant s7).
  { destruct Hi4 as [I1 I2 I3 I4 I5 I6]. subst s7. constructor; cbn.
    - rewrite Hlen. now apply (well_formed_set_selected _ _ _ _ c).
    - apply (view_on_groups _ (results_data s4)); [now apply map_group_alter | exact I2].
    - apply (choices_on_groups _ (results_data s4)); [now apply map_group_alter | exact I3].
    - exact I4.
    - intros n Hn. discriminate.
    - transitivity (Dom.multiple (form_field s4)); [exact I6|].
      symmetry. now apply write_selected_options in Hf. }
  assert (Hc7 : results_data s7 !! idx = Some (set_selected true c)).
  { change (alter (set_selected true) idx (results_data s4) !! idx
            = Some (set_selected true c)).
    now rewrite list_lookup_alter_eq, Hc. }
  rewrite Hc7. cbn [mbind option_bind].
  set (s8 := if is_multiple s7 then choice_build (set_selected true c) s7
             else single_set_selected_text (Some (choice_label s7 (set_selected true c))) s7).
  assert (Hi8 : invariant s8 /\ form_field s8 = f /\ config s8 = config s
                /\ is_multiple s8 = is_multiple s /\ result_highlight s8 = None).
  { destruct St3 as (C3 & M3 & _).
    assert (config s7 = config s) by (subst s7 s4; cbn; congruence).
    assert (is_multiple s7 = is_multiple s) by (subst s7 s4; cbn; congruence).
    assert (result_highlight s7 = None) by (subst s7 s4; cbn; congruence).
    subst s8. destruct (is_multiple s7).
    - split; [|cbn; repeat split; congruence].
      apply invariant_choice_build; [|exact Hi7].
      intros _. exists (set_selected true c). split; [|exact Hgc].
      change (array_index (set_selected true c)) with (array_index c).
      rewrite Hai. exact Hc7.
    - split; [|cbn; repeat split; congruence].
      eapply invariant_same; [..|exact Hi7]; reflexivity. }
  destruct Hi8 as (Hi8 & Ff8 & C8 & M8 & Fh8).
  set (s9 := if negb (is_multiple s8)
                || hide_results_on_select (config s8) && negb (metaKey evt)
                   && negb (ctrlKey evt)
             then show_search_field_default (results_hide s8) else s8).
  assert (Hi9 : invariant s9 /\ form_field s9 = f /\ config s9 = config s
                /\ is_multiple s9 = is_multiple s).
  { subst s9.
    destruct (negb (is_multiple s8)
              || hide_results_on_select (config s8) && negb (metaKey evt)
                 && negb (ctrlKey evt)); [|auto].
    destruct (invariant_results_hide s8 Hi8) as (A1 & (A2 & A3 & A4) & _).
    destruct (invariant_show_search_field_default _ A1) as (B1 & (B2 & B3 & B4) & _).
    split; [exact B1|]. repeat split; congruence. }
  destruct Hi9 as (Hi9 & Ff9 & C9 & M9).
  rewrite Ff9.
  assert (Ho : exists o, Dom.options f !! oi = Some o).
  { apply lookup_lt_is_Some_2. rewrite Hlen. exact Hlt. }
  destruct Ho as [o Ho]. rewrite Ho. cbn [mbind option_bind].
  eexists. split; [reflexivity|].
  match goal with |- invariant (set_current_selectedIndex _ ?x) /\ _ =>
    assert (Hx : invariant x /\ form_field x = f /\ config x = config s
                 /\ is_multiple x = is_multiple s)
  end.
  { match goal with |- context [if ?b then _ else _] => destruct b end.
    - split; [eapply invariant_same; [..|exact Hi9]; reflexivity|]. cbn. auto.
    - auto. }
  destruct Hx as (Hx & Ffx & Cx & Mx).
  split; [eapply invariant_same; [..|exact Hx]; reflexivity|].
  cbn. split; [exact Cx|]. split; [exact Mx|].
  intros _. unfold capacity_ok, selected_count.
  cbn [is_multiple config form_field set_current_selectedIndex].
  rewrite Cx, Ffx, Mx. intros Hm.
  apply (within_limit_le _ (S (count_selected (Dom.options (form_field s))))).
  - assert (Ff4 : form_field s4 = form_field s).
    { destruct St3 as (_ & _ & F3). subst s4. cbn. congruence. }
    rewrite <- Ff4. apply (write_selected_count oi); [|exact Hf].
    rewrite Ff4. rewrite <- (inv_multiple s Hi). exact Hm.
  - apply Hcap; [exact Hm | reflexivity].
Qed.

(** *** Deselecting *)

Lemma carries_stable s s' : invariant s' -> stable s s' -> carries s s'.
Proof.
  intros Hi St. split; [exact Hi|]. destruct St as (C & M & F).
  split; [exact C|]. split; [exact M|].
  apply capacity_stable. repeat split; assumption.
Qed.

Lemma carries_trans s1 s2 s3 : carries s1 s2 -> carries s2 s3 -> carries s1 s3.
Proof.
  intros (A1 & A2 & A3 & A4) (B1 & B2 & B3 & B4).
  split; [exact B1|]. split; [congruence|]. split; [congruence|]. auto.
Qed.

Lemma carries_refl s : invariant s -> carries s s.
Proof. intros H. apply carries_stable; [exact H | apply stable_refl]. Qed.

Lemma count_selected_unset m i l :
  forall k, count_selected (map_indexed (written m i false) k l) <= count_selected l.
Proof.
  induction l as [|o l IH]; intros k; [cbn; lia|].
  cbn [map_indexed]. rewrite !count_selected_cons. specialize (IH (S k)).
  unfold written at 1. cbn [andb].
  destruct (Nat.eqb k i); cbn [Dom.selected Dom.set_selected];
    destruct (Dom.selected o); lia.
Qed.

Lemma write_unselected_count i f f' :
  Dom.write_selected i false f = Some f' ->
  count_selected (Dom.options f') <= count_selected (Dom.options f).
Proof.
  intros H. apply write_selected_options in H as [-> _]. apply count_selected_unset.
Qed.

Lemma invariant_result_deselect a s b :
  invariant s ->
  results_data s !! a = Some b -> group b = false ->
  exists ok s', result_deselect a s = Some (ok, s')
    /\ carries s s' /\ search_choices s' = search_choices s.
Proof.
  intros Hi Hb Hgb. unfold result_deselect. rewrite Hb. cbn [mbind option_bind].
  destruct (inv_data s Hi a b Hb) as (_ & Hoi & _ & _).
  destruct (Hoi Hgb) as (oi & Eoi & Hlt). rewrite Eoi. cbn [mbind option_bind].
  destruct (lookup_lt_is_Some_2 _ _ Hlt) as [o Ho]. rewrite Ho. cbn [mbind option_bind].
  destruct (Dom.disabled o).
  { exists false, s. split; [reflexivity|]. split; [now apply carries_refl | reflexivity]. }
  cbn [form_field set_results_data].
  destruct (write_selected_total oi false (form_field s) Hlt) as [f Hf].
  rewrite Hf. cbn [mbind option_bind].
  assert (Hlen : length (Dom.options f) = length (Dom.options (form_field s)))
    by exact (write_selected_length _ _ _ _ Hf).
  set (s3 := set_selected_option_count None
               (set_form_field f
                  (set_results_data (alter (set_selected false) a (results_data s)) s))).
  assert (Hi3 : invariant s3).
  { destruct Hi as [I1 I2 I3 I4 I5 I6]. subst s3. constructor; cbn.
    - rewrite Hlen. now apply (well_formed_set_selected _ _ _ _ b).
    - apply (view_on_groups _ (results_data s)); [now apply map_group_alter | exact I2].
    - apply (choices_on_groups _ (results_data s)); [now apply map_group_alter | exact I3].
    - exact I4.
    - intros n Hn. discriminate.
    - rewrite I6. symmetry. now apply write_selected_options in Hf. }
  destruct (invariant_clear_highlight s3 Hi3) as [Hi4 St4].
  pose proof (result_clear_highlight_fields s3) as F4. cbn in F4.
  destruct F4 as (_ & _ & _ & _ & Fsh & _ & Fc4 & _).
  set (s4 := result_clear_highlight s3) in *.
  assert (H5 : exists s5, (if results_showing s4 then winnow_results s4 else Some s4) = Some s5
                          /\ invariant s5 /\ stable s4 s5
                          /\ search_choices s5 = search_choices s4).
  { destruct (results_showing s4).
    - destruct (invariant_winnow_results s4 Hi4) as (s5 & Hw & H1 & H2 & _ & _ & _ & _ & H3).
      eauto.
    - exists s4. auto using stable_refl. }
  destruct H5 as (s5 & -> & Hi5 & St5 & Fc5). cbn [mbind option_bind].
  assert (St35 : stable s3 s5) by exact (stable_trans _ _ _ St4 St5).
  destruct St35 as (C5 & M5 & FF5).
  assert (Ho5 : exists o', Dom.options (form_field s5) !! oi = Some o').
  { apply lookup_lt_is_Some_2. rewrite FF5. subst s3. cbn. rewrite Hlen. exact Hlt. }
  destruct Ho5 as [o' ->]. cbn [mbind option_bind].
  eexists true, _. split; [reflexivity|]. split.
  - split; [eapply invariant_same; [..|exact Hi5]; reflexivity|].
    cbn. split; [rewrite C5; reflexivity|]. split; [rewrite M5; reflexivity|].
    unfold capacity_ok, selected_count. cbn. rewrite C5, M5, FF5. subst s3. cbn.
    intros Hc Hm. apply (within_limit_le _ _ _ (write_unselected_count _ _ _ Hf)).
    exact (Hc Hm).
  - cbn. rewrite Fc5, Fc4. reflexivity.
Qed.

Lemma remove_nth_lookup {A} (l : list A) :
  forall n k x, remove_nth n l !! k = Some x -> exists k', l !! k' = Some x.
Proof.
  induction l as [|y l IH]; intros n k x H; [destruct n; discriminate|].
  destruct n as [|n]; cbn in H.
  - exists (S k). exact H.
  - destruct k as [|k]; cbn in H.
    + exists 0. exact H.
    + destruct (IH n k x H) as [k' Hk']. exists (S k'). exact Hk'.
Qed.

Lemma invariant_choice_destroy n a s b :
  invariant s ->
  results_data s !! a = Some b -> group b = false ->
  exists s', choice_destroy n a s = Some s' /\ carries s s'.
Proof.
  intros Hi Hb Hgb. unfold choice_destroy.
  destruct (invariant_result_deselect a s b Hi Hb Hgb) as (ok & s1 & -> & Hc1 & Fc1).
  cbn [mbind option_bind]. destruct ok; [|eauto].
  destruct Hc1 as (Hi1 & C1 & M1 & Cap1).
  set (s2 := if active_field s1 then s1 else show_search_field_default s1).
  assert (H2 : invariant s2 /\ stable s1 s2 /\ search_choices s2 = search_choices s1).
  { subst s2. destruct (active_field s1); [auto using stable_refl|].
    destruct (invariant_show_search_field_default s1 Hi1) as (A & B & _ & C & _). auto. }
  destruct H2 as (Hi2 & St2 & Fc2).
  assert (H3 : exists s3,
            (if is_multiple s2
             then let '(cnt, s0) := choices_count s2 in
                  if Nat.ltb 0 cnt && Nat.ltb (String.length (get_search_field_value s0)) 1
                  then results_hide s0 else s0
             else s2) = s3
            /\ invariant s3 /\ stable s2 s3 /\ search_choices s3 = search_choices s2).
  { destruct (is_multiple s2).
    - pose proof (choices_count_exact s2 Hi2) as (_ & A1 & A2 & _ & _ & _ & A3 & _).
      destruct (choices_count s2) as [cnt s0]. cbn [fst snd] in *.
      destruct (Nat.ltb 0 cnt && Nat.ltb (String.length (get_search_field_value s0)) 1).
      + destruct (invariant_results_hide s0 A1) as (B1 & B2 & _ & _ & B3 & _).
        eexists. split; [reflexivity|]. split; [exact B1|].
        split; [exact (stable_trans _ _ _ A2 B2) | congruence].
      + eauto.
    - exists s2. auto using stable_refl. }
  destruct H3 as (s3 & -> & Hi3 & St3 & Fc3).
  eexists. split; [reflexivity|].
  assert (St13 : stable s1 s3) by exact (stable_trans _ _ _ St2 St3).
  apply (carries_trans s s1); [exact (conj Hi1 (conj C1 (conj M1 Cap1)))|].
  apply carries_stable; [|destruct St13 as (? & ? & ?); repeat split; cbn; assumption].
  destruct Hi3 as [I1 I2 I3 I4 I5 I6]. constructor; cbn; auto.
  intros k ch idx Hk Hidx.
  destruct (remove_nth_lookup _ _ _ _ Hk) as [k' Hk'].
  exact (I3 k' ch idx Hk' Hidx).
Qed.

(** *** Pointer and keys *)

Lemma active_entry_indexed s k e :
  invariant s -> search_results s !! k = Some e ->
  hasClass cls_active_result e = true ->
  exists e', search_results s !! k = Some e' /\ is_Some (li_data_index e').
Proof.
  intros Hi He Ha. exists e. split; [exact He|].
  destruct (inv_view s Hi k e He) as [_ H]. exact (H Ha).
Qed.

Lemma invariant_set_highlight s k e :
  invariant s -> search_results s !! k = Some e ->
  hasClass cls_active_result e = true ->
  invariant (set_result_highlight (Some k) s).
Proof.
  intros Hi He Ha. pose proof (active_entry_indexed s k e Hi He Ha) as Hk.
  destruct Hi as [I1 I2 I3 I4 I5 I6]. constructor; cbn; auto.
  intros i [= <-]. exact Hk.
Qed.

Lemma invariant_mouseup k evt s :
  invariant s ->
  exists s', search_results_mouseup k evt s = Some s' /\ carries s s'.
Proof.
  intros Hi. unfold search_results_mouseup.
  destruct (search_results s !! k) as [e|] eqn:He; [|eauto using carries_refl].
  destruct (hasClass cls_active_result e) eqn:Ha; [|eauto using carries_refl].
  pose proof (invariant_set_highlight s k e Hi He Ha) as Hi'.
  destruct (invariant_result_select evt _ Hi') as (s' & Hs & H1 & H2 & H3 & H4).
  exists s'. split; [exact Hs|]. split; [exact H1|]. cbn in H2, H3.
  split; [exact H2|]. split; [exact H3|]. exact H4.
Qed.

Lemma invariant_mouseover k s :
  invariant s -> carries s (search_results_mouseover k s).
Proof.
  intros Hi. unfold search_results_mouseover.
  destruct (search_results s !! k) as [e|] eqn:He; [|now apply carries_refl].
  destruct (hasClass cls_active_result e) eqn:Ha; [|now apply carries_refl].
  destruct (invariant_do_highlight (Some k) s) as [H1 H2]; [|exact Hi|].
  - intros i [= <-]. exact (active_entry_indexed s k e Hi He Ha).
  - now apply carries_stable.
Qed.

Lemma invariant_mouseout k s :
  invariant s -> carries s (search_results_mouseout k s).
Proof.
  intros Hi. unfold search_results_mouseout.
  destruct (search_results s !! k) as [e|]; [|now apply carries_refl].
  destruct (hasClass cls_active_result e); [|now apply carries_refl].
  destruct (invariant_clear_highlight s Hi). now apply carries_stable.
Qed.

Lemma find_last_index_Some p l k :
  find_last_index p l = Some k -> exists e, l !! k = Some e /\ p e = true.
Proof.
  revert k. induction l as [|x l IH]; intros k H; [discriminate|].
  cbn in H. destruct (find_last_index p l) as [k'|].
  - inversion H; subst. destruct (IH k' eq_refl) as (e & He & Hp). exists e. auto.
  - destruct (p x) eqn:E; [|discriminate]. inversion H; subst. exists x. auto.
Qed.

Lemma next_active_Some k l p :
  next_active k l = Some p ->
  exists e, l !! p = Some e /\ hasClass cls_active_result e = true.
Proof.
  unfold next_active. intros H.
  destruct (find_index (hasClass cls_active_result) (drop (S k) l)) as [i|] eqn:E;
    [|discriminate].
  inversion H; subst p. apply find_index_Some in E as (e & He & Hp).
  rewrite lookup_drop in He. exists e. auto.
Qed.

Lemma prev_active_Some k l p :
  prev_active k l = Some p ->
  exists e, l !! p = Some e /\ hasClass cls_active_result e = true.
Proof.
  unfold prev_active. intros H.
  apply find_last_index_Some in H as (e & He & Hp).
  apply lookup_take_Some in He as [He _]. exists e. auto.
Qed.

Lemma invariant_results_show_carries s :
  invariant s -> exists s', results_show s = Some s' /\ carries s s'.
Proof.
  intros Hi. destruct (invariant_results_show s Hi) as (s' & Hs & H1 & H2 & _).
  exists s'. split; [exact Hs | now apply carries_stable].
Qed.

Lemma invariant_keydown_arrow s :
  invariant s -> exists s', keydown_arrow s = Some s' /\ carries s s'.
Proof.
  intros Hi. unfold keydown_arrow.
  destruct (result_highlight s) as [k|]; [|now apply invariant_results_show_carries].
  destruct (results_showing s); [|now apply invariant_results_show_carries].
  eexists. split; [reflexivity|].
  destruct (invariant_do_highlight (next_active k (search_results s)) s) as [H1 H2];
    [|exact Hi|now apply carries_stable].
  intros p Hp. apply next_active_Some in Hp as (e & He & Ha).
  exact (active_entry_indexed s p e Hi He Ha).
Qed.

Lemma invariant_keyup_arrow s :
  invariant s -> exists s', keyup_arrow s = Some s' /\ carries s s'.
Proof.
  intros Hi. unfold keyup_arrow.
  destruct (results_showing s || is_multiple s);
    [|now apply invariant_results_show_carries].
  destruct (result_highlight s) as [k|]; [|eauto using carries_refl].
  destruct (prev_active k (search_results s)) as [p|] eqn:Ep.
  - eexists. split; [reflexivity|].
    destruct (invariant_do_highlight (Some p) s) as [H1 H2];
      [|exact Hi|now apply carries_stable].
    intros i [= <-]. apply prev_active_Some in Ep as (e & He & Ha).
    exact (active_entry_indexed s p e Hi He Ha).
  - pose proof (choices_count_exact s Hi) as (_ & A1 & A2 & _).
    destruct (choices_count s) as [n s0]. cbn [fst snd] in *.
    eexists. split; [reflexivity|].
    assert (H : exists s1, (if Nat.ltb 0 n then results_hide s0 else s0) = s1
                           /\ invariant s1 /\ stable s0 s1).
    { destruct (Nat.ltb 0 n).
      - destruct (invariant_results_hide s0 A1) as (B1 & B2 & _). eauto.
      - eauto using stable_refl. }
    destruct H as (s1 & -> & B1 & B2).
    destruct (invariant_clear_highlight s1 B1) as [C1 C2].
    apply carries_stable; [exact C1|].
    exact (stable_trans _ _ _ A2 (stable_trans _ _ _ B2 C2)).
Qed.

Lemma invariant_results_search s :
  invariant s -> exists s', results_search s = Some s' /\ carries s s'.
Proof.
  intros Hi. unfold results_search.
  destruct (results_showing s); [|now apply invariant_results_show_carries].
  destruct (invariant_winnow_results s Hi) as (s' & Hw & H1 & H2 & _).
  exists s'. split; [exact Hw | now apply carries_stable].
Qed.

Lemma invariant_results_toggle s :
  invariant s -> exists s', results_toggle s = Some s' /\ carries s s'.
Proof.
  intros Hi. unfold results_toggle.
  destruct (results_showing s) eqn:E; [|now apply invariant_results_show_carries].
  eexists. split; [reflexivity|].
  destruct (invariant_results_hide s Hi) as (H1 & H2 & _). now apply carries_stable.
Qed.

Lemma invariant_close_field s : invariant s -> carries s (close_field s).
Proof.
  intros Hi. unfold close_field.
  assert (Hi1 : invariant (set_active_field false s))
    by (eapply invariant_same; [..|exact Hi]; reflexivity).
  destruct (invariant_results_hide _ Hi1) as (H1 & H2 & _).
  destruct (invariant_show_search_field_default _ H1) as (H3 & H4 & _).
  apply carries_stable; [exact H3|].
  apply (stable_trans _ (set_active_field false s)); [repeat split|].
  exact (stable_trans _ _ _ H2 H4).
Qed.

Lemma invariant_activate_field s : invariant s -> carries s (activate_field s).
Proof.
  intros Hi. apply carries_stable; [|repeat split].
  eapply invariant_same; [..|exact Hi]; reflexivity.
Qed.

Lemma invariant_container_mousedown evt s :
  invariant s -> exists s', container_mousedown evt s = Some s' /\ carries s s'.
Proof.
  intros Hi. unfold container_mousedown.
  assert (H : exists s1,
            (if active_field s
             then match evt with
                  | Some SelectedItem => if is_multiple s then Some s else results_toggle s
                  | _ => Some s
                  end
             else results_show (if is_multiple s then set_search_field_val "" s else s))
            = Some s1 /\ carries s s1).
  { destruct (active_field s).
    - destruct evt as [[| |]|]; eauto using carries_refl.
      destruct (is_multiple s); [eauto using carries_refl|].
      now apply invariant_results_toggle.
    - assert (Hi1 : invariant (if is_multiple s then set_search_field_val "" s else s)
                    /\ stable s (if is_multiple s then set_search_field_val "" s else s)).
      { destruct (is_multiple s); [|auto using stable_refl].
        split; [eapply invariant_same; [..|exact Hi]; reflexivity | repeat split]. }
      destruct Hi1 as [Hi1 St1].
      destruct (invariant_results_show_carries _ Hi1) as (s1 & Hs & Hc).
      exists s1. split; [exact Hs|].
      exact (carries_trans _ _ _ (carries_stable _ _ Hi1 St1) Hc). }
  destruct evt as [[| |]|]; try (eexists; split; [reflexivity | now apply carries_refl]);
    destruct H as (s1 & -> & Hc); cbn [mbind option_bind];
    (eexists; split; [reflexivity|]);
    (apply (carries_trans _ s1); [exact Hc|]);
    apply invariant_activate_field; apply Hc.
Qed.

(** Every user action runs to completion on a widget that satisfies the
    invariant, and the widget it leaves satisfies it again. *)
Lemma invariant_step a s :
  invariant s -> exists s', step a s = Some s' /\ carries s s'.
Proof.
  intros Hi. destruct a as [k|k|k evt|evt| | | |v|evt| |n]; cbn [step].
  - eexists. split; [reflexivity | now apply invariant_mouseover].
  - eexists. split; [reflexivity | now apply invariant_mouseout].
  - now apply invariant_mouseup.
  - destruct (results_showing s); [|eauto using carries_refl].
    destruct (invariant_result_select evt s Hi) as (s' & Hs & H). exists s'. auto.
  - destruct (results_showing s); [|eauto using carries_refl].
    eexists. split; [reflexivity|].
    destruct (invariant_results_hide s Hi) as (H1 & H2 & _). now apply carries_stable.
  - now apply invariant_keydown_arrow.
  - now apply invariant_keyup_arrow.
  - assert (Hi1 : invariant (set_search_field_val v s))
      by (eapply invariant_same; [..|exact Hi]; reflexivity).
    destruct (invariant_results_search _ Hi1) as (s' & Hs & Hc).
    exists s'. split; [exact Hs|].
    apply (carries_trans _ (set_search_field_val v s)); [|exact Hc].
    apply carries_stable; [exact Hi1 | repeat split].
  - now apply invariant_container_mousedown.
  - eexists. split; [reflexivity | now apply invariant_close_field].
  - destruct (search_choices s !! n) as [ch|] eqn:En; cbn [mbind option_bind];
      [|eauto using carries_refl].
    destruct (choice_close_index ch) as [a|] eqn:Ea; [|eauto using carries_refl].
    destruct (inv_choices s Hi n ch a En Ea) as (b & Hb & Hg).
    exact (invariant_choice_destroy n a s b Hi Hb Hg).
Qed.

Lemma invariant_run l :
  forall s, invariant s -> exists s', run l s = Some s' /\ carries s s'.
Proof.
  induction l as [|a l IH]; intros s Hi; cbn [run].
  - eauto using carries_refl.
  - destruct (invariant_step a s Hi) as (s1 & -> & Hc1). cbn [mbind option_bind].
    destruct (IH s1 ltac:(apply Hc1)) as (s' & Hs & Hc).
    exists s'. split; [exact Hs|]. exact (carries_trans _ _ _ Hc1 Hc).
Qed.

(** *** Construction *)

Lemma results_option_loop_first data l :
  forall e s,
    (forall c, In c l -> selected c = true ->
       exists c', data !! array_index c = Some c' /\ group c' = false) ->
    choices_on (search_choices s) data ->
    let s' := (results_option_loop true l e s).2 in
    choices_on (search_choices s') data
    /\ config s' = config s /\ is_multiple s' = is_multiple s
    /\ form_field s' = form_field s /\ results_data s' = results_data s
    /\ search_results s' = search_results s
    /\ result_highlight s' = result_highlight s
    /\ selected_option_count s' = selected_option_count s
    /\ active_field s' = active_field s /\ default_text s' = default_text s.
Proof.
  induction l as [|c l IH]; intros e s Hl Hch; [cbn; refine (conj Hch _); repeat split|].
  cbn [results_option_loop].
  set (s1 := if selected c && is_multiple s then choice_build c s
             else if selected c && negb (is_multiple s)
                  then single_set_selected_text (Some (choice_label s c)) s
                  else s).
  assert (H1 : choices_on (search_choices s1) data
               /\ config s1 = config s /\ is_multiple s1 = is_multiple s
               /\ form_field s1 = form_field s /\ results_data s1 = results_data s
               /\ search_results s1 = search_results s
               /\ result_highlight s1 = result_highlight s
               /\ selected_option_count s1 = selected_option_count s
               /\ active_field s1 = active_field s /\ default_text s1 = default_text s).
  { subst s1. destruct (selected c) eqn:Es; cbn [andb];
      [|refine (conj Hch _); repeat split].
    destruct (is_multiple s) eqn:Em; cbn [negb];
      [|cbn; refine (conj Hch _); repeat split; exact Em].
    split; [|cbn; repeat split; exact Em]. unfold choice_build. cbn.
    intros n ch idx Hn Hidx.
    apply lookup_app_Some in Hn as [Hn|[_ Hn]]; [exact (Hch n ch idx Hn Hidx)|].
    destruct (n - length (search_choices s)) as [|m]; [|discriminate].
    inversion Hn; subst ch. cbn in Hidx.
    destruct (disabled c); [discriminate|]. inversion Hidx; subst idx.
    apply (Hl c); [now left | exact Es]. }
  destruct H1 as (A0 & A1 & A2 & A3 & A4 & A5 & A6 & A7 & A8 & A9).
  match goal with |- context [num_le_count ?a ?b] => destruct (num_le_count a b) end.
  - cbn [snd]. refine (conj A0 _). repeat split; assumption.
  - match goal with |- context [results_option_loop true l ?e' s1] =>
      pose proof (IH e' s1 (fun c0 H => Hl c0 (or_intror H)) A0) as IH1;
      destruct (results_option_loop true l e' s1) as [lis s2] end.
    cbn [snd] in *.
    destruct IH1 as (B0 & B1 & B2 & B3 & B4 & B5 & B6 & B7 & B8 & B9).
    split; [exact B0|]. repeat split; congruence.
Qed.

Lemma view_on_loop first s nopts data :
  well_formed_data nopts data ->
  view_on (results_option_loop first data 0 s).1 data.
Proof.
  intros Hwf k x Hk.
  apply list_elem_of_lookup_2, list_elem_of_In in Hk.
  destruct (results_option_loop_entries first data 0 s x Hk)
    as [_ [(c & Hin & Hg & Hidx & _)|[Hn Ha]]].
  - split; [|intros _; rewrite Hidx; eauto].
    intros idx Hi. rewrite Hidx in Hi. inversion Hi; subst idx.
    apply list_elem_of_In, list_elem_of_lookup in Hin as [j Hj].
    destruct (Hwf j c Hj) as (Ha & _). rewrite Ha. cbn. eauto.
  - split; [intros idx Hi; congruence|]. intros H. congruence.
Qed.

Lemma invariant_results_build s :
  is_multiple s = Dom.multiple (form_field s) ->
  result_highlight s = None ->
  search_choices s = [] ->
  exists s', results_build s = Some s' /\ invariant s'
             /\ config s' = config s /\ is_multiple s' = is_multiple s
             /\ form_field s' = form_field s.
Proof.
  intros Hm Hh Hc. unfold results_build. cbn [form_field set_selected_option_count].
  rewrite select_to_array_flatten. cbn [mbind option_bind].
  set (data := flatten 0 0 (Dom.select_childNodes (form_field s))).
  assert (Hwf : well_formed_data (length (Dom.options (form_field s))) data).
  { apply select_to_array_well_formed. apply select_to_array_flatten. }
  set (s1 := if is_multiple (set_results_data data (set_selected_option_count None s))
             then set_search_choices [] (set_results_data data (set_selected_option_count None s))
             else single_set_selected_text None
                    (set_results_data data (set_selected_option_count None s))).
  assert (H1 : search_choices s1 = []
               /\ config s1 = config s /\ is_multiple s1 = is_multiple s
               /\ form_field s1 = form_field s /\ results_data s1 = data
               /\ result_highlight s1 = None
               /\ selected_option_count s1 = None).
  { subst s1. cbn [is_multiple set_results_data set_selected_option_count].
    destruct (is_multiple s) eqn:Em; cbn; repeat split;
      first [assumption | reflexivity]. }
  destruct H1 as (A0 & A1 & A2 & A3 & A4 & A5 & A6).
  unfold results_option_build. rewrite A4.
  pose proof (results_option_loop_first data data 0 s1) as L.
  pose proof (view_on_loop true s1 _ data Hwf) as V.
  destruct (results_option_loop true data 0 s1) as [lis s2]. cbn [fst snd] in *.
  destruct L as (B0 & B1 & B2 & B3 & B4 & B5 & B6 & B7 & B8 & B9).
  { intros c Hin Hs. apply list_elem_of_In, list_elem_of_lookup in Hin as [j Hj].
    destruct (Hwf j c Hj) as (Ha & _ & Hg & _). rewrite Ha. cbn.
    exists c. split; [exact Hj|]. destruct (group c); [|reflexivity].
    destruct (Hg eq_refl) as (? & _). congruence. }
  { rewrite A0. intros n ch idx Hn. discriminate. }
  assert (Hi3 : invariant (update_results_content lis s2)).
  { constructor; cbn.
    - rewrite B3, A3, B4, A4. exact Hwf.
    - rewrite B4, A4. exact V.
    - rewrite B4, A4. exact B0.
    - rewrite B6, A5. apply highlight_on_None.
    - rewrite B7, A6. intros n Hn. discriminate.
    - rewrite B2, A2, B3, A3. exact Hm. }
  destruct (invariant_show_search_field_default _ Hi3) as (H3 & (C1 & C2 & C3) & _).
  eexists. split; [reflexivity|]. split; [exact H3|].
  cbn in C1, C2, C3. repeat split; congruence.
Qed.

Lemma invariant_create f o :
  exists s, create f o = Some s /\ invariant s
            /\ config s = set_default_values o /\ is_multiple s = Dom.multiple f
            /\ form_field s = f.
Proof.
  unfold create. destruct (set_default_text f o) as [dt nf].
  match goal with |- context [results_build ?s0] =>
    destruct (invariant_results_build s0 eq_refl eq_refl eq_refl)
      as (s1 & -> & Hi & C & M & F) end.
  cbn [mbind option_bind]. eexists. split; [reflexivity|].
  split; [eapply invariant_same; [..|exact Hi]; reflexivity|].
  cbn in C, M, F |- *. auto.
Qed.

(** Every construction and every sequence of user actions after it runs
    to completion, and the widget it produces satisfies the invariant. *)
Lemma construction_and_actions_complete f o l :
  exists s, (s0 ← create f o; run l s0) = Some s /\ invariant s.
Proof.
  destruct (invariant_create f o) as (s0 & -> & Hi & _). cbn [mbind option_bind].
  destruct (invariant_run l s0 Hi) as (s & Hs & Hc).
  exists s. split; [exact Hs | apply Hc].
Qed.

Lemma reachable_invariant s : reachable s -> invariant s.
Proof.
  intros (f & o & l & H).
  destruct (construction_and_actions_complete f o l) as (s' & Hs & Hi).
  rewrite H in Hs. inversion Hs; subst. exact Hi.
Qed.


(** ** The selection limit along every run *)

Lemma reachable_after f o l : reachable (Examples.after f o l).
Proof.
  exists f, o, l. unfold Examples.after.
  destruct (construction_and_actions_complete f o l) as (s & -> & _). reflexivity.
Qed.





(** ** The cached count *)








(** ** The empty query *)



Lemma search_match_core x y :
  set_group_match false (set_active_options None x)
  = set_group_match false (set_active_options None y) ->
  search_match x = search_match y /\ empty x = empty y.
Proof.
  intros H. split.
  - apply (f_equal search_match) in H. exact H.
  - apply (f_equal empty) in H. exact H.
Qed.

Lemma winnow_pass_entry s nopts data e j c :
  well_formed_data nopts (results_data s) ->
  winnow_pass s = Some (data, e) ->
  results_data s !! j = Some c ->
  exists fi e0 x,
    data !! j = Some x
    /\ search_match x
       = search_match
           (entry_step s (get_search_text s)
              (get_search_regex s (Text.escape_regex (get_search_text s)))
              (get_highlight_regex s (Text.escape_regex (get_search_text s)))
              c fi e0).1.1.
Proof.
  intros Hwf Hp Hj. unfold winnow_pass in Hp.
  destruct (winnow_loop_entries s _ _ _ nopts (length (results_data s)) 0
              (results_data s) 0 data e Hwf ltac:(lia) Hp) as [_ H].
  destruct (H j c ltac:(apply lookup_lt_Some in Hj; lia) Hj) as (fi & e0 & x & Hx & Hc).
  exists fi, e0, x. split; [exact Hx|]. now apply search_match_core in Hc.
Qed.




(** ** Filtering twice *)

Lemma rendered_ext s s' data :
  config s = config s' -> is_multiple s = is_multiple s' ->
  rendered s data = rendered s' data.
Proof.
  intros Hc Hm. unfold rendered.
  now rewrite (results_option_loop_false data 0 s s' Hc Hm).
Qed.

Lemma winnow_pass_again s nopts data e :
  well_formed_data nopts (results_data s) ->
  winnow_pass s = Some (data, e) ->
  winnow_pass (winnow_outcome s data e) = Some (data, e).
Proof.
  intros Hwf Hp.
  rewrite (winnow_pass_ext (winnow_outcome s data e) (set_results_data data s)).
  - unfold winnow_pass in *.
    change (get_search_text (set_results_data data s)) with (get_search_text s).
    change (results_data (set_results_data data s)) with data.
    change (get_search_regex (set_results_data data s)) with (get_search_regex s).
    change (get_highlight_regex (set_results_data data s)) with (get_highlight_regex s).
    rewrite (winnow_loop_ext (set_results_data data s) s) by reflexivity.
    exact (winnow_loop_idempotent s _ _ _ nopts _ 0 data e Hwf Hp).
  - unfold winnow_outcome.
    destruct (Nat.ltb e 1 && negb (String.eqb (get_search_text s) "")); reflexivity.
  - unfold winnow_outcome.
    destruct (Nat.ltb e 1 && negb (String.eqb (get_search_text s) "")); reflexivity.
  - apply (winnow_outcome_fields s data e).
  - apply (winnow_outcome_fields s data e).
Qed.

Lemma winnow_outcome_again s data e :
  let s1 := winnow_outcome s data e in
  let s2 := winnow_outcome s1 data e in
  results_data s2 = results_data s1
  /\ search_results s2 = search_results s1
  /\ result_highlight s2 = result_highlight s1
  /\ results_showing s2 = results_showing s1
  /\ search_field_val s2 = search_field_val s1
  /\ form_field s2 = form_field s1
  /\ selected_option_count s2 = selected_option_count s1
  /\ search_choices s2 = search_choices s1.
Proof.
  cbn zeta. unfold winnow_outcome, get_search_text, get_search_field_value.
  destruct (Nat.ltb e 1
            && negb (String.eqb (Text.escape_html (Text.trim (search_field_val s))) ""))
    eqn:Eb;
    cbn [search_field_val results_data search_results result_highlight results_showing
         form_field selected_option_count search_choices config is_multiple
         results_none_found];
    rewrite Eb;
    cbn [search_field_val results_data search_results result_highlight results_showing
         form_field selected_option_count search_choices config is_multiple
         results_none_found].
  - repeat split.
  - rewrite (rendered_ext (mkChosen _ _ _ _ _ _ _ _ _ _ _ _ _ _ _ _) s data eq_refl eq_refl).
    unfold pick_highlight.
    cbn [search_field_val results_data search_results result_highlight results_showing
         form_field selected_option_count search_choices config is_multiple
         results_none_found].
    repeat split.
Qed.

(** C7.  On a widget whose search field holds any text q, the filter runs
    to completion, and running it again on the widget it left yields the
    same entries with the same match flags and annotated search texts,
    the same rendered list and the same highlighted entry; nothing but
    the log of triggered events differs. *)
Theorem winnow_is_idempotent (s : Chosen.t) (q : string) :
  reachable s ->
  exists s1 s2,
    winnow_results (set_search_field_val q s) = Some s1
    /\ winnow_results s1 = Some s2
    /\ results_data s2 = results_data s1
    /\ search_results s2 = search_results s1
    /\ result_highlight s2 = result_highlight s1
    /\ results_showing s2 = results_showing s1
    /\ search_field_val s2 = search_field_val s1
    /\ form_field s2 = form_field s1
    /\ selected_option_count s2 = selected_option_count s1
    /\ search_choices s2 = search_choices s1.
Proof.
  intros Hr. pose proof (reachable_invariant s Hr) as Hi.
  set (sq := set_search_field_val q s).
  assert (Hwf : well_formed_data (length (Dom.options (form_field sq))) (results_data sq))
    by exact (inv_data s Hi).
  destruct (winnow_results_total sq _ Hwf) as (data & e & Hp & Hw & Hs).
  exists (winnow_outcome sq data e), (winnow_outcome (winnow_outcome sq data e) data e).
  split; [exact Hw|]. split.
  - apply winnow_results_outcome. exact (winnow_pass_again sq _ data e Hwf Hp).
  - apply winnow_outcome_again.
Qed.

Lemma winnow_is_idempotent_witness :
  exists s1 s2,
    winnow_results (set_search_field_val "fi" Examples.at_capacity) = Some s1
    /\ winnow_results s1 = Some s2
    /\ search_results s2 = search_results s1
    /\ result_highlight s2 = result_highlight s1.
Proof.
  destruct (winnow_is_idempotent Examples.at_capacity "fi")
    as (s1 & s2 & H1 & H2 & _ & H3 & H4 & _).
  - exists (Examples.countries false), (Examples.with_max (Some 1%Z)),
      [MouseDown None; MouseUp 0 Examples.ctrl_click; MouseOver 2].
    vm_compute. reflexivity.
  - exists s1, s2. auto.
Defined.

(** ** The parsed list *)

Lemma child_records_not_group gi glabel gdis opts ai oi k c :
  child_records gi glabel gdis ai oi opts !! k = Some c -> group c = false.
Proof.
  intros H. apply child_records_lookup in H as (o & _ & ->).
  apply option_record_fields.
Qed.

(** The records between a group and one of its children are options. *)
Lemma flatten_contiguous nopts l :
  forall ai oi j c gi,
    oi + length (flat_map Dom.options_of_node l) <= nopts ->
    flatten ai oi l !! j = Some c ->
    group_array_index c = Some gi ->
    forall k c', gi < ai + k <= ai + j -> flatten ai oi l !! k = Some c' ->
                 group c' = false.
Proof.
  induction l as [|n l IH]; intros ai oi j c gi Hle Hj Hgi k c' Hk Hc'; [discriminate|].
  cbn [flatten] in Hj, Hc'. cbn [flat_map] in Hle. rewrite length_app in Hle.
  apply lookup_app_Some in Hj as [Hj|[Hlen Hj]].
  - assert (Hkl : k < length (node_records ai oi n))
      by (apply lookup_lt_Some in Hj; lia).
    rewrite lookup_app_l in Hc' by exact Hkl.
    destruct (node_records_ok ai oi nopts n ltac:(lia) j c Hj) as (_ & _ & _ & Hg).
    destruct (Hg gi Hgi) as (Hr & _).
    unfold node_records in Hc', Hj.
    destruct (Dom.is_element "OPTGROUP" n).
    + destruct k as [|k]; cbn in Hc'.
      * destruct j as [|j]; cbn in Hj.
        -- inversion Hj; subst c. discriminate.
        -- apply child_records_lookup in Hj as (o & _ & ->).
           unfold option_record in Hgi.
           destruct (nonempty_text o); cbn in Hgi; [|discriminate].
           inversion Hgi. lia.
      * exact (child_records_not_group _ _ _ _ _ _ _ _ Hc').
    + destruct (Dom.is_element "OPTION" n); [|discriminate].
      destruct j as [|j]; [|discriminate]. cbn in Hj. inversion Hj; subst c.
      unfold option_record in Hgi. destruct (nonempty_text n); discriminate.
  - assert (Hwf : records_from (ai + length (node_records ai oi n)) nopts
                    (flatten (ai + length (node_records ai oi n))
                             (oi + length (Dom.options_of_node n)) l))
      by (apply flatten_ok; lia).
    destruct (Hwf _ c Hj) as (_ & _ & _ & Hg). destruct (Hg gi Hgi) as (Hr & _).
    rewrite lookup_app_r in Hc' by lia.
    apply (IH (ai + length (node_records ai oi n))
              (oi + length (Dom.options_of_node n))
              (j - length (node_records ai oi n)) c gi ltac:(lia) Hj Hgi
              (k - length (node_records ai oi n)) c');
      [lia | exact Hc'].
Qed.

Lemma excluded_when_empty s c :
  empty c = true ->
  include_option_in_results s c = false /\ result_add_option s c = None.
Proof.
  intros He. assert (Hi : include_option_in_results s c = false).
  { unfold include_option_in_results. rewrite He.
    destruct (is_multiple s && negb (display_selected_options (config s)) && selected c),
      (negb (display_disabled_options (config s)) && disabled c); reflexivity. }
  split; [exact Hi|]. unfold result_add_option. rewrite Hi. now rewrite andb_false_r.
Qed.

(** C5.  Parsing never fails and yields the flattening of the host list:
    the records of the top-level nodes in source order, a group record
    immediately followed by the records of its own option children.  The
    option records with the empty flag off are as many as the host
    options with a non-empty text; the option records agree with the host
    options, in order, on host index, text and emptiness; a record sits at
    the position its array index names; a record that names a group comes
    after that group with nothing but option records in between.  An
    empty-marked record is refused by the include-in-results predicate
    and renders nothing; after any run of the filter its match flag is
    off and no rendered entry carries its index. *)
Theorem parse_flattens_in_order (f : Dom.Select) :
  exists data,
    select_to_array f = Some data
    /\ data = flatten 0 0 (Dom.select_childNodes f)
    /\ length (List.filter (fun c => negb (group c) && negb (empty c)) data)
       = length (List.filter nonempty_text (Dom.options f))
    /\ map option_view (List.filter (fun c => negb (group c)) data)
       = host_views 0 (Dom.options f)
    /\ (forall j c, data !! j = Some c -> array_index c = j)
    /\ (forall j c gi, data !! j = Some c -> group_array_index c = Some gi ->
          gi < j
          /\ (exists g, data !! gi = Some g /\ group g = true)
          /\ forall k c', gi < k <= j -> data !! k = Some c' -> group c' = false)
    /\ (forall c s, empty c = true ->
          include_option_in_results s c = false /\ result_add_option s c = None)
    /\ (forall s q, reachable s ->
          exists s', winnow_results (set_search_field_val q s) = Some s'
            /\ forall j c, results_data s' !! j = Some c -> empty c = true ->
                 search_match c = false
                 /\ forall x, In x (search_results s') -> li_data_index x <> Some j).
Proof.
  exists (flatten 0 0 (Dom.select_childNodes f)).
  split; [apply select_to_array_flatten|]. split; [reflexivity|].
  destruct (flatten_views (Dom.select_childNodes f) 0 0) as [V1 V2].
  pose proof (flatten_ok (length (Dom.options f)) (Dom.select_childNodes f) 0 0
                ltac:(unfold Dom.options; lia)) as Hwf.
  split; [exact V2|]. split; [exact V1|]. split; [|split; [|split]].
  - intros j c Hj. now destruct (Hwf j c Hj) as (-> & _).
  - intros j c gi Hj Hgi.
    destruct (Hwf j c Hj) as (_ & _ & _ & Hg).
    destruct (Hg gi Hgi) as (Hr & g & Hgl & Hgg & _). rewrite Nat.sub_0_r in Hgl.
    split; [lia|]. split; [eauto|].
    intros k c' Hk Hc'.
    apply (flatten_contiguous (length (Dom.options f)) (Dom.select_childNodes f)
             0 0 j c gi) with (k := k);
      [unfold Dom.options; lia | exact Hj | exact Hgi | lia | exact Hc'].
  - intros c s. apply excluded_when_empty.
  - intros s q Hr. pose proof (reachable_invariant s Hr) as Hi.
    set (sq := set_search_field_val q s).
    assert (Hwq : well_formed_data (length (Dom.options (form_field sq))) (results_data sq))
      by exact (inv_data s Hi).
    destruct (winnow_results_total sq _ Hwq) as (data & e & Hp & Hw & Hs).
    exists (winnow_outcome sq data e). split; [exact Hw|].
    rewrite (proj1 (winnow_outcome_fields sq data e)).
    intros j c Hj He.
    pose proof (well_formed_skeleton _ _ _ Hs Hwq) as Hwd.
    assert (Hc0 : exists c0, results_data sq !! j = Some c0 /\ skeleton c = skeleton c0).
    { apply (f_equal (fun l => l !! j)) in Hs. rewrite !list_lookup_fmap, Hj in Hs.
      destruct (results_data sq !! j) as [c0|]; [|discriminate].
      exists c0. split; [reflexivity|]. cbn in Hs. congruence. }
    destruct Hc0 as (c0 & Hc0 & Hsk).
    assert (He0 : empty c0 = true).
    { apply (f_equal empty) in Hsk. cbn in Hsk. congruence. }
    split.
    + destruct (winnow_pass_entry sq _ data e j c0 Hwq Hp Hc0) as (fi & e0 & x & Hx & Hm).
      rewrite Hj in Hx. inversion Hx; subst x. rewrite Hm.
      rewrite entry_step_excluded by apply (excluded_when_empty sq c0 He0). reflexivity.
    + intros x Hx Hidx.
      assert (Hr' : In x (rendered sq data) \/ li_data_index x = None).
      { revert Hx. unfold winnow_outcome.
        destruct (Nat.ltb e 1 && negb (String.eqb (get_search_text sq) "")); cbn.
        - intros [<-|[]]. now right.
        - destruct (pick_highlight sq (rendered sq data)) as [k|]; [|auto].
          intros Hx. apply list_elem_of_In, list_elem_of_lookup in Hx as [i Hx].
          destruct (decide (i = k)) as [->|Hne].
          + rewrite list_lookup_alter_eq in Hx.
            destruct (rendered sq data !! k) as [y|] eqn:Ey; [|discriminate].
            inversion Hx; subst x. rewrite li_data_index_addClass in Hidx.
            exfalso.
            destruct (rendered_entries sq data y) as [_ [(c1 & Hin & _ & Hi1 & _ & Hinc)|[Hn _]]].
            * now apply list_elem_of_In, list_elem_of_lookup_2 with k.
            * apply list_elem_of_In, list_elem_of_lookup in Hin as [j1 Hj1].
              destruct (Hwd j1 c1 Hj1) as (Ha1 & _). cbn in Ha1.
              assert (Ej : j1 = j) by congruence. rewrite Ej in Hj1.
              rewrite Hj in Hj1. inversion Hj1; subst c1.
              rewrite (proj1 (excluded_when_empty sq c He)) in Hinc. discriminate.
            * congruence.
          + rewrite list_lookup_alter_ne in Hx by congruence.
            left. now apply list_elem_of_In, list_elem_of_lookup_2 with i. }
      destruct Hr' as [Hr'|Hn]; [|congruence].
      destruct (rendered_entries sq data x Hr') as [_ [(c1 & Hin & _ & Hi1 & _ & Hinc)|[Hn _]]];
        [|congruence].
      apply list_elem_of_In, list_elem_of_lookup in Hin as [j1 Hj1].
      destruct (Hwd j1 c1 Hj1) as (Ha1 & _). cbn in Ha1.
      assert (Ej : j1 = j) by congruence. rewrite Ej in Hj1.
      rewrite Hj in Hj1. inversion Hj1; subst c1.
      rewrite (proj1 (excluded_when_empty sq c He)) in Hinc. discriminate.
Qed.

Lemma parse_flattens_in_order_witness :
  exists data,
    select_to_array Examples.colours = Some data
    /\ length (List.filter (fun c => negb (group c) && negb (empty c)) data) = 3
    /\ (exists c, data !! 0 = Some c /\ empty c = true
                  /\ forall s, result_add_option s c = None)
    /\ exists s',
         winnow_results (set_search_field_val "gr" (Examples.after Examples.colours
                           Examples.no_options [MouseDown None])) = Some s'.
Proof.
  destruct (parse_flattens_in_order Examples.colours)
    as (data & Hp & Hd & Hn & _ & _ & _ & He & Hw).
  exists data. split; [exact Hp|]. split; [rewrite Hn; reflexivity|]. split.
  - rewrite Hd. eexists. split; [reflexivity|]. split; [reflexivity|].
    intros s. apply He. reflexivity.
  - destruct (Hw (Examples.after Examples.colours Examples.no_options [MouseDown None]) "gr")
      as (s' & Hs & _).
    + exists Examples.colours, Examples.no_options, [MouseDown None].
      vm_compute. reflexivity.
    + exists s'. exact Hs.
Defined.

(** C10.  For a group node of the host list, the group record sits right
    after the records of the nodes before it, and its children count is
    the number of its option children with a non-empty text.  Every option
    child, empty or not, has a record of its own after the group record,
    in order, with its own array index and host index; the record of an
    empty-text child is marked empty, and only the record of a non-empty
    child names the group. *)
Theorem group_children_count (f : Dom.Select) (pre post : list Dom.Node) (n : Dom.Node) :
  Dom.select_childNodes f = (pre ++ n :: post)%list ->
  Dom.is_element "OPTGROUP" n = true ->
  Dom.options_of_node n = List.filter (Dom.is_element "OPTION") (Dom.childNodes n)
  /\ exists data g,
      select_to_array f = Some data
      /\ data !! length (flatten 0 0 pre) = Some g
      /\ group g = true
      /\ array_index g = length (flatten 0 0 pre)
      /\ children g = Some (length (List.filter nonempty_text (Dom.options_of_node n)))
      /\ forall k o, Dom.options_of_node n !! k = Some o ->
           exists r,
             data !! (length (flatten 0 0 pre) + 1 + k) = Some r
             /\ group r = false
             /\ array_index r = length (flatten 0 0 pre) + 1 + k
             /\ options_index r
                = Some (length (flat_map Dom.options_of_node pre) + k)
             /\ empty r = negb (nonempty_text o)
             /\ (nonempty_text o = true ->
                 group_array_index r = Some (length (flatten 0 0 pre))).
Proof.
  intros Hf Hg. split; [unfold Dom.options_of_node; now rewrite Hg|].
  exists (flatten 0 0 (Dom.select_childNodes f)).
  rewrite select_to_array_flatten, Hf, flatten_app. cbn [flatten].
  rewrite !Nat.add_0_l.
  set (j := length (flatten 0 0 pre)).
  set (oi := length (flat_map Dom.options_of_node pre)).
  assert (Hb : node_records j oi n
               = set_children
                   (Some (length (List.filter nonempty_text (Dom.options_of_node n))))
                   (group_item j n)
                 :: child_records j (escapeExpression (Some (Dom.label n)))
                      (Dom.disabled n) (S j) oi (Dom.options_of_node n))
    by (unfold node_records; now rewrite Hg).
  rewrite Hb.
  eexists. split; [reflexivity|]. split.
  { rewrite lookup_app_r by lia. rewrite Nat.sub_diag. reflexivity. }
  cbn [group array_index children set_children group_item].
  split; [reflexivity|]. split; [reflexivity|]. split; [reflexivity|].
  intros k o Ho.
  pose proof (child_records_lookup_Some j (escapeExpression (Some (Dom.label n)))
                (Dom.disabled n) (Dom.options_of_node n) (S j) oi k o Ho) as Hr.
  eexists. split.
  { rewrite lookup_app_r by lia.
    replace (j + 1 + k - length (flatten 0 0 pre)) with (S k) by (subst j; lia).
    rewrite <- app_comm_cons, lookup_cons. cbn beta iota.
    rewrite lookup_app_l by (rewrite child_records_length; now apply lookup_lt_Some in Ho).
    exact Hr. }
  destruct (option_record_fields (S j + k) (oi + k) o (Some j)
              (Some (escapeExpression (Some (Dom.label n))))
              (Dom.disabled n || Dom.disabled o))
    as (F1 & F2 & F3 & F4 & _ & F5).
  cbn zeta in *. split; [exact F1|]. split; [rewrite F2; lia|].
  split; [exact F3|]. split; [exact F4|].
  intros Hne. apply F5. rewrite F4, Hne. reflexivity.
Qed.

Lemma group_children_count_witness :
  exists data g,
    select_to_array (Examples.countries false) = Some data
    /\ data !! 1 = Some g /\ children g = Some 2
    /\ exists r, data !! 3 = Some r /\ empty r = true /\ array_index r = 3
                 /\ options_index r = Some 2.
Proof.
  destruct (group_children_count (Examples.countries false)
              [Examples.option_node "Chile" false] []
              (Examples.optgroup_node "Oceania"
                 [Examples.option_node "New Zealand" false;
                  Examples.option_node "" false; Examples.option_node "Fiji" false])
              eq_refl eq_refl)
    as (_ & data & g & Hd & Hg & _ & _ & Hc & Hk).
  exists data, g. split; [exact Hd|]. split; [exact Hg|]. split; [exact Hc|].
  destruct (Hk 1 (Examples.option_node "" false) eq_refl)
    as (r & Hr & _ & Ha & Ho & He & _).
  exists r. split; [exact Hr|]. split; [exact He|]. split; [exact Ha | exact Ho].
Defined.

(** ** Escaping *)

Lemma chars_app s1 s2 :
  list_ascii_of_string (s1 ++ s2)
  = (list_ascii_of_string s1 ++ list_ascii_of_string s2)%list.
Proof. induction s1 as [|c s1 IH]; cbn; [reflexivity | now rewrite IH]. Qed.

Lemma entity_chars_plain c e x :
  entity_map c = Some e -> In x (list_ascii_of_string e) -> entity_map x = None.
Proof.
  unfold entity_map at 1. intros He Hx.
  repeat match type of He with
         | (if ?b then _ else _) = _ => destruct b
         end; try discriminate; inversion He; subst e; cbn in Hx;
    repeat (destruct Hx as [<-|Hx]; [reflexivity|]); destruct Hx.
Qed.

Lemma replace_entities_plain a x :
  In x (list_ascii_of_string (replace_entities a)) -> entity_map x = None.
Proof.
  induction a as [|c a IH]; cbn [replace_entities]; [intros []|].
  destruct (Ascii.eqb_spec c "&") as [->|Hne].
  - destruct (entity_ahead a).
    + cbn. intros [<-|Hx]; [reflexivity | auto].
    + rewrite chars_app. intros Hx. apply in_app_or in Hx as [Hx|Hx]; [|auto].
      cbn in Hx. repeat (destruct Hx as [<-|Hx]; [reflexivity|]). destruct Hx.
  - destruct (entity_map c) as [e|] eqn:Ee.
    + rewrite chars_app. intros Hx. apply in_app_or in Hx as [Hx|Hx]; [|auto].
      exact (entity_chars_plain c e x Ee Hx).
    + cbn. intros [<-|Hx]; [exact Ee | auto].
Qed.

Lemma no_special_plain a x :
  has_html_special a = false -> In x (list_ascii_of_string a) -> entity_map x = None.
Proof.
  induction a as [|c a IH]; cbn; [intros _ []|].
  intros H. apply orb_false_iff in H as [Hc Ha].
  intros [<-|Hx]; [|auto].
  unfold is_html_special in Hc. apply orb_false_iff in Hc as [_ Hc].
  destruct (entity_map c); [discriminate | reflexivity].
Qed.

Lemma replace_entities_id a :
  has_html_special a = false -> replace_entities a = a.
Proof.
  induction a as [|c a IH]; cbn; [reflexivity|].
  intros H. apply orb_false_iff in H as [Hc Ha].
  unfold is_html_special in Hc. apply orb_false_iff in Hc as [Hamp Hc].
  rewrite Hamp. destruct (entity_map c); [discriminate|]. now rewrite IH.
Qed.

Lemma escape_every_special_id a :
  has_html_special a = false -> escape_every_special a = a.
Proof.
  unfold escape_every_special.
  induction a as [|c a IH]; cbn; [reflexivity|].
  intros H. apply orb_false_iff in H as [Hc Ha].
  unfold is_html_special in Hc. apply orb_false_iff in Hc as [Hamp Hc].
  rewrite Hamp. destruct (entity_map c); [discriminate|]. now rewrite IH.
Qed.

Lemma replace_entities_all a :
  has_entity_reference a = false -> replace_entities a = escape_every_special a.
Proof.
  unfold escape_every_special.
  induction a as [|c a IH]; cbn; [reflexivity|].
  intros H. apply orb_false_iff in H as [Hc Ha].
  destruct (Ascii.eqb c "&"); cbn in Hc.
  - rewrite Hc, IH by exact Ha. reflexivity.
  - destruct (entity_map c); now rewrite IH.
Qed.

Lemma escapeExpression_replace a :
  escapeExpression (Some a) = replace_entities a.
Proof.
  cbn. destruct (has_html_special a) eqn:E; [reflexivity|].
  symmetry. now apply replace_entities_id.
Qed.

Lemma entity_map_table c e :
  entity_map c = Some e
  <-> In (c, e) [("<"%char, "&lt;"); (">"%char, "&gt;"); (dquote, "&quot;");
                 ("'"%char, "&#x27;"); ("`"%char, "&#x60;")].
Proof.
  split.
  - unfold entity_map. intros H.
    repeat match type of H with
           | (if Ascii.eqb ?x ?y then _ else _) = _ =>
               destruct (Ascii.eqb_spec x y) as [->|]
           end; try discriminate; inversion H; subst e; cbn; auto 10.
  - intros H. cbn in H.
    repeat (destruct H as [H|H]; [inversion H; subst; reflexivity|]). destruct H.
Qed.

Lemma entity_map_not_amp c e : entity_map c = Some e -> Ascii.eqb c "&" = false.
Proof.
  intros H. apply entity_map_table in H. cbn in H.
  repeat (destruct H as [H|H]; [inversion H; subst; reflexivity|]). destruct H.
Qed.

Lemma word_char_not_semicolon c : Text.is_word_char c = true -> Ascii.eqb c ";" = false.
Proof.
  intros H. destruct (Ascii.eqb_spec c ";") as [->|]; [|reflexivity].
  vm_compute in H. discriminate.
Qed.

Lemma entity_tail_spec s :
  entity_tail s = true
  <-> exists w tail,
        s = w ++ ";" ++ tail
        /\ Forall (fun c => Text.is_word_char c = true) (list_ascii_of_string w).
Proof.
  split.
  - induction s as [|c s IH]; [discriminate|]. cbn [entity_tail].
    destruct (Ascii.eqb_spec c ";") as [->|Hc].
    + intros _. exists "", s. split; [reflexivity | constructor].
    + destruct (Text.is_word_char c) eqn:Ew; [|discriminate]. intros H.
      destruct (IH H) as (w & tail & -> & Hw).
      exists (String c w), tail. split; [reflexivity|]. now constructor.
  - intros (w & tail & -> & Hw). induction w as [|c w IH]; [reflexivity|].
    cbn in Hw. inversion Hw as [|? ? Hc Hw']; subst.
    cbn [append entity_tail]. rewrite (word_char_not_semicolon c Hc), Hc.
    exact (IH Hw').
Qed.

Lemma entity_ahead_spec s :
  entity_ahead s = true
  <-> exists w tail,
        s = w ++ ";" ++ tail /\ w <> ""
        /\ Forall (fun c => Text.is_word_char c = true) (list_ascii_of_string w).
Proof.
  split.
  - destruct s as [|c s]; [discriminate|]. cbn [entity_ahead]. intros H.
    apply andb_true_iff in H as [Hc Ht].
    apply entity_tail_spec in Ht as (w & tail & -> & Hw).
    exists (String c w), tail. split; [reflexivity|]. split; [discriminate|].
    now constructor.
  - intros (w & tail & -> & Hne & Hw). destruct w as [|c w]; [congruence|].
    cbn in Hw. inversion Hw as [|? ? Hc Hw']; subst.
    cbn [append entity_ahead]. rewrite Hc. cbn [andb].
    apply entity_tail_spec. eauto.
Qed.

(** C4, as the code has it.  In the escaped text none of the five
    characters of the entity table is left.  An ampersand that starts a
    sequence of word characters closed by a semicolon is kept as it is;
    any other ampersand becomes its entity; so a text without such a
    sequence has every occurrence of the six characters replaced.  The
    markup of a host option goes into its record unescaped, and a group
    record holds the escaped label of its optgroup.

    The escaped text is fixed for every text, character by character:
    the empty text stays empty; a character of the entity table is
    replaced by its entity, the table being the five pairs listed; an
    ampersand is kept or replaced as said above, where a text starts
    such a sequence exactly when it is one or more word characters, a
    semicolon and a rest; every other character is kept; and what
    follows a character is escaped in the same way. *)
Theorem escape_keeps_entity_references (a : string) (f : Dom.Select) :
  (forall x, In x (list_ascii_of_string (escapeExpression (Some a))) ->
             entity_map x = None)
  /\ (has_entity_reference a = false ->
      escapeExpression (Some a) = escape_every_special a)
  /\ (entity_ahead a = true ->
      escapeExpression (Some (String "&" a)) = String "&" (escapeExpression (Some a)))
  /\ (entity_ahead a = false ->
      escapeExpression (Some (String "&" a)) = "&amp;" ++ escapeExpression (Some a))
  /\ (forall data j c,
        select_to_array f = Some data -> data !! j = Some c ->
        (group c = false -> empty c = false ->
         exists i o, options_index c = Some i /\ Dom.options f !! i = Some o
                     /\ html c = Dom.innerHTML o)
        /\ (group c = true ->
            exists n, In n (Dom.select_childNodes f)
                      /\ label c = escapeExpression (Some (Dom.label n))))
  /\ escapeExpression None = ""
  /\ escapeExpression (Some "") = ""
  /\ (forall c e,
        entity_map c = Some e ->
        escapeExpression (Some (String c a)) = e ++ escapeExpression (Some a))
  /\ (forall c,
        c <> "&"%char -> entity_map c = None ->
        escapeExpression (Some (String c a)) = String c (escapeExpression (Some a)))
  /\ (forall c e,
        entity_map c = Some e
        <-> In (c, e) [("<"%char, "&lt;"); (">"%char, "&gt;"); (dquote, "&quot;");
                       ("'"%char, "&#x27;"); ("`"%char, "&#x60;")])
  /\ (entity_ahead a = true
      <-> exists w tail,
            a = w ++ ";" ++ tail /\ w <> ""
            /\ Forall (fun c => Text.is_word_char c = true) (list_ascii_of_string w)).
Proof.
  rewrite !escapeExpression_replace.
  split; [|split; [|split; [|split; [|split; [|split; [|split; [|split;
    [|split; [|split]]]]]]]]].
  - apply replace_entities_plain.
  - apply replace_entities_all.
  - intros H. cbn. now rewrite H.
  - intros H. cbn. now rewrite H.
  - intros data j c Hd Hj. rewrite select_to_array_flatten in Hd.
    inversion Hd; subst data.
    destruct (flatten_lookup _ 0 0 j c Hj)
      as [(n & Hin & Hg & ->)|(i & o & b & gl & d & Ho & ->)].
    + split; [discriminate|]. intros _. exists n. split; [exact Hin|].
      cbn [label set_children group_item]. reflexivity.
    + destruct (option_record_fields (0 + j) (0 + i) o b gl d)
        as (F1 & _ & F3 & _ & _ & F5).
      cbn zeta in *. split; [|congruence].
      intros _ He. exists i, o. split; [exact F3|]. split; [exact Ho|].
      apply (F5 He).
  - reflexivity.
  - reflexivity.
  - intros c e He. rewrite !escapeExpression_replace. cbn [replace_entities].
    now rewrite (entity_map_not_amp c e He), He.
  - intros c Hc He. rewrite !escapeExpression_replace. cbn [replace_entities].
    destruct (Ascii.eqb_spec c "&") as [->|_]; [congruence|]. now rewrite He.
  - intros c e. apply entity_map_table.
  - apply entity_ahead_spec.
Qed.

Lemma escape_keeps_entity_references_witness :
  escapeExpression (Some "Fish & Chips <b>") = "Fish &amp; Chips &lt;b&gt;"
  /\ escapeExpression (Some "&amp;c") = "&amp;c".
Proof.
  destruct (escape_keeps_entity_references "Fish & Chips <b>" Examples.colours)
    as (_ & H & _).
  destruct (escape_keeps_entity_references "amp;c" Examples.colours)
    as (_ & _ & H' & _).
  split; [rewrite (H eq_refl); reflexivity | rewrite (H' eq_refl); reflexivity].
Defined.

(** C4 as stated fails: the ampersand of a text that already holds an
    entity is an occurrence of one of the six characters, and it is not
    replaced. *)
Lemma escape_skips_entity_ampersand :
  escapeExpression (Some "&amp;") = "&amp;"
  /\ escape_every_special "&amp;" = "&amp;amp;"
  /\ escapeExpression (Some "&amp;") <> escape_every_special "&amp;".
Proof. split; [reflexivity|]. split; [reflexivity | discriminate]. Qed.

(** ** Drupal: table row selection *)

Lemma rev_lookup {A} (l : list A) :
  forall i, i < length l -> rev l !! i = l !! (length l - S i).
Proof.
  induction l as [|x l IH]; intros i Hi; [cbn in Hi; lia|].
  cbn [rev length] in *. destruct (decide (i < length l)) as [Hlt|Hge].
  - rewrite lookup_app_l by (rewrite length_rev; exact Hlt).
    rewrite IH by exact Hlt.
    replace (S (length l) - S i) with (S (length l - S i)) by lia. reflexivity.
  - rewrite lookup_app_r by (rewrite length_rev; lia). rewrite length_rev.
    replace (i - length l) with 0 by lia.
    replace (S (length l) - S i) with 0 by lia. reflexivity.
Qed.

Lemma set_state_nodeType state n :
  TableSelect.nodeType (TableSelect.set_state state n) = TableSelect.nodeType n.
Proof. destruct n; reflexivity. Qed.

Lemma set_state_other state n :
  TableSelect.nodeType n <> 1 -> TableSelect.set_state state n = n.
Proof. destruct n; [intros H; now destruct H | reflexivity]. Qed.

Lemma walk_length state stop l :
  forall k, length (TableSelect.walk state stop k l) = length l.
Proof.
  induction l as [|n l IH]; intros k; [reflexivity|]. cbn.
  destruct (negb (Nat.eqb (TableSelect.nodeType n) 1)); cbn; [now rewrite IH|].
  destruct (stop k); cbn; [reflexivity | now rewrite IH].
Qed.

(** Up to the first row that is the end point, every node is set. *)
Lemma walk_lookup_before state stop l :
  forall k i n,
    l !! i = Some n ->
    (forall j m, j < i -> l !! j = Some m -> TableSelect.nodeType m = 1 ->
                 stop (k + j) = false) ->
    TableSelect.walk state stop k l !! i = Some (TableSelect.set_state state n).
Proof.
  induction l as [|x l IH]; intros k i n Hi Hno; [discriminate|].
  cbn [TableSelect.walk].
  destruct (Nat.eqb (TableSelect.nodeType x) 1) eqn:Ex; cbn [negb].
  - apply Nat.eqb_eq in Ex. destruct i as [|i].
    + inversion Hi; subst x. destruct (stop k); reflexivity.
    + assert (Hk : stop k = false).
      { rewrite <- (Nat.add_0_r k). apply (Hno 0 x); [lia | reflexivity | exact Ex]. }
      rewrite Hk. cbn. apply IH; [exact Hi|].
      intros j m Hj Hm Hr. replace (S k + j) with (k + S j) by lia.
      apply (Hno (S j) m); [lia | exact Hm | exact Hr].
  - apply Nat.eqb_neq in Ex. destruct i as [|i].
    + inversion Hi; subst x. cbn. now rewrite set_state_other.
    + cbn. apply IH; [exact Hi|].
      intros j m Hj Hm Hr. replace (S k + j) with (k + S j) by lia.
      apply (Hno (S j) m); [lia | exact Hm | exact Hr].
Qed.

(** Behind a row that is the end point, nothing is touched. *)
Lemma walk_lookup_after state stop l :
  forall k j m i,
    l !! j = Some m -> TableSelect.nodeType m = 1 -> stop (k + j) = true ->
    j < i ->
    TableSelect.walk state stop k l !! i = l !! i.
Proof.
  induction l as [|x l IH]; intros k j m i Hj Hm Hs Hlt; [reflexivity|].
  cbn [TableSelect.walk]. destruct i as [|i]; [lia|].
  destruct j as [|j].
  - inversion Hj; subst x. rewrite Hm. cbn. rewrite Nat.add_0_r in Hs.
    rewrite Hs. reflexivity.
  - assert (Hrec : TableSelect.walk state stop (S k) l !! i = l !! i).
    { apply (IH (S k) j m); [exact Hj | exact Hm | | lia].
      replace (S k + j) with (k + S j) by lia. exact Hs. }
    destruct (negb (Nat.eqb (TableSelect.nodeType x) 1)); cbn; [exact Hrec|].
    destruct (stop k); cbn; [reflexivity | exact Hrec].
Qed.

(** Without an end point among the nodes, every one of them is set. *)
Lemma walk_no_stop state stop l :
  forall k, (forall j, stop (k + j) = false) ->
            TableSelect.walk state stop k l = map (TableSelect.set_state state) l.
Proof.
  induction l as [|x l IH]; intros k Hs; [reflexivity|].
  cbn [TableSelect.walk map].
  assert (Hk : stop k = false) by (rewrite <- (Nat.add_0_r k); apply Hs).
  assert (Hrec : TableSelect.walk state stop (S k) l
                 = map (TableSelect.set_state state) l).
  { apply IH. intros j. replace (S k + j) with (k + S j) by lia. apply Hs. }
  rewrite Hk, Hrec.
  destruct (Nat.eqb (TableSelect.nodeType x) 1) eqn:Ex; cbn; [reflexivity|].
  apply Nat.eqb_neq in Ex. now rewrite set_state_other.
Qed.

(** X14.  A shift-click range between two different rows of one table
    body, whose row numbers are ordered as the rows are: every sibling
    strictly after the clicked row up to and including the other end (or
    from the other end up to the row before the clicked one) gets the
    class and every checkbox in it, disabled ones included, gets the
    state; the clicked row itself and every node outside the range are
    left as they are. *)
Theorem tableSelectRange_sets_the_range
        (rows : list TableSelect.Node) (p q : nat) (state : bool)
        (f t : TableSelect.Node) :
  rows !! p = Some f ->
  rows !! q = Some t ->
  TableSelect.nodeType t = 1 ->
  p <> q ->
  TableSelect.gt (TableSelect.row_index f) (TableSelect.row_index t) = Nat.ltb q p ->
  exists rows',
    TableSelect.tableSelectRange rows p (TableSelect.Here q) state = Some rows'
    /\ length rows' = length rows
    /\ (forall i n, rows !! i = Some n ->
          rows' !! i
          = Some (if (Nat.ltb p i && Nat.leb i q) || (Nat.leb q i && Nat.ltb i p)
                  then TableSelect.set_state state n else n))
    /\ (forall i z sel bs c b,
          rows' !! i = Some (TableSelect.Row z sel bs) ->
          (p < i <= q \/ q <= i < p) ->
          bs !! b = Some c ->
          sel = state /\ TableSelect.checked c = state).
Proof.
  intros Hp Hq Ht Hne Hgt.
  assert (Hmain : exists rows',
    TableSelect.tableSelectRange rows p (TableSelect.Here q) state = Some rows'
    /\ length rows' = length rows
    /\ (forall i n, rows !! i = Some n ->
          rows' !! i
          = Some (if (Nat.ltb p i && Nat.leb i q) || (Nat.leb q i && Nat.ltb i p)
                  then TableSelect.set_state state n else n))).
  { unfold TableSelect.tableSelectRange. rewrite Hp. cbn [mbind option_bind].
    rewrite Hq. cbn [fmap option_fmap option_map mbind option_bind]. rewrite Hgt.
    pose proof (lookup_lt_Some _ _ _ Hp) as Lp.
    pose proof (lookup_lt_Some _ _ _ Hq) as Lq.
    destruct (Nat.ltb q p) eqn:Eqp.
    - apply Nat.ltb_lt in Eqp. eexists. split; [reflexivity|]. split.
      + rewrite length_app, length_rev, walk_length, length_rev, length_take, length_drop. lia.
      + intros i n Hi.
        destruct (decide (i < p)) as [Hip|Hip].
        * rewrite lookup_app_l
            by (rewrite length_rev, walk_length, length_rev, length_take; lia).
          assert (Hlen : length (TableSelect.walk state
                           (fun k => Nat.eqb (p - 1 - k) q) 0 (rev (take p rows))) = p).
          { rewrite walk_length, length_rev, length_take. lia. }
          rewrite rev_lookup by (rewrite Hlen; lia). rewrite Hlen.
          assert (Hrv : rev (take p rows) !! (p - S i) = Some n).
          { rewrite rev_lookup by (rewrite length_take; lia).
            rewrite length_take. replace (p `min` length rows - S (p - S i)) with i by lia.
            rewrite lookup_take_lt by lia. exact Hi. }
          destruct (decide (q <= i)) as [Hqi|Hqi].
          -- replace (Nat.leb q i) with true by (symmetry; apply Nat.leb_le; lia).
             replace (Nat.ltb i p) with true by (symmetry; apply Nat.ltb_lt; lia).
             rewrite orb_true_r.
             apply walk_lookup_before; [exact Hrv|].
             intros j m Hj _ _. apply Nat.eqb_neq. lia.
          -- replace (Nat.leb q i) with false by (symmetry; apply Nat.leb_gt; lia).
             replace (Nat.ltb p i) with false by (symmetry; apply Nat.ltb_ge; lia).
             cbn [andb orb].
             rewrite (walk_lookup_after state _ _ 0 (p - S q) t (p - S i)).
             ++ exact Hrv.
             ++ rewrite rev_lookup by (rewrite length_take; lia).
                rewrite length_take. replace (p `min` length rows - S (p - S q)) with q by lia.
                rewrite lookup_take_lt by lia. exact Hq.
             ++ exact Ht.
             ++ apply Nat.eqb_eq. lia.
             ++ lia.
        * rewrite lookup_app_r
            by (rewrite length_rev, walk_length, length_rev, length_take; lia).
          rewrite length_rev, walk_length, length_rev, length_take.
          rewrite lookup_drop. replace (p + (i - p `min` length rows)) with i by lia.
          replace (Nat.ltb i p) with false by (symmetry; apply Nat.ltb_ge; lia).
          replace (Nat.leb i q) with false by (symmetry; apply Nat.leb_gt; lia).
          rewrite !andb_false_r. exact Hi.
    - apply Nat.ltb_ge in Eqp. assert (Hpq : p < q) by lia.
      eexists. split; [reflexivity|]. split.
      + rewrite length_app, walk_length, length_take, length_drop. lia.
      + intros i n Hi.
        destruct (decide (i <= p)) as [Hip|Hip].
        * rewrite lookup_app_l by (rewrite length_take; lia).
          rewrite lookup_take_lt by lia.
          replace (Nat.ltb p i) with false by (symmetry; apply Nat.ltb_ge; lia).
          replace (Nat.leb q i) with false by (symmetry; apply Nat.leb_gt; lia).
          exact Hi.
        * rewrite lookup_app_r by (rewrite length_take; lia).
          rewrite length_take. replace (S p `min` length rows) with (S p) by lia.
          assert (Hdr : drop (S p) rows !! (i - S p) = Some n).
          { rewrite lookup_drop. replace (S p + (i - S p)) with i by lia. exact Hi. }
          replace (Nat.ltb p i) with true by (symmetry; apply Nat.ltb_lt; lia).
          replace (Nat.ltb i p) with false by (symmetry; apply Nat.ltb_ge; lia).
          rewrite andb_false_r, orb_false_r. cbn [andb].
          destruct (Nat.leb i q) eqn:Eiq.
          -- apply Nat.leb_le in Eiq.
             apply walk_lookup_before; [exact Hdr|].
             intros j m Hj _ _. apply Nat.eqb_neq. lia.
          -- apply Nat.leb_gt in Eiq.
             rewrite (walk_lookup_after state _ _ 0 (q - S p) t (i - S p)).
             ++ exact Hdr.
             ++ rewrite lookup_drop. replace (S p + (q - S p)) with q by lia. exact Hq.
             ++ exact Ht.
             ++ apply Nat.eqb_eq. lia.
             ++ lia. }
  destruct Hmain as (rows' & Hr & Hlen & Hall).
  exists rows'. split; [exact Hr|]. split; [exact Hlen|]. split; [exact Hall|].
  intros i z sel bs c b Hi Hrange Hb.
  assert (Hin : is_Some (rows !! i)).
  { apply lookup_lt_is_Some_2. rewrite <- Hlen. exact (lookup_lt_Some _ _ _ Hi). }
  destruct Hin as [n Hn]. rewrite (Hall i n Hn) in Hi.
  replace ((Nat.ltb p i && Nat.leb i q) || (Nat.leb q i && Nat.ltb i p)) with true in Hi.
  2:{ symmetry. apply orb_true_iff. destruct Hrange as [[? ?]|[? ?]]; [left|right];
      apply andb_true_iff; split;
      first [apply Nat.ltb_lt; lia | apply Nat.leb_le; lia]. }
  destruct n as [z0 sel0 bs0|]; [|discriminate]. cbn in Hi. inversion Hi; subst z sel bs.
  split; [reflexivity|].
  rewrite list_lookup_fmap in Hb. destruct (bs0 !! b); [|discriminate].
  cbn in Hb. inversion Hb. reflexivity.
Qed.

Lemma tableSelectRange_sets_the_range_witness :
  exists rows',
    TableSelect.tableSelectRange
      [TableSelect.Row 1 false [TableSelect.mkCheckbox true true];
       TableSelect.Other;
       TableSelect.Row 2 false [TableSelect.mkCheckbox false false];
       TableSelect.Row 3 false [TableSelect.mkCheckbox true false];
       TableSelect.Row 4 false [TableSelect.mkCheckbox true false]]
      0 (TableSelect.Here 3) true = Some rows'
    /\ rows' !! 0 = Some (TableSelect.Row 1 false [TableSelect.mkCheckbox true true])
    /\ rows' !! 2 = Some (TableSelect.Row 2 true [TableSelect.mkCheckbox false true])
    /\ rows' !! 4 = Some (TableSelect.Row 4 false [TableSelect.mkCheckbox true false]).
Proof.
  destruct (tableSelectRange_sets_the_range
              [TableSelect.Row 1 false [TableSelect.mkCheckbox true true];
               TableSelect.Other;
               TableSelect.Row 2 false [TableSelect.mkCheckbox false false];
               TableSelect.Row 3 false [TableSelect.mkCheckbox true false];
               TableSelect.Row 4 false [TableSelect.mkCheckbox true false]]
              0 3 true _ _ eq_refl eq_refl eq_refl ltac:(discriminate) eq_refl)
    as (rows' & H & _ & Hall & _).
  exists rows'. split; [exact H|].
  split; [exact (Hall 0 _ eq_refl)|].
  split; [exact (Hall 2 _ eq_refl) | exact (Hall 4 _ eq_refl)].
Defined.

(** X15.  When the other end of the range is the clicked row itself
    or an element that is not among its siblings, the loop never meets
    it: every sibling on the side the loop walks, up to the end of the
    table body, gets the state. *)
Theorem tableSelectRange_without_end_point
        (rows : list TableSelect.Node) (p : nat) (state : bool)
        (f : TableSelect.Node) :
  rows !! p = Some f ->
  TableSelect.tableSelectRange rows p (TableSelect.Here p) state
  = Some (take (S p) rows
          ++ map (TableSelect.set_state state) (drop (S p) rows))%list
  /\ forall z,
      TableSelect.tableSelectRange rows p (TableSelect.Elsewhere z) state
      = Some (if TableSelect.gt (TableSelect.row_index f) (Some z)
              then map (TableSelect.set_state state) (take p rows) ++ drop p rows
              else take (S p) rows
                   ++ map (TableSelect.set_state state) (drop (S p) rows))%list.
Proof.
  intros Hp. unfold TableSelect.tableSelectRange. rewrite Hp.
  cbn [mbind option_bind fmap option_fmap option_map]. split.
  - assert (Hg : TableSelect.gt (TableSelect.row_index f) (TableSelect.row_index f) = false).
    { destruct f as [z sel bs|]; cbn; [|reflexivity].
      destruct (Z.gtb_spec z z); [lia | reflexivity]. }
    rewrite Hg. rewrite walk_no_stop; [reflexivity|].
    intros j. apply Nat.eqb_neq. lia.
  - intros z. destruct (TableSelect.gt (TableSelect.row_index f) (Some z)).
    + rewrite walk_no_stop by reflexivity.
      rewrite <- map_rev, rev_involutive. reflexivity.
    + rewrite walk_no_stop by reflexivity. reflexivity.
Qed.

Lemma tableSelectRange_without_end_point_witness :
  TableSelect.tableSelectRange
    [TableSelect.Row 1 false [TableSelect.mkCheckbox true false;
                              TableSelect.mkCheckbox true false];
     TableSelect.Row 2 false [TableSelect.mkCheckbox true false];
     TableSelect.Row 3 false []]
    0 (TableSelect.Here 0) true
  = Some [TableSelect.Row 1 false [TableSelect.mkCheckbox true false;
                                   TableSelect.mkCheckbox true false];
          TableSelect.Row 2 true [TableSelect.mkCheckbox true true];
          TableSelect.Row 3 true []].
Proof.
  exact (proj1 (tableSelectRange_without_end_point
                  [TableSelect.Row 1 false [TableSelect.mkCheckbox true false;
                                            TableSelect.mkCheckbox true false];
                   TableSelect.Row 2 false [TableSelect.mkCheckbox true false];
                   TableSelect.Row 3 false []]
                  0 true _ eq_refl)).
Defined.

Lemma tableSelectRange_from rows p to state rows' :
  TableSelect.tableSelectRange rows p to state = Some rows' ->
  rows' !! p = rows !! p /\ length rows' = length rows.
Proof.
  unfold TableSelect.tableSelectRange.
  destruct (rows !! p) as [f|] eqn:Hp; [|discriminate]. cbn [mbind option_bind].
  pose proof (lookup_lt_Some _ _ _ Hp) as Lp.
  match goal with |- context [?m ≫= _] => destruct m as [ti|]; [|discriminate] end.
  cbn [mbind option_bind].
  destruct (TableSelect.gt (TableSelect.row_index f) ti); intros [= <-].
  - split.
    + rewrite lookup_app_r
        by (rewrite length_rev, walk_length, length_rev, length_take; lia).
      rewrite length_rev, walk_length, length_rev, length_take, lookup_drop.
      replace (p + (p - p `min` length rows)) with p by lia. exact Hp.
    + rewrite length_app, length_rev, walk_length, length_rev, length_take, length_drop. lia.
  - split.
    + rewrite lookup_app_l by (rewrite length_take; lia).
      rewrite lookup_take_lt by lia. exact Hp.
    + rewrite length_app, walk_length, length_take, length_drop. lia.
Qed.

Lemma tableSelectRange_total rows p q state :
  is_Some (rows !! p) -> is_Some (rows !! q) ->
  is_Some (TableSelect.tableSelectRange rows p (TableSelect.Here q) state).
Proof.
  intros [f Hf] [t Ht]. unfold TableSelect.tableSelectRange.
  rewrite Hf, Ht. cbn [mbind option_bind fmap option_fmap option_map].
  destruct (TableSelect.gt _ _); eauto.
Qed.

Lemma all_filter_length {A} (P : A -> bool) (l : list A) :
  Nat.eqb (length l) (length (List.filter P l)) = forallb P l.
Proof.
  induction l as [|x l IH]; [reflexivity|]. cbn [List.filter forallb length].
  pose proof (List.filter_length_le P l) as Hle.
  destruct (P x); cbn [length andb].
  - exact IH.
  - apply Nat.eqb_neq. intros E. rewrite <- E in Hle.
    exact (Nat.nle_succ_diag_l _ Hle).
Qed.

Lemma all_boxes_checked_spec l :
  TableSelect.all_boxes_checked l = true
  <-> forall c, In c (flat_map TableSelect.boxes_of l) ->
                TableSelect.enabled c = true -> TableSelect.checked c = true.
Proof.
  unfold TableSelect.all_boxes_checked, TableSelect.checkboxes.
  rewrite all_filter_length, forallb_forall. split.
  - intros H c Hc He. apply H. apply filter_In. auto.
  - intros H c Hc. apply filter_In in Hc as [Hc He]. auto.
Qed.

(** X16.  A click on an enabled checkbox of a row, with or
    without the shift key, runs to completion, gives the clicked row the
    class exactly when its checkbox is now checked, remembers the
    checkbox, and leaves every select-all checkbox checked exactly when
    every enabled checkbox of the table is checked, with the matching
    title. *)
Theorem row_click_keeps_select_all_exact
        (t : TableSelect.Table) (r b : nat) (shiftKey : bool)
        (z : Z) (sel : bool) (bs : list TableSelect.Checkbox)
        (c : TableSelect.Checkbox) :
  TableSelect.rows t !! r = Some (TableSelect.Row z sel bs) ->
  bs !! b = Some c ->
  TableSelect.enabled c = true ->
  (forall r' b', TableSelect.lastChecked t = Some (r', b') ->
                 is_Some (TableSelect.rows t !! r')) ->
  exists t',
    TableSelect.row_click r b shiftKey t = Some t'
    /\ TableSelect.lastChecked t' = Some (r, b)
    /\ TableSelect.rows t' !! r
       = Some (TableSelect.Row z (negb (TableSelect.checked c))
                 (<[b := TableSelect.mkCheckbox true (negb (TableSelect.checked c))]> bs))
    /\ length (TableSelect.select_all t') = length (TableSelect.select_all t)
    /\ forall a, In a (TableSelect.select_all t') ->
         (TableSelect.all_checked a = true
          <-> forall x, In x (flat_map TableSelect.boxes_of (TableSelect.rows t')) ->
                        TableSelect.enabled x = true -> TableSelect.checked x = true)
         /\ TableSelect.all_title a
            = (if TableSelect.all_checked a then TableSelect.selectNone_text
               else TableSelect.selectAll_text).
Proof.
  intros Hr Hb He Hlast. unfold TableSelect.row_click.
  rewrite Hr. cbn [mbind option_bind]. rewrite Hb. cbn [mbind option_bind]. rewrite He.
  set (v := negb (TableSelect.checked c)).
  set (rows1 := <[r := TableSelect.Row z v (<[b := TableSelect.mkCheckbox true v]> bs)]>
                  (TableSelect.rows t)).
  pose proof (lookup_lt_Some _ _ _ Hr) as Lr.
  assert (H1 : rows1 !! r
               = Some (TableSelect.Row z v (<[b := TableSelect.mkCheckbox true v]> bs))).
  { subst rows1. now rewrite list_lookup_insert_eq. }
  assert (H2 : exists rows2,
            match TableSelect.lastChecked t with
            | Some (r', b') =>
                if shiftKey && negb (Nat.eqb r r' && Nat.eqb b b')
                then TableSelect.tableSelectRange rows1 r (TableSelect.Here r') v
                else Some rows1
            | None => Some rows1
            end = Some rows2
            /\ rows2 !! r = rows1 !! r).
  { destruct (TableSelect.lastChecked t) as [[r' b']|] eqn:El; [|eauto].
    destruct (shiftKey && negb (Nat.eqb r r' && Nat.eqb b b')); [|eauto].
    destruct (tableSelectRange_total rows1 r r' v) as [rows2 H2].
    - rewrite H1. eauto.
    - apply lookup_lt_is_Some_2. subst rows1. rewrite length_insert.
      destruct (Hlast r' b' eq_refl) as [x Hx]. exact (lookup_lt_Some _ _ _ Hx).
    - exists rows2. split; [exact H2|]. now apply tableSelectRange_from in H2. }
  destruct H2 as (rows2 & -> & H2). cbn [mbind option_bind].
  eexists. split; [reflexivity|]. cbn.
  split; [reflexivity|]. split; [rewrite H2; exact H1|].
  split; [now rewrite length_map|].
  intros a Ha. apply in_map_iff in Ha as (a0 & <- & _). cbn.
  split; [apply all_boxes_checked_spec|].
  reflexivity.
Qed.

Lemma row_click_keeps_select_all_exact_witness :
  exists t',
    TableSelect.row_click 2 0 true
      (TableSelect.mkTable
         [TableSelect.Row 1 true [TableSelect.mkCheckbox true true];
          TableSelect.Row 2 false [TableSelect.mkCheckbox true false];
          TableSelect.Row 3 false [TableSelect.mkCheckbox true false]]
         [TableSelect.mkSelectAll false TableSelect.selectAll_text]
         (Some (0, 0))) = Some t'
    /\ TableSelect.lastChecked t' = Some (2, 0).
Proof.
  destruct (row_click_keeps_select_all_exact
              (TableSelect.mkTable
                 [TableSelect.Row 1 true [TableSelect.mkCheckbox true true];
                  TableSelect.Row 2 false [TableSelect.mkCheckbox true false];
                  TableSelect.Row 3 false [TableSelect.mkCheckbox true false]]
                 [TableSelect.mkSelectAll false TableSelect.selectAll_text]
                 (Some (0, 0)))
              2 0 true 3 false [TableSelect.mkCheckbox true false]
              (TableSelect.mkCheckbox true false) eq_refl eq_refl eq_refl)
    as (t' & H1 & H2 & _).
  { intros r' b' [= <- <-]. cbn. eauto. }
  exists t'. split; [exact H1 | exact H2].
Defined.

(** X17.  A click on a select-all checkbox gives its new state to
    every enabled checkbox of the table, gives or takes the class of
    every row that holds an enabled checkbox accordingly, leaves disabled
    checkboxes and rows without an enabled checkbox as they are, and sets
    every select-all checkbox and its title to the new state. *)
Theorem select_all_click_sets_enabled_boxes
        (t : TableSelect.Table) (j : nat) (a : TableSelect.SelectAll) :
  TableSelect.select_all t !! j = Some a ->
  exists t',
    TableSelect.select_all_click j t = Some t'
    /\ length (TableSelect.select_all t') = length (TableSelect.select_all t)
    /\ (forall x, In x (TableSelect.select_all t') ->
          TableSelect.all_checked x = negb (TableSelect.all_checked a)
          /\ TableSelect.all_title x
             = (if negb (TableSelect.all_checked a)
                then TableSelect.selectNone_text else TableSelect.selectAll_text))
    /\ length (TableSelect.rows t') = length (TableSelect.rows t)
    /\ (forall i n, TableSelect.rows t !! i = Some n ->
          exists n', TableSelect.rows t' !! i = Some n'
            /\ TableSelect.row_index n' = TableSelect.row_index n
            /\ length (TableSelect.boxes_of n') = length (TableSelect.boxes_of n)
            /\ (forall b c, TableSelect.boxes_of n !! b = Some c ->
                  TableSelect.boxes_of n' !! b
                  = Some (if TableSelect.enabled c
                          then TableSelect.mkCheckbox true (negb (TableSelect.all_checked a))
                          else c))
            /\ (existsb TableSelect.enabled (TableSelect.boxes_of n) = false -> n' = n)
            /\ (forall z sel bs, n' = TableSelect.Row z sel bs ->
                  existsb TableSelect.enabled (TableSelect.boxes_of n) = true ->
                  sel = negb (TableSelect.all_checked a)))
    /\ (forall c, In c (TableSelect.checkboxes (TableSelect.rows t')) ->
          TableSelect.checked c = negb (TableSelect.all_checked a))
    /\ TableSelect.lastChecked t' = TableSelect.lastChecked t.
Proof.
  intros Ha. unfold TableSelect.select_all_click. rewrite Ha. cbn [mbind option_bind].
  set (v := negb (TableSelect.all_checked a)).
  set (each := fun n => match n with
    | TableSelect.Row z sel bs =>
        TableSelect.Row z (if existsb TableSelect.enabled bs then v else sel)
          (map (fun c => if TableSelect.enabled c then TableSelect.mkCheckbox true v else c) bs)
    | TableSelect.Other => TableSelect.Other
    end).
  eexists. split; [reflexivity|]. cbn.
  split; [now rewrite length_map, length_insert|].
  split.
  { intros x Hx. apply in_map_iff in Hx as (x0 & <- & _). cbn. auto. }
  split; [now rewrite length_map|].
  split.
  { intros i n Hn. exists (each n). rewrite list_lookup_fmap, Hn. split; [reflexivity|].
    destruct n as [z sel bs|]; cbn.
    - split; [reflexivity|]. split; [now rewrite length_map|]. split.
      + intros b c Hb. now rewrite list_lookup_fmap, Hb.
      + split.
        * intros Hex. rewrite Hex. f_equal.
          rewrite <- (map_id bs) at 2. apply map_ext_in. intros c Hc.
          destruct (TableSelect.enabled c) eqn:Ec; [|reflexivity].
          exfalso. apply not_true_iff_false in Hex. apply Hex.
          apply existsb_exists. eauto.
        * intros z' sel' bs' [= <- <- <-] Hex. now rewrite Hex.
    - split; [reflexivity|]. split; [reflexivity|]. split; [intros b c Hb; discriminate|].
      split; [reflexivity|]. intros z sel bs H. discriminate. }
  split; [|reflexivity].
  intros c Hc. unfold TableSelect.checkboxes in Hc.
  apply filter_In in Hc as [Hc Ec]. apply in_flat_map in Hc as (n' & Hn' & Hc).
  apply in_map_iff in Hn' as (n & <- & _).
  destruct n as [z sel bs|]; cbn in Hc; [|contradiction].
  apply in_map_iff in Hc as (c0 & Hc0 & _).
  destruct (TableSelect.enabled c0) eqn:E0; subst c; [reflexivity | congruence].
Qed.

Lemma select_all_click_sets_enabled_boxes_witness :
  exists t',
    TableSelect.select_all_click 0
      (TableSelect.mkTable
         [TableSelect.Row 1 false [TableSelect.mkCheckbox true false];
          TableSelect.Row 2 false [TableSelect.mkCheckbox false false]]
         [TableSelect.mkSelectAll false TableSelect.selectAll_text] None) = Some t'
    /\ TableSelect.rows t'
       = [TableSelect.Row 1 true [TableSelect.mkCheckbox true true];
          TableSelect.Row 2 false [TableSelect.mkCheckbox false false]].
Proof.
  destruct (select_all_click_sets_enabled_boxes
              (TableSelect.mkTable
                 [TableSelect.Row 1 false [TableSelect.mkCheckbox true false];
                  TableSelect.Row 2 false [TableSelect.mkCheckbox false false]]
                 [TableSelect.mkSelectAll false TableSelect.selectAll_text] None)
              0 _ eq_refl) as (t' & H & _).
  exists t'. split; [exact H|]. vm_compute in H. inversion H. reflexivity.
Defined.

(** ** Drupal: sticky table headers *)

(** X18.  After a scroll event the sticky header is shown exactly
    when the scroll position lies strictly between the top of the table
    and the point [minHeight] pixels above its bottom, so a table that is
    not taller than [minHeight] never shows it; the event sets the left
    position from the horizontal scroll and does not touch the top
    position, the table offset or the table height. *)
Theorem onScroll_shows_header_inside_table
        (p : TableHeader.Page) (h : TableHeader.t) :
  let h' := TableHeader.onScroll p h in
  let top := (TableHeader.tableOffset_top h - TableHeader.displace_offsets_top p)%Z in
  let scroll := TableHeader.scrollValue p TableHeader.scrollTop in
  TableHeader.css_visible h' = TableHeader.stickyVisible h'
  /\ (TableHeader.css_visible h' = true
      <-> (top < scroll < top + TableHeader.tableHeight h - 100)%Z)
  /\ ((TableHeader.tableHeight h <= TableHeader.minHeight)%Z ->
      TableHeader.css_visible h' = false)
  /\ TableHeader.css_top h' = TableHeader.css_top h
  /\ TableHeader.css_left h'
     = Some (TableHeader.tableOffset_left h
             - TableHeader.scrollValue p TableHeader.scrollLeft)%Z
  /\ TableHeader.tableOffset_top h' = TableHeader.tableOffset_top h
  /\ TableHeader.tableOffset_left h' = TableHeader.tableOffset_left h
  /\ TableHeader.tableHeight h' = TableHeader.tableHeight h
  /\ (scroll = if (TableHeader.documentElement_scrollTop p =? 0)%Z
               then TableHeader.body_scrollTop p
               else TableHeader.documentElement_scrollTop p).
Proof.
  cbn zeta. unfold TableHeader.onScroll, TableHeader.checkStickyVisible,
    TableHeader.stickyPosition, TableHeader.minHeight. cbn.
  split; [reflexivity|]. split.
  { rewrite andb_true_iff, !Z.ltb_lt. reflexivity. }
  split.
  { intros Hh. apply andb_false_iff. rewrite !Z.ltb_ge. lia. }
  repeat split.
Qed.

(** ** Drupal: responsive tables *)


Lemma split_semicolon_nonempty a : TableResponsive.split_semicolon a <> [].
Proof.
  destruct a as [|c a]; cbn; [discriminate|].
  destruct (Ascii.eqb c ";"); [discriminate|].
  destruct (TableResponsive.split_semicolon a); discriminate.
Qed.

Lemma join_semicolon_cons x l :
  l <> [] ->
  TableResponsive.join_semicolon (x :: l)
  = x ++ String ";" (TableResponsive.join_semicolon l).
Proof. destruct l; [congruence | reflexivity]. Qed.

(** Joining what [split] returned gives the string back. *)
Lemma join_split a :
  TableResponsive.join_semicolon (TableResponsive.split_semicolon a) = a.
Proof.
  induction a as [|c a IH]; [reflexivity|]. cbn [TableResponsive.split_semicolon].
  pose proof (split_semicolon_nonempty a) as Hne.
  destruct (Ascii.eqb_spec c ";") as [->|Hc].
  - rewrite join_semicolon_cons by exact Hne. now rewrite IH.
  - destruct (TableResponsive.split_semicolon a) as [|x l] eqn:E; [congruence|].
    destruct l as [|y l].
    + cbn in *. now rewrite IH.
    + rewrite join_semicolon_cons by discriminate.
      rewrite join_semicolon_cons in IH by discriminate.
      rewrite <- IH. reflexivity.
Qed.

Lemma split_cons_plain c a x l :
  Ascii.eqb c ";" = false ->
  TableResponsive.split_semicolon a = x :: l ->
  TableResponsive.split_semicolon (String c a) = String c x :: l.
Proof. intros Hc E. cbn. now rewrite Hc, E. Qed.

Lemma split_plain x :
  Text.mem_char ";" x = false -> TableResponsive.split_semicolon x = [x].
Proof.
  induction x as [|c x IH]; [reflexivity|]. cbn [Text.mem_char]. intros H.
  apply orb_false_iff in H as [Hc Hx]. rewrite Ascii.eqb_sym in Hc.
  now rewrite (split_cons_plain c x x []) by auto.
Qed.

Lemma split_app_plain x b :
  Text.mem_char ";" x = false ->
  TableResponsive.split_semicolon (x ++ String ";" b)
  = x :: TableResponsive.split_semicolon b.
Proof.
  induction x as [|c x IH]; [reflexivity|]. cbn [Text.mem_char]. intros H.
  apply orb_false_iff in H as [Hc Hx]. rewrite Ascii.eqb_sym in Hc.
  change (String c x ++ String ";" b) with (String c (x ++ String ";" b)).
  now rewrite (split_cons_plain c _ x (TableResponsive.split_semicolon b)) by auto.
Qed.

(** Splitting a joined list of properties gives the list back. *)
Lemma split_join l :
  l <> [] ->
  Forall (fun x => Text.mem_char ";" x = false) l ->
  TableResponsive.split_semicolon (TableResponsive.join_semicolon l) = l.
Proof.
  induction l as [|x l IH]; [congruence|]. intros _ Hall.
  apply Forall_cons_iff in Hall as [Hx Hl].
  destruct l as [|y l]; [exact (split_plain x Hx)|].
  change (TableResponsive.join_semicolon (x :: y :: l))
    with (x ++ String ";" (TableResponsive.join_semicolon (y :: l))).
  rewrite split_app_plain by exact Hx. f_equal. apply IH; [discriminate | exact Hl].
Qed.

Lemma split_semicolon_parts a :
  Forall (fun x => Text.mem_char ";" x = false) (TableResponsive.split_semicolon a).
Proof.
  induction a as [|c a IH]; [repeat constructor|]. cbn [TableResponsive.split_semicolon].
  destruct (Ascii.eqb c ";") eqn:Hc; [constructor; [reflexivity | exact IH]|].
  destruct (TableResponsive.split_semicolon a) as [|x l].
  - repeat constructor. cbn [Text.mem_char]. rewrite Ascii.eqb_sym, Hc. reflexivity.
  - apply Forall_cons_iff in IH as [Hx Hl]. constructor; [|exact Hl].
    cbn [Text.mem_char]. rewrite Ascii.eqb_sym, Hc. exact Hx.
Qed.

Lemma drop_spaces_split s :
  exists u, s = u ++ Text.drop_spaces s
            /\ Forall (fun c => Text.is_space c = true) (list_ascii_of_string u).
Proof.
  induction s as [|c s (u & Hu & Hs)]; [exists ""; split; [reflexivity | constructor]|].
  cbn [Text.drop_spaces]. destruct (Text.is_space c) eqn:Ec.
  - exists (String c u). split; [cbn; now rewrite <- Hu|]. cbn. constructor; assumption.
  - exists "". split; [reflexivity | constructor].
Qed.

Lemma drop_spaces_app u r :
  Forall (fun c => Text.is_space c = true) (list_ascii_of_string u) ->
  Text.drop_spaces (u ++ r) = Text.drop_spaces r.
Proof.
  induction u as [|c u IH]; [reflexivity|]. cbn. intros H.
  apply Forall_cons_iff in H as [Hc Hu]. rewrite Hc. now apply IH.
Qed.

Lemma strip_prefix_Some p : forall s r,
  TableResponsive.strip_prefix p s = Some r <-> s = p ++ r.
Proof.
  induction p as [|a p IH]; intros s r; cbn.
  - split; [now intros [= ->] | now intros ->].
  - destruct s as [|b s]; [split; discriminate|].
    destruct (Ascii.eqb_spec a b) as [->|Hab].
    + rewrite IH. split; [now intros -> | now intros [= ->]].
    + split; [discriminate | intros [= <- _]; congruence].
Qed.

Lemma is_display_none_spec p :
  TableResponsive.is_display_none p = true
  <-> exists u v,
        p = "display" ++ u ++ ":" ++ v ++ "none"
        /\ Forall (fun c => Text.is_space c = true) (list_ascii_of_string u)
        /\ Forall (fun c => Text.is_space c = true) (list_ascii_of_string v).
Proof.
  unfold TableResponsive.is_display_none. split.
  - destruct (TableResponsive.strip_prefix "display" p) as [r|] eqn:E; [|discriminate].
    apply strip_prefix_Some in E.
    destruct (drop_spaces_split r) as (u & Hu & Hus).
    destruct (Text.drop_spaces r) as [|c r'] eqn:Er; [discriminate|].
    intros H. apply andb_true_iff in H as [Hc Hn].
    apply Ascii.eqb_eq in Hc. apply String.eqb_eq in Hn. subst c.
    destruct (drop_spaces_split r') as (v & Hv & Hvs). rewrite Hn in Hv.
    exists u, v. split; [|auto]. rewrite E, Hu, Hv. reflexivity.
  - intros (u & v & -> & Hu & Hv).
    assert (E : TableResponsive.strip_prefix "display" ("display" ++ u ++ ":" ++ v ++ "none")
                = Some (u ++ ":" ++ v ++ "none")) by now apply strip_prefix_Some.
    rewrite E. rewrite drop_spaces_app by exact Hu.
    change (":" ++ v ++ "none") with (String ":" (v ++ "none")).
    cbn [Text.drop_spaces]. change (Text.is_space ":") with false. cbn iota.
    rewrite drop_spaces_app by exact Hv. reflexivity.
Qed.

(** X19.  Restoring the style attribute of a cell works property by
    property: a style in which no property is a bare [display:none]
    declaration comes back unchanged; from a list of properties joined by
    semicolons exactly those are left out that consist of the word
    display, white space, a colon, white space and the word none, with
    nothing before or after; a declaration that is preceded by a blank,
    as every one but the first is in a serialised style attribute, is
    kept. *)
Theorem restore_style_drops_bare_declarations :
  (forall style,
      Forall (fun p => TableResponsive.is_display_none p = false)
             (TableResponsive.split_semicolon style) ->
      TableResponsive.restore_style style = style)
  /\ (forall l,
        l <> [] ->
        Forall (fun x => Text.mem_char ";" x = false) l ->
        TableResponsive.restore_style (TableResponsive.join_semicolon l)
        = TableResponsive.join_semicolon
            (List.filter (fun p => negb (TableResponsive.is_display_none p)) l))
  /\ (forall p,
        TableResponsive.is_display_none p = true
        <-> exists u v,
              p = "display" ++ u ++ ":" ++ v ++ "none"
              /\ Forall (fun c => Text.is_space c = true) (list_ascii_of_string u)
              /\ Forall (fun c => Text.is_space c = true) (list_ascii_of_string v))
  /\ (forall c p, Text.is_space c = true ->
                  TableResponsive.is_display_none (String c p) = false)
  /\ TableResponsive.restore_style "display: none;" = ""
  /\ TableResponsive.restore_style "color: red; display: none;"
     = "color: red; display: none;".
Proof.
  split.
  { intros style H. unfold TableResponsive.restore_style.
    replace (List.filter (fun prop => negb (TableResponsive.is_display_none prop))
               (TableResponsive.split_semicolon style))
      with (TableResponsive.split_semicolon style); [apply join_split|].
    induction H as [|x l Hx _ IH]; [reflexivity|]. cbn. rewrite Hx. cbn. now f_equal. }
  split.
  { intros l Hne Hall. unfold TableResponsive.restore_style.
    now rewrite split_join. }
  split; [exact is_display_none_spec|].
  split; [|split; reflexivity].
  intros c p Hc. unfold TableResponsive.is_display_none.
  change (TableResponsive.strip_prefix "display" (String c p))
    with (if Ascii.eqb "d" c then TableResponsive.strip_prefix "isplay" p else None).
  destruct (Ascii.eqb_spec "d" c) as [<-|]; [discriminate | reflexivity].
Qed.

Lemma evaluate_pegged h l z :
  TableResponsive.data_pegged l = Some z -> z <> 0%Z ->
  TableResponsive.displayed l = true ->
  TableResponsive.data_pegged (TableResponsive.eventhandlerEvaluateColumnVisibility h l)
  = Some z
  /\ TableResponsive.displayed (TableResponsive.eventhandlerEvaluateColumnVisibility h l)
     = true.
Proof.
  destruct l as [d t pg]. cbn. intros -> Hz ->.
  unfold TableResponsive.eventhandlerEvaluateColumnVisibility.
  destruct (Z.eqb_spec z 0) as [|_]; [contradiction|].
  destruct h; cbn; destruct (Z.eqb_spec z 0); try contradiction; cbn; auto.
Qed.

(** X20.  While the toggle link is pegged (the user has revealed
    the hidden columns), no sequence of resize events hides it or changes
    its pegged value; a link that is not pegged is displayed after a
    resize exactly when some header of low or medium priority is
    hidden. *)
Theorem pegged_link_survives_resizes
        (resizes : list nat) (l : TableResponsive.Link) (z : Z) :
  TableResponsive.data_pegged l = Some z ->
  z <> 0%Z ->
  TableResponsive.displayed l = true ->
  let l' := fold_left (fun l h => TableResponsive.eventhandlerEvaluateColumnVisibility h l)
                      resizes l in
  TableResponsive.displayed l' = true
  /\ TableResponsive.data_pegged l' = Some z
  /\ forall h u,
       TableResponsive.not_pegged (TableResponsive.data_pegged u) = true ->
       TableResponsive.displayed (TableResponsive.eventhandlerEvaluateColumnVisibility h u)
       = Nat.ltb 0 h.
Proof.
  intros Hp Hz Hd. cbn zeta.
  assert (H : TableResponsive.data_pegged
                (fold_left (fun l h => TableResponsive.eventhandlerEvaluateColumnVisibility h l)
                           resizes l) = Some z
              /\ TableResponsive.displayed
                   (fold_left (fun l h => TableResponsive.eventhandlerEvaluateColumnVisibility h l)
                              resizes l) = true).
  { revert l Hp Hd. induction resizes as [|h rs IH]; intros l Hp Hd; [auto|].
    cbn [fold_left]. destruct (evaluate_pegged h l z Hp Hz Hd) as [H1 H2].
    now apply IH. }
  destruct H as [H1 H2]. split; [exact H2|]. split; [exact H1|].
  intros h u Hu. unfold TableResponsive.eventhandlerEvaluateColumnVisibility.
  destruct h as [|h]; cbn; rewrite Hu; reflexivity.
Qed.

Lemma pegged_link_survives_resizes_witness :
  TableResponsive.displayed
    (fold_left (fun l h => TableResponsive.eventhandlerEvaluateColumnVisibility h l)
               [0; 2; 0]
               (TableResponsive.mkLink true TableResponsive.hideText (Some 1%Z)))
  = true.
Proof.
  exact (proj1 (pegged_link_survives_resizes [0; 2; 0]
                  (TableResponsive.mkLink true TableResponsive.hideText (Some 1%Z))
                  1%Z eq_refl ltac:(discriminate) eq_refl)).
Defined.

(** ** Drupal: attaching Chosen *)

Lemma mem_In i l : DrupalChosen.mem i l = true <-> In i l.
Proof.
  unfold DrupalChosen.mem. rewrite existsb_exists. split.
  - intros (x & Hx & E). apply Nat.eqb_eq in E. now subst.
  - intros H. exists i. split; [exact H | apply Nat.eqb_refl].
Qed.

Lemma find_In p context i :
  In i (DrupalChosen.find p context)
  <-> exists e, context !! i = Some e /\ p e = true.
Proof.
  unfold DrupalChosen.find. rewrite filter_In, in_seq. split.
  - intros [_ H]. destruct (context !! i) as [e|]; [eauto | discriminate].
  - intros (e & He & Hp). rewrite He. split; [|exact Hp].
    pose proof (lookup_lt_Some _ _ _ He). lia.
Qed.

(** X21.  The selects that are turned into Chosen widgets: an
    element that has opted in is always taken, whatever the ignore
    selector and the minimum number of options say; any other element is
    taken exactly when it matches the selector, does not match the ignore
    selector, and the minimum that applies to it (the one for multiple
    selects or the one for single selects) is absent, zero or not above
    its number of options.  No element is taken twice. *)
Theorem getElements_takes_opted_in_and_filtered
        (st : DrupalChosen.Settings) (context : list DrupalChosen.Element) :
  List.NoDup (DrupalChosen.getElements st context)
  /\ (forall i,
        In i (DrupalChosen.getElements st context)
        <-> exists e,
              context !! i = Some e
              /\ (DrupalChosen.matches_optedInSelector e = true
                  \/ (DrupalChosen.matches_selector e = true
                      /\ DrupalChosen.filterElements st e = true)))
  /\ (forall e,
        DrupalChosen.filterElements st e = true
        <-> DrupalChosen.matches_ignoreSelector e = false
            /\ let minimum := if Dom.multiple (DrupalChosen.select e)
                              then DrupalChosen.minimum_multiple st
                              else DrupalChosen.minimum_single st in
               (minimum = None \/ minimum = Some 0%Z
                \/ exists m, minimum = Some m
                             /\ (m <= Z.of_nat (length (Dom.options (DrupalChosen.select e))))%Z)).
Proof.
  split; [|split].
  - unfold DrupalChosen.getElements, DrupalChosen.jq_add.
    apply List.NoDup_filter, List.seq_NoDup.
  - intros i. unfold DrupalChosen.getElements, DrupalChosen.jq_add.
    rewrite filter_In, in_seq, orb_true_iff, !mem_In.
    unfold DrupalChosen.jq_filter. rewrite filter_In, !find_In. split.
    + intros [_ [[(e & He & Hs) Hf]|(e & He & Ho)]].
      * exists e. rewrite He in Hf. auto.
      * exists e. auto.
    + intros (e & He & H). pose proof (lookup_lt_Some _ _ _ He) as Hlt.
      split; [lia|]. destruct H as [Ho|[Hs Hf]].
      * right. eauto.
      * left. split; [eauto|]. now rewrite He.
  - intros e. unfold DrupalChosen.filterElements.
    destruct (DrupalChosen.matches_ignoreSelector e); [split; [discriminate | intros [? _]; discriminate]|].
    cbn zeta.
    destruct (if Dom.multiple (DrupalChosen.select e)
              then DrupalChosen.minimum_multiple st
              else DrupalChosen.minimum_single st) as [m|]; cbn.
    + destruct (Z.eqb_spec m 0) as [->|Hm]; cbn.
      * split; [auto | reflexivity].
      * rewrite Z.leb_le. split.
        -- intros H. split; [reflexivity|]. right. right. eauto.
        -- intros [_ [H|[H|(m' & [= <-] & H)]]]; [discriminate | congruence | exact H].
    + split; [auto | reflexivity].
Qed.

(** X22.  With a positive [minimum_width] in the settings the widget
    container is as wide as the select, but never narrower than the
    minimum; with an absent, zero or negative [minimum_width] the width
    option of the settings is handed on unchanged, and the container
    falls back to the width of the host control when there is none. *)
Theorem chosen_container_width_respects_minimum
        (st : DrupalChosen.Settings) (e : DrupalChosen.Element) (offsetWidth : Z) :
  (forall m, DrupalChosen.minimum_width st = Some m -> (0 < m)%Z ->
             DrupalChosen.container_width (DrupalChosen.getElementOptions st e).2 offsetWidth
             = DrupalChosen.Px (Z.max m (DrupalChosen.width e)))
  /\ ((DrupalChosen.minimum_width st = None
       \/ exists m, DrupalChosen.minimum_width st = Some m /\ (m <= 0)%Z) ->
      (DrupalChosen.getElementOptions st e).2 = DrupalChosen.options_width st
      /\ DrupalChosen.container_width (DrupalChosen.getElementOptions st e).2 offsetWidth
         = match DrupalChosen.options_width st with
           | Some w => w
           | None => DrupalChosen.Px offsetWidth
           end).
Proof.
  unfold DrupalChosen.getElementOptions, DrupalChosen.container_width. cbn [snd]. split.
  - intros m Hm Hpos. rewrite Hm.
    replace (0 <? m)%Z with true by (symmetry; apply Z.ltb_lt; exact Hpos).
    destruct (Z.ltb_spec (DrupalChosen.width e) m); f_equal; lia.
  - intros [Hn|(m & Hm & Hle)].
    + rewrite Hn. auto.
    + rewrite Hm. replace (0 <? m)%Z with false by (symmetry; apply Z.ltb_ge; exact Hle).
      auto.
Qed.



(** ** The query is matched literally *)

Lemma match_here_literal ic gl :
  forall prev s,
    Text.match_here ic (map Text.AChar gl) prev s = true
    <-> exists m post,
          s = m ++ post
          /\ Forall2 (fun c d => Text.char_matches ic c d = true)
                     gl (list_ascii_of_string m).
Proof.
  induction gl as [|c gl IH]; intros prev s; cbn [map Text.match_here].
  - split; [intros _; exists "", s; split; [reflexivity | constructor]|reflexivity].
  - destruct s as [|d s].
    + split; [discriminate|]. intros (m & post & Hs & H).
      destruct m; [inversion H | discriminate].
    + rewrite andb_true_iff, IH. split.
      * intros [Hc (m & post & -> & H)]. exists (String d m), post.
        split; [reflexivity|]. cbn. now constructor.
      * intros (m & post & Hs & H). destruct m as [|d' m]; [inversion H|].
        cbn in Hs, H. inversion Hs; subst d' s. inversion H; subst. eauto.
Qed.

Lemma match_here_literal_prev ic gl prev prev' s :
  Text.match_here ic (map Text.AChar gl) prev s
  = Text.match_here ic (map Text.AChar gl) prev' s.
Proof.
  revert prev prev' s. induction gl as [|c gl IH]; intros prev prev' s; [reflexivity|].
  cbn. destruct s; reflexivity.
Qed.

Lemma search_from_literal ic gl :
  forall s prev i,
    is_Some (Text.search_from ic (map Text.AChar gl) prev s i)
    <-> exists pre rest,
          s = pre ++ rest /\ Text.match_here ic (map Text.AChar gl) None rest = true.
Proof.
  induction s as [|d s IH]; intros prev i; cbn [Text.search_from].
  - rewrite (match_here_literal_prev ic gl prev None).
    destruct (Text.match_here ic (map Text.AChar gl) None "") eqn:E.
    + split; [intros _; exists "", ""; auto | eauto].
    + split; [intros [x Hx]; discriminate|].
      intros (pre & rest & Hs & H). destruct pre; [|discriminate].
      cbn in Hs. subst rest. congruence.
  - rewrite (match_here_literal_prev ic gl prev None).
    destruct (Text.match_here ic (map Text.AChar gl) None (String d s)) eqn:E.
    + split; [intros _; exists "", (String d s); auto | eauto].
    + rewrite IH. split.
      * intros (pre & rest & -> & H). exists (String d pre), rest. auto.
      * intros (pre & rest & Hs & H). destruct pre as [|d' pre].
        -- cbn in Hs. subst rest. congruence.
        -- cbn in Hs. inversion Hs; subst. eauto.
Qed.

Lemma search_from_anchored ic atoms :
  forall s d i, Text.search_from ic (Text.AStart :: atoms) (Some d) s i = None.
Proof.
  induction s as [|c s IH]; intros d i; cbn; [reflexivity | apply IH].
Qed.

(** X12.  Whatever characters the query holds, the match pattern
    built from it treats them as plain text: a text matches exactly when
    it holds the characters of the query in a row, compared without
    regard to case unless the search is case sensitive, and at the very
    start of the text unless the search is in contains mode. *)
Theorem query_is_matched_literally (s : Chosen.t) (g a : string) :
  Text.test (get_search_regex s (Text.escape_regex g)) a = true
  <-> exists pre m post,
        a = pre ++ m ++ post
        /\ Forall2 (fun c d =>
                      Text.char_matches (negb (case_sensitive_search (config s))) c d = true)
                   (list_ascii_of_string g) (list_ascii_of_string m)
        /\ (search_contains (config s) = false -> pre = "").
Proof.
  unfold Text.test, Text.exec, get_search_regex.
  assert (Hic : forall src,
             Text.ignore_case
               (Text.mkRegExp src (if case_sensitive_search (config s) then "" else "i"))
             = negb (case_sensitive_search (config s))).
  { intros src. destruct (case_sensitive_search (config s)); reflexivity. }
  rewrite Hic. cbn [Text.source].
  set (ic := negb (case_sensitive_search (config s))).
  destruct (search_contains (config s)).
  - cbn [append]. rewrite compile_escape_regex.
    assert (H := search_from_literal ic (list_ascii_of_string g) a None 0).
    destruct (Text.search_from ic _ None a 0) as [i|] eqn:E.
    + split; [|reflexivity]. intros _.
      destruct (proj1 H (ex_intro _ i eq_refl)) as (pre & rest & -> & Hm).
      apply match_here_literal in Hm as (m & post & -> & Hf).
      exists pre, m, post. split; [reflexivity|]. split; [exact Hf | discriminate].
    + split; [discriminate|]. intros (pre & m & post & -> & Hf & _).
      destruct (proj2 H) as [x Hx]; [|discriminate].
      exists pre, (m ++ post). split; [reflexivity|].
      apply match_here_literal. eauto.
  - change (Text.compile ("^" ++ Text.escape_regex g))
      with (cons Text.AStart <$> Text.compile (Text.escape_regex g)).
    rewrite compile_escape_regex. cbn [fmap option_fmap option_map].
    assert (Hs : Text.search_from ic (Text.AStart :: map Text.AChar (list_ascii_of_string g))
                   None a 0
                 = if Text.match_here ic (map Text.AChar (list_ascii_of_string g)) None a
                   then Some 0 else None).
    { destruct a as [|d a]; cbn [Text.search_from Text.match_here].
      - destruct (Text.match_here _ _ _ _); reflexivity.
      - destruct (Text.match_here _ _ _ _); [reflexivity | apply search_from_anchored]. }
    rewrite Hs.
    destruct (Text.match_here ic (map Text.AChar (list_ascii_of_string g)) None a) eqn:E.
    + split; [|reflexivity]. intros _.
      apply match_here_literal in E as (m & post & -> & Hf).
      exists "", m, post. auto.
    + split; [discriminate|]. intros (pre & m & post & -> & Hf & Hp).
      rewrite (Hp eq_refl) in E. cbn in E.
      assert (Text.match_here ic (map Text.AChar (list_ascii_of_string g)) None (m ++ post)
              = true) by (apply match_here_literal; eauto).
      congruence.
Qed.

(** ** Escaping twice *)

Lemma word_char_plain c :
  Text.is_word_char c = true -> Ascii.eqb c "&" = false /\ entity_map c = None.
Proof. ascii_cases c; vm_compute; intros; try discriminate; auto. Qed.

Lemma replace_entities_word c s :
  Text.is_word_char c = true ->
  replace_entities (String c s) = String c (replace_entities s).
Proof.
  intros H. destruct (word_char_plain c H) as [H1 H2].
  cbn [replace_entities]. now rewrite H1, H2.
Qed.

Lemma entity_tail_replace s :
  entity_tail s = true -> entity_tail (replace_entities s) = true.
Proof.
  induction s as [|c s IH]; [discriminate|]. cbn [entity_tail].
  destruct (Ascii.eqb_spec c ";") as [->|Hc]; [reflexivity|].
  destruct (Text.is_word_char c) eqn:Ew; [|discriminate]. intros H.
  rewrite (replace_entities_word c s Ew). cbn [entity_tail].
  destruct (Ascii.eqb_spec c ";"); [contradiction|]. rewrite Ew. auto.
Qed.

Lemma entity_ahead_replace s :
  entity_ahead s = true -> entity_ahead (replace_entities s) = true.
Proof.
  destruct s as [|c s]; [discriminate|]. cbn [entity_ahead]. intros H.
  apply andb_true_iff in H as [Ew Ht].
  rewrite (replace_entities_word c s Ew). cbn [entity_ahead].
  rewrite Ew. now apply entity_tail_replace.
Qed.

Lemma replace_entities_twice a :
  (forall c, In c (list_ascii_of_string a) -> c <> "'"%char /\ c <> "`"%char) ->
  replace_entities (replace_entities a) = replace_entities a.
Proof.
  induction a as [|c a IH]; [reflexivity|]. intros Hq.
  assert (IH' : replace_entities (replace_entities a) = replace_entities a).
  { apply IH. intros x Hx. apply Hq. now right. }
  destruct (Hq c (or_introl eq_refl)) as [Hq1 Hq2].
  cbn [replace_entities].
  destruct (Ascii.eqb_spec c "&") as [->|Hamp].
  - destruct (entity_ahead a) eqn:Ea.
    + cbn [replace_entities]. change (Ascii.eqb "&" "&") with true. cbn iota.
      rewrite (entity_ahead_replace a Ea), IH'. reflexivity.
    + change ("&amp;" ++ replace_entities a)
        with (String "&" (String "a" (String "m" (String "p" (String ";" (replace_entities a)))))).
      cbn [replace_entities]. change (Ascii.eqb "&" "&") with true. cbn iota.
      change (entity_ahead (String "a" (String "m" (String "p" (String ";" (replace_entities a))))))
        with true. cbn iota.
      change (Ascii.eqb "a" "&") with false. change (Ascii.eqb "m" "&") with false.
      change (Ascii.eqb "p" "&") with false. change (Ascii.eqb ";" "&") with false.
      cbn iota. change (entity_map "a") with (@None string).
      change (entity_map "m") with (@None string).
      change (entity_map "p") with (@None string).
      change (entity_map ";") with (@None string). cbn iota.
      rewrite IH'. reflexivity.
  - unfold entity_map.
    destruct (Ascii.eqb_spec c "<") as [->|H1].
    { cbn [append replace_entities].
      change (entity_ahead (String "l" (String "t" (String ";" (replace_entities a)))))
        with true. cbn iota. rewrite IH'. reflexivity. }
    destruct (Ascii.eqb_spec c ">") as [->|H2].
    { cbn [append replace_entities].
      change (entity_ahead (String "g" (String "t" (String ";" (replace_entities a)))))
        with true. cbn iota. rewrite IH'. reflexivity. }
    destruct (Ascii.eqb_spec c dquote) as [->|H3].
    { cbn [append replace_entities].
      change (entity_ahead (String "q" (String "u" (String "o" (String "t"
                (String ";" (replace_entities a)))))))
        with true. cbn iota. rewrite IH'. reflexivity. }
    destruct (Ascii.eqb_spec c "'") as [->|H4]; [contradiction|].
    destruct (Ascii.eqb_spec c "`") as [->|H5]; [contradiction|].
    cbn [replace_entities].
    destruct (Ascii.eqb_spec c "&"); [contradiction|].
    unfold entity_map.
    destruct (Ascii.eqb_spec c "<"); [contradiction|].
    destruct (Ascii.eqb_spec c ">"); [contradiction|].
    destruct (Ascii.eqb_spec c dquote); [contradiction|].
    destruct (Ascii.eqb_spec c "'"); [contradiction|].
    destruct (Ascii.eqb_spec c "`"); [contradiction|].
    rewrite IH'. reflexivity.
Qed.

(** X13.  Escaping an already escaped text a second time changes
    nothing, as long as the text holds no single quote and no backtick:
    the entities written for the ampersand, the angle brackets and the
    double quote are recognised and left alone.  The entities written
    for the single quote and the backtick are numeric and are not
    recognised: a second escaping turns their ampersand into an entity of
    its own. *)
Theorem escapeExpression_twice :
  (forall a,
      (forall c, In c (list_ascii_of_string a) -> c <> "'"%char /\ c <> "`"%char) ->
      escapeExpression (Some (escapeExpression (Some a))) = escapeExpression (Some a))
  /\ (forall a,
        escapeExpression (Some (escapeExpression (Some (String "'" a))))
        = "&amp;#x27;" ++ escapeExpression (Some (escapeExpression (Some a))))
  /\ (forall a,
        escapeExpression (Some (escapeExpression (Some (String "`" a))))
        = "&amp;#x60;" ++ escapeExpression (Some (escapeExpression (Some a)))).
Proof.
  split; [|split]; intros a.
  - intros H. rewrite !escapeExpression_replace. now apply replace_entities_twice.
  - rewrite !escapeExpression_replace. reflexivity.
  - rewrite !escapeExpression_replace. reflexivity.
Qed.

(** ** The number of entries shown *)

Lemma results_option_loop_config first l :
  forall e s, config (results_option_loop first l e s).2 = config s
              /\ is_multiple (results_option_loop first l e s).2 = is_multiple s.
Proof.
  induction l as [|c l IH]; intros e s; [auto|]. cbn [results_option_loop].
  set (d := if group c then result_add_group s c else result_add_option s c).
  set (e' := match d with Some _ => S e | None => e end).
  set (s' := if first then
               if selected c && is_multiple s then choice_build c s
               else if selected c && negb (is_multiple s)
                    then single_set_selected_text (Some (choice_label s c)) s
                    else s
             else s).
  assert (Hs' : config s' = config s /\ is_multiple s' = is_multiple s).
  { subst s'. destruct first; [|auto].
    destruct (selected c && is_multiple s); [auto|].
    destruct (selected c && negb (is_multiple s)); auto. }
  destruct (num_le_count (max_shown_results (config s)) e'); [exact Hs'|].
  specialize (IH e' s'). destruct (results_option_loop first l e' s') as [lis s''].
  cbn [snd] in *. destruct IH, Hs'. split; congruence.
Qed.

Lemma results_option_loop_bound first l z :
  forall e s,
    max_shown_results (config s) = Num z ->
    (Z.of_nat (length (results_option_loop first l e s).1)
     <= Z.max 1 (z - Z.of_nat e))%Z.
Proof.
  induction l as [|c l IH]; intros e s Hz; [cbn; lia|]. cbn [results_option_loop].
  set (d := if group c then result_add_group s c else result_add_option s c).
  set (e' := match d with Some _ => S e | None => e end).
  set (s' := if first then
               if selected c && is_multiple s then choice_build c s
               else if selected c && negb (is_multiple s)
                    then single_set_selected_text (Some (choice_label s c)) s
                    else s
             else s).
  assert (Hs' : config s' = config s).
  { subst s'. destruct first; [|auto].
    destruct (selected c && is_multiple s); [auto|].
    destruct (selected c && negb (is_multiple s)); auto. }
  rewrite Hz. cbn [num_le_count].
  destruct (Z.leb_spec z (Z.of_nat e')) as [Hle|Hgt].
  - cbn [fst]. destruct d; cbn; lia.
  - specialize (IH e' s' ltac:(congruence)).
    destruct (results_option_loop first l e' s') as [lis s'']. cbn [fst] in *.
    rewrite length_app. subst e'. destruct d; cbn [opt_list length] in *; lia.
Qed.

(** X11.  With a limit [max_shown_results] of at least one, no
    rendering of the results and no filter pass ever puts more entries
    than the limit into the list, group headings counted; the filter
    never fails on a widget reached by user actions. *)
Theorem shown_results_stay_within_limit (s : Chosen.t) (z : Z) :
  max_shown_results (config s) = Num z ->
  (1 <= z)%Z ->
  (forall first,
      (Z.of_nat (length (results_option_build first s).1) <= z)%Z)
  /\ (reachable s ->
      forall q, exists s',
        winnow_results (set_search_field_val q s) = Some s'
        /\ (Z.of_nat (length (search_results s')) <= z)%Z).
Proof.
  intros Hz Hone. split.
  - intros first. unfold results_option_build.
    pose proof (results_option_loop_bound first (results_data s) z 0 s Hz). lia.
  - intros Hr q. apply reachable_invariant in Hr.
    set (s0 := set_search_field_val q s).
    assert (Hi0 : invariant s0) by (eapply invariant_same; [..|exact Hr]; reflexivity).
    destruct (winnow_results_total s0 _ (inv_data s0 Hi0)) as (data & e & Hp & Hw & Hs).
    exists (winnow_outcome s0 data e). split; [exact Hw|].
    unfold winnow_outcome.
    destruct (Nat.ltb e 1 && negb (String.eqb (get_search_text s0) "")); cbn; [lia|].
    assert (Hb : (Z.of_nat (length (rendered s0 data)) <= z)%Z).
    { unfold rendered.
      pose proof (results_option_loop_bound false data z 0 s0 Hz). lia. }
    destruct (pick_highlight s0 (rendered s0 data)); [rewrite length_alter|]; exact Hb.
Qed.

Lemma shown_results_stay_within_limit_witness :
  exists s',
    winnow_results
      (set_search_field_val ""
         (Examples.after (Examples.countries false)
            (mkOptions None None None None None None None (Some 2%Z)
                       None None None None None None)
            [MouseDown None])) = Some s'
    /\ (Z.of_nat (length (search_results s')) <= 2)%Z.
Proof.
  refine (proj2 (shown_results_stay_within_limit
                   (Examples.after (Examples.countries false)
                      (mkOptions None None None None None None None (Some 2%Z)
                                 None None None None None None)
                      [MouseDown None]) 2%Z eq_refl ltac:(lia)) _ "").
  exists (Examples.countries false),
    (mkOptions None None None None None None None (Some 2%Z)
               None None None None None None),
    [MouseDown None].
  vm_compute. reflexivity.
Defined.

(** ** Moving the highlight with the arrow keys *)

Lemma find_index_least p l :
  forall k, find_index p l = Some k ->
            forall j e, j < k -> l !! j = Some e -> p e = false.
Proof.
  induction l as [|x l IH]; intros k Hk j e Hj He; [discriminate|].
  cbn in Hk. destruct (p x) eqn:Ex; [inversion Hk; lia|].
  destruct (find_index p l) as [i|] eqn:Ei; [|discriminate].
  cbn in Hk. inversion Hk; subst k.
  destruct j as [|j]; [inversion He; congruence|].
  apply (IH i eq_refl j e); [lia | exact He].
Qed.

Lemma find_index_none p l :
  find_index p l = None -> forall j e, l !! j = Some e -> p e = false.
Proof.
  induction l as [|x l IH]; intros H j e He; [discriminate|].
  cbn in H. destruct (p x) eqn:Ex; [discriminate|].
  destruct (find_index p l) as [i|] eqn:Ei; [discriminate|].
  destruct j as [|j]; [inversion He; congruence|]. exact (IH eq_refl j e He).
Qed.

Lemma find_last_index_greatest p l :
  forall k, find_last_index p l = Some k ->
            forall j e, k < j -> l !! j = Some e -> p e = false.
Proof.
  induction l as [|x l IH]; intros k Hk j e Hj He; [discriminate|].
  cbn in Hk. destruct j as [|j]; [lia|]. cbn in He.
  destruct (find_last_index p l) as [i|] eqn:Ei.
  - inversion Hk; subst k. apply (IH i eq_refl j e); [lia | exact He].
  - clear IH Hk Hj. revert j e He.
    induction l as [|y l IH]; intros j e He; [discriminate|].
    cbn in Ei. destruct (find_last_index p l) as [i|]; [discriminate|].
    destruct (p y) eqn:Ey; [discriminate|].
    destruct j as [|j]; [inversion He; congruence|]. exact (IH eq_refl j e He).
Qed.

Lemma find_last_index_none p l :
  find_last_index p l = None -> forall j e, l !! j = Some e -> p e = false.
Proof.
  induction l as [|x l IH]; intros H j e He; [discriminate|].
  cbn in H. destruct (find_last_index p l) as [i|]; [discriminate|].
  destruct (p x) eqn:Ex; [discriminate|].
  destruct j as [|j]; [inversion He; congruence|]. exact (IH eq_refl j e He).
Qed.

Lemma hasClass_removeClass_self k e : hasClass k (removeClass k e) = false.
Proof.
  unfold hasClass, removeClass. cbn.
  induction (li_classes e) as [|x l IH]; [reflexivity|]. cbn.
  destruct (css_class_eqb k x) eqn:E; cbn; [exact IH|]. now rewrite E.
Qed.

(** X10.  With the results open and an entry highlighted, the down
    arrow moves the highlight to the nearest entry below that can be
    picked and leaves it where it is when there is none: it never wraps
    around.  The up arrow moves it to the nearest such entry above; from
    the topmost one it drops the highlight and, when the host control has
    a selected option, closes the results.  The entry the highlight moves
    to carries the highlighted class and the entry it leaves has lost
    it. *)
Theorem arrow_keys_step_to_the_nearest_active_entry (s : Chosen.t) (k : nat) :
  results_showing s = true ->
  result_highlight s = Some k ->
  match next_active k (search_results s) with
  | Some p =>
      keydown_arrow s = Some (result_do_highlight (Some p) s)
      /\ k < p
      /\ (exists e, search_results s !! p = Some e
                    /\ hasClass cls_active_result e = true)
      /\ (forall j e, k < j < p -> search_results s !! j = Some e ->
                      hasClass cls_active_result e = false)
  | None =>
      keydown_arrow s = Some s
      /\ (forall j e, k < j -> search_results s !! j = Some e ->
                      hasClass cls_active_result e = false)
  end
  /\ match prev_active k (search_results s) with
     | Some p =>
         keyup_arrow s = Some (result_do_highlight (Some p) s)
         /\ p < k
         /\ (exists e, search_results s !! p = Some e
                       /\ hasClass cls_active_result e = true)
         /\ (forall j e, p < j < k -> search_results s !! j = Some e ->
                         hasClass cls_active_result e = false)
     | None =>
         (exists s', keyup_arrow s = Some s'
                     /\ result_highlight s' = None
                     /\ results_showing s' = negb (Nat.ltb 0 (choices_count s).1))
         /\ (forall j e, j < k -> search_results s !! j = Some e ->
                         hasClass cls_active_result e = false)
     end
  /\ forall p e,
       search_results s !! p = Some e ->
       let s' := result_do_highlight (Some p) s in
       result_highlight s' = Some p
       /\ (exists e', search_results s' !! p = Some e'
                      /\ hasClass cls_highlighted e' = true)
       /\ (p <> k -> forall e', search_results s' !! k = Some e' ->
                                hasClass cls_highlighted e' = false).
Proof.
  intros Hshow Hh. split; [|split].
  - unfold keydown_arrow. rewrite Hh, Hshow. unfold next_active.
    destruct (find_index (hasClass cls_active_result) (drop (S k) (search_results s)))
      as [i|] eqn:Ei; cbn [fmap option_fmap option_map].
    + split; [reflexivity|]. split; [lia|]. split.
      * destruct (find_index_Some _ _ _ Ei) as (e & He & Ha).
        rewrite lookup_drop in He. eauto.
      * intros j e Hj He.
        apply (find_index_least _ _ i Ei (j - S k) e); [lia|].
        rewrite lookup_drop. replace (S k + (j - S k)) with j by lia. exact He.
    + split; [reflexivity|]. intros j e Hj He.
      apply (find_index_none _ _ Ei (j - S k) e).
      rewrite lookup_drop. replace (S k + (j - S k)) with j by lia. exact He.
  - unfold keyup_arrow. rewrite Hh, Hshow. cbn [orb]. unfold prev_active.
    destruct (find_last_index (hasClass cls_active_result) (take k (search_results s)))
      as [p|] eqn:Ep.
    + destruct (find_last_index_Some _ _ _ Ep) as (e & He & Ha).
      apply lookup_take_Some in He as [He Hlt].
      split; [reflexivity|]. split; [exact Hlt|]. split; [eauto|].
      intros j x Hj Hx.
      apply (find_last_index_greatest _ _ p Ep j x); [lia|].
      rewrite lookup_take_lt by lia. exact Hx.
    + split.
      * pose proof (choices_count_fields s) as F. cbn in F.
        destruct F as (_ & _ & _ & _ & Fs & _).
        destruct (choices_count s) as [n s0]. cbn [fst snd] in *.
        eexists. split; [reflexivity|].
        destruct (Nat.ltb 0 n); cbn [negb].
        -- pose proof (result_clear_highlight_fields (results_hide s0)) as G.
           cbn zeta in G. destruct G as (_ & _ & _ & _ & Gs & _ & _ & _ & _ & _ & _ & Gh).
           split; [exact Gh|]. rewrite Gs. reflexivity.
        -- pose proof (result_clear_highlight_fields s0) as G.
           cbn zeta in G. destruct G as (_ & _ & _ & _ & Gs & _ & _ & _ & _ & _ & _ & Gh).
           split; [exact Gh|]. rewrite Gs. congruence.
      * intros j x Hj Hx.
        apply (find_last_index_none _ _ Ep j x).
        rewrite lookup_take_lt by lia. exact Hx.
  - intros p e He. cbn zeta. unfold result_do_highlight, result_clear_highlight.
    rewrite Hh. cbn.
    split; [reflexivity|]. split.
    + destruct (decide (p = k)) as [->|Hne].
      * eexists. rewrite list_lookup_alter_eq, list_lookup_alter_eq, He. cbn.
        split; [reflexivity|]. rewrite hasClass_addClass, css_class_eqb_refl.
        apply orb_true_r.
      * eexists. rewrite list_lookup_alter_eq, list_lookup_alter_ne, He by congruence.
        cbn. split; [reflexivity|]. rewrite hasClass_addClass, css_class_eqb_refl.
        apply orb_true_r.
    + intros Hne e' He'.
      rewrite list_lookup_alter_ne in He' by congruence.
      rewrite list_lookup_alter_eq in He'.
      destruct (search_results s !! k) as [x|]; [|discriminate].
      cbn in He'. inversion He'. apply hasClass_removeClass_self.
Qed.

Lemma arrow_keys_step_to_the_nearest_active_entry_witness :
  keydown_arrow
    (Examples.after (Examples.countries false) Examples.no_options [MouseDown None])
  = Some (result_do_highlight (Some 2)
            (Examples.after (Examples.countries false) Examples.no_options
                            [MouseDown None])).
Proof.
  exact (proj1 (proj1 (arrow_keys_step_to_the_nearest_active_entry
                  (Examples.after (Examples.countries false) Examples.no_options
                                  [MouseDown None]) 0 eq_refl eq_refl))).
Defined.

(** ** The widget after construction *)

Lemma show_search_field_default_keeps s :
  let s' := show_search_field_default s in
  config s' = config s /\ is_multiple s' = is_multiple s
  /\ form_field s' = form_field s /\ results_data s' = results_data s
  /\ search_results s' = search_results s /\ search_choices s' = search_choices s
  /\ selected_item_html s' = selected_item_html s
  /\ current_selectedIndex s' = current_selectedIndex s
  /\ result_highlight s' = result_highlight s
  /\ results_showing s' = results_showing s
  /\ active_field s' = active_field s
  /\ default_text s' = default_text s
  /\ triggered s' = triggered s.
Proof.
  cbn zeta. unfold show_search_field_default, choices_count.
  destruct (is_multiple s) eqn:Em; [|cbn; rewrite ?Em; repeat split].
  destruct (selected_option_count s) as [n|]; cbn;
    match goal with |- context [if ?b then _ else _] => destruct b end;
    cbn; rewrite ?Em; repeat split.
Qed.

Lemma choice_label_ext s s' c :
  config s' = config s -> choice_label s' c = choice_label s c.
Proof. intros H. unfold choice_label. now rewrite H. Qed.

Lemma choice_of_ext s s' c :
  config s' = config s -> Widget.choice_of s' c = Widget.choice_of s c.
Proof. intros H. unfold Widget.choice_of. now rewrite (choice_label_ext s s' c H). Qed.

Lemma results_option_loop_choices l :
  forall e s,
    max_shown_results (config s) = Infinity ->
    let s' := (results_option_loop true l e s).2 in
    results_data s' = results_data s
    /\ config s' = config s
    /\ form_field s' = form_field s
    /\ default_text s' = default_text s
    /\ (is_multiple s = true ->
        search_choices s'
        = (search_choices s ++ map (Widget.choice_of s) (List.filter selected l))%list
        /\ selected_item_html s' = selected_item_html s)
    /\ (is_multiple s = false ->
        search_choices s' = search_choices s
        /\ selected_item_html s'
           = match last (List.filter selected l) with
             | Some c => choice_label s c
             | None => selected_item_html s
             end).
Proof.
  induction l as [|c l IH]; intros e s Hinf; cbn zeta.
  { cbn. rewrite app_nil_r. auto 10. }
  cbn [results_option_loop List.filter]. rewrite Hinf. cbn [num_le_count].
  set (d := if group c then result_add_group s c else result_add_option s c).
  set (e' := match d with Some _ => S e | None => e end).
  destruct (selected c) eqn:Esel; destruct (is_multiple s) eqn:Em; cbn [andb negb].
  - specialize (IH e' (choice_build c s) Hinf). cbn zeta in IH.
    destruct (results_option_loop true l e' (choice_build c s)) as [lis s2].
    cbn [snd] in *. destruct IH as (D2 & C2 & F2 & T2 & Hm & _).
    split; [exact D2|]. split; [exact C2|]. split; [exact F2|]. split; [exact T2|].
    split; [|discriminate]. intros _. destruct (Hm Em) as [Hc Hh].
    split; [|exact Hh]. rewrite Hc. unfold choice_build at 1. cbn [search_choices set_search_choices].
    rewrite <- app_assoc. reflexivity.
  - specialize (IH e' (single_set_selected_text (Some (choice_label s c)) s) Hinf).
    cbn zeta in IH.
    destruct (results_option_loop true l e'
                (single_set_selected_text (Some (choice_label s c)) s)) as [lis s2].
    cbn [snd] in *. destruct IH as (D2 & C2 & F2 & T2 & _ & Hs).
    split; [exact D2|]. split; [exact C2|]. split; [exact F2|]. split; [exact T2|].
    split; [discriminate|]. intros _. destruct (Hs Em) as [Hc Hh].
    split; [exact Hc|]. rewrite Hh.
    destruct (List.filter selected l) as [|x r] eqn:El; [reflexivity|].
    change (last (c :: x :: r)) with (last (x :: r)).
    destruct (last (x :: r)) eqn:El2; [reflexivity|].
    apply last_None in El2. discriminate.
  - specialize (IH e' s Hinf). cbn zeta in IH.
    destruct (results_option_loop true l e' s) as [lis s2]. cbn [snd] in *.
    rewrite Em in IH. exact IH.
  - specialize (IH e' s Hinf). cbn zeta in IH.
    destruct (results_option_loop true l e' s) as [lis s2]. cbn [snd] in *.
    rewrite Em in IH. exact IH.
Qed.

(** X9.  A widget constructed without a limit on the shown
    results holds the entries parsed from the host control; on a
    multiple select it shows one choice for every parsed entry that is
    selected, in the order of the entries, with a close link unless the
    entry is disabled; on a single select it shows no choice, and its
    selected text is the label of the last selected entry, or the
    placeholder when no entry is selected. *)
Theorem constructed_widget_shows_the_selection (f : Dom.Select) (o : Options) :
  opt_max_shown_results o = None \/ opt_max_shown_results o = Some 0%Z ->
  exists s,
    create f o = Some s
    /\ select_to_array f = Some (results_data s)
    /\ form_field s = f
    /\ (Dom.multiple f = true ->
        search_choices s
        = map (Widget.choice_of s) (List.filter selected (results_data s)))
    /\ (Dom.multiple f = false ->
        search_choices s = []
        /\ selected_item_html s
           = match last (List.filter selected (results_data s)) with
             | Some c => choice_label s c
             | None => default_text s
             end).
Proof.
  intros Hmax. unfold create.
  destruct (set_default_text f o) as [dt nf].
  unfold results_build. cbn [form_field set_selected_option_count].
  rewrite select_to_array_flatten. cbn [mbind option_bind].
  set (data := flatten 0 0 (Dom.select_childNodes f)).
  set (s0 := if Dom.multiple f
             then set_search_choices []
                    (set_results_data data
                       (set_selected_option_count None
                          (mkChosen (set_default_values o) (Dom.multiple f) dt nf f []
                             None None false false (if Dom.multiple f then dt else "")
                             [] [] dt (Dom.selectedIndex f) [])))
             else single_set_selected_text None
                    (set_results_data data
                       (set_selected_option_count None
                          (mkChosen (set_default_values o) (Dom.multiple f) dt nf f []
                             None None false false (if Dom.multiple f then dt else "")
                             [] [] dt (Dom.selectedIndex f) [])))).
  assert (H0 : config s0 = set_default_values o /\ is_multiple s0 = Dom.multiple f
               /\ results_data s0 = data /\ search_choices s0 = []
               /\ selected_item_html s0 = dt /\ form_field s0 = f
               /\ default_text s0 = dt).
  { subst s0. destruct (Dom.multiple f); cbn; auto 10. }
  destruct H0 as (C0 & M0 & D0 & Ch0 & Sh0 & F0 & T0).
  change (is_multiple
            (set_results_data data
               (set_selected_option_count None
                  (mkChosen (set_default_values o) (Dom.multiple f) dt nf f []
                     None None false false (if Dom.multiple f then dt else "")
                     [] [] dt (Dom.selectedIndex f) []))))
    with (Dom.multiple f).
  fold s0. unfold results_option_build. rewrite D0.
  assert (Hinf : max_shown_results (config s0) = Infinity).
  { rewrite C0. cbn. destruct Hmax as [-> | ->]; reflexivity. }
  pose proof (results_option_loop_choices data 0 s0 Hinf) as L. cbn zeta in L.
  pose proof (results_option_loop_config true data 0 s0) as [LC LM].
  destruct (results_option_loop true data 0 s0) as [lis s1]. cbn [snd] in *.
  destruct L as (D1 & C1 & F1 & T1 & Lm & Ls). rewrite F0 in F1. rewrite T0 in T1.
  cbn [mbind option_bind].
  pose proof (show_search_field_default_keeps (update_results_content lis s1)) as K.
  cbn zeta in K. destruct K as (K1 & K2 & K3 & K4 & K5 & K6 & K7 & K8 & K9 & K10 & K11 & K12 & K13).
  eexists. split; [reflexivity|]. cbn [results_data trigger form_field search_choices
                                      selected_item_html default_text].
  rewrite K4, K3, K6, K7, K12. cbn [update_results_content set_search_results results_data
                                    form_field search_choices selected_item_html default_text].
  split; [rewrite D1, D0; reflexivity|]. split; [exact F1|]. split.
  - intros Em. rewrite M0 in Lm. destruct (Lm Em) as [Hc _].
    rewrite Hc, Ch0, D1, D0. cbn [app]. apply map_ext. intros c.
    symmetry. apply choice_of_ext. cbn. rewrite K1. cbn. congruence.
  - intros Em. rewrite M0 in Ls. destruct (Ls Em) as [Hc Hh].
    rewrite Hc, Ch0, Hh, D1, D0, Sh0, T1. split; [reflexivity|].
    destruct (last (List.filter selected data)); [|reflexivity].
    symmetry. apply choice_label_ext. cbn. rewrite K1. cbn. congruence.
Qed.

Lemma constructed_widget_shows_the_selection_witness :
  exists s,
    create (Examples.countries true) Examples.no_options = Some s
    /\ length (search_choices s) = 1.
Proof.
  destruct (constructed_widget_shows_the_selection (Examples.countries true)
              Examples.no_options (or_introl eq_refl))
    as (s & H1 & H2 & _ & H3 & _).
  exists s. split; [exact H1|]. rewrite (H3 eq_refl).
  rewrite length_map.
  destruct (select_to_array (Examples.countries true)) as [d|] eqn:E; [|discriminate].
  injection H2 as <-. vm_compute in E. injection E as <-. reflexivity.
Defined.

(** ** The parsed entries and the host control *)

Import Coherence.

Lemma written_name m i b j o :
  Dom.nodeName (written m i b j o) = Dom.nodeName o.
Proof.
  unfold written. destruct (Nat.eqb j i); [reflexivity|].
  destruct (b && negb m); reflexivity.
Qed.

Lemma written_nonempty m i b j o :
  nonempty_text (written m i b j o) = nonempty_text o.
Proof.
  unfold written, nonempty_text. destruct (Nat.eqb j i); [reflexivity|].
  destruct (b && negb m); reflexivity.
Qed.

Lemma option_record_written m i b ai j o gi gl d :
  option_record ai j (written m i b j o) gi gl d
  = rewritten m i b (option_record ai j o gi gl d).
Proof.
  unfold option_record. rewrite written_nonempty.
  unfold rewritten, written. destruct (nonempty_text o); cbn; [|reflexivity].
  destruct (Nat.eqb j i); [reflexivity|].
  destruct (b && negb m); [reflexivity|]. now destruct o.
Qed.

Lemma written_disabled m i b j o :
  Dom.disabled (written m i b j o) = Dom.disabled o.
Proof.
  unfold written. destruct (Nat.eqb j i); [reflexivity|].
  destruct (b && negb m); reflexivity.
Qed.

Lemma child_records_written m i b gi gl gdis opts :
  forall ai oi,
    child_records gi gl gdis ai oi (map_indexed (written m i b) oi opts)
    = map (rewritten m i b) (child_records gi gl gdis ai oi opts).
Proof.
  induction opts as [|o opts IH]; intros ai oi; [reflexivity|].
  cbn [map_indexed child_records map]. rewrite IH, written_disabled.
  now rewrite option_record_written.
Qed.

Lemma filter_nonempty_written m i b opts :
  forall oi,
    length (List.filter nonempty_text (map_indexed (written m i b) oi opts))
    = length (List.filter nonempty_text opts).
Proof.
  induction opts as [|o opts IH]; intros oi; [reflexivity|].
  cbn [map_indexed List.filter]. rewrite written_nonempty.
  destruct (nonempty_text o); cbn [length]; now rewrite IH.
Qed.

(** A fresh parse after a write to the host control gives the entries of
    the parse before it, with the selected flags rewritten. *)
Lemma flatten_written m i b nodes :
  forall ai oi,
    flatten ai oi (Dom.map_options_from (written m i b) oi nodes)
    = map (rewritten m i b) (flatten ai oi nodes).
Proof.
  induction nodes as [|n nodes IH]; intros ai oi; [reflexivity|].
  cbn [Dom.map_options_from flatten]. rewrite map_app.
  destruct (Dom.is_element "OPTGROUP" n) eqn:Eg.
  - assert (Hn : Dom.options_of_node n
                 = List.filter (Dom.is_element "OPTION") (Dom.childNodes n))
      by (unfold Dom.options_of_node; now rewrite Eg).
    destruct (map_option_children_spec (written m i b) (written_name m i b)
                (Dom.childNodes n) oi) as [I1 I2].
    destruct (Dom.map_option_children (written m i b) oi (Dom.childNodes n)) as [j cs].
    cbn [fst snd] in *. cbn [flatten].
    assert (Hn' : Dom.options_of_node (Dom.set_childNodes cs n)
                  = map_indexed (written m i b) oi (Dom.options_of_node n)).
    { unfold Dom.options_of_node at 1.
      change (Dom.is_element "OPTGROUP" (Dom.set_childNodes cs n))
        with (Dom.is_element "OPTGROUP" n).
      rewrite Eg. cbn [Dom.childNodes Dom.set_childNodes]. now rewrite I2, Hn. }
    assert (Hrec : node_records ai oi (Dom.set_childNodes cs n)
                   = map (rewritten m i b) (node_records ai oi n)).
    { unfold node_records.
      change (Dom.is_element "OPTGROUP" (Dom.set_childNodes cs n))
        with (Dom.is_element "OPTGROUP" n).
      rewrite Eg, Hn', filter_nonempty_written. cbn [map].
      change (Dom.label (Dom.set_childNodes cs n)) with (Dom.label n).
      change (Dom.disabled (Dom.set_childNodes cs n)) with (Dom.disabled n).
      rewrite child_records_written. f_equal. }
    rewrite Hrec, length_map, Hn', map_indexed_length.
    rewrite <- IH. f_equal. f_equal. rewrite I1, Hn. reflexivity.
  - destruct (Dom.is_element "OPTION" n) eqn:Eo.
    + cbn [flatten].
      assert (Hrec : node_records ai oi (written m i b oi n)
                     = map (rewritten m i b) (node_records ai oi n)).
      { unfold node_records.
        rewrite !(is_element_g (written m i b) (written_name m i b)), Eg, Eo.
        cbn [map]. now rewrite written_disabled, option_record_written. }
      assert (Ho : Dom.options_of_node (written m i b oi n) = [written m i b oi n]).
      { unfold Dom.options_of_node.
        now rewrite !(is_element_g (written m i b) (written_name m i b)), Eg, Eo. }
      assert (Ho' : Dom.options_of_node n = [n])
        by (unfold Dom.options_of_node; now rewrite Eg, Eo).
      rewrite Hrec, length_map, Ho, Ho'. cbn [length].
      replace (oi + 1) with (S oi) by lia. now rewrite <- IH.
    + cbn [flatten].
      assert (Hrec : node_records ai oi n = [])
        by (unfold node_records; now rewrite Eg, Eo).
      assert (Ho' : Dom.options_of_node n = [])
        by (unfold Dom.options_of_node; now rewrite Eg, Eo).
      rewrite Hrec, Ho'. cbn [length app map].
      rewrite !Nat.add_0_r. now rewrite <- IH.
Qed.

Lemma select_to_array_written i b f f' :
  Dom.write_selected i b f = Some f' ->
  select_to_array f'
  = Some (map (rewritten (Dom.multiple f) i b) (flatten 0 0 (Dom.select_childNodes f))).
Proof.
  unfold Dom.write_selected. destruct (Dom.options f !! i); [|discriminate].
  intros [= <-]. rewrite select_to_array_flatten. cbn [Dom.select_childNodes].
  f_equal. apply (flatten_written (Dom.multiple f) i b).
Qed.

Lemma option_record_index ai oi o b gl d :
  options_index (option_record ai oi o b gl d) = Some oi.
Proof. unfold option_record. destruct (nonempty_text o); reflexivity. Qed.

Lemma flatten_index_range l ai oi j c x :
  flatten ai oi l !! j = Some c -> options_index c = Some x ->
  oi <= x < oi + length (flat_map Dom.options_of_node l).
Proof.
  intros Hj Hx. destruct (flatten_lookup l ai oi j c Hj) as [(n & _ & _ & ->)|H].
  - discriminate.
  - destruct H as (i & o & b & gl & d & Ho & ->).
    rewrite option_record_index in Hx. inversion Hx; subst x.
    pose proof (lookup_lt_Some _ _ _ Ho). lia.
Qed.

Lemma node_records_order ai oi n p1 p2 c1 c2 x1 x2 :
  p1 < p2 ->
  node_records ai oi n !! p1 = Some c1 -> node_records ai oi n !! p2 = Some c2 ->
  options_index c1 = Some x1 -> options_index c2 = Some x2 -> x1 < x2.
Proof.
  intros Hp H1 H2 E1 E2. unfold node_records in *.
  destruct (Dom.is_element "OPTGROUP" n).
  - destruct p1 as [|p1]; [cbn in H1; inversion H1; subst c1; discriminate|].
    destruct p2 as [|p2]; [lia|]. cbn in H1, H2.
    apply child_records_lookup in H1 as (o1 & _ & ->).
    apply child_records_lookup in H2 as (o2 & _ & ->).
    rewrite option_record_index in E1, E2. inversion E1. inversion E2. lia.
  - destruct (Dom.is_element "OPTION" n).
    + destruct p2 as [|p2]; [lia|]. destruct p2; discriminate.
    + discriminate.
Qed.

Lemma flatten_order l :
  forall ai oi j1 j2 c1 c2 x1 x2,
    j1 < j2 ->
    flatten ai oi l !! j1 = Some c1 -> flatten ai oi l !! j2 = Some c2 ->
    options_index c1 = Some x1 -> options_index c2 = Some x2 -> x1 < x2.
Proof.
  induction l as [|n l IH]; intros ai oi j1 j2 c1 c2 x1 x2 Hj H1 H2 E1 E2; [discriminate|].
  cbn [flatten] in H1, H2.
  apply lookup_app_Some in H1 as [H1|[L1 H1]];
    apply lookup_app_Some in H2 as [H2|[L2 H2]].
  - exact (node_records_order ai oi n j1 j2 c1 c2 x1 x2 Hj H1 H2 E1 E2).
  - assert (R1 : oi <= x1 < oi + length (flat_map Dom.options_of_node [n])).
    { apply (flatten_index_range [n] ai oi j1 c1); [|exact E1].
      cbn [flatten]. rewrite lookup_app_l by (exact (lookup_lt_Some _ _ _ H1)).
      exact H1. }
    cbn [flat_map] in R1. rewrite app_nil_r in R1.
    pose proof (flatten_index_range l _ _ _ c2 x2 H2 E2) as R2. lia.
  - pose proof (lookup_lt_Some _ _ _ H2). lia.
  - refine (IH _ _ _ _ c1 c2 x1 x2 _ H1 H2 E1 E2). lia.
Qed.

(** No two entries of a parse name the same host option. *)
Lemma flatten_index_unique l ai oi j1 j2 c1 c2 x :
  flatten ai oi l !! j1 = Some c1 -> flatten ai oi l !! j2 = Some c2 ->
  options_index c1 = Some x -> options_index c2 = Some x -> j1 = j2.
Proof.
  intros H1 H2 E1 E2.
  destruct (Nat.lt_trichotomy j1 j2) as [H|[H|H]]; [|exact H|].
  - pose proof (flatten_order l ai oi j1 j2 c1 c2 x x H H1 H2 E1 E2). lia.
  - pose proof (flatten_order l ai oi j2 j1 c2 c1 x x H H2 H1 E2 E1). lia.
Qed.

(** In a fresh parse an entry without a text, and a group, is not
    selected. *)
Lemma flatten_unselected l ai oi j c :
  flatten ai oi l !! j = Some c -> group c || empty c = true -> selected c = false.
Proof.
  intros Hj H. destruct (flatten_lookup l ai oi j c Hj) as [(n & _ & _ & ->)|H'].
  - reflexivity.
  - destruct H' as (i & o & b & gl & d & _ & ->). unfold option_record in *.
    destruct (nonempty_text o); [discriminate | reflexivity].
Qed.

Lemma skeleton_fields x y :
  skeleton x = skeleton y ->
  array_index x = array_index y /\ group x = group y /\ disabled x = disabled y
  /\ options_index x = options_index y /\ selected x = selected y
  /\ group_array_index x = group_array_index y /\ empty x = empty y
  /\ value x = value y /\ text x = text y /\ html x = html y.
Proof.
  intros H. destruct x, y. cbn in H. inversion H. subst. cbn. auto 12.
Qed.

Lemma skeleton_set_selected v x y :
  skeleton x = skeleton y -> skeleton (set_selected v x) = skeleton (set_selected v y).
Proof. intros H. destruct x, y. cbn in *. inversion H. now subst. Qed.

Lemma skeleton_unselected x :
  selected x = false -> skeleton (set_selected false x) = skeleton x.
Proof. destruct x. cbn. now intros ->. Qed.

Lemma lookup_skeleton d d' j c :
  map skeleton d = map skeleton d' -> d !! j = Some c ->
  exists c', d' !! j = Some c' /\ skeleton c = skeleton c'.
Proof.
  intros H Hc. apply (f_equal (fun l => l !! j)) in H.
  rewrite !list_lookup_fmap, Hc in H. destruct (d' !! j) as [c'|]; [|discriminate].
  exists c'. split; [reflexivity|].
  change (Some (skeleton c) = Some (skeleton c')) in H. congruence.
Qed.

(** The entries stay a parse of the host control when an option with a
    text is selected or deselected in both. *)
Lemma parsed_from_write f f' data idx c oi b :
  parsed_from f data ->
  data !! idx = Some c -> group c = false -> empty c = false ->
  options_index c = Some oi ->
  Dom.write_selected oi b f = Some f' ->
  parsed_from f'
    (alter (set_selected b) idx
       (if b && negb (Dom.multiple f)
        then map (fun a => if selected a then set_selected false a else a) data
        else data)).
Proof.
  intros (fresh & Hf & Hsk) Hc Hg He Hoi Hw.
  rewrite select_to_array_flatten in Hf. inversion Hf as [Hfresh].
  exists (map (rewritten (Dom.multiple f) oi b) fresh). split.
  { rewrite <- Hfresh. exact (select_to_array_written oi b f f' Hw). }
  apply list_eq. intros j. rewrite !list_lookup_fmap.
  destruct (lookup_skeleton _ _ idx c Hsk Hc) as (c0 & Hc0 & Ec).
  destruct (data !! j) as [x|] eqn:Hx.
  2:{ assert (Hn : fresh !! j = None).
      { apply (f_equal (fun l => l !! j)) in Hsk.
        rewrite !list_lookup_fmap, Hx in Hsk. destruct (fresh !! j); [discriminate|].
        reflexivity. }
      rewrite Hn. cbn.
      assert (Hlen : forall l : list item,
                 l !! j = None -> alter (set_selected b) idx l !! j = None).
      { intros l Hl. apply lookup_ge_None. rewrite length_alter.
        now apply lookup_ge_None. }
      rewrite Hlen; [reflexivity|].
      destruct (b && negb (Dom.multiple f)); [|exact Hx].
      now rewrite list_lookup_fmap, Hx. }
  destruct (lookup_skeleton _ _ j x Hsk Hx) as (x0 & Hx0 & Ex).
  rewrite Hx0. cbn [fmap option_fmap option_map]. f_equal.
  pose proof (skeleton_fields _ _ Ex) as (_ & Xg & _ & Xo & Xs & _ & Xe & _).
  pose proof (skeleton_fields _ _ Ec) as (_ & Cg & _ & Co & _ & _ & Ce & _).
  assert (Hy : exists y,
            (if b && negb (Dom.multiple f)
             then map (fun a => if selected a then set_selected false a else a) data
             else data) !! j = Some y
            /\ skeleton y
               = skeleton (if b && negb (Dom.multiple f) then set_selected false x0 else x0)).
  { destruct (b && negb (Dom.multiple f)).
    - rewrite list_lookup_fmap, Hx. cbn. eexists. split; [reflexivity|].
      destruct (selected x) eqn:Esel.
      + now apply skeleton_set_selected.
      + rewrite Ex. symmetry. apply skeleton_unselected. congruence.
    - eauto. }
  destruct Hy as (y & Hy & Ey).
  destruct (decide (j = idx)) as [->|Hne].
  - rewrite list_lookup_alter_eq, Hy. cbn [fmap option_fmap option_map]. f_equal.
    assert (x0 = c0) by congruence. subst x0.
    assert (x = c) by congruence. subst x.
    unfold rewritten. rewrite <- Co, Hoi, <- Cg, Hg, <- Ce, He. cbn [orb].
    rewrite Nat.eqb_refl.
    transitivity (skeleton (set_selected b
                    (if b && negb (Dom.multiple f) then set_selected false c0 else c0))).
    + now apply skeleton_set_selected.
    + destruct (b && negb (Dom.multiple f)); destruct c0; reflexivity.
  - rewrite list_lookup_alter_ne by congruence. rewrite Hy.
    cbn [fmap option_fmap option_map]. f_equal. rewrite Ey.
    unfold rewritten.
    destruct (options_index x0) as [k|] eqn:Ek.
    + destruct (group x0 || empty x0) eqn:Ege.
      * assert (Hs0 : selected x0 = false).
        { rewrite <- Hfresh in Hx0. exact (flatten_unselected _ _ _ _ _ Hx0 Ege). }
        destruct (b && negb (Dom.multiple f)); [|reflexivity].
        now apply skeleton_unselected.
      * assert (Hk : Nat.eqb k oi = false).
        { apply Nat.eqb_neq. intros ->. apply Hne.
          rewrite <- Hfresh in Hx0, Hc0.
          apply (flatten_index_unique _ _ _ _ _ _ _ oi Hx0 Hc0 Ek). congruence. }
        rewrite Hk. reflexivity.
    + assert (Hs0 : selected x0 = false).
      { rewrite <- Hfresh in Hx0.
        destruct (flatten_lookup _ _ _ _ _ Hx0) as [(n & _ & _ & ->)|H']; [reflexivity|].
        destruct H' as (i & o & bb & gl & d & _ & ->).
        rewrite option_record_index in Ek. discriminate. }
      destruct (b && negb (Dom.multiple f)); [|reflexivity].
      now apply skeleton_unselected.
Qed.

(** ** What a pick does *)

Lemma results_hide_fields s :
  let s' := results_hide s in
  config s' = config s /\ is_multiple s' = is_multiple s
  /\ form_field s' = form_field s /\ results_data s' = results_data s
  /\ search_choices s' = search_choices s
  /\ current_selectedIndex s' = current_selectedIndex s
  /\ selected_item_html s' = selected_item_html s
  /\ default_text s' = default_text s
  /\ active_field s' = active_field s
  /\ results_showing s' = false
  /\ (result_highlight s = None ->
      search_results s' = search_results s /\ result_highlight s' = None)
  /\ triggered s'
     = (triggered s ++ if results_showing s then [chosen_hiding_dropdown] else [])%list.
Proof.
  cbn zeta. unfold results_hide, result_clear_highlight.
  destruct (results_showing s); destruct (result_highlight s) eqn:E; cbn;
    rewrite ?E, ?app_nil_r; repeat split; intros; try discriminate; auto.
Qed.

Lemma result_select_effect evt s s' k :
  result_highlight s = Some k ->
  result_select evt s = Some s' ->
  config s' = config s /\ is_multiple s' = is_multiple s
  /\ result_highlight s' = None
  /\ ((is_multiple s = true
       /\ num_le_count (max_selected_options (config s))
            (choices_count (result_clear_highlight s)).1 = true
       /\ form_field s' = form_field s /\ results_data s' = results_data s
       /\ search_choices s' = search_choices s
       /\ current_selectedIndex s' = current_selectedIndex s
       /\ search_results s' = alter (removeClass cls_highlighted) k (search_results s)
       /\ results_showing s' = results_showing s
       /\ triggered s' = (triggered s ++ [chosen_maxselected])%list)
      \/ exists e idx c oi f o,
           search_results s !! k = Some e /\ li_data_index e = Some idx
           /\ (if is_multiple s then results_data s
               else unselect_all (results_data s)) !! idx = Some c
           /\ options_index c = Some oi
           /\ Dom.write_selected oi true (form_field s) = Some f
           /\ Dom.options f !! oi = Some o
           /\ form_field s' = f
           /\ results_data s' = picked_data s idx
           /\ search_choices s'
              = (if is_multiple s
                 then search_choices s ++ [Widget.choice_of s (set_selected true c)]
                 else search_choices s)%list
           /\ current_selectedIndex s' = Dom.selectedIndex f
           /\ search_results s' = picked_entries s k
           /\ results_showing s'
              = (if hides_on_select evt s then false else results_showing s)
           /\ triggered s' = (triggered s ++ select_events evt s f (Dom.value o))%list).
Proof.
  intros Hh H. unfold result_select in H. rewrite Hh in H.
  assert (E1 : result_clear_highlight s
               = set_result_highlight None
                   (set_search_results
                      (alter (removeClass cls_highlighted) k (search_results s)) s)).
  { unfold result_clear_highlight. now rewrite Hh. }
  set (s1 := result_clear_highlight s) in *.
  assert (F1 : config s1 = config s /\ is_multiple s1 = is_multiple s
               /\ form_field s1 = form_field s /\ results_data s1 = results_data s
               /\ search_choices s1 = search_choices s
               /\ current_selectedIndex s1 = current_selectedIndex s
               /\ results_showing s1 = results_showing s
               /\ triggered s1 = triggered s /\ result_highlight s1 = None
               /\ search_results s1
                  = alter (removeClass cls_highlighted) k (search_results s)).
  { rewrite E1. cbn. auto 12. }
  destruct F1 as (C1 & M1 & Ff1 & D1 & Ch1 & I1 & Sh1 & T1 & Hh1 & L1).
  clearbody s1. clear E1.
  assert (H2 : exists full s2,
            (if is_multiple s1
             then let '(n, s0) := choices_count s1 in
                  (num_le_count (max_selected_options (config s0)) n, s0)
             else (false, s1)) = (full, s2)
            /\ (full = true ->
                is_multiple s = true
                /\ num_le_count (max_selected_options (config s)) (choices_count s1).1 = true)
            /\ config s2 = config s /\ is_multiple s2 = is_multiple s
            /\ form_field s2 = form_field s /\ results_data s2 = results_data s
            /\ search_choices s2 = search_choices s
            /\ current_selectedIndex s2 = current_selectedIndex s
            /\ results_showing s2 = results_showing s
            /\ triggered s2 = triggered s /\ result_highlight s2 = None
            /\ search_results s2 = search_results s1).
  { destruct (is_multiple s1) eqn:Em.
    - unfold choices_count.
      destruct (selected_option_count s1) as [n|]; cbn;
        eexists _, _; (split; [reflexivity|]); cbn; rewrite ?C1;
        (split; [intros Hf; split; [congruence | exact Hf]|]);
        repeat split; congruence.
    - exists false, s1. split; [reflexivity|]. split; [discriminate|].
      repeat split; congruence. }
  destruct H2 as (full & s2 & E2 & Hfull & C2 & M2 & Ff2 & D2 & Ch2 & I2 & Sh2 & T2 & Hh2 & L2).
  rewrite E2 in H. clear E2.
  destruct full.
  { inversion H; subst s'. cbn. destruct (Hfull eq_refl) as [Hm Hn].
    split; [exact C2|]. split; [exact M2|]. split; [exact Hh2|]. left.
    rewrite T2, L2, L1. auto 12. }
  clear Hfull.
  set (s3 := if is_multiple s2
             then set_search_results
                    (alter (removeClass cls_active_result) k (search_results s2)) s2
             else reset_single_select_options s2) in *.
  set (s4 := set_search_results
               (alter (addClass cls_result_selected) k (search_results s3)) s3) in *.
  assert (F4 : config s4 = config s /\ is_multiple s4 = is_multiple s
               /\ form_field s4 = form_field s
               /\ results_data s4
                  = (if is_multiple s then results_data s else unselect_all (results_data s))
               /\ search_choices s4 = search_choices s
               /\ current_selectedIndex s4 = current_selectedIndex s
               /\ results_showing s4 = results_showing s
               /\ triggered s4 = triggered s /\ result_highlight s4 = None
               /\ search_results s4 = picked_entries s k
               /\ selected_option_count s4 = selected_option_count s2).
  { subst s4 s3. unfold picked_entries. rewrite M2. cbn zeta.
    destruct (is_multiple s); cbn; rewrite ?L2, ?L1, ?D2; auto 12. }
  destruct F4 as (C4 & M4 & Ff4 & D4 & Ch4 & I4 & Sh4 & T4 & Hh4 & L4 & _).
  clearbody s4. clear s3.
  destruct (search_results s4 !! k) as [e4|] eqn:He4; [|discriminate].
  cbn [mbind option_bind] in H.
  destruct (li_data_index e4) as [idx|] eqn:Hidx; [|discriminate].
  cbn [mbind option_bind] in H.
  destruct (results_data s4 !! idx) as [c|] eqn:Hc; [|discriminate].
  cbn [mbind option_bind] in H.
  destruct (options_index c) as [oi|] eqn:Hoi; [|discriminate].
  cbn [mbind option_bind] in H.
  cbn [form_field set_results_data] in H.
  destruct (Dom.write_selected oi true (form_field s4)) as [f|] eqn:Hw; [|discriminate].
  cbn [mbind option_bind] in H.
  set (s7 := set_selected_option_count None
               (set_form_field f
                  (set_results_data (alter (set_selected true) idx (results_data s4)) s4)))
    in *.
  assert (Hc7 : results_data s7 !! idx = Some (set_selected true c)).
  { subst s7. cbn. now rewrite list_lookup_alter_eq, Hc. }
  rewrite Hc7 in H. cbn [mbind option_bind] in H.
  set (s8 := if is_multiple s7 then choice_build (set_selected true c) s7
             else single_set_selected_text
                    (Some (choice_label s7 (set_selected true c))) s7) in *.
  assert (F8 : config s8 = config s /\ is_multiple s8 = is_multiple s
               /\ form_field s8 = f
               /\ results_data s8 = alter (set_selected true) idx (results_data s4)
               /\ search_choices s8
                  = (if is_multiple s
                     then search_choices s ++ [Widget.choice_of s (set_selected true c)]
                     else search_choices s)%list
               /\ current_selectedIndex s8 = current_selectedIndex s
               /\ results_showing s8 = results_showing s
               /\ triggered s8 = triggered s /\ result_highlight s8 = None
               /\ search_results s8 = search_results s4).
  { subst s8 s7. cbn [is_multiple set_selected_option_count set_form_field set_results_data].
    rewrite M4. destruct (is_multiple s); cbn; rewrite ?Ch4; repeat split; auto.
    unfold Widget.choice_of, choice_label. cbn. now rewrite C4. }
  destruct F8 as (C8 & M8 & Ff8 & D8 & Ch8 & I8 & Sh8 & T8 & Hh8 & L8).
  clearbody s8. clear s7 Hc7.
  set (s9 := if negb (is_multiple s8)
                || hide_results_on_select (config s8) && negb (metaKey evt)
                   && negb (ctrlKey evt)
             then show_search_field_default (results_hide s8) else s8) in *.
  assert (F9 : config s9 = config s /\ is_multiple s9 = is_multiple s
               /\ form_field s9 = f
               /\ results_data s9 = alter (set_selected true) idx (results_data s4)
               /\ search_choices s9 = search_choices s8
               /\ current_selectedIndex s9 = current_selectedIndex s
               /\ results_showing s9
                  = (if hides_on_select evt s then false else results_showing s)
               /\ triggered s9
                  = (triggered s ++ if hides_on_select evt s && results_showing s
                                    then [chosen_hiding_dropdown] else [])%list
               /\ result_highlight s9 = None
               /\ search_results s9 = search_results s4).
  { subst s9. unfold hides_on_select. rewrite M8, C8.
    destruct (negb (is_multiple s)
              || hide_results_on_select (config s) && negb (metaKey evt)
                 && negb (ctrlKey evt)).
    - pose proof (show_search_field_default_keeps (results_hide s8)) as K. cbn zeta in K.
      destruct K as (K1 & K2 & K3 & K4 & K5 & K6 & _ & K8 & K9 & K10 & _ & _ & K13).
      pose proof (results_hide_fields s8) as G. cbn zeta in G.
      destruct G as (G1 & G2 & G3 & G4 & G5 & G6 & _ & _ & _ & G10 & G11 & G12).
      destruct (G11 Hh8) as [G13 G14].
      rewrite K1, K2, K3, K4, K5, K6, K8, K9, K10, K13.
      rewrite G1, G2, G3, G4, G5, G6, G10, G12, G13, G14, Sh8, T8. cbn [andb].
      auto 12.
    - cbn [andb]. rewrite app_nil_r. auto 12. }
  destruct F9 as (C9 & M9 & Ff9 & D9 & Ch9 & I9 & Sh9 & T9 & Hh9 & L9).
  clearbody s9.
  rewrite Ff9 in H.
  destruct (Dom.options f !! oi) as [o|] eqn:Ho; [|discriminate].
  cbn [mbind option_bind] in H. rewrite M9, I9 in H.
  inversion H; subst s'. clear H.
  cbn [config is_multiple result_highlight set_current_selectedIndex form_field
       results_data search_choices current_selectedIndex search_results
       results_showing triggered].
  assert (He0 : exists e, search_results s !! k = Some e /\ li_data_index e = Some idx).
  { rewrite L4 in He4. unfold picked_entries in He4. cbn zeta in He4.
    destruct (search_results s !! k) as [e|] eqn:He.
    - exists e. split; [reflexivity|].
      destruct (is_multiple s);
        rewrite ?list_lookup_alter_eq, He in He4; cbn in He4; inversion He4; subst e4;
        rewrite li_data_index_addClass in Hidx; exact Hidx.
    - exfalso. destruct (is_multiple s);
        rewrite ?list_lookup_alter_eq, He in He4; discriminate. }
  destruct He0 as (e & He & Hie).
  match goal with |- context [if ?b then trigger_form_field_change _ _ else _] =>
    destruct b eqn:Eb end;
    cbn [config is_multiple result_highlight trigger_form_field_change trigger form_field
         results_data search_choices current_selectedIndex search_results
         results_showing triggered];
    (split; [exact C9|]); (split; [exact M9|]); (split; [exact Hh9|]); right;
    exists e, idx, c, oi, f, o; rewrite <- D4, <- Ff4;
    (split; [exact He|]); (split; [exact Hie|]); (split; [exact Hc|]);
    (split; [exact Hoi|]); (split; [exact Hw|]); (split; [exact Ho|]);
    (split; [exact Ff9|]);
    (split; [unfold picked_data; rewrite <- D4; exact D9|]);
    (split; [rewrite Ch9; exact Ch8|]); (split; [now rewrite ?Ff9|]);
    (split; [rewrite L9; exact L4|]); (split; [exact Sh9|]);
    unfold select_events; rewrite Eb, T9, ?app_nil_r, <- ?app_assoc; reflexivity.
Qed.

(** ** Entries, links and highlight under changes of the view *)

Lemma fixed_fields x y :
  fixed x = fixed y ->
  array_index x = array_index y /\ group x = group y /\ disabled x = disabled y
  /\ options_index x = options_index y /\ empty x = empty y.
Proof.
  intros H. repeat split.
  - exact (f_equal array_index H).
  - exact (f_equal group H).
  - exact (f_equal disabled H).
  - exact (f_equal options_index H).
  - exact (f_equal empty H).
Qed.

Lemma lookup_fixed d d' j c :
  map fixed d = map fixed d' -> d !! j = Some c ->
  exists c', d' !! j = Some c' /\ fixed c = fixed c'.
Proof.
  intros H Hc. apply (f_equal (fun l => l !! j)) in H.
  rewrite !list_lookup_fmap, Hc in H. destruct (d' !! j) as [c'|]; [|discriminate].
  exists c'. split; [reflexivity|].
  change (Some (fixed c) = Some (fixed c')) in H. congruence.
Qed.

Lemma map_fixed_skeleton d d' :
  map skeleton d = map skeleton d' -> map fixed d = map fixed d'.
Proof.
  intros H. unfold fixed.
  rewrite <- !(List.map_map skeleton (set_selected false)). now rewrite H.
Qed.

Lemma entries_on_fixed lis d d' :
  map fixed d = map fixed d' -> entries_on lis d -> entries_on lis d'.
Proof.
  intros H E k e idx Hk Hi. destruct (E k e idx Hk Hi) as (c & Hc & Hg & He & Ha).
  destruct (lookup_fixed _ _ idx c H Hc) as (c' & Hc' & Ef).
  destruct (fixed_fields _ _ Ef) as (_ & G & D & _ & Em).
  exists c'. rewrite <- G, <- D, <- Em. auto.
Qed.

Lemma links_on_fixed chs d d' :
  map fixed d = map fixed d' -> links_on chs d -> links_on chs d'.
Proof.
  intros H E n ch idx Hn Hi. destruct (E n ch idx Hn Hi) as (c & Hc & Hg & He & Ha).
  destruct (lookup_fixed _ _ idx c H Hc) as (c' & Hc' & Ef).
  destruct (fixed_fields _ _ Ef) as (_ & G & D & _ & Em).
  exists c'. rewrite <- G, <- D, <- Em. auto.
Qed.

Lemma entries_on_alter g (k : nat) (lis : list li) d :
  (forall e, li_data_index (g e) = li_data_index e
             /\ (hasClass cls_active_result (g e) = true ->
                 hasClass cls_active_result e = true)) ->
  entries_on lis d -> entries_on (alter g k lis) d.
Proof.
  intros Hg E j e idx Hj Hi.
  destruct (decide (j = k)) as [->|Hne].
  - rewrite list_lookup_alter_eq in Hj.
    destruct (lis !! k) as [e0|] eqn:He0; [|discriminate].
    cbn in Hj. inversion Hj; subst e. destruct (Hg e0) as [G1 G2]. rewrite G1 in Hi.
    destruct (E k e0 idx He0 Hi) as (c & ? & ? & ? & Ha). exists c.
    repeat split; auto.
  - rewrite list_lookup_alter_ne in Hj by congruence. exact (E j e idx Hj Hi).
Qed.

Lemma lookup_alter_active g (k j : nat) (lis : list li) e :
  (forall e, hasClass cls_active_result e = true ->
             hasClass cls_active_result (g e) = true) ->
  lis !! j = Some e -> hasClass cls_active_result e = true ->
  exists e', alter g k lis !! j = Some e' /\ hasClass cls_active_result e' = true.
Proof.
  intros Hg Hj Ha. destruct (decide (j = k)) as [->|Hne].
  - rewrite list_lookup_alter_eq, Hj. cbn. eauto.
  - rewrite list_lookup_alter_ne by congruence. eauto.
Qed.

Lemma highlight_active_alter g (k : nat) h (lis : list li) :
  (forall e, hasClass cls_active_result e = true ->
             hasClass cls_active_result (g e) = true) ->
  highlight_active h lis -> highlight_active h (alter g k lis).
Proof.
  intros Hg H j Hj. destruct (H j Hj) as (e & He & Ha).
  exact (lookup_alter_active g k j lis e Hg He Ha).
Qed.

Lemma hasClass_removeClass_le k k' e :
  hasClass k (removeClass k' e) = true -> hasClass k e = true.
Proof.
  unfold hasClass, removeClass. cbn. induction (li_classes e) as [|x l IH]; [easy|].
  cbn. destruct (css_class_eqb k' x); cbn.
  - intros H. rewrite (IH H). apply orb_true_r.
  - destruct (css_class_eqb k x); [easy|]. exact IH.
Qed.

Lemma removeClass_entry k e :
  li_data_index (removeClass k e) = li_data_index e
  /\ (hasClass cls_active_result (removeClass k e) = true ->
      hasClass cls_active_result e = true).
Proof. split; [reflexivity | apply hasClass_removeClass_le]. Qed.

Lemma addClass_entry k e :
  css_class_eqb cls_active_result k = false ->
  li_data_index (addClass k e) = li_data_index e
  /\ (hasClass cls_active_result (addClass k e) = true ->
      hasClass cls_active_result e = true).
Proof.
  intros Hk. split; [apply li_data_index_addClass|].
  rewrite hasClass_addClass, Hk, orb_false_r. auto.
Qed.

Lemma addClass_active k e :
  hasClass cls_active_result e = true ->
  hasClass cls_active_result (addClass k e) = true.
Proof. intros H. now rewrite hasClass_addClass, H. Qed.

Lemma removeClass_highlighted_active e :
  hasClass cls_active_result e = true ->
  hasClass cls_active_result (removeClass cls_highlighted e) = true.
Proof. intros H. now rewrite hasClass_removeClass_other. Qed.

(** ** Sound widgets and calm operations *)

Lemma sound_wf s :
  sound s ->
  well_formed_data (length (Dom.options (form_field s))) (results_data s).
Proof.
  intros [(fresh & Hf & Hsk) _ _ _ _ _ _].
  eapply well_formed_skeleton; [exact Hsk|]. now apply select_to_array_well_formed.
Qed.

Lemma quiet_refl s : quiet s s.
Proof. unfold quiet. auto 10. Qed.

Lemma quiet_trans s1 s2 s3 : quiet s1 s2 -> quiet s2 s3 -> quiet s1 s3.
Proof.
  intros (A1 & A2 & A3 & A4 & A5 & A6) (B1 & B2 & B3 & B4 & B5 & B6).
  unfold quiet. repeat split; congruence.
Qed.

Lemma calm_sound s s' : sound s -> calm s s' -> sound s'.
Proof.
  intros Hs [(C & M & F & D & Ch & I) Hv]. destruct (Hv Hs) as [E H].
  destruct Hs as [(fresh & Hf & Hsk) He Hl Hcl Hh Hm Hsg].
  constructor.
  - rewrite F. exists fresh. split; [exact Hf|]. congruence.
  - exact E.
  - rewrite Ch. eapply links_on_fixed; [|exact Hl]. symmetry. now apply map_fixed_skeleton.
  - rewrite Ch. exact Hcl.
  - exact H.
  - rewrite M, F. exact Hm.
  - rewrite M, Ch, I, F. exact Hsg.
Qed.

Lemma calm_refl s : calm s s.
Proof. split; [apply quiet_refl|]. intros H. split; apply H. Qed.

Lemma calm_trans s1 s2 s3 : calm s1 s2 -> calm s2 s3 -> calm s1 s3.
Proof.
  intros H12 H23. split.
  - eapply quiet_trans; [apply H12 | apply H23].
  - intros Hs. apply H23. exact (calm_sound _ _ Hs H12).
Qed.

Lemma calm_same s s' :
  config s' = config s -> is_multiple s' = is_multiple s ->
  form_field s' = form_field s -> results_data s' = results_data s ->
  search_choices s' = search_choices s ->
  current_selectedIndex s' = current_selectedIndex s ->
  search_results s' = search_results s -> result_highlight s' = result_highlight s ->
  calm s s'.
Proof.
  intros C M F D Ch I L H. split.
  - unfold quiet. rewrite D. auto 10.
  - intros Hs. rewrite L, D, H. split; apply Hs.
Qed.

Lemma calm_trigger e s : calm s (trigger e s).
Proof. now apply calm_same. Qed.

Lemma calm_choices_count s : calm s (choices_count s).2.
Proof.
  unfold choices_count. destruct (selected_option_count s); [apply calm_refl|].
  now apply calm_same.
Qed.

Lemma calm_show_search_field_default s : calm s (show_search_field_default s).
Proof.
  pose proof (show_search_field_default_keeps s) as K. cbn zeta in K.
  destruct K as (K1 & K2 & K3 & K4 & K5 & K6 & K7 & K8 & K9 & K10 & K11 & K12 & K13).
  apply calm_same; assumption.
Qed.

Lemma calm_clear_highlight s : calm s (result_clear_highlight s).
Proof.
  split.
  - unfold quiet, result_clear_highlight. destruct (result_highlight s); cbn; auto 10.
  - intros Hs. unfold result_clear_highlight.
    destruct (result_highlight s) eqn:E; cbn.
    + split; [|intros k Hk; discriminate].
      apply entries_on_alter; [apply removeClass_entry | apply Hs].
    + split; [apply Hs | intros k Hk; discriminate].
Qed.

Lemma calm_do_highlight a s :
  (forall k, a = Some k ->
     exists e, search_results s !! k = Some e /\ hasClass cls_active_result e = true) ->
  calm s (result_do_highlight a s).
Proof.
  intros Ha. destruct a as [k|]; [|apply calm_refl].
  destruct (Ha k eq_refl) as (e & He & Hact). clear Ha.
  unfold result_do_highlight. cbn zeta.
  pose proof (calm_clear_highlight s) as [Q V].
  set (s1 := result_clear_highlight s) in *.
  assert (H1 : exists e1, search_results s1 !! k = Some e1
                          /\ hasClass cls_active_result e1 = true).
  { subst s1. unfold result_clear_highlight. destruct (result_highlight s); cbn; [|eauto].
    apply (lookup_alter_active _ _ _ _ e); auto using removeClass_highlighted_active. }
  clearbody s1. split.
  - destruct Q as (C & M & F & D & Ch & I). unfold quiet. cbn. auto 10.
  - intros Hs. destruct (V Hs) as [E _]. cbn. split.
    + apply entries_on_alter; [|exact E]. intros x. now apply addClass_entry.
    + intros j Hj. inversion Hj; subst j. destruct H1 as (e1 & He1 & Ha1).
      apply (lookup_alter_active _ _ _ _ e1); auto using addClass_active.
Qed.

Lemma calm_results_hide s : calm s (results_hide s).
Proof.
  unfold results_hide. destruct (results_showing s).
  - eapply calm_trans; [apply calm_clear_highlight|].
    apply (calm_trans _ (trigger chosen_hiding_dropdown (result_clear_highlight s)));
      [apply calm_trigger|]. now apply calm_same.
  - now apply calm_same.
Qed.

(** ** The rendered list *)

Lemma results_option_loop_active first l :
  forall e s x idx,
    In x (results_option_loop first l e s).1 ->
    li_data_index x = Some idx ->
    exists c, In c l /\ array_index c = idx /\ group c = false /\ empty c = false
              /\ (hasClass cls_active_result x = true -> disabled c = false).
Proof.
  induction l as [|c l IH]; intros e s x idx Hx Hi; [destruct Hx|].
  cbn [results_option_loop] in Hx.
  assert (Hhere : forall y,
            In y (opt_list (if group c then result_add_group s c
                            else result_add_option s c)) ->
            li_data_index y = Some idx ->
            array_index c = idx /\ group c = false /\ empty c = false
            /\ (hasClass cls_active_result y = true -> disabled c = false)).
  { intros y Hy Hyi. destruct (group c) eqn:Eg.
    - unfold result_add_group in Hy.
      destruct ((search_match c || group_match c) && positive (active_options c));
        [|destruct Hy].
      destruct Hy as [<-|[]]. discriminate.
    - unfold result_add_option in Hy.
      destruct (search_match c); [|destruct Hy]. cbn [andb] in Hy.
      destruct (include_option_in_results s c) eqn:Ei; [|destruct Hy].
      destruct Hy as [<-|[]]. cbn in Hyi. inversion Hyi as [Hidx].
      split; [reflexivity|]. split; [reflexivity|]. split.
      + unfold include_option_in_results in Ei.
        destruct (empty c); [|reflexivity]. exfalso.
        destruct (is_multiple s && negb (display_selected_options (config s))
                  && selected c); [discriminate|].
        destruct (negb (display_disabled_options (config s)) && disabled c);
          discriminate.
      + unfold hasClass, option_classes. cbn. rewrite !existsb_app.
        destruct (disabled c); [|reflexivity]. cbn.
        destruct (selected c), (is_multiple s), (group_array_index c),
          (String.eqb (classes c) ""); cbn; discriminate. }
  match type of Hx with context [num_le_count ?a ?b] =>
    destruct (num_le_count a b) end.
  - cbn [fst] in Hx. exists c. split; [now left|]. apply (Hhere x Hx Hi).
  - match type of Hx with context [results_option_loop first l ?e' ?s'] =>
      pose proof (IH e' s' x idx) as IHx;
      destruct (results_option_loop first l e' s') as [lis s''] eqn:El end.
    cbn [fst] in Hx, IHx. apply in_app_or in Hx as [Hx|Hx].
    + exists c. split; [now left|]. apply (Hhere x Hx Hi).
    + destruct (IHx Hx Hi) as (c0 & Hin & H0). exists c0. split; [now right|]. exact H0.
Qed.

Lemma entries_on_loop first s e nopts data :
  well_formed_data nopts data ->
  entries_on (results_option_loop first data e s).1 data.
Proof.
  intros Hwf k x idx Hk Hi.
  assert (Hin : In x (results_option_loop first data e s).1).
  { apply list_elem_of_In. eapply list_elem_of_lookup_2. exact Hk. }
  destruct (results_option_loop_active _ _ _ _ _ _ Hin Hi) as (c & Hc & Ha & Hg & He & Hd).
  apply list_elem_of_In, list_elem_of_lookup_1 in Hc as [j Hj].
  destruct (Hwf j c Hj) as (Hai & _). cbn in Hai. exists c.
  subst idx. rewrite Hai. auto.
Qed.

(** ** Operations that leave the selection alone *)

Lemma calm_winnow_results s s' :
  sound s -> winnow_results s = Some s' -> calm s s'.
Proof.
  intros Hs H. pose proof (sound_wf s Hs) as Hwf.
  destruct (winnow_results_total s _ Hwf) as (data & e & Hp & Hr & Hsk).
  rewrite Hr in H. inversion H; subst s'. clear H.
  assert (Hwf' : well_formed_data (length (Dom.options (form_field s))) data).
  { eapply well_formed_skeleton; eauto. }
  unfold winnow_outcome.
  destruct (Nat.ltb e 1 && negb (String.eqb (get_search_text s) "")).
  - split; [unfold quiet; cbn; auto 10|]. intros _. cbn. split.
    + intros k x idx Hk Hi. destruct k; cbn in Hk; [|discriminate].
      inversion Hk; subst x. discriminate.
    + intros k Hk; discriminate.
  - split; [unfold quiet; cbn; auto 10|]. intros _. cbn.
    pose proof (entries_on_loop false s 0 _ data Hwf') as E. fold (rendered s data) in E.
    destruct (pick_highlight s (rendered s data)) as [k|] eqn:Ek.
    + split.
      * apply entries_on_alter; [|exact E]. intros x. now apply addClass_entry.
      * intros j Hj. inversion Hj; subst j.
        destruct (pick_highlight_active _ _ _ Ek) as (e0 & He0 & Ha0).
        apply (lookup_alter_active _ _ _ _ e0); auto using addClass_active.
    + split; [exact E | intros j Hj; discriminate].
Qed.

Lemma calm_show_tail s0 s1 s' :
  sound s0 -> calm s0 s1 ->
  (s ← winnow_results
         (set_search_field_val (get_search_field_value (set_results_showing true s1))
            (set_results_showing true s1));
   Some (trigger chosen_showing_dropdown s)) = Some s' ->
  calm s0 s'.
Proof.
  intros Hs H01 H.
  set (s2 := set_search_field_val (get_search_field_value (set_results_showing true s1))
               (set_results_showing true s1)) in *.
  assert (H12 : calm s1 s2) by now apply calm_same.
  destruct (winnow_results s2) as [s3|] eqn:Hw; [|discriminate].
  cbn in H. injection H as <-.
  eapply calm_trans; [exact H01|]. eapply calm_trans; [exact H12|].
  eapply calm_trans; [|apply calm_trigger]. apply calm_winnow_results; [|exact Hw].
  eapply calm_sound; [|exact H12]. eapply calm_sound; eauto.
Qed.

Lemma calm_results_show s s' : sound s -> results_show s = Some s' -> calm s s'.
Proof.
  intros Hs H. unfold results_show in H. destruct (is_multiple s).
  - pose proof (calm_choices_count s) as Hc.
    destruct (choices_count s) as [n s1]. cbn [snd] in Hc.
    destruct (num_le_count (max_selected_options (config s1)) n).
    + injection H as <-. eapply calm_trans; [exact Hc | apply calm_trigger].
    + exact (calm_show_tail s s1 s' Hs Hc H).
  - exact (calm_show_tail s s s' Hs (calm_refl s) H).
Qed.

Lemma calm_results_toggle s s' : sound s -> results_toggle s = Some s' -> calm s s'.
Proof.
  intros Hs H. unfold results_toggle in H. destruct (results_showing s).
  - injection H as <-. apply calm_results_hide.
  - now apply calm_results_show.
Qed.

Lemma calm_results_search s s' : sound s -> results_search s = Some s' -> calm s s'.
Proof.
  intros Hs H. unfold results_search in H. destruct (results_showing s).
  - now apply calm_winnow_results.
  - now apply calm_results_show.
Qed.

Lemma calm_mouseover k s : calm s (search_results_mouseover k s).
Proof.
  unfold search_results_mouseover. destruct (search_results s !! k) as [e|] eqn:He;
    [|apply calm_refl].
  destruct (hasClass cls_active_result e) eqn:Ha; [|apply calm_refl].
  apply calm_do_highlight. intros j Hj. inversion Hj; subst j. eauto.
Qed.

Lemma calm_mouseout k s : calm s (search_results_mouseout k s).
Proof.
  unfold search_results_mouseout. destruct (search_results s !! k) as [e|];
    [|apply calm_refl].
  destruct (hasClass cls_active_result e); [apply calm_clear_highlight | apply calm_refl].
Qed.

Lemma calm_keydown_arrow s s' : sound s -> keydown_arrow s = Some s' -> calm s s'.
Proof.
  intros Hs H. unfold keydown_arrow in H.
  destruct (result_highlight s) as [k|]; [|now apply calm_results_show].
  destruct (results_showing s); [|now apply calm_results_show].
  injection H as <-. apply (calm_do_highlight (next_active k (search_results s)) s).
  intros p Hp.
  destruct (next_active_Some _ _ _ Hp) as (e & He & Ha). eauto.
Qed.

Lemma calm_keyup_arrow s s' : sound s -> keyup_arrow s = Some s' -> calm s s'.
Proof.
  intros Hs H. unfold keyup_arrow in H.
  destruct (results_showing s || is_multiple s); [|now apply calm_results_show].
  destruct (result_highlight s) as [k|]; [|injection H as <-; apply calm_refl].
  destruct (prev_active k (search_results s)) as [p|] eqn:Ep.
  - injection H as <-. apply (calm_do_highlight (Some p) s).
    intros j Hj. inversion Hj; subst j.
    destruct (prev_active_Some _ _ _ Ep) as (e & He & Ha). eauto.
  - pose proof (calm_choices_count s) as Hc.
    destruct (choices_count s) as [n s1]. cbn [snd] in Hc.
    injection H as <-. eapply calm_trans; [exact Hc|].
    eapply calm_trans; [|apply calm_clear_highlight].
    destruct (Nat.ltb 0 n); [apply calm_results_hide | apply calm_refl].
Qed.

Lemma calm_activate_field s : calm s (activate_field s).
Proof. now apply calm_same. Qed.

Lemma calm_close_field s : calm s (close_field s).
Proof.
  unfold close_field.
  eapply calm_trans; [|apply calm_show_search_field_default].
  eapply calm_trans; [|apply calm_results_hide]. now apply calm_same.
Qed.

Lemma calm_container_mousedown evt s s' :
  sound s -> container_mousedown evt s = Some s' -> calm s s'.
Proof.
  intros Hs H. unfold container_mousedown in H.
  assert (Hgen : forall r : option t,
             (forall s1, r = Some s1 -> calm s s1) ->
             (s0 ← r; Some (activate_field s0)) = Some s' -> calm s s').
  { intros r Hr H0. destruct r as [s1|]; [|discriminate]. cbn in H0.
    injection H0 as <-. eapply calm_trans; [apply Hr; reflexivity | apply calm_activate_field]. }
  assert (Hshow : forall s1, results_show
                               (if is_multiple s then set_search_field_val "" s else s)
                             = Some s1 -> calm s s1).
  { intros s1 H1.
    assert (H0 : calm s (if is_multiple s then set_search_field_val "" s else s)).
    { destruct (is_multiple s); [now apply calm_same | apply calm_refl]. }
    eapply calm_trans; [exact H0|]. apply calm_results_show; [|exact H1].
    exact (calm_sound _ _ Hs H0). }
  destruct evt as [[| |]|].
  - revert H. apply Hgen. intros s1 H1. destruct (active_field s).
    + destruct (is_multiple s); [injection H1 as <-; apply calm_refl|].
      now apply calm_results_toggle.
    + now apply Hshow.
  - injection H as <-. apply calm_refl.
  - revert H. apply Hgen. intros s1 H1. destruct (active_field s).
    + injection H1 as <-; apply calm_refl.
    + now apply Hshow.
  - revert H. apply Hgen. intros s1 H1. destruct (active_field s).
    + injection H1 as <-; apply calm_refl.
    + now apply Hshow.
Qed.

(** ** Disabled entries *)

Lemma disabled_kept_quiet s s' : quiet s s' -> disabled_kept s s'.
Proof.
  intros (C & M & F & D & Ch & I). split; [exact M|].
  split; [now apply map_fixed_skeleton|].
  intros j c c' Hc Hc' Hd. destruct (lookup_skeleton _ _ j c' D Hc') as (c0 & Hc0 & E).
  assert (c0 = c) by congruence. subst c0.
  destruct (skeleton_fields _ _ E) as (_ & _ & _ & _ & Hs & _). split; congruence.
Qed.

Lemma disabled_kept_refl s : disabled_kept s s.
Proof. apply disabled_kept_quiet, quiet_refl. Qed.

Lemma disabled_kept_trans s1 s2 s3 :
  disabled_kept s1 s2 -> disabled_kept s2 s3 -> disabled_kept s1 s3.
Proof.
  intros (M1 & F1 & K1) (M2 & F2 & K2). split; [congruence|]. split; [congruence|].
  intros j c1 c3 Hc1 Hc3 Hd.
  assert (F1' : map fixed (results_data s1) = map fixed (results_data s2)) by congruence.
  destruct (lookup_fixed _ _ j c1 F1' Hc1) as (c2 & Hc2 & E).
  destruct (fixed_fields _ _ E) as (_ & _ & D & _).
  assert (Hd2 : disabled c2 = true) by congruence.
  destruct (K1 j c1 c2 Hc1 Hc2 Hd) as [A1 B1].
  destruct (K2 j c2 c3 Hc2 Hc3 Hd2) as [A2 B2]. split.
  - auto.
  - intros Hm. rewrite B2 by congruence. auto.
Qed.

Lemma map_fixed_alter b idx d :
  map fixed (alter (set_selected b) idx d) = map fixed d.
Proof.
  apply list_eq. intros j. rewrite !list_lookup_fmap.
  destruct (decide (j = idx)) as [->|Hne].
  - rewrite list_lookup_alter_eq. destruct (d !! idx); reflexivity.
  - now rewrite list_lookup_alter_ne by congruence.
Qed.

Lemma map_fixed_unselect d : map fixed (unselect_all d) = map fixed d.
Proof.
  unfold unselect_all. apply list_eq. intros j. rewrite !list_lookup_fmap.
  destruct (d !! j) as [c|]; [|reflexivity]. cbn. destruct (selected c); reflexivity.
Qed.

Lemma map_fixed_picked s idx :
  map fixed (picked_data s idx) = map fixed (results_data s).
Proof.
  unfold picked_data. rewrite map_fixed_alter.
  destruct (is_multiple s); [reflexivity | apply map_fixed_unselect].
Qed.

Lemma picked_first_lookup s idx c :
  (if is_multiple s then results_data s else unselect_all (results_data s)) !! idx
  = Some c ->
  exists c0, results_data s !! idx = Some c0
             /\ c = (if is_multiple s then c0
                     else if selected c0 then set_selected false c0 else c0).
Proof.
  destruct (is_multiple s); [eauto|].
  unfold unselect_all. rewrite list_lookup_fmap.
  destruct (results_data s !! idx) as [c0|]; [|discriminate].
  cbn. intros H. inversion H. eauto.
Qed.

(** ** A pick keeps the widget sound *)

Lemma sound_result_select evt s s' :
  sound s -> result_select evt s = Some s' -> sound s' /\ disabled_kept s s'.
Proof.
  intros Hs H. destruct (result_highlight s) as [k|] eqn:Hh.
  2:{ unfold result_select in H. rewrite Hh in H. injection H as <-.
      split; [exact Hs | apply disabled_kept_refl]. }
  destruct (result_select_effect evt s s' k Hh H) as (C & M & Hn & [Hrej|Hok]).
  - destruct Hrej as (_ & _ & F & D & Ch & I & L & _ & _).
    assert (Hc : calm s s').
    { split; [unfold quiet; rewrite D; auto 10|].
      intros _. rewrite L, D, Hn. split; [|intros j Hj; discriminate].
      apply entries_on_alter; [apply removeClass_entry | apply Hs]. }
    split; [exact (calm_sound _ _ Hs Hc) | apply disabled_kept_quiet, Hc].
  - destruct Hok as (e & idx & c & oi & f & o & He & Hie & Hc & Hoi & Hw & Ho
                     & F & D & Ch & I & L & _ & _).
    pose proof (sound_wf s Hs) as Hwf.
    destruct Hs as [Hpf Hen Hl Hcl Hhl Hm Hsg].
    destruct (Hhl k Hh) as (e0 & He0 & Hact).
    assert (e0 = e) by congruence. subst e0.
    destruct (Hen k e idx He Hie) as (c0 & Hc0 & Hg0 & Hem0 & Hd0).
    specialize (Hd0 Hact).
    destruct (picked_first_lookup s idx c Hc) as (c0' & Hc0' & Ec).
    assert (c0' = c0) by congruence. subst c0'.
    assert (Hoi0 : options_index c0 = Some oi).
    { rewrite <- Hoi, Ec. destruct (is_multiple s); [reflexivity|].
      destruct (selected c0); reflexivity. }
    assert (Hdc : disabled c = false /\ array_index c = idx /\ group c = false
                  /\ empty c = false).
    { destruct (Hwf idx c0 Hc0) as (Hai & _). cbn in Hai.
      rewrite Ec. destruct (is_multiple s); [auto|]. destruct (selected c0); cbn; auto. }
    destruct Hdc as (Hdc & Hac & Hgc & Hec).
    assert (Hpick : picked_data s idx !! idx = Some (set_selected true c)).
    { unfold picked_data. rewrite list_lookup_alter_eq, Hc. reflexivity. }
    destruct (write_selected_options _ _ _ _ Hw) as [_ Hmf].
    split.
    + constructor.
      * rewrite F, D.
        pose proof (parsed_from_write _ _ _ idx c0 oi true Hpf Hc0 Hg0 Hem0 Hoi0 Hw) as P.
        unfold picked_data. rewrite Hm.
        destruct (Dom.multiple (form_field s)); exact P.
      * rewrite L, D. apply (entries_on_fixed _ (results_data s)).
        { symmetry. apply map_fixed_picked. }
        unfold picked_entries. cbn zeta.
        apply entries_on_alter; [intros x; now apply addClass_entry|].
        destruct (is_multiple s).
        -- apply entries_on_alter; [apply removeClass_entry|].
           apply entries_on_alter; [apply removeClass_entry|]. exact Hen.
        -- apply entries_on_alter; [apply removeClass_entry|]. exact Hen.
      * rewrite Ch, D. destruct (is_multiple s).
        -- intros n ch i Hn' Hi'. apply lookup_app_Some in Hn' as [Hn'|[_ Hn']].
           ++ apply (links_on_fixed _ (results_data s)
                       _ (eq_sym (map_fixed_picked s idx)) Hl n ch i Hn' Hi').
           ++ destruct (n - length (search_choices s)); [|discriminate].
              cbn in Hn'. inversion Hn'; subst ch. cbn in Hi'.
              rewrite Hdc in Hi'. inversion Hi' as [Hi''].
              exists (set_selected true c). rewrite Hac. cbn. auto.
        -- apply (links_on_fixed _ (results_data s)
                    _ (eq_sym (map_fixed_picked s idx)) Hl).
      * rewrite Ch. destruct (is_multiple s); [|exact Hcl].
        intros n ch Hn' Hdis. apply lookup_app_Some in Hn' as [Hn'|[_ Hn']].
        -- exact (Hcl n ch Hn' Hdis).
        -- destruct (n - length (search_choices s)); [|discriminate].
           cbn in Hn'. inversion Hn'; subst ch. cbn. rewrite Hdc. eauto.
      * rewrite Hn. intros j Hj; discriminate.
      * rewrite M, F, Hmf. exact Hm.
      * rewrite M. intros Hsm. rewrite Ch, Hsm, I, F. split; [|reflexivity].
        apply (Hsg Hsm).
    + split; [exact M|]. split; [rewrite D; apply map_fixed_picked|].
      intros j x x' Hx Hx' Hdx. rewrite D in Hx'. unfold picked_data in Hx'.
      destruct (decide (j = idx)) as [->|Hne]; [congruence|].
      rewrite list_lookup_alter_ne in Hx' by congruence.
      destruct (picked_first_lookup s j x' Hx') as (x0 & Hx0 & Ex).
      assert (x0 = x) by congruence. subst x0.
      destruct (is_multiple s).
      * subst x'. auto.
      * subst x'. split; [|discriminate]. intros Hsx. now rewrite Hsx.
Qed.

Lemma sound_mouseup k evt s s' :
  sound s -> search_results_mouseup k evt s = Some s' ->
  sound s' /\ disabled_kept s s'.
Proof.
  intros Hs H. unfold search_results_mouseup in H.
  destruct (search_results s !! k) as [e|] eqn:He.
  2:{ injection H as <-. split; [exact Hs | apply disabled_kept_refl]. }
  destruct (hasClass cls_active_result e) eqn:Ha.
  2:{ injection H as <-. split; [exact Hs | apply disabled_kept_refl]. }
  assert (Hs0 : sound (set_result_highlight (Some k) s)).
  { destruct Hs as [Hpf Hen Hl Hcl Hhl Hm Hsg]. constructor; try assumption.
    intros j Hj. cbn in Hj. inversion Hj; subst j. eauto. }
  destruct (sound_result_select evt _ s' Hs0 H) as [S K]. split; [exact S | exact K].
Qed.

(** ** Entries and host options *)

Lemma child_records_host gi glabel gdis opts :
  forall ai oi k c,
    child_records gi glabel gdis ai oi opts !! k = Some c ->
    exists o, opts !! k = Some o /\ options_index c = Some (oi + k)
      /\ empty c = negb (nonempty_text o)
      /\ (empty c = false ->
          selected c = Dom.selected o /\ value c = Dom.value o
          /\ text c = Dom.text o
          /\ (Dom.disabled o = true -> disabled c = true)).
Proof.
  intros ai oi k c H. destruct (child_records_lookup _ _ _ _ _ _ _ _ H) as (o & Ho & ->).
  exists o. split; [exact Ho|]. unfold option_record.
  destruct (nonempty_text o); cbn; repeat split; try reflexivity; try discriminate.
  intros ->. apply orb_true_r.
Qed.

Lemma flatten_host l :
  forall ai oi j c,
    flatten ai oi l !! j = Some c -> group c = false ->
    exists i o, flat_map Dom.options_of_node l !! i = Some o
      /\ options_index c = Some (oi + i)
      /\ empty c = negb (nonempty_text o)
      /\ (empty c = false ->
          selected c = Dom.selected o /\ value c = Dom.value o
          /\ text c = Dom.text o
          /\ (Dom.disabled o = true -> disabled c = true)).
Proof.
  induction l as [|n l IH]; intros ai oi j c H Hg; [discriminate|].
  cbn [flatten flat_map] in *. apply lookup_app_Some in H as [H|[Hlen H]].
  - unfold node_records in H. destruct (Dom.is_element "OPTGROUP" n) eqn:E1.
    + destruct j as [|j]; cbn [lookup list_lookup] in H.
      { inversion H; subst c. discriminate. }
      destruct (child_records_host _ _ _ _ _ _ _ _ H) as (o & Ho & Hi & Hrest).
      exists j, o. split; [apply lookup_app_l_Some, Ho|]. split; [exact Hi | exact Hrest].
    + destruct (Dom.is_element "OPTION" n) eqn:E2; [|discriminate].
      destruct j as [|j]; [|discriminate]. cbn in H. inversion H; subst c. clear H.
      exists 0, n. unfold Dom.options_of_node. rewrite E1, E2. cbn [app lookup list_lookup].
      split; [reflexivity|]. unfold option_record.
      destruct (nonempty_text n); cbn; repeat split; try (f_equal; lia);
        try discriminate; auto.
  - destruct (IH _ _ _ _ H Hg) as (i & o & Ho & Hi & Hrest).
    exists (length (Dom.options_of_node n) + i), o. split.
    + rewrite lookup_app_r by lia.
      replace (length (Dom.options_of_node n) + i - length (Dom.options_of_node n))
        with i by lia. exact Ho.
    + split; [rewrite Hi; f_equal; lia | exact Hrest].
Qed.

Lemma sound_host s j c :
  sound s -> results_data s !! j = Some c -> group c = false ->
  exists oi o, options_index c = Some oi
    /\ Dom.options (form_field s) !! oi = Some o
    /\ empty c = negb (nonempty_text o)
    /\ (empty c = false ->
        selected c = Dom.selected o /\ value c = Dom.value o
        /\ text c = Dom.text o
        /\ (Dom.disabled o = true -> disabled c = true)).
Proof.
  intros Hs Hc Hg. destruct (snd_data s Hs) as (fresh & Hf & Hsk).
  rewrite select_to_array_flatten in Hf. inversion Hf as [Hfresh].
  destruct (lookup_skeleton _ _ j c Hsk Hc) as (c0 & Hc0 & E).
  destruct (skeleton_fields _ _ E) as (_ & Xg & Xd & Xo & Xs & _ & Xe & Xv & Xt & _).
  rewrite <- Hfresh in Hc0.
  destruct (flatten_host _ _ _ _ _ Hc0 ltac:(congruence))
    as (i & o & Ho & Hi & Hem & Hrest).
  cbn [Nat.add] in Hi. exists i, o. split; [congruence|]. split; [exact Ho|].
  split; [congruence|].
  intros He. destruct (Hrest ltac:(congruence)) as (R1 & R2 & R3 & R4).
  repeat split; try congruence. intros Hdo. rewrite Xd. auto.
Qed.

(** ** What closing a choice does *)

Lemma result_deselect_effect a s ok s' :
  result_deselect a s = Some (ok, s') ->
  exists b oi o,
    results_data s !! a = Some b /\ options_index b = Some oi
    /\ Dom.options (form_field s) !! oi = Some o
    /\ ((Dom.disabled o = true /\ ok = false /\ s' = s)
        \/ (Dom.disabled o = false /\ ok = true
            /\ exists f s3 o',
                 Dom.write_selected oi false (form_field s) = Some f
                 /\ (let s2 := result_clear_highlight (written_off a f s) in
                     if results_showing s2 then winnow_results s2 else Some s2) = Some s3
                 /\ Dom.options (form_field s3) !! oi = Some o'
                 /\ s' = trigger_form_field_change (deselected_value (Dom.value o')) s3)).
Proof.
  intros H. unfold result_deselect in H.
  destruct (results_data s !! a) as [b|] eqn:Hb; [|discriminate].
  cbn [mbind option_bind] in H.
  destruct (options_index b) as [oi|] eqn:Hoi; [|discriminate].
  cbn [mbind option_bind] in H.
  destruct (Dom.options (form_field s) !! oi) as [o|] eqn:Ho; [|discriminate].
  cbn [mbind option_bind] in H.
  exists b, oi, o. repeat (split; [first [reflexivity | assumption]|]).
  destruct (Dom.disabled o) eqn:Hdo.
  { left. inversion H. auto. }
  right. split; [reflexivity|].
  cbn [form_field set_results_data] in H.
  destruct (Dom.write_selected oi false (form_field s)) as [f|] eqn:Hw; [|discriminate].
  cbn [mbind option_bind] in H.
  fold (written_off a f s) in H.
  set (s2 := result_clear_highlight (written_off a f s)) in *.
  destruct (if results_showing s2 then winnow_results s2 else Some s2) as [s3|] eqn:H3;
    [|discriminate].
  cbn [mbind option_bind] in H.
  destruct (Dom.options (form_field s3) !! oi) as [o'|] eqn:Ho'; [|discriminate].
  cbn [mbind option_bind] in H. inversion H.
  split; [reflexivity|]. exists f, s3, o'. auto.
Qed.

Lemma sound_written_off a f s b oi :
  sound s -> is_multiple s = true ->
  results_data s !! a = Some b -> group b = false -> empty b = false ->
  disabled b = false -> options_index b = Some oi ->
  Dom.write_selected oi false (form_field s) = Some f ->
  sound (written_off a f s) /\ disabled_kept s (written_off a f s).
Proof.
  intros Hs Hmul Hb Hg He Hd Hoi Hw.
  destruct Hs as [Hpf Hen Hl Hcl Hhl Hm Hsg].
  destruct (write_selected_options _ _ _ _ Hw) as [_ Hmf].
  unfold written_off. split.
  - constructor; cbn.
    + exact (parsed_from_write _ _ _ a b oi false Hpf Hb Hg He Hoi Hw).
    + apply (entries_on_fixed _ (results_data s)); [|exact Hen].
      symmetry. apply map_fixed_alter.
    + apply (links_on_fixed _ (results_data s)); [|exact Hl].
      symmetry. apply map_fixed_alter.
    + exact Hcl.
    + exact Hhl.
    + congruence.
    + congruence.
  - split; [reflexivity|]. split; [apply map_fixed_alter|]. cbn.
    intros j x x' Hx Hx' Hdx.
    destruct (decide (j = a)) as [->|Hne]; [congruence|].
    rewrite list_lookup_alter_ne in Hx' by congruence.
    assert (x' = x) by congruence. subst x'. auto.
Qed.

Lemma sound_remove_choice n s :
  sound s -> is_multiple s = true ->
  sound (set_search_choices (remove_nth n (search_choices s)) s).
Proof.
  intros [Hpf Hen Hl Hcl Hhl Hm Hsg] Hmul. constructor; cbn; try assumption.
  - intros k ch idx Hk Hi. destruct (remove_nth_lookup _ _ _ _ Hk) as [k' Hk'].
    exact (Hl k' ch idx Hk' Hi).
  - intros k ch Hk Hdis. destruct (remove_nth_lookup _ _ _ _ Hk) as [k' Hk'].
    exact (Hcl k' ch Hk' Hdis).
  - congruence.
Qed.

Lemma sound_choice_destroy n a s s' ch :
  sound s -> search_choices s !! n = Some ch -> choice_close_index ch = Some a ->
  choice_destroy n a s = Some s' ->
  sound s' /\ disabled_kept s s'
  /\ exists b oi, results_data s !! a = Some b /\ options_index b = Some oi
       /\ Dom.write_selected oi false (form_field s) = Some (form_field s')
       /\ search_choices s' = remove_nth n (search_choices s)
       /\ map skeleton (results_data s')
          = map skeleton (alter (set_selected false) a (results_data s))
       /\ config s' = config s /\ is_multiple s' = is_multiple s.
Proof.
  intros Hs Hn Ha H.
  assert (Hmul : is_multiple s = true).
  { destruct (is_multiple s) eqn:E; [reflexivity|].
    destruct Hs as [_ _ _ _ _ _ Hsg]. destruct (Hsg E) as [Hnil _].
    rewrite Hnil in Hn. discriminate. }
  destruct (snd_links s Hs n ch a Hn Ha) as (b & Hb & Hg & He & Hd).
  unfold choice_destroy in H.
  destruct (result_deselect a s) as [[ok s4]|] eqn:Hdes; [|discriminate].
  cbn [mbind option_bind] in H.
  destruct (result_deselect_effect a s ok s4 Hdes)
    as (b' & oi & o & Hb' & Hoi & Ho
        & [(Hdo & -> & ->)|(_ & -> & f & s3 & o' & Hw & H3 & Ho' & ->)]).
  { exfalso. assert (b' = b) by congruence. subst b'.
    destruct (sound_host s a b Hs Hb Hg) as (oi' & o1 & Hoi' & Ho1 & _ & Hrest).
    assert (oi' = oi) by congruence. subst oi'.
    assert (o1 = o) by congruence. subst o1.
    destruct (Hrest He) as (_ & _ & _ & Hdis). rewrite (Hdis Hdo) in Hd. discriminate. }
  assert (b' = b) by congruence. subst b'.
  destruct (sound_written_off a f s b oi Hs Hmul Hb Hg He Hd Hoi Hw) as [S1 K1].
  set (s1 := written_off a f s) in *. cbn zeta in H3.
  pose proof (calm_clear_highlight s1) as C2.
  set (s2 := result_clear_highlight s1) in *.
  assert (C3 : calm s2 s3).
  { destruct (results_showing s2).
    - apply calm_winnow_results; [|exact H3]. exact (calm_sound _ _ S1 C2).
    - injection H3 as <-. apply calm_refl. }
  set (s4 := trigger_form_field_change (deselected_value (Dom.value o')) s3) in *.
  assert (C4 : calm s3 s4) by now apply calm_same.
  set (s5 := if active_field s4 then s4 else show_search_field_default s4) in *.
  assert (C5 : calm s4 s5).
  { subst s5. destruct (active_field s4);
      [apply calm_refl | apply calm_show_search_field_default]. }
  set (s6 := if is_multiple s5
             then let '(cnt, s0) := choices_count s5 in
                  if Nat.ltb 0 cnt && Nat.ltb (String.length (get_search_field_value s0)) 1
                  then results_hide s0 else s0
             else s5) in *.
  assert (C6 : calm s5 s6).
  { subst s6. destruct (is_multiple s5); [|apply calm_refl].
    pose proof (calm_choices_count s5) as Hc.
    destruct (choices_count s5) as [cnt s0]. cbn [snd] in Hc.
    destruct (Nat.ltb 0 cnt && Nat.ltb (String.length (get_search_field_value s0)) 1);
      [|exact Hc].
    eapply calm_trans; [exact Hc | apply calm_results_hide]. }
  assert (C16 : calm s1 s6).
  { eapply calm_trans; [exact C2|]. eapply calm_trans; [exact C3|].
    eapply calm_trans; [exact C4|]. eapply calm_trans; [exact C5 | exact C6]. }
  clearbody s6. injection H as <-.
  pose proof (calm_sound _ _ S1 C16) as S6.
  assert (M6 : is_multiple s6 = true).
  { destruct C16 as [(_ & M & _) _]. rewrite M. exact Hmul. }
  split; [exact (sound_remove_choice n s6 S6 M6)|].
  split.
  { eapply disabled_kept_trans; [exact K1|].
    pose proof (disabled_kept_quiet _ _ (proj1 C16)) as K6. exact K6. }
  destruct C16 as [(Q1 & Q2 & Q3 & Q4 & Q5 & Q6) _].
  exists b, oi. cbn. rewrite Q1, Q2, Q3, Q4, Q5. auto 10.
Qed.

(** ** Construction and user actions keep the widget sound *)

Lemma results_option_loop_links data l :
  forall e s,
    (forall c, In c l -> selected c = true ->
       data !! array_index c = Some c /\ group c = false /\ empty c = false) ->
    links_on (search_choices s) data ->
    (forall n ch, search_choices s !! n = Some ch -> choice_disabled ch = false ->
                  is_Some (choice_close_index ch)) ->
    let s' := (results_option_loop true l e s).2 in
    links_on (search_choices s') data
    /\ (forall n ch, search_choices s' !! n = Some ch -> choice_disabled ch = false ->
                     is_Some (choice_close_index ch))
    /\ (is_multiple s = false -> search_choices s' = search_choices s)
    /\ current_selectedIndex s' = current_selectedIndex s
    /\ is_multiple s' = is_multiple s
    /\ form_field s' = form_field s
    /\ results_data s' = results_data s
    /\ result_highlight s' = result_highlight s
    /\ config s' = config s
    /\ results_showing s' = results_showing s
    /\ triggered s' = triggered s.
Proof.
  induction l as [|c l IH]; intros e s Hsel Hl Hcl; cbn zeta.
  { cbn. repeat split; auto. }
  cbn [results_option_loop].
  set (d := if group c then result_add_group s c else result_add_option s c).
  set (e' := match d with Some _ => S e | None => e end).
  set (s1 := if selected c && is_multiple s then choice_build c s
             else if selected c && negb (is_multiple s)
                  then single_set_selected_text (Some (choice_label s c)) s
                  else s).
  assert (H1 : links_on (search_choices s1) data
               /\ (forall n ch, search_choices s1 !! n = Some ch ->
                     choice_disabled ch = false -> is_Some (choice_close_index ch))
               /\ (is_multiple s = false -> search_choices s1 = search_choices s)
               /\ current_selectedIndex s1 = current_selectedIndex s
               /\ is_multiple s1 = is_multiple s
               /\ form_field s1 = form_field s
               /\ results_data s1 = results_data s
               /\ result_highlight s1 = result_highlight s
               /\ config s1 = config s
               /\ results_showing s1 = results_showing s
               /\ triggered s1 = triggered s).
  { subst s1. destruct (selected c) eqn:Esel; destruct (is_multiple s) eqn:Em;
      cbn [andb negb]; try (cbn; repeat split; auto; fail).
    destruct (Hsel c (or_introl eq_refl) Esel) as (Hc & Hg & He).
    unfold choice_build. cbn. split; [|split].
    - intros n ch idx Hn Hi. apply lookup_app_Some in Hn as [Hn|[_ Hn]].
      + exact (Hl n ch idx Hn Hi).
      + destruct (n - length (search_choices s)); [|discriminate].
        cbn in Hn. inversion Hn; subst ch. cbn in Hi.
        destruct (disabled c) eqn:Ed; [discriminate|]. inversion Hi; subst idx.
        exists c. auto.
    - intros n ch Hn Hdis. apply lookup_app_Some in Hn as [Hn|[_ Hn]].
      + exact (Hcl n ch Hn Hdis).
      + destruct (n - length (search_choices s)); [|discriminate].
        cbn in Hn. inversion Hn; subst ch. cbn in Hdis |- *. rewrite Hdis. eauto.
    - split; [discriminate|]. repeat split; auto. }
  destruct H1 as (L1 & C1 & S1 & I1 & M1 & F1 & D1 & R1 & G1 & W1 & T1).
  replace (max_shown_results (config s)) with (max_shown_results (config s1))
    by now rewrite G1.
  clearbody s1.
  destruct (num_le_count (max_shown_results (config s1)) e').
  { cbn [snd]. repeat split; auto. }
  assert (Hsel' : forall c0, In c0 l -> selected c0 = true ->
            data !! array_index c0 = Some c0 /\ group c0 = false /\ empty c0 = false).
  { intros c0 Hin. apply Hsel. now right. }
  specialize (IH e' s1 Hsel' L1 C1). cbn zeta in IH.
  destruct (results_option_loop true l e' s1) as [lis s2]. cbn [snd] in *.
  destruct IH as (L2 & C2 & S2 & I2 & M2 & F2 & D2 & R2 & G2 & W2 & T2).
  split; [exact L2|]. split; [exact C2|].
  split. { intros Hm. rewrite S2 by congruence. auto. }
  repeat split; congruence.
Qed.

Lemma sound_results_build s s' :
  is_multiple s = Dom.multiple (form_field s) ->
  result_highlight s = None ->
  (is_multiple s = false ->
   search_choices s = []
   /\ current_selectedIndex s = Dom.selectedIndex (form_field s)) ->
  results_build s = Some s' ->
  sound s' /\ form_field s' = form_field s /\ config s' = config s
  /\ is_multiple s' = is_multiple s /\ results_showing s' = results_showing s
  /\ triggered s' = triggered s.
Proof.
  intros Hm Hh Hsg H. unfold results_build in H.
  cbn [form_field set_selected_option_count] in H.
  rewrite select_to_array_flatten in H. cbn [mbind option_bind] in H.
  set (data := flatten 0 0 (Dom.select_childNodes (form_field s))) in *.
  assert (Hpd : select_to_array (form_field s) = Some data)
    by apply select_to_array_flatten.
  pose proof (select_to_array_well_formed _ _ Hpd) as Hwf.
  set (s2 := if is_multiple (set_results_data data (set_selected_option_count None s))
             then set_search_choices []
                    (set_results_data data (set_selected_option_count None s))
             else single_set_selected_text None
                    (set_results_data data (set_selected_option_count None s))) in *.
  assert (H2 : is_multiple s2 = is_multiple s /\ form_field s2 = form_field s
               /\ results_data s2 = data /\ result_highlight s2 = None
               /\ search_choices s2 = []
               /\ current_selectedIndex s2 = current_selectedIndex s
               /\ config s2 = config s /\ results_showing s2 = results_showing s
               /\ triggered s2 = triggered s).
  { subst s2. cbn [is_multiple set_results_data set_selected_option_count].
    destruct (is_multiple s) eqn:Em; cbn; repeat split; auto.
    apply (Hsg eq_refl). }
  destruct H2 as (M2 & F2 & D2 & R2 & Ch2 & I2 & G2 & Sh2 & T2). clearbody s2.
  unfold results_option_build in H. rewrite D2 in H.
  assert (Hsel : forall c, In c data -> selected c = true ->
            data !! array_index c = Some c /\ group c = false /\ empty c = false).
  { intros c Hin Hs. apply list_elem_of_In, list_elem_of_lookup_1 in Hin as [j Hj].
    destruct (Hwf j c Hj) as (Hai & _). cbn in Hai. rewrite Hai. split; [exact Hj|].
    destruct (group c || empty c) eqn:Ege.
    - rewrite (flatten_unselected _ _ _ _ _ Hj Ege) in Hs. discriminate.
    - apply orb_false_elim in Ege. exact Ege. }
  assert (L0 : links_on (search_choices s2) data).
  { rewrite Ch2. intros n ch idx Hn. discriminate. }
  assert (C0 : forall n ch, search_choices s2 !! n = Some ch ->
                 choice_disabled ch = false -> is_Some (choice_close_index ch)).
  { rewrite Ch2. intros n ch Hn. discriminate. }
  pose proof (results_option_loop_links data data 0 s2 Hsel L0 C0) as HL. cbn zeta in HL.
  pose proof (entries_on_loop true s2 0 _ data Hwf) as HE.
  destruct (results_option_loop true data 0 s2) as [lis s3]. cbn [fst snd] in *.
  destruct HL as (L3 & C3 & S3 & I3 & M3 & F3 & D3 & R3 & G3 & Sh3 & T3).
  injection H as <-.
  pose proof (show_search_field_default_keeps (update_results_content lis s3)) as K.
  cbn zeta in K.
  destruct K as (K1 & K2 & K3 & _ & _ & _ & _ & _ & _ & K10 & _ & _ & K13).
  split; [|rewrite K3, K1, K2, K10, K13; cbn; repeat split; congruence].
  apply (calm_sound (update_results_content lis s3));
    [|apply calm_show_search_field_default].
  constructor; cbn.
  - rewrite F3, F2, D3, D2. exists data. auto.
  - rewrite D3, D2. exact HE.
  - rewrite D3, D2. exact L3.
  - exact C3.
  - rewrite R3, R2. intros k Hk; discriminate.
  - congruence.
  - rewrite M3, M2. intros Em. rewrite S3, Ch2, I3, I2, F3, F2 by congruence.
    split; [reflexivity|]. apply (Hsg Em).
Qed.

Lemma sound_create f o s : create f o = Some s -> sound s.
Proof.
  intros H. unfold create in H. destruct (set_default_text f o) as [dt nf].
  match type of H with context [results_build ?s0] =>
    destruct (results_build s0) as [s1|] eqn:Hb; [|discriminate];
    assert (S1 : sound s1)
  end.
  { refine (proj1 (sound_results_build _ _ _ _ _ Hb)); [reflexivity | reflexivity |].
    cbn. auto. }
  cbn [mbind option_bind] in H. injection H as <-.
  exact (calm_sound _ _ S1 (calm_trigger chosen_ready s1)).
Qed.

Lemma sound_step a s s' :
  sound s -> step a s = Some s' -> sound s' /\ disabled_kept s s'.
Proof.
  intros Hs H.
  assert (Hcalm : calm s s' -> sound s' /\ disabled_kept s s').
  { intros Hc. split; [exact (calm_sound _ _ Hs Hc)|].
    apply disabled_kept_quiet, Hc. }
  destruct a as [k|k|k evt|evt| | | |v|evt| |n]; cbn [step] in H.
  - injection H as <-. apply Hcalm, calm_mouseover.
  - injection H as <-. apply Hcalm, calm_mouseout.
  - exact (sound_mouseup k evt s s' Hs H).
  - destruct (results_showing s).
    + exact (sound_result_select evt s s' Hs H).
    + injection H as <-. apply Hcalm, calm_refl.
  - destruct (results_showing s); injection H as <-;
      apply Hcalm; [apply calm_results_hide | apply calm_refl].
  - apply Hcalm. exact (calm_keydown_arrow s s' Hs H).
  - apply Hcalm. exact (calm_keyup_arrow s s' Hs H).
  - apply Hcalm.
    assert (H0 : calm s (set_search_field_val v s)) by now apply calm_same.
    eapply calm_trans; [exact H0|].
    apply calm_results_search; [|exact H]. exact (calm_sound _ _ Hs H0).
  - apply Hcalm. exact (calm_container_mousedown evt s s' Hs H).
  - injection H as <-. apply Hcalm, calm_close_field.
  - destruct (search_choices s !! n) as [ch|] eqn:Hn; cbn [mbind option_bind] in H.
    + destruct (choice_close_index ch) as [a|] eqn:Ha.
      * destruct (sound_choice_destroy n a s s' ch Hs Hn Ha H) as (S & K & _).
        split; [exact S | exact K].
      * injection H as <-. apply Hcalm, calm_refl.
    + injection H as <-. apply Hcalm, calm_refl.
Qed.

Lemma sound_run l :
  forall s s', sound s -> run l s = Some s' -> sound s' /\ disabled_kept s s'.
Proof.
  induction l as [|a l IH]; intros s s' Hs H; cbn [run] in H.
  - injection H as <-. split; [exact Hs | apply disabled_kept_refl].
  - destruct (step a s) as [s1|] eqn:H1; [|discriminate]. cbn [mbind option_bind] in H.
    destruct (sound_step a s s1 Hs H1) as [S1 K1].
    destruct (IH s1 s' S1 H) as [S2 K2].
    split; [exact S2 | exact (disabled_kept_trans _ _ _ K1 K2)].
Qed.

Lemma reachable_sound s : reachable s -> sound s.
Proof.
  intros (f & o & l & H).
  destruct (create f o) as [s0|] eqn:Hc; [|discriminate]. cbn [mbind option_bind] in H.
  exact (proj1 (sound_run l s0 s (sound_create f o s0 Hc) H)).
Qed.

(** ** The widget and its host control *)

(** X1.  Whatever the user has done to a constructed widget, its
    entries are the ones a fresh parse of the host control would give,
    up to the fields the filter writes: every option entry names an
    option of the host control and, when it has a text, agrees with it
    on whether it is selected, on its value and on its text.  A single
    select remembers the selected index of its host control. *)
Theorem entries_mirror_host_control (s : Chosen.t) :
  reachable s ->
  (exists fresh,
      select_to_array (form_field s) = Some fresh
      /\ map skeleton (results_data s) = map skeleton fresh)
  /\ (forall j c,
        results_data s !! j = Some c -> group c = false ->
        exists oi o,
          options_index c = Some oi
          /\ Dom.options (form_field s) !! oi = Some o
          /\ (empty c = false ->
              selected c = Dom.selected o /\ value c = Dom.value o
              /\ text c = Dom.text o))
  /\ (is_multiple s = false ->
      current_selectedIndex s = Dom.selectedIndex (form_field s)).
Proof.
  intros Hr. pose proof (reachable_sound s Hr) as Hs.
  split; [exact (snd_data s Hs)|]. split.
  - intros j c Hc Hg.
    destruct (sound_host s j c Hs Hc Hg) as (oi & o & Hoi & Ho & _ & H).
    exists oi, o. split; [exact Hoi|]. split; [exact Ho|].
    intros He. destruct (H He) as (H1 & H2 & H3 & _). auto.
  - intros Hm. apply (snd_single s Hs Hm).
Qed.

Lemma entries_mirror_host_control_witness :
  let s := Examples.after (Examples.countries false) Examples.no_options
             [MouseDown None; MouseUp 0 Examples.plain_click; MouseDown None;
              TypeText "fi"] in
  exists fresh,
    select_to_array (form_field s) = Some fresh
    /\ map skeleton (results_data s) = map skeleton fresh.
Proof.
  cbv zeta.
  apply (entries_mirror_host_control
           (Examples.after (Examples.countries false) Examples.no_options
              [MouseDown None; MouseUp 0 Examples.plain_click; MouseDown None;
               TypeText "fi"])).
  exists (Examples.countries false), Examples.no_options,
    [MouseDown None; MouseUp 0 Examples.plain_click; MouseDown None; TypeText "fi"].
  vm_compute. reflexivity.
Defined.



(** ** Picking in a single select *)

Lemma first_selected_written l :
  forall oi i z,
    oi < length l ->
    Dom.first_selected (map_indexed (written false (i + oi) true) i l) z
    = (z + Z.of_nat oi)%Z.
Proof.
  induction l as [|x l IH]; intros oi i z Hlt; cbn in Hlt; [lia|].
  cbn [map_indexed Dom.first_selected]. unfold written at 1.
  destruct oi as [|oi].
  - replace (i + 0) with i by lia. rewrite Nat.eqb_refl. cbn. lia.
  - replace (Nat.eqb i (i + S oi)) with false by (symmetry; apply Nat.eqb_neq; lia).
    cbn [andb negb Dom.selected Dom.set_selected].
    replace (i + S oi) with (S i + oi) by lia. rewrite IH by lia. lia.
Qed.

Lemma selectedIndex_written oi f f' :
  Dom.multiple f = false -> Dom.write_selected oi true f = Some f' ->
  Dom.selectedIndex f' = Z.of_nat oi.
Proof.
  intros Hm Hw. destruct (write_selected_options _ _ _ _ Hw) as [Ho _].
  unfold Dom.selectedIndex. rewrite Ho, Hm.
  assert (H : oi < length (Dom.options f)).
  { unfold Dom.write_selected in Hw.
    destruct (Dom.options f !! oi) eqn:E; [|discriminate].
    eapply lookup_lt_Some; eauto. }
  exact (first_selected_written _ oi 0 0%Z H).
Qed.



(** ** Closing a choice *)



(** ** Updates of the host control *)




(** ** Picking in a multiple select *)



(** ** The deselect control of a single select *)

Lemma parsed_from_reset f f' data o0 :
  parsed_from f data -> Dom.multiple f = false ->
  Dom.options f !! 0 = Some o0 -> nonempty_text o0 = false ->
  Dom.write_selected 0 true f = Some f' ->
  parsed_from f' (unselect_all data).
Proof.
  intros (fresh & Hf & Hsk) Hm Ho0 Hne Hw.
  rewrite select_to_array_flatten in Hf. inversion Hf as [Hfresh].
  exists (map (rewritten (Dom.multiple f) 0 true) fresh). split.
  { rewrite <- Hfresh. exact (select_to_array_written 0 true f f' Hw). }
  unfold unselect_all. apply list_eq. intros j. rewrite !list_lookup_fmap.
  destruct (data !! j) as [x|] eqn:Hx.
  2:{ apply (f_equal (fun l => l !! j)) in Hsk.
      rewrite !list_lookup_fmap, Hx in Hsk. destruct (fresh !! j); [discriminate|].
      reflexivity. }
  destruct (lookup_skeleton _ _ j x Hsk Hx) as (x0 & Hx0 & Ex).
  rewrite Hx0. cbn [fmap option_fmap option_map]. f_equal.
  assert (E1 : skeleton (if selected x then set_selected false x else x)
               = skeleton (set_selected false x0)).
  { destruct (selected x) eqn:Esel.
    - now apply skeleton_set_selected.
    - rewrite Ex. symmetry. apply skeleton_unselected.
      destruct (skeleton_fields _ _ Ex) as (_ & _ & _ & _ & Xs & _). congruence. }
  rewrite E1. rewrite <- Hfresh in Hx0.
  assert (Hoff : selected x0 = false ->
                 skeleton (set_selected false x0) = skeleton x0).
  { apply skeleton_unselected. }
  unfold rewritten. rewrite Hm. cbn [negb andb].
  destruct (options_index x0) as [k|] eqn:Ek.
  - destruct (group x0 || empty x0) eqn:Ege.
    + apply Hoff. exact (flatten_unselected _ _ _ _ _ Hx0 Ege).
    + apply orb_false_elim in Ege as [Eg Ee].
      destruct (Nat.eqb_spec k 0) as [->|Hk]; [|reflexivity]. exfalso.
      destruct (flatten_host _ _ _ _ _ Hx0 Eg) as (i & o & Ho & Hi & Hem & _).
      cbn [Nat.add] in Hi. assert (i = 0) by congruence. subst i.
      change (flat_map Dom.options_of_node (Dom.select_childNodes f))
        with (Dom.options f) in Ho.
      assert (o = o0) by congruence. subst o. rewrite Hne in Hem. cbn in Hem. congruence.
  - apply Hoff.
    destruct (flatten_lookup _ _ _ _ _ Hx0) as [(n & _ & _ & ->)|H']; [reflexivity|].
    destruct H' as (i & o & bb & gl & d & _ & ->).
    rewrite option_record_index in Ek. discriminate.
Qed.

(** X7.  A click on the deselect control of a single select whose
    first option has no text, the kind of host control for which the
    control is offered, always goes through: it selects the first
    option of the host control, leaves no entry selected, shows the
    placeholder as the selected text, and triggers the input and change
    events without data, also when the first option was the selected one
    already; it closes the results when the field is active.  The
    entries are still the ones a fresh parse of the host control gives,
    and stay so under every sequence of user actions. *)
Theorem deselect_control_resets_single_select (s : Chosen.t) :
  reachable s ->
  is_multiple s = false ->
  Widget.allow_single_deselect (Some true) (form_field s) = true ->
  exists s',
    Widget.results_reset s = Some s'
    /\ Dom.write_selected 0 true (form_field s) = Some (form_field s')
    /\ Dom.selectedIndex (form_field s') = 0%Z
    /\ current_selectedIndex s' = 0%Z
    /\ selected_item_html s' = default_text s
    /\ (forall j c, results_data s' !! j = Some c -> selected c = false)
    /\ results_showing s' = (if active_field s then false else results_showing s)
    /\ triggered s'
       = (triggered s ++ [input_event no_data; change_event no_data]
          ++ (if active_field s && results_showing s
              then [chosen_hiding_dropdown] else []))%list
    /\ forall l s'',
         run l s' = Some s'' ->
         exists fresh,
           select_to_array (form_field s'') = Some fresh
           /\ map skeleton (results_data s'') = map skeleton fresh.
Proof.
  intros Hr Hm Hallow. pose proof (reachable_sound s Hr) as Hs.
  unfold Widget.allow_single_deselect in Hallow.
  destruct (Dom.options (form_field s) !! 0) as [o0|] eqn:Ho0; [|discriminate].
  destruct (String.eqb (Dom.text o0) "") eqn:Et; [|discriminate]. clear Hallow.
  assert (Hne : nonempty_text o0 = false) by (unfold nonempty_text; now rewrite Et).
  destruct (write_selected_total 0 true (form_field s)
              ltac:(eapply lookup_lt_Some; eauto)) as [f Hw].
  pose proof (selectedIndex_written 0 _ f
                ltac:(rewrite <- (snd_multiple s Hs); exact Hm) Hw) as Hsi.
  destruct (write_selected_options _ _ _ _ Hw) as [_ Hmf].
  unfold Widget.results_reset.
  cbn [form_field reset_single_select_options set_results_data]. rewrite Hw.
  cbn [mbind option_bind].
  set (s1 := single_set_selected_text None
               (set_form_field f (reset_single_select_options s))).
  pose proof (show_search_field_default_keeps s1) as K. cbn zeta in K.
  destruct K as (K1 & K2 & K3 & K4 & K5 & K6 & K7 & K8 & K9 & K10 & K11 & K12 & K13).
  set (s2 := show_search_field_default s1) in *.
  set (s3 := trigger_form_field_change no_data (Widget.results_reset_cleanup s2)).
  assert (F3 : config s3 = config s /\ is_multiple s3 = is_multiple s
               /\ form_field s3 = f
               /\ results_data s3 = unselect_all (results_data s)
               /\ search_results s3 = search_results s
               /\ search_choices s3 = search_choices s
               /\ selected_item_html s3 = default_text s
               /\ current_selectedIndex s3 = Dom.selectedIndex f
               /\ result_highlight s3 = result_highlight s
               /\ results_showing s3 = results_showing s
               /\ active_field s3 = active_field s
               /\ triggered s3
                  = (triggered s ++ [input_event no_data; change_event no_data])%list).
  { subst s3. unfold Widget.results_reset_cleanup.
    cbn [config is_multiple form_field results_data search_results search_choices
         selected_item_html current_selectedIndex result_highlight results_showing
         active_field triggered trigger_form_field_change trigger
         set_current_selectedIndex].
    rewrite K1, K2, K3, K4, K5, K6, K7, K9, K10, K11, K13. subst s1. cbn.
    rewrite <- app_assoc. repeat split; reflexivity. }
  destruct F3 as (C3 & M3 & Ff3 & D3 & L3 & Ch3 & Si3 & I3 & R3 & Sh3 & A3 & T3).
  clearbody s3. clear K1 K2 K3 K4 K5 K6 K7 K8 K9 K10 K11 K12 K13. clear s2 s1.
  assert (S3 : sound s3).
  { destruct Hs as [Hpf Hen Hl Hcl Hhl Hmu Hsg]. constructor.
    - rewrite Ff3, D3. exact (parsed_from_reset _ _ _ o0 Hpf ltac:(congruence) Ho0 Hne Hw).
    - rewrite L3, D3. apply (entries_on_fixed _ (results_data s)); [|exact Hen].
      symmetry. apply map_fixed_unselect.
    - rewrite Ch3, D3. apply (links_on_fixed _ (results_data s)); [|exact Hl].
      symmetry. apply map_fixed_unselect.
    - rewrite Ch3. exact Hcl.
    - rewrite R3, L3. exact Hhl.
    - congruence.
    - intros _. rewrite Ch3, I3, Ff3. split; [apply (Hsg Hm) | reflexivity]. }
  set (s' := if active_field s3 then results_hide s3 else s3).
  assert (Hc : calm s3 s').
  { subst s'. destruct (active_field s3); [apply calm_results_hide | apply calm_refl]. }
  pose proof (calm_sound _ _ S3 Hc) as S'.
  pose proof (results_hide_fields s3) as G. cbn zeta in G.
  destruct G as (_ & _ & G3 & G4 & _ & G6 & G7 & _ & _ & G10 & _ & G12).
  exists s'. split; [reflexivity|].
  assert (F' : form_field s' = f /\ results_data s' = unselect_all (results_data s)
               /\ current_selectedIndex s' = Dom.selectedIndex f
               /\ selected_item_html s' = default_text s
               /\ results_showing s' = (if active_field s then false else results_showing s)
               /\ triggered s'
                  = (triggered s ++ [input_event no_data; change_event no_data]
                     ++ (if active_field s && results_showing s
                         then [chosen_hiding_dropdown] else []))%list).
  { subst s'. rewrite A3. destruct (active_field s); cbn [andb].
    - rewrite G3, G4, G6, G7, G10, G12, T3, Sh3, <- app_assoc. auto 10.
    - rewrite app_nil_r. auto 10. }
  destruct F' as (Ff' & D' & I' & Si' & Sh' & T').
  rewrite Ff'. split; [reflexivity|]. split; [exact Hsi|].
  split; [rewrite I'; exact Hsi|]. split; [exact Si'|]. split.
  { intros j c Hc'. rewrite D' in Hc'. unfold unselect_all in Hc'.
    rewrite list_lookup_fmap in Hc'.
    destruct (results_data s !! j) as [c0|]; [|discriminate]. cbn in Hc'.
    inversion Hc'. destruct (selected c0) eqn:E; [reflexivity | exact E]. }
  split; [exact Sh'|]. split; [exact T'|].
  intros l s'' Hrun. exact (snd_data s'' (proj1 (sound_run l s' s'' S' Hrun))).
Qed.

Lemma deselect_control_resets_single_select_witness :
  exists s',
    Widget.results_reset
      (Examples.after Examples.colours Examples.no_options
         [MouseDown None; MouseUp 1 Examples.plain_click]) = Some s'
    /\ Dom.selectedIndex (form_field s') = 0%Z.
Proof.
  destruct (deselect_control_resets_single_select
              (Examples.after Examples.colours Examples.no_options
                 [MouseDown None; MouseUp 1 Examples.plain_click]))
    as (s' & H1 & _ & H2 & _).
  { exists Examples.colours, Examples.no_options,
      [MouseDown None; MouseUp 1 Examples.plain_click].
    vm_compute. reflexivity. }
  { reflexivity. }
  { vm_compute. reflexivity. }
  exists s'. split; [exact H1 | exact H2].
Defined.

(** ** The backspace key *)

Lemma remove_nth_last {A} (l : list A) x :
  last l = Some x -> (remove_nth (length l - 1) l ++ [x])%list = l.
Proof.
  induction l as [|y l IH]; [discriminate|]. intros H.
  destruct l as [|z l].
  - cbn in H. inversion H. reflexivity.
  - change (last (y :: z :: l)) with (last (z :: l)) in H.
    cbn [length]. replace (S (S (length l)) - 1) with (S (length (z :: l) - 1))
      by (cbn; lia).
    cbn [remove_nth app]. f_equal. exact (IH H).
Qed.

Lemma destroy_pending_effect n k ch :
  reachable (Widget.widget k) ->
  search_choices (Widget.widget k) !! n = Some ch ->
  choice_disabled ch = false ->
  exists k2 a b oi,
    Widget.destroy_pending n k = Some k2
    /\ choice_close_index ch = Some a
    /\ results_data (Widget.widget k) !! a = Some b
    /\ options_index b = Some oi
    /\ Dom.write_selected oi false (form_field (Widget.widget k))
       = Some (form_field (Widget.widget k2))
    /\ search_choices (Widget.widget k2)
       = remove_nth n (search_choices (Widget.widget k))
    /\ Widget.pending_backstroke k2 = None.
Proof.
  intros Hr Hn Hdis.
  pose proof (reachable_sound _ Hr) as Hs.
  destruct (snd_closable _ Hs n ch Hn Hdis) as [a Ha].
  destruct (snd_links _ Hs n ch a Hn Ha) as (b & Hb & Hg & _).
  destruct (invariant_choice_destroy n a _ b (reachable_invariant _ Hr) Hb Hg)
    as (w & Hw & _).
  destruct (sound_choice_destroy n a _ w ch Hs Hn Ha Hw)
    as (_ & _ & b' & oi & Hb' & Hoi & Hwr & Hch & _).
  exists (Widget.clear_backstroke (Widget.set_widget w k)), a, b', oi.
  unfold Widget.destroy_pending. rewrite Hn. cbn [mbind option_bind].
  rewrite Ha. cbn [mbind option_bind]. rewrite Hw. cbn. auto 10.
Qed.

(** X8.  With no choice marked, the backspace handler looks at
    the last choice of the list.  A disabled choice is left alone.  One
    that is not disabled is removed, and its option deselected in the
    host control, at once when single backstroke delete is on; when it
    is off the first stroke only marks the choice and leaves the widget
    as it is, and the second stroke removes it.  Either way no choice is
    marked afterwards. *)
Theorem backspace_removes_the_last_choice (k : Widget.keys) (ch : choice) :
  reachable (Widget.widget k) ->
  Widget.pending_backstroke k = None ->
  last (search_choices (Widget.widget k)) = Some ch ->
  (choice_disabled ch = true -> Widget.keydown_backstroke k = Some k)
  /\ (choice_disabled ch = false ->
      (Widget.single_backstroke_delete k = false ->
       exists k1,
         Widget.keydown_backstroke k = Some k1
         /\ Widget.widget k1 = Widget.widget k
         /\ Widget.pending_backstroke k1
            = Some (length (search_choices (Widget.widget k)) - 1))
      /\ exists k2 a b oi,
           (if Widget.single_backstroke_delete k
            then Widget.keydown_backstroke k
            else k1 ← Widget.keydown_backstroke k; Widget.keydown_backstroke k1)
           = Some k2
           /\ choice_close_index ch = Some a
           /\ results_data (Widget.widget k) !! a = Some b
           /\ options_index b = Some oi
           /\ Dom.write_selected oi false (form_field (Widget.widget k))
              = Some (form_field (Widget.widget k2))
           /\ (search_choices (Widget.widget k2) ++ [ch])%list
              = search_choices (Widget.widget k)
           /\ Widget.pending_backstroke k2 = None).
Proof.
  intros Hr Hp Hlast.
  set (n := length (search_choices (Widget.widget k)) - 1).
  assert (Hn : search_choices (Widget.widget k) !! n = Some ch).
  { rewrite last_lookup in Hlast. subst n.
    replace (length (search_choices (Widget.widget k)) - 1)
      with (pred (length (search_choices (Widget.widget k)))) by lia.
    exact Hlast. }
  split.
  - intros Hd. unfold Widget.keydown_backstroke. now rewrite Hp, Hlast, Hd.
  - intros Hd.
    set (k' := Widget.mkKeys (Widget.widget k) (Widget.single_backstroke_delete k)
                 (Some n) (Widget.backstroke_length k)).
    assert (E1 : Widget.keydown_backstroke k
                 = if Widget.single_backstroke_delete k
                   then Widget.destroy_pending n k' else Some k').
    { unfold Widget.keydown_backstroke. rewrite Hp, Hlast, Hd. reflexivity. }
    assert (E2 : Widget.keydown_backstroke k' = Widget.destroy_pending n k').
    { reflexivity. }
    destruct (destroy_pending_effect n k' ch Hr Hn Hd)
      as (k2 & a & b & oi & H1 & H2 & H3 & H4 & H5 & H6 & H7).
    split.
    + intros Hsb. exists k'. rewrite E1, Hsb. auto.
    + exists k2, a, b, oi. split.
      * rewrite E1. destruct (Widget.single_backstroke_delete k); [exact H1|].
        cbn [mbind option_bind]. rewrite E2. exact H1.
      * split; [exact H2|]. split; [exact H3|]. split; [exact H4|].
        split; [exact H5|]. split; [|exact H7].
        rewrite H6. exact (remove_nth_last _ _ Hlast).
Qed.

Lemma backspace_removes_the_last_choice_witness :
  let k := Widget.mkKeys
             (Examples.after (Examples.countries true) Examples.no_options [])
             true None 0 in
  exists k2,
    (if Widget.single_backstroke_delete k
     then Widget.keydown_backstroke k
     else k1 ← Widget.keydown_backstroke k; Widget.keydown_backstroke k1) = Some k2
    /\ Widget.pending_backstroke k2 = None.
Proof.
  intros k.
  destruct (backspace_removes_the_last_choice k
              (mkChoice "<span>Chile</span>" false (Some 0)))
    as [_ H].
  { exists (Examples.countries true), Examples.no_options, []. vm_compute. reflexivity. }
  { reflexivity. }
  { vm_compute. reflexivity. }
  destruct (H eq_refl) as (_ & k2 & a & b & oi & H1 & _ & _ & _ & _ & _ & H2).
  exists k2. split; [exact H1 | exact H2].
Defined.
